(* ===== verification/_CoqProject ===== *)
-Q . S2P
Prelude.v
Mmu.v
Kstate.v
Pages.v
Pgtable.v
PgtableInv.v
PgtableMap.v
PgtableBoot.v
Env.v
EnvInv.v
Sched.v
Devices.v
Syscall.v
SyscallInv.v
SyscallEnv.v
Trap.v
Spinlock.v
Strings.v
Printfmt.v
Words.v
Fs.v
FsInv.v
FsRw.v
Flash.v
Cfi.v
Bc.v
Pipe.v
Serv.v
Fork.v
Fd.v
File.v
Inet.v
Chksum.v
Lwmem.v
Sysarch.v
Pbuf.v
Malloc.v
Spawn.v
Load.v
Args.v
