(* ===== verification/Prelude.v ===== *)
(** * ZynexOS: a verification library for the RISC-V kernel and its user-level runtime

    ZynexOS is a teaching kernel (JOS) on a 64-bit RISC-V machine, with a file
    server and a small C library in user space.  This library models it part by
    part and proves what the parts promise.

    ** The program

    The kernel (kern/riscv) owns the physical pages, builds the page tables of the
    environments, runs the environments round-robin and serves traps and system
    calls under one big lock.  Environments talk by messages that may carry a page.
    The file server (fs) is an environment: it sees the disk as memory at [DISKMAP],
    brought in block by block by its page-fault handler from a NOR flash, keeps a
    block bitmap, files and directories in it, and answers requests of other
    environments.  The library (lib/riscv) gives programs strings, formatted output,
    pipes and files.  The network server (net) runs the lwIP stack on threads of its
    own.

    ** How code is modelled

    A C function is a function of the same name in the monad [M S] of this file:
    from a state [S] it returns a value, leaves its caller for good, panics, or has
    no defined behaviour.  Integers are [Z] with the wrap-around of their width
    ([u32], [i32], [u64]) written where it can matter; bit fields use [Z.land] and
    [Z.testbit].  A loop is a recursive function whose fuel is computed from its
    arguments; the theorems show that it is enough, or the loop ends in [NoRet] or
    an explicit "no fuel" result which they exclude.

    - [Mmu]: inc/riscv/types.h, mmu.h, memlayout.h, error.h: addresses, entries,
      layout, error codes.
    - [Kstate]: [struct PageInfo], [Trapframe], [Env] and the kernel's globals, one
      record [kstate]; memory is a map from physical addresses to 64-bit words.
    - [Pages]: the page allocator of kern/riscv/pmap.c.
    - [Pgtable], [PgtableInv], [PgtableMap], [PgtableBoot]: the page tables of
      kern/riscv/pmap.c, the invariant that they form a tree, mapping and
      unmapping, boot mappings and the check of user pointers.
    - [Env], [EnvInv]: kern/riscv/env.c.  [Sched]: kern/riscv/sched.c.
    - [Devices]: time.c, the ring of console.c, the descriptor rings of e1000.c.
    - [Syscall], [SyscallInv], [SyscallEnv]: kern/riscv/syscall.c.
    - [Trap]: kern/riscv/trap.c.  [Spinlock]: kern/riscv/spinlock.c, as a step
      relation of several processors.
    - [Strings]: lib/riscv/string.c on a memory of bytes.  [Words]: 32-bit words in
      that memory.
    - [Printfmt]: lib/riscv/printfmt.c, printf.c, fprintf.c, readline.c and
      kern/riscv/printf.c.
    - [Fs], [FsInv], [FsRw]: fs/fs.c on the view of the disk in memory.
    - [Flash], [Cfi], [Bc]: the interface of the flash, the driver fs/cfi_flash.c
      that implements it over an abstract chip, and the block cache fs/bc.c that
      uses it and gives [Fs] its view.
    - [Serv]: fs/serv.c on top of [Fs].
    - [Pipe]: lib/riscv/pipe.c, reader and writer interleaved.
    - [Fork]: lib/riscv/fork.c and pgfault.c, on address spaces over frames.
    - [Fd]: lib/riscv/fd.c, the console device of console.c, the set-up of pipes.
    - [File]: lib/riscv/file.c on [Fd], together with the server of [Serv].
    - [Spawn], [Load]: lib/riscv/spawn.c on [Fork] and [Fd], and with the file
      device of [File].  [Args]: lib/riscv/args.c.  [Malloc]: lib/riscv/malloc.c.
    - [Inet], [Chksum]: addresses and checksums of lwIP, net/lwip/core/ipv4/inet.c
      and inet_chksum.c.  [Lwmem]: its heap, core/mem.c, on the bytes of the heap as
      net/lwip/jos/lwipopts.h configures it.  [Pbuf]: its packet buffers,
      core/pbuf.c; a buffer is a record in a map from pointers.  [Sysarch]: its
      semaphores and mailboxes, net/lwip/jos/arch/sys_arch.c, with the wait and
      wake-up of thread.c, as a step relation of any number of threads.

    ** What the theorems show

    - Pages: the free list refines a stack of page numbers, [page_init] puts exactly
      the unused pages on it, [page_alloc] zeroes what it should.
    - Page tables: [page_insert], [page_remove] and [boot_map_region] change exactly
      the entries they should, keep the reference counts, and leave every other
      address space alone.
    - Environments and scheduling: [env_init], [env_alloc], [envid2env] and the ids;
      [sched_yield] is round-robin and starves nobody while no environment exits; [trap] never returns.
    - System calls: who may touch whom, [sys_page_alloc], [sys_exofork], the
      rendezvous of the message calls; page faults reach the user's handler.
    - [fork]: parent and child have private copies whatever they write, while the
      kernel has pages.
    - Lock and pipe: safety and progress in every interleaving.
    - Library: [memmove], [strlcpy], termination and bounds of formatted output, and
      that [strtol] reads back what is printed.
    - File system: the block allocator and the block map keep the disk well-formed;
      [file_write] does what it says and [file_read] gives it back; the flash driver,
      which never erases, stores what it is given on a chip like that of QEMU, which
      overwrites and shows the array after the status is cleared; the page-fault driven cache is invisible; a write
      request reaches the file it names.
    - Descriptors: the table implements references to open files; a client reads
      back what it wrote, through every layer down to the blocks.
    - Programs: [init_stack] hands the argument vector over, [map_segment] brings the
      blocks of a file on the disk into the child's memory, [argnext] reads a command
      line as its header file defines it, [malloc] and [free] give out disjoint
      chunks.
    - Network: the three versions of the Internet checksum agree with the one's
      complement sum, over any chain of buffers; addresses survive printing; the
      heap implements a map of chunks, stays well-formed and never panics on a user
      that keeps to what it was given; packet buffers are allocated all or nothing,
      cut, copied, put together and taken apart without losing a byte or a reference;
      mailboxes are bounded queues in every interleaving and lose no wake-up.
    - Where the code falls short of its comments a theorem states what it does
      instead ([page_free_twice], [user_mem_check_first_page],
      [disk_full_poisons_pointer], [serve_read_error_moves_seek], [malloc_overlap],
      [spawn_stack_error], [pbuf_dechain_wraps] and others).

    ** Bounds

    Loops over an array or a bitmap take the length as fuel.  [printnum] takes 64
    rounds, enough for 64-bit numbers; [vprintfmt] one round per character of the
    format.  [rw_loop] takes a round per byte.  The nested page faults of the block
    cache go two deep: the block, then the bitmap block.  The theorems on files
    assume offsets within [MAXFILESIZE] and the disk; the one on pipes fewer than
    2^31 bytes, where the position counters overflow.  The loops of the lwIP heap
    take one round per block that fits into it ([BLOCKS]), those over packet buffers
    one per buffer there is.  Chains have fewer than 2^16 bytes, the width of their
    length fields, and a thread waits less than 2^32 - 1 ms at a mailbox.

    ** Parameters

    What the code gets from outside is an argument or a class: the characters of
    the console, the descriptors the network card leaves, the reads of machine
    registers ([Hart] in [Env]), the flash chip ([Chip], [ChipSpec] in [Cfi],
    with the flash of QEMU as instance), the
    results of [write] below [fprintf], the answers of [_pipeisclosed], which of the
    free frames a page allocation of [Fork] takes ([pick]), the elements that the
    pools of lwIP give out ([BufMem] in [Pbuf]).  How many pages the kernel has left
    is part of the state in [Fork] and [Malloc], page tables included: an allocation
    without a page is undefined, as [sys_page_alloc] works on a null page then, and
    one without a page for a table gives [-E_NO_MEM].

    ** Not modelled

    Assembly entry code, firmware calls, PCI enumeration and start-up sequencing;
    the kernel monitor; diagnostic output; the self test of the block cache;
    the message wrappers of ipc.c, loops around two modelled calls; sockets and the
    message loops of the network server; the protocols of lwIP above its buffers
    (TCP, UDP, IP, ARP, DHCP), its pools of fixed elements and the creation of its
    threads; the image builder fsformat.c, a program of the host; the user programs;
    the i386 sources kept in the tree. *)

From stdpp Require Export gmap list.

#[export] Set Default Goal Selector "!".
#[global] Open Scope Z_scope.

(** ** Outcomes of C code

    A C function that works on a state [S] either returns a value, leaves its
    caller for good ([env_run], [sched_halt]), stops the machine ([panic], a
    failed [assert]), or has no defined behaviour (null or out-of-range
    pointer dereference). *)

Inductive outcome (S A : Type) : Type :=
| Ret (a : A) (s : S)
| NoRet (s : S)
| Panic (s : S)
| Undef.
Arguments Ret {_ _} _ _.
Arguments NoRet {_ _} _.
Arguments Panic {_ _} _.
Arguments Undef {_ _}.

Definition M (S A : Type) : Type := S → outcome S A.

Definition ret {S A} (a : A) : M S A := λ s, Ret a s.
Definition panic {S A} : M S A := λ s, Panic s.
Definition undef {S A} : M S A := λ _, Undef.
Definition noret {S A} : M S A := λ s, NoRet s.
Definition gets {S A} (f : S → A) : M S A := λ s, Ret (f s) s.
Definition modify {S} (f : S → S) : M S unit := λ s, Ret tt (f s).

Definition bind {S A B} (m : M S A) (f : A → M S B) : M S B := λ s,
  match m s with
  | Ret a s' => f a s'
  | NoRet s' => NoRet s'
  | Panic s' => Panic s'
  | Undef => Undef
  end.

Declare Scope c_scope.
Delimit Scope c_scope with c.
Notation "x <- m ;; k" := (bind m (λ x, k))
  (at level 100, m at next level, right associativity) : c_scope.
Notation "m ;;; k" := (bind m (λ _, k))
  (at level 100, right associativity) : c_scope.
#[global] Open Scope c_scope.

(** The state a run ends in, for concrete runs. *)
Definition end_state {S A} (o : outcome S A) (default : S) : S :=
  match o with Ret _ s | NoRet s | Panic s => s | Undef => default end.

(** [assert(b)] of inc/assert.h panics when the condition is false. *)
Definition assert_ {S} (b : bool) : M S unit := if b then ret tt else panic.

(** Reading through a pointer that may be null. *)
Definition deref {S A} (o : option A) : M S A :=
  match o with Some a => ret a | None => undef end.

(** [for (i = lo; n more times; i++) body(i)]. *)
Fixpoint for_loop {S} (n : nat) (i : Z) (body : Z → M S unit) : M S unit :=
  match n with
  | O => ret tt
  | Datatypes.S n' => body i ;;; for_loop n' (i + 1) body
  end.

Section outcome_lemmas.
Context {S A B : Type}.
Implicit Types (m : M S A) (f : A → M S B) (s : S).

Lemma bind_Ret m f s b s' :
  bind m f s = Ret b s' ↔ ∃ a s1, m s = Ret a s1 ∧ f a s1 = Ret b s'.
Proof.
  unfold bind. split.
  - destruct (m s); naive_solver.
  - intros (a & s1 & -> & Hf). done.
Qed.

Lemma bind_Ret_l m f s a s1 : m s = Ret a s1 → bind m f s = f a s1.
Proof. unfold bind. by intros ->. Qed.

Lemma bind_NoRet m f s s' :
  bind m f s = NoRet s' ↔
  m s = NoRet s' ∨ ∃ a s1, m s = Ret a s1 ∧ f a s1 = NoRet s'.
Proof. unfold bind. destruct (m s); naive_solver. Qed.

Lemma bind_assoc {C} m f (g : B → M S C) s :
  bind (bind m f) g s = bind m (λ a, bind (f a) g) s.
Proof. unfold bind. by destruct (m s). Qed.

Lemma assert_Ret b s (u : unit) s' : assert_ b s = Ret u s' ↔ b = true ∧ s' = s.
Proof. destruct b, u; unfold assert_, ret, panic; naive_solver. Qed.

Lemma deref_Ret (o : option A) s a s' :
  deref o s = Ret a s' ↔ o = Some a ∧ s' = s.
Proof. destruct o; unfold deref, ret, undef; naive_solver. Qed.
End outcome_lemmas.

(** A loop that keeps an invariant returns, and keeps it to the end. *)
Lemma for_loop_inv {S} (P : Z → S → Prop) (n : nat) (i : Z) (body : Z → M S unit) s :
  P i s →
  (∀ j s, i ≤ j < i + Z.of_nat n → P j s → ∃ s', body j s = Ret tt s' ∧ P (j + 1) s') →
  ∃ s', for_loop n i body s = Ret tt s' ∧ P (i + Z.of_nat n) s'.
Proof.
  revert i s. induction n as [|n IH]; intros i s HP Hb; simpl.
  - exists s. rewrite Z.add_0_r. done.
  - destruct (Hb i s ltac:(lia) HP) as (s1 & E1 & HP1).
    destruct (IH (i + 1) s1 HP1) as (s2 & E2 & HP2).
    { intros j s0 Hj. apply Hb. lia. }
    exists s2. split; [by rewrite (bind_Ret_l _ _ _ _ _ E1)|].
    by replace (i + Z.of_nat (Datatypes.S n)) with (i + 1 + Z.of_nat n) by lia.
Qed.

(** Splits a hypothesis [m s = Ret a s'] along the binds of [m]. *)
Ltac inv_ret_step H :=
  lazymatch type of H with
  | bind _ _ _ = Ret _ _ =>
      let a := fresh "a" in let s := fresh "s" in
      let H1 := fresh "Hm" in let H2 := fresh "Hk" in
      apply bind_Ret in H; destruct H as (a & s & H1 & H2);
      inv_ret_step H1; inv_ret_step H2
  | assert_ _ _ = Ret _ _ => apply assert_Ret in H; destruct H as [? ->]
  | deref _ _ = Ret _ _ => apply deref_Ret in H; destruct H as [? ->]
  | gets _ _ = Ret _ _ => unfold gets in H; simplify_eq
  | modify _ _ = Ret _ _ => unfold modify in H; simplify_eq
  | ret _ _ = Ret _ _ => unfold ret in H; simplify_eq
  | panic _ = Ret _ _ => discriminate H
  | undef _ = Ret _ _ => discriminate H
  | noret _ = Ret _ _ => discriminate H
  | _ => idtac
  end.
Ltac inv_ret H := inv_ret_step H.

(** Runs the first command of a bind in the goal: with a known result, or when
    it is a read of the state, a return or an update. *)
Ltac step_with E := rewrite (bind_Ret_l _ _ _ _ _ E); cbv beta iota.
Ltac step_pure :=
  first
    [ rewrite (bind_Ret_l (gets _) _ _ _ _ eq_refl)
    | rewrite (bind_Ret_l (ret _) _ _ _ _ eq_refl)
    | rewrite (bind_Ret_l (modify _) _ _ _ _ eq_refl) ]; cbv beta iota.

(** Splits the integer comparisons in the goal. *)
Ltac zcases :=
  repeat match goal with
  | |- context [?a <? ?b] => destruct (Z.ltb_spec a b)
  | |- context [?a <=? ?b] => destruct (Z.leb_spec a b)
  | |- context [?a =? ?b] => destruct (Z.eqb_spec a b)
  end.

(** ** Machine integers *)

Definition u8 (x : Z) : Z := x mod 2 ^ 8.
Definition u16 (x : Z) : Z := x mod 2 ^ 16.
Definition u32 (x : Z) : Z := x mod 2 ^ 32.
Definition u64 (x : Z) : Z := x mod 2 ^ 64.

(** The value of the low 32 bits of [x] read as an [int]. *)
Definition i32 (x : Z) : Z :=
  let y := x mod 2 ^ 32 in if y <? 2 ^ 31 then y else y - 2 ^ 32.

Definition is_u64 (x : Z) : Prop := 0 ≤ x < 2 ^ 64.

Lemma u64_small x : is_u64 x → u64 x = x.
Proof. intros H. by apply Z.mod_small. Qed.
Lemma u64_is_u64 x : is_u64 (u64 x).
Proof. unfold u64, is_u64. apply Z.mod_pos_bound. lia. Qed.
Lemma u32_small x : 0 ≤ x < 2 ^ 32 → u32 x = x.
Proof. intros H. by apply Z.mod_small. Qed.
Lemma u16_small x : 0 ≤ x < 2 ^ 16 → u16 x = x.
Proof. intros H. by apply Z.mod_small. Qed.
Lemma u16_bound x : 0 ≤ u16 x < 2 ^ 16.
Proof. unfold u16. apply Z.mod_pos_bound. lia. Qed.
Lemma i32_small x : - 2 ^ 31 ≤ x < 2 ^ 31 → i32 x = x.
Proof.
  intros H. unfold i32. destruct (decide (0 ≤ x)).
  - rewrite (Z.mod_small x) by lia. case_match; lia.
  - replace (x mod 2 ^ 32) with (x + 2 ^ 32).
    2:{ apply Z.mod_unique with (-1); lia. }
    case_match; lia.
Qed.
Lemma i32_bound x : - 2 ^ 31 ≤ i32 x < 2 ^ 31.
Proof.
  unfold i32. pose proof (Z.mod_pos_bound x (2 ^ 32)).
  case_match; lia.
Qed.

(** Bit fields: the part of a word below bit [n] and the part above it. *)

Lemma lor_shiftl_add a b n :
  0 ≤ n → 0 ≤ b < 2 ^ n → Z.lor (Z.shiftl a n) b = a * 2 ^ n + b.
Proof.
  intros Hn Hb. rewrite Z.shiftl_mul_pow2 by done.
  rewrite Z.add_nocarry_lxor, Z.lxor_lor; try done.
  all: apply Z.bits_inj'; intros i Hi; rewrite Z.land_spec, Z.bits_0.
  all: destruct (decide (i < n)).
  1,3: rewrite Z.mul_pow2_bits_low by lia; done.
  all: rewrite <-(Z.mod_small b (2 ^ n)) by lia;
       rewrite Z.mod_pow2_bits_high by lia; apply andb_false_r.
Qed.

Lemma shiftr_add_low a b n :
  0 ≤ n → 0 ≤ b < 2 ^ n → Z.shiftr (a * 2 ^ n + b) n = a.
Proof.
  intros Hn Hb. rewrite Z.shiftr_div_pow2 by done.
  rewrite Z.div_add_l by lia. rewrite Z.div_small by done. lia.
Qed.

Lemma land_ones_mod a n : 0 ≤ n → Z.land a (2 ^ n - 1) = a mod 2 ^ n.
Proof. intros. rewrite <-Z.land_ones by done. by rewrite Z.ones_equiv. Qed.

Lemma lor_bound a b n :
  0 ≤ n → 0 ≤ a < 2 ^ n → 0 ≤ b < 2 ^ n → 0 ≤ Z.lor a b < 2 ^ n.
Proof.
  intros Hn Ha Hb. split; [apply Z.lor_nonneg; lia|].
  rewrite <-(Z.mod_small a (2 ^ n)), <-(Z.mod_small b (2 ^ n)) by done.
  rewrite <-!Z.land_ones, <-Z.land_lor_distr_l, Z.land_ones by done.
  apply Z.mod_pos_bound. lia.
Qed.

Lemma land_pow2_testbit a i : 0 ≤ i → (Z.land a (2 ^ i) = 0) ↔ Z.testbit a i = false.
Proof.
  intros Hi. split.
  - intros H. apply (f_equal (λ x, Z.testbit x i)) in H.
    rewrite Z.land_spec, Z.pow2_bits_true, Z.bits_0 in H by done.
    by rewrite andb_true_r in H.
  - intros H. apply Z.bits_inj'. intros j Hj.
    rewrite Z.land_spec, Z.bits_0.
    destruct (decide (i = j)) as [->|Hij]; [by rewrite H|].
    rewrite Z.pow2_bits_false by done. apply andb_false_r.
Qed.

(** ** Lists used as arrays *)

Definition zlookup {A} (l : list A) (i : Z) : option A :=
  if i <? 0 then None else l !! Z.to_nat i.

(** ** Linked lists threaded through arrays *)

(** [chain next arr h l]: following [next] from the index [h] visits exactly [l]. *)
Fixpoint chain {A} (next : A → option nat) (arr : list A) (h : option nat) (l : list nat) : Prop :=
  match l with
  | [] => h = None
  | i :: l' => h = Some i ∧ ∃ p, arr !! i = Some p ∧ chain next arr (next p) l'
  end.

Section chain_lemmas.
Context {A : Type} {next : A → option nat}.
Implicit Types (pg : list A) (h : option nat) (l : list nat) (p q : A).
#[local] Notation chain := (chain next).

Lemma chain_insert_notin pg h l i p :
  i ∉ l → chain pg h l → chain (<[i := p]> pg) h l.
Proof.
  revert h. induction l as [|j l IH]; intros h Hni; simpl; [done|].
  intros (-> & q & Hq & Hc). apply not_elem_of_cons in Hni as [Hij Hni].
  split; [done|]. exists q. rewrite list_lookup_insert_ne by done. auto.
Qed.

Lemma chain_lookup pg h l i : chain pg h l → i ∈ l → is_Some (pg !! i).
Proof.
  revert h. induction l as [|j l IH]; intros h; simpl; [by intros ? ?%elem_of_nil|].
  intros (-> & q & Hq & Hc) [->|Hi]%elem_of_cons; eauto.
Qed.

Lemma chain_inj pg h l l' : chain pg h l → chain pg h l' → l = l'.
Proof.
  revert h l'. induction l as [|j l IH]; intros h [|j' l']; simpl.
  - done.
  - naive_solver.
  - naive_solver.
  - intros (-> & q & Hq & Hc) (Heq & q' & Hq' & Hc'). simplify_eq.
    f_equal. eauto.
Qed.

(** The link of a free page that is not the last one is not null. *)
Lemma chain_link_inner pg h l i p :
  chain pg h l → i ∈ l → last l ≠ Some i → NoDup l → pg !! i = Some p →
  is_Some (next p).
Proof.
  revert h. induction l as [|j l IH]; intros h; simpl; [by intros ? ?%elem_of_nil|].
  intros (-> & q & Hq & Hc) Hin Hlast [Hnj Hnd]%NoDup_cons Hp.
  apply elem_of_cons in Hin as [->|Hin].
  - simplify_eq. destruct l as [|j' l]; [done|]. destruct Hc as (-> & _). eauto.
  - eapply IH; eauto. destruct l; [by apply elem_of_nil in Hin|].
    by rewrite last_cons_cons in Hlast.
Qed.

Lemma chain_link_last pg h l i p :
  chain pg h l → last l = Some i → pg !! i = Some p → next p = None.
Proof.
  revert h. induction l as [|j l IH]; intros h; simpl; [done|].
  intros (-> & q & Hq & Hc) Hlast Hp. destruct l as [|j' l].
  - simpl in *. by simplify_eq.
  - rewrite last_cons_cons in Hlast. eauto.
Qed.

Lemma chain_link_in pg h l i p j :
  chain pg h l → i ∈ l → pg !! i = Some p → next p = Some j → j ∈ l.
Proof.
  revert h. induction l as [|k l IH]; intros h; simpl; [by intros ? ?%elem_of_nil|].
  intros (-> & q & Hq & Hc) [->|Hin]%elem_of_cons Hp Hj.
  - simplify_eq. rewrite Hj in Hc. destruct l as [|k' l]; simpl in Hc; [done|].
    destruct Hc as ([= <-] & _). set_solver.
  - right. eauto.
Qed.

(** No list is traced from a node of a set closed under links. *)
Lemma chain_cycle pg (C : nat → Prop) h l :
  (∀ i p, C i → pg !! i = Some p → ∃ j, next p = Some j ∧ C j) →
  (∃ i, h = Some i ∧ C i) → ¬ chain pg h l.
Proof.
  intros Hclosed. revert h. induction l as [|j l IH]; intros h (i & -> & Hi); simpl.
  - done.
  - intros (Heq & p & Hp & Hc). injection Heq as <-.
    apply (IH (next p)); [|done]. destruct (Hclosed i p Hi Hp) as (k & ? & ?). eauto.
Qed.

(** A list is traced in any array with the same links. *)
Lemma chain_same pg pg' h l :
  (∀ i p, pg !! i = Some p → ∃ p', pg' !! i = Some p' ∧ next p' = next p) →
  chain pg h l → chain pg' h l.
Proof.
  intros Hs. revert h. induction l as [|i l IH]; intros h; simpl; [done|].
  intros (-> & p & Hp & Hc). split; [done|]. destruct (Hs i p Hp) as (p' & Hp' & E).
  exists p'. split; [done|]. rewrite E. auto.
Qed.
End chain_lemmas.

Create HintDb zynex.
#[export] Hint Resolve u64_is_u64 : zynex.
