(* ===== verification/Mmu.v ===== *)
(** * Addresses, page-table entries and the memory layout

    Models the macros of inc/riscv/types.h, inc/riscv/mmu.h and
    inc/riscv/memlayout.h, the error codes of inc/riscv/error.h and the address
    conversions of kern/riscv/pmap.h, on 64-bit words with their wrap-around. *)

From S2P Require Import Prelude.

(** ** inc/riscv/error.h *)

Definition E_UNSPECIFIED : Z := 1.
Definition E_BAD_ENV : Z := 2.
Definition E_INVAL : Z := 3.
Definition E_NO_MEM : Z := 4.
Definition E_NO_FREE_ENV : Z := 5.
Definition E_FAULT : Z := 6.
Definition E_IPC_NOT_RECV : Z := 7.
Definition E_EOF : Z := 8.
Definition E_NO_DISK : Z := 9.
Definition E_MAX_OPEN : Z := 10.
Definition E_NOT_FOUND : Z := 11.
Definition E_BAD_PATH : Z := 12.
Definition E_FILE_EXISTS : Z := 13.
Definition E_NOT_EXEC : Z := 14.
Definition E_NOT_SUPP : Z := 15.
Definition E_WAIT : Z := 16.

(** ** inc/riscv/types.h: rounding on [uint64_t] *)

Definition ROUNDDOWN (a n : Z) : Z := u64 a - u64 a mod n.
Definition ROUNDUP (a n : Z) : Z := ROUNDDOWN (u64 (u64 a + u64 n - 1)) (u64 n).

(** ** inc/riscv/mmu.h *)

Definition NPDENTRIES : Z := 512.
Definition NPTENTRIES : Z := 512.
Definition PGSIZE : Z := 4096.
Definition PGSHIFT : Z := 12.
Definition PTSIZE : Z := PGSIZE * NPTENTRIES.
Definition PTXSHIFT : Z := 12.
Definition PDX2SHIFT : Z := 21.
Definition PDX1SHIFT : Z := 30.
Definition PDX0SHIFT : Z := 39.
Definition PHYMASK : Z := 0x7fffffff.
Definition VADDRMASK : Z := 0xffffffffffff.

Definition PGNUM (la : Z) : Z := Z.shiftr (Z.land la PHYMASK) PTXSHIFT.
Definition TPGNUM (la : Z) : Z := Z.shiftr (Z.land la VADDRMASK) PTXSHIFT.
Definition PD0X (la : Z) : Z := Z.land (Z.shiftr la PDX0SHIFT) 0x1FF.
Definition PD1X (la : Z) : Z := Z.land (Z.shiftr la PDX1SHIFT) 0x1FF.
Definition PD2X (la : Z) : Z := Z.land (Z.shiftr la PDX2SHIFT) 0x1FF.
Definition PTX (la : Z) : Z := Z.land (Z.shiftr la PTXSHIFT) 0x1FF.
Definition PGOFF (la : Z) : Z := Z.land la 0xFFF.

Definition PGADDR (d0 d1 d2 t o : Z) : Z :=
  Z.lor (Z.lor (Z.lor (Z.lor (u64 (Z.shiftl d0 PDX0SHIFT))
    (u64 (Z.shiftl d1 PDX1SHIFT))) (u64 (Z.shiftl d2 PDX2SHIFT)))
    (u64 (Z.shiftl t PTXSHIFT))) o.

Definition PTE_V : Z := 0x001.
Definition PTE_R : Z := 0x002.
Definition PTE_W : Z := 0x004.
Definition PTE_X : Z := 0x008.
Definition PTE_U : Z := 0x010.
Definition PTE_G : Z := 0x020.
Definition PTE_A : Z := 0x040.
Definition PTE_D : Z := 0x080.
Definition PTE_AVAIL : Z := 0x300.
Definition PTE_SYSCALL : Z :=
  Z.lor PTE_AVAIL (Z.lor PTE_X (Z.lor PTE_V (Z.lor PTE_W (Z.lor PTE_R PTE_U)))).

(** ** inc/riscv/memlayout.h *)

Definition KERNBASE : Z := 0xFFFFFFFF00000000.
Definition PHYMEMOFF : Z := 0x80000000.
Definition EXTPHYSMEM : Z := 0x80200000 - PHYMEMOFF.
Definition KSTACKTOP : Z := KERNBASE.
Definition KSTKSIZE : Z := 8 * PGSIZE.
Definition KSTKGAP : Z := 8 * PGSIZE.
Definition MMIOLIM : Z := 0xffffff7ff0000000.
Definition MMIOBASE : Z := 0xfffffefff0000000.
Definition ULIM : Z := MMIOBASE.
Definition UVPT : Z := 0xffff800000000000.
Definition UPAGES : Z := 0xfffffdfff0000000.
Definition UENVS : Z := 0xfffffd7ff0000000.
Definition UTOP : Z := UENVS.
Definition UXSTACKTOP : Z := 0xfffffbfff0000000.
Definition USTACKTOP : Z := 0xfffffcfff0000000.
Definition UTEXT : Z := 4 * PTSIZE.
Definition UTEMP : Z := 2 * PTSIZE.
Definition PFTEMP : Z := UTEMP + PTSIZE - PGSIZE.
Definition MPENTRY_PADDR : Z := 0x80100000.
Definition FLASH_MAP_ADDR : Z := 0xfffff00000000000.
Definition PCIE_MAP_ECAM_SIZE : Z := 0x10000000.
Definition PCIE_MAP_ECAM_ADDR : Z := 0xfffff00030000000.

(** ** kern/riscv/pmap.h *)

Definition SIZE_2M : Z := 0x200000.
Definition PDE_ENTRY (pa : Z) : Z := u64 (Z.shiftl (Z.shiftr pa 12) 10).
Definition PTE_ENTRY (pa : Z) : Z := u64 (Z.shiftl (Z.shiftr pa 12) 10).
Definition PDE_PHY (va : Z) : Z := u64 (Z.shiftl (Z.shiftr va 10) 12).
Definition PTE_PHY (va : Z) : Z := u64 (Z.shiftl (Z.shiftr va 10) 12).

(** [PTE_ADDR] and [PDE_ADDR] of mmu.h mask the flag and reserved bits first. *)
Definition PTE_ADDR (pte : Z) : Z :=
  PTE_PHY (Z.land pte (u64 (Z.lnot 0xff800000000003FF))).

(** [page2pa] on the index [pp - pages]. *)
Definition page2pa (pp : nat) : Z :=
  u64 (u64 (Z.shiftl (Z.of_nat pp) PGSHIFT) + PHYMEMOFF).

(** ** Index arithmetic *)

Lemma u64_mod x : u64 x mod 2 ^ 64 = u64 x.
Proof. unfold u64. by rewrite Z.mod_mod. Qed.

Lemma PD0X_spec va : PD0X va = (va / 2 ^ 39) mod 512.
Proof.
  unfold PD0X, PDX0SHIFT. rewrite Z.shiftr_div_pow2 by lia.
  apply (land_ones_mod _ 9). lia.
Qed.
Lemma PD1X_spec va : PD1X va = (va / 2 ^ 30) mod 512.
Proof.
  unfold PD1X, PDX1SHIFT. rewrite Z.shiftr_div_pow2 by lia.
  apply (land_ones_mod _ 9). lia.
Qed.
Lemma PD2X_spec va : PD2X va = (va / 2 ^ 21) mod 512.
Proof.
  unfold PD2X, PDX2SHIFT. rewrite Z.shiftr_div_pow2 by lia.
  apply (land_ones_mod _ 9). lia.
Qed.
Lemma PTX_spec va : PTX va = (va / 2 ^ 12) mod 512.
Proof.
  unfold PTX, PTXSHIFT. rewrite Z.shiftr_div_pow2 by lia.
  apply (land_ones_mod _ 9). lia.
Qed.
Lemma PGOFF_spec va : PGOFF va = va mod 4096.
Proof. apply (land_ones_mod _ 12). lia. Qed.
Lemma PGNUM_spec pa : PGNUM pa = (pa mod 2 ^ 31) / 4096.
Proof.
  unfold PGNUM, PHYMASK, PTXSHIFT. rewrite Z.shiftr_div_pow2 by lia.
  f_equal. apply (land_ones_mod _ 31). lia.
Qed.

Lemma PGADDR_spec d0 d1 d2 t o :
  0 ≤ d0 < 512 → 0 ≤ d1 < 512 → 0 ≤ d2 < 512 → 0 ≤ t < 512 → 0 ≤ o < 4096 →
  PGADDR d0 d1 d2 t o =
    (((d0 * 512 + d1) * 512 + d2) * 512 + t) * 4096 + o.
Proof.
  intros H0 H1 H2 H3 Ho.
  unfold PGADDR, PDX0SHIFT, PDX1SHIFT, PDX2SHIFT, PTXSHIFT.
  rewrite !u64_small by
    (unfold is_u64; rewrite Z.shiftl_mul_pow2 by lia; lia).
  replace (Z.shiftl d0 39) with (Z.shiftl (Z.shiftl d0 9) 30)
    by (rewrite Z.shiftl_shiftl by lia; done).
  rewrite <-Z.shiftl_lor, (lor_shiftl_add d0 d1 9) by lia.
  replace (Z.shiftl (d0 * 2 ^ 9 + d1) 30)
    with (Z.shiftl (Z.shiftl (d0 * 2 ^ 9 + d1) 9) 21)
    by (rewrite Z.shiftl_shiftl by lia; done).
  rewrite <-Z.shiftl_lor, (lor_shiftl_add _ d2 9) by lia.
  set (x := (d0 * 2 ^ 9 + d1) * 2 ^ 9 + d2).
  replace (Z.shiftl x 21) with (Z.shiftl (Z.shiftl x 9) 12)
    by (rewrite Z.shiftl_shiftl by lia; done).
  rewrite <-Z.shiftl_lor, (lor_shiftl_add x t 9) by lia.
  rewrite (lor_shiftl_add _ o 12) by lia. unfold x. lia.
Qed.

(** The four table indices and the offset of a 48-bit address determine it. *)
Lemma index_decompose va :
  0 ≤ va < 2 ^ 48 →
  va = (((PD0X va * 512 + PD1X va) * 512 + PD2X va) * 512 + PTX va) * 4096
       + PGOFF va.
Proof.
  intros H. rewrite PD0X_spec, PD1X_spec, PD2X_spec, PTX_spec, PGOFF_spec.
  replace (2 ^ 39) with (4096 * 512 * 512 * 512) by done.
  replace (2 ^ 30) with (4096 * 512 * 512) by done.
  replace (2 ^ 21) with (4096 * 512) by done.
  replace (2 ^ 12) with 4096 by done.
  rewrite <-!Z.div_div by lia.
  set (a := va / 4096). pose proof (Z.div_mod va 4096 ltac:(lia)).
  pose proof (Z.div_mod a 512 ltac:(lia)).
  pose proof (Z.div_mod (a / 512) 512 ltac:(lia)).
  pose proof (Z.div_mod (a / 512 / 512) 512 ltac:(lia)).
  assert (0 ≤ a / 512 / 512 / 512 < 512).
  { unfold a. rewrite !Z.div_div by lia.
    split; [apply Z.div_pos; lia|apply Z.div_lt_upper_bound; lia]. }
  rewrite (Z.mod_small (a / 512 / 512 / 512)) by lia. lia.
Qed.

Lemma index_bounds va :
  0 ≤ PD0X va < 512 ∧ 0 ≤ PD1X va < 512 ∧ 0 ≤ PD2X va < 512 ∧ 0 ≤ PTX va < 512
  ∧ 0 ≤ PGOFF va < 4096.
Proof.
  rewrite PD0X_spec, PD1X_spec, PD2X_spec, PTX_spec, PGOFF_spec.
  repeat split; apply Z.mod_pos_bound; lia.
Qed.

(** ** Page numbers and entries *)

(** Physical pages the [pages] array can describe: [PGNUM] keeps 31 bits. *)
Definition MAXPAGES : Z := 2 ^ 19.

Lemma page2pa_spec pp :
  Z.of_nat pp < MAXPAGES → page2pa pp = Z.of_nat pp * 4096 + 2 ^ 31.
Proof.
  unfold MAXPAGES, page2pa, PGSHIFT, PHYMEMOFF. intros H.
  rewrite Z.shiftl_mul_pow2 by lia.
  rewrite (u64_small (_ * _)) by (unfold is_u64; lia).
  rewrite u64_small; unfold is_u64; lia.
Qed.

Lemma PGNUM_page2pa pp : Z.of_nat pp < MAXPAGES → PGNUM (page2pa pp) = Z.of_nat pp.
Proof.
  intros H. rewrite page2pa_spec by done. unfold MAXPAGES in H.
  rewrite PGNUM_spec.
  replace (Z.of_nat pp * 4096 + 2 ^ 31) with (Z.of_nat pp * 4096 + 1 * 2 ^ 31) by lia.
  rewrite Z.mod_add by lia. rewrite Z.mod_small by lia.
  by rewrite Z.div_mul by lia.
Qed.

(** An entry built from a page-aligned address and ten permission bits. *)
Lemma PTE_ENTRY_spec pa :
  0 ≤ pa < 2 ^ 56 → pa mod 4096 = 0 → PTE_ENTRY pa = pa / 4.
Proof.
  intros H Hal. unfold PTE_ENTRY.
  rewrite Z.shiftr_div_pow2, Z.shiftl_mul_pow2 by lia.
  apply Z.mod_divide in Hal as [k ->]; [|lia].
  replace (2 ^ 12) with 4096 by done. rewrite Z.div_mul by lia.
  replace (k * 4096) with (k * 1024 * 4) by lia. rewrite Z.div_mul by lia.
  apply u64_small. unfold is_u64. lia.
Qed.

Lemma PTE_PHY_entry pa perm :
  0 ≤ pa < 2 ^ 56 → pa mod 4096 = 0 → 0 ≤ perm < 1024 →
  PTE_PHY (Z.lor (PTE_ENTRY pa) perm) = pa.
Proof.
  intros H Hal Hp. rewrite PTE_ENTRY_spec by done.
  apply Z.mod_divide in Hal as [k ->]; [|lia].
  replace (k * 4096 / 4) with (Z.shiftl k 10).
  2:{ rewrite Z.shiftl_mul_pow2 by lia. apply Z.div_unique with 0; lia. }
  rewrite lor_shiftl_add by lia.
  unfold PTE_PHY. rewrite shiftr_add_low by lia.
  rewrite Z.shiftl_mul_pow2 by lia. rewrite u64_small by (unfold is_u64; lia). lia.
Qed.

Lemma lor_PTE_V_valid x : Z.land (Z.lor x PTE_V) PTE_V ≠ 0.
Proof.
  change PTE_V with (2 ^ 0). rewrite land_pow2_testbit by lia.
  rewrite Z.lor_spec. change (2 ^ 0) with 1. simpl.
  by rewrite orb_true_r.
Qed.
