(* ===== verification/Kstate.v ===== *)
(** * The kernel's state

    The records of inc/riscv/memlayout.h ([PageInfo]), inc/riscv/trap.h
    ([Trapframe]), inc/riscv/env.h ([Env]) and the globals of kern/riscv/pmap.c,
    kern/riscv/env.c, kern/riscv/sched.c, kern/riscv/time.c and
    kern/riscv/console.c, as one state that the kernel's functions pass along in
    the monad [K].  [curenv], [satp], [sstatus], [sie] and [cpu_halted] belong to
    the processor that runs the code; [kernel_locked] is the big kernel lock and
    [cons_out] the characters written to the console, the latest first.

    A [struct PageInfo *] or [struct Env *] is the index of its element in
    [pages] or [envs]; the null pointer is [None].  Kernel memory reached through
    the direct map is a finite map from the kernel virtual address of a 64-bit
    word to its value; a word the map does not list reads as zero. *)

From S2P Require Import Prelude Mmu.

(** ** inc/riscv/memlayout.h: struct PageInfo *)

Record PageInfo := mkPageInfo {
  pp_link : option nat;
  pp_ref : Z
}.

Definition set_pp_link (v : option nat) (p : PageInfo) : PageInfo :=
  mkPageInfo v (pp_ref p).
Definition set_pp_ref (v : Z) (p : PageInfo) : PageInfo :=
  mkPageInfo (pp_link p) v.

(** ** inc/riscv/trap.h: struct Trapframe (registers as 64-bit words) *)

Record Trapframe := mkTrapframe {
  tf_sepc : Z;
  tf_ra : Z;
  tf_sp : Z;
  tf_gp : Z;
  tf_tp : Z;
  tf_t0 : Z;
  tf_t1 : Z;
  tf_t2 : Z;
  tf_s0 : Z;
  tf_s1 : Z;
  tf_a0 : Z;
  tf_a1 : Z;
  tf_a2 : Z;
  tf_a3 : Z;
  tf_a4 : Z;
  tf_a5 : Z;
  tf_a6 : Z;
  tf_a7 : Z;
  tf_s2 : Z;
  tf_s3 : Z;
  tf_s4 : Z;
  tf_s5 : Z;
  tf_s6 : Z;
  tf_s7 : Z;
  tf_s8 : Z;
  tf_s9 : Z;
  tf_s10 : Z;
  tf_s11 : Z;
  tf_t3 : Z;
  tf_t4 : Z;
  tf_t5 : Z;
  tf_t6 : Z;
  tf_status : Z;
  tf_stval : Z;
  tf_scause : Z;
  tf_orig_a0 : Z
}.

Definition set_tf_sepc (v : Z) (tf : Trapframe) : Trapframe :=
  mkTrapframe v (tf_ra tf) (tf_sp tf) (tf_gp tf) (tf_tp tf) (tf_t0 tf) (tf_t1 tf)
    (tf_t2 tf) (tf_s0 tf) (tf_s1 tf) (tf_a0 tf) (tf_a1 tf) (tf_a2 tf) (tf_a3 tf)
    (tf_a4 tf) (tf_a5 tf) (tf_a6 tf) (tf_a7 tf) (tf_s2 tf) (tf_s3 tf) (tf_s4 tf)
    (tf_s5 tf) (tf_s6 tf) (tf_s7 tf) (tf_s8 tf) (tf_s9 tf) (tf_s10 tf) (tf_s11 tf)
    (tf_t3 tf) (tf_t4 tf) (tf_t5 tf) (tf_t6 tf) (tf_status tf) (tf_stval tf)
    (tf_scause tf) (tf_orig_a0 tf).
Definition set_tf_ra (v : Z) (tf : Trapframe) : Trapframe :=
  mkTrapframe (tf_sepc tf) v (tf_sp tf) (tf_gp tf) (tf_tp tf) (tf_t0 tf) (tf_t1 tf)
    (tf_t2 tf) (tf_s0 tf) (tf_s1 tf) (tf_a0 tf) (tf_a1 tf) (tf_a2 tf) (tf_a3 tf)
    (tf_a4 tf) (tf_a5 tf) (tf_a6 tf) (tf_a7 tf) (tf_s2 tf) (tf_s3 tf) (tf_s4 tf)
    (tf_s5 tf) (tf_s6 tf) (tf_s7 tf) (tf_s8 tf) (tf_s9 tf) (tf_s10 tf) (tf_s11 tf)
    (tf_t3 tf) (tf_t4 tf) (tf_t5 tf) (tf_t6 tf) (tf_status tf) (tf_stval tf)
    (tf_scause tf) (tf_orig_a0 tf).
Definition set_tf_sp (v : Z) (tf : Trapframe) : Trapframe :=
  mkTrapframe (tf_sepc tf) (tf_ra tf) v (tf_gp tf) (tf_tp tf) (tf_t0 tf) (tf_t1 tf)
    (tf_t2 tf) (tf_s0 tf) (tf_s1 tf) (tf_a0 tf) (tf_a1 tf) (tf_a2 tf) (tf_a3 tf)
    (tf_a4 tf) (tf_a5 tf) (tf_a6 tf) (tf_a7 tf) (tf_s2 tf) (tf_s3 tf) (tf_s4 tf)
    (tf_s5 tf) (tf_s6 tf) (tf_s7 tf) (tf_s8 tf) (tf_s9 tf) (tf_s10 tf) (tf_s11 tf)
    (tf_t3 tf) (tf_t4 tf) (tf_t5 tf) (tf_t6 tf) (tf_status tf) (tf_stval tf)
    (tf_scause tf) (tf_orig_a0 tf).
Definition set_tf_tp (v : Z) (tf : Trapframe) : Trapframe :=
  mkTrapframe (tf_sepc tf) (tf_ra tf) (tf_sp tf) (tf_gp tf) v (tf_t0 tf) (tf_t1 tf)
    (tf_t2 tf) (tf_s0 tf) (tf_s1 tf) (tf_a0 tf) (tf_a1 tf) (tf_a2 tf) (tf_a3 tf)
    (tf_a4 tf) (tf_a5 tf) (tf_a6 tf) (tf_a7 tf) (tf_s2 tf) (tf_s3 tf) (tf_s4 tf)
    (tf_s5 tf) (tf_s6 tf) (tf_s7 tf) (tf_s8 tf) (tf_s9 tf) (tf_s10 tf) (tf_s11 tf)
    (tf_t3 tf) (tf_t4 tf) (tf_t5 tf) (tf_t6 tf) (tf_status tf) (tf_stval tf)
    (tf_scause tf) (tf_orig_a0 tf).
Definition set_tf_a0 (v : Z) (tf : Trapframe) : Trapframe :=
  mkTrapframe (tf_sepc tf) (tf_ra tf) (tf_sp tf) (tf_gp tf) (tf_tp tf) (tf_t0 tf)
    (tf_t1 tf) (tf_t2 tf) (tf_s0 tf) (tf_s1 tf) v (tf_a1 tf) (tf_a2 tf) (tf_a3 tf)
    (tf_a4 tf) (tf_a5 tf) (tf_a6 tf) (tf_a7 tf) (tf_s2 tf) (tf_s3 tf) (tf_s4 tf)
    (tf_s5 tf) (tf_s6 tf) (tf_s7 tf) (tf_s8 tf) (tf_s9 tf) (tf_s10 tf) (tf_s11 tf)
    (tf_t3 tf) (tf_t4 tf) (tf_t5 tf) (tf_t6 tf) (tf_status tf) (tf_stval tf)
    (tf_scause tf) (tf_orig_a0 tf).
Definition set_tf_status (v : Z) (tf : Trapframe) : Trapframe :=
  mkTrapframe (tf_sepc tf) (tf_ra tf) (tf_sp tf) (tf_gp tf) (tf_tp tf) (tf_t0 tf)
    (tf_t1 tf) (tf_t2 tf) (tf_s0 tf) (tf_s1 tf) (tf_a0 tf) (tf_a1 tf) (tf_a2 tf)
    (tf_a3 tf) (tf_a4 tf) (tf_a5 tf) (tf_a6 tf) (tf_a7 tf) (tf_s2 tf) (tf_s3 tf)
    (tf_s4 tf) (tf_s5 tf) (tf_s6 tf) (tf_s7 tf) (tf_s8 tf) (tf_s9 tf) (tf_s10 tf)
    (tf_s11 tf) (tf_t3 tf) (tf_t4 tf) (tf_t5 tf) (tf_t6 tf) v (tf_stval tf)
    (tf_scause tf) (tf_orig_a0 tf).
Definition set_tf_scause (v : Z) (tf : Trapframe) : Trapframe :=
  mkTrapframe (tf_sepc tf) (tf_ra tf) (tf_sp tf) (tf_gp tf) (tf_tp tf) (tf_t0 tf)
    (tf_t1 tf) (tf_t2 tf) (tf_s0 tf) (tf_s1 tf) (tf_a0 tf) (tf_a1 tf) (tf_a2 tf)
    (tf_a3 tf) (tf_a4 tf) (tf_a5 tf) (tf_a6 tf) (tf_a7 tf) (tf_s2 tf) (tf_s3 tf)
    (tf_s4 tf) (tf_s5 tf) (tf_s6 tf) (tf_s7 tf) (tf_s8 tf) (tf_s9 tf) (tf_s10 tf)
    (tf_s11 tf) (tf_t3 tf) (tf_t4 tf) (tf_t5 tf) (tf_t6 tf) (tf_status tf)
    (tf_stval tf) v (tf_orig_a0 tf).
Definition set_tf_orig_a0 (v : Z) (tf : Trapframe) : Trapframe :=
  mkTrapframe (tf_sepc tf) (tf_ra tf) (tf_sp tf) (tf_gp tf) (tf_tp tf) (tf_t0 tf)
    (tf_t1 tf) (tf_t2 tf) (tf_s0 tf) (tf_s1 tf) (tf_a0 tf) (tf_a1 tf) (tf_a2 tf)
    (tf_a3 tf) (tf_a4 tf) (tf_a5 tf) (tf_a6 tf) (tf_a7 tf) (tf_s2 tf) (tf_s3 tf)
    (tf_s4 tf) (tf_s5 tf) (tf_s6 tf) (tf_s7 tf) (tf_s8 tf) (tf_s9 tf) (tf_s10 tf)
    (tf_s11 tf) (tf_t3 tf) (tf_t4 tf) (tf_t5 tf) (tf_t6 tf) (tf_status tf)
    (tf_stval tf) (tf_scause tf) v.

(** The frame that [memset(&e->env_tf, 0, sizeof(e->env_tf))] leaves. *)
Definition zero_tf : Trapframe :=
  mkTrapframe 0 0 0 0 0 0 0 0 0 0 0 0 0 0 0 0 0 0 0 0 0 0 0 0 0 0 0 0 0 0 0 0 0 0 0 0.

(** ** inc/riscv/env.h *)

Definition LOG2NENV : Z := 10.
Definition NENV : Z := Z.shiftl 1 LOG2NENV.
Definition ENVX (envid : Z) : Z := Z.land envid (NENV - 1).

Definition ENV_FREE : Z := 0.
Definition ENV_DYING : Z := 1.
Definition ENV_RUNNABLE : Z := 2.
Definition ENV_RUNNING : Z := 3.
Definition ENV_NOT_RUNNABLE : Z := 4.

Inductive EnvType := ENV_TYPE_USER | ENV_TYPE_FS | ENV_TYPE_NS.

Record Env := mkEnv {
  env_tf : Trapframe;
  env_link : option nat;
  env_id : Z;
  env_parent_id : Z;
  env_type : EnvType;
  env_status : Z;
  env_runs : Z;
  env_cpunum : Z;
  env_pgdir : Z;
  env_pgfault_upcall : Z;
  env_ipc_recving : bool;
  env_ipc_dstva : Z;
  env_ipc_value : Z;
  env_ipc_from : Z;
  env_ipc_perm : Z
}.

Definition set_env_tf (v : Trapframe) (e : Env) : Env :=
  mkEnv v (env_link e) (env_id e) (env_parent_id e) (env_type e) (env_status e)
    (env_runs e) (env_cpunum e) (env_pgdir e) (env_pgfault_upcall e)
    (env_ipc_recving e) (env_ipc_dstva e) (env_ipc_value e) (env_ipc_from e)
    (env_ipc_perm e).
Definition set_env_link (v : option nat) (e : Env) : Env :=
  mkEnv (env_tf e) v (env_id e) (env_parent_id e) (env_type e) (env_status e)
    (env_runs e) (env_cpunum e) (env_pgdir e) (env_pgfault_upcall e)
    (env_ipc_recving e) (env_ipc_dstva e) (env_ipc_value e) (env_ipc_from e)
    (env_ipc_perm e).
Definition set_env_id (v : Z) (e : Env) : Env :=
  mkEnv (env_tf e) (env_link e) v (env_parent_id e) (env_type e) (env_status e)
    (env_runs e) (env_cpunum e) (env_pgdir e) (env_pgfault_upcall e)
    (env_ipc_recving e) (env_ipc_dstva e) (env_ipc_value e) (env_ipc_from e)
    (env_ipc_perm e).
Definition set_env_parent_id (v : Z) (e : Env) : Env :=
  mkEnv (env_tf e) (env_link e) (env_id e) v (env_type e) (env_status e)
    (env_runs e) (env_cpunum e) (env_pgdir e) (env_pgfault_upcall e)
    (env_ipc_recving e) (env_ipc_dstva e) (env_ipc_value e) (env_ipc_from e)
    (env_ipc_perm e).
Definition set_env_type (v : EnvType) (e : Env) : Env :=
  mkEnv (env_tf e) (env_link e) (env_id e) (env_parent_id e) v (env_status e)
    (env_runs e) (env_cpunum e) (env_pgdir e) (env_pgfault_upcall e)
    (env_ipc_recving e) (env_ipc_dstva e) (env_ipc_value e) (env_ipc_from e)
    (env_ipc_perm e).
Definition set_env_status (v : Z) (e : Env) : Env :=
  mkEnv (env_tf e) (env_link e) (env_id e) (env_parent_id e) (env_type e) v
    (env_runs e) (env_cpunum e) (env_pgdir e) (env_pgfault_upcall e)
    (env_ipc_recving e) (env_ipc_dstva e) (env_ipc_value e) (env_ipc_from e)
    (env_ipc_perm e).
Definition set_env_runs (v : Z) (e : Env) : Env :=
  mkEnv (env_tf e) (env_link e) (env_id e) (env_parent_id e) (env_type e)
    (env_status e) v (env_cpunum e) (env_pgdir e) (env_pgfault_upcall e)
    (env_ipc_recving e) (env_ipc_dstva e) (env_ipc_value e) (env_ipc_from e)
    (env_ipc_perm e).
Definition set_env_cpunum (v : Z) (e : Env) : Env :=
  mkEnv (env_tf e) (env_link e) (env_id e) (env_parent_id e) (env_type e)
    (env_status e) (env_runs e) v (env_pgdir e) (env_pgfault_upcall e)
    (env_ipc_recving e) (env_ipc_dstva e) (env_ipc_value e) (env_ipc_from e)
    (env_ipc_perm e).
Definition set_env_pgdir (v : Z) (e : Env) : Env :=
  mkEnv (env_tf e) (env_link e) (env_id e) (env_parent_id e) (env_type e)
    (env_status e) (env_runs e) (env_cpunum e) v (env_pgfault_upcall e)
    (env_ipc_recving e) (env_ipc_dstva e) (env_ipc_value e) (env_ipc_from e)
    (env_ipc_perm e).
Definition set_env_pgfault_upcall (v : Z) (e : Env) : Env :=
  mkEnv (env_tf e) (env_link e) (env_id e) (env_parent_id e) (env_type e)
    (env_status e) (env_runs e) (env_cpunum e) (env_pgdir e) v (env_ipc_recving e)
    (env_ipc_dstva e) (env_ipc_value e) (env_ipc_from e) (env_ipc_perm e).
Definition set_env_ipc_recving (v : bool) (e : Env) : Env :=
  mkEnv (env_tf e) (env_link e) (env_id e) (env_parent_id e) (env_type e)
    (env_status e) (env_runs e) (env_cpunum e) (env_pgdir e) (env_pgfault_upcall e)
    v (env_ipc_dstva e) (env_ipc_value e) (env_ipc_from e) (env_ipc_perm e).
Definition set_env_ipc_dstva (v : Z) (e : Env) : Env :=
  mkEnv (env_tf e) (env_link e) (env_id e) (env_parent_id e) (env_type e)
    (env_status e) (env_runs e) (env_cpunum e) (env_pgdir e) (env_pgfault_upcall e)
    (env_ipc_recving e) v (env_ipc_value e) (env_ipc_from e) (env_ipc_perm e).
Definition set_env_ipc_value (v : Z) (e : Env) : Env :=
  mkEnv (env_tf e) (env_link e) (env_id e) (env_parent_id e) (env_type e)
    (env_status e) (env_runs e) (env_cpunum e) (env_pgdir e) (env_pgfault_upcall e)
    (env_ipc_recving e) (env_ipc_dstva e) v (env_ipc_from e) (env_ipc_perm e).
Definition set_env_ipc_from (v : Z) (e : Env) : Env :=
  mkEnv (env_tf e) (env_link e) (env_id e) (env_parent_id e) (env_type e)
    (env_status e) (env_runs e) (env_cpunum e) (env_pgdir e) (env_pgfault_upcall e)
    (env_ipc_recving e) (env_ipc_dstva e) (env_ipc_value e) v (env_ipc_perm e).
Definition set_env_ipc_perm (v : Z) (e : Env) : Env :=
  mkEnv (env_tf e) (env_link e) (env_id e) (env_parent_id e) (env_type e)
    (env_status e) (env_runs e) (env_cpunum e) (env_pgdir e) (env_pgfault_upcall e)
    (env_ipc_recving e) (env_ipc_dstva e) (env_ipc_value e) (env_ipc_from e) v.

(** What [memset(envs, 0, ...)] of [mem_init] leaves in every slot. *)
Definition zero_env : Env :=
  mkEnv zero_tf None 0 0 ENV_TYPE_USER ENV_FREE 0 0 0 0 false 0 0 0 0.

(** ** kern/riscv/e1000.h and the driver's rings in kern/riscv/e1000.c

    [e1000] holds the device registers by their word index.  The unions of a
    descriptor are their 32-bit words; the packet buffers are flat arrays of
    bytes. *)

Record tx_desc := mkTxDesc {
  tx_addr : Z;
  tx_lower : Z;
  tx_upper : Z
}.

Record rx_desc := mkRxDesc {
  rx_buffer_addr : Z;
  rx_length : Z;
  rx_csum : Z;
  rx_status : Z;
  rx_errors : Z;
  rx_special : Z
}.

Record Nic := mkNic {
  e1000 : gmap Z Z;
  tx_desc_buffer : list tx_desc;
  packet_buffer : list Z;
  rx_desc_buffer : list rx_desc;
  receive_buffer : list Z
}.

Definition set_e1000 (v : gmap Z Z) (n : Nic) : Nic :=
  mkNic v (tx_desc_buffer n) (packet_buffer n) (rx_desc_buffer n) (receive_buffer n).
Definition set_tx_desc_buffer (v : list tx_desc) (n : Nic) : Nic :=
  mkNic (e1000 n) v (packet_buffer n) (rx_desc_buffer n) (receive_buffer n).
Definition set_packet_buffer (v : list Z) (n : Nic) : Nic :=
  mkNic (e1000 n) (tx_desc_buffer n) v (rx_desc_buffer n) (receive_buffer n).
Definition set_rx_desc_buffer (v : list rx_desc) (n : Nic) : Nic :=
  mkNic (e1000 n) (tx_desc_buffer n) (packet_buffer n) v (receive_buffer n).
Definition set_receive_buffer (v : list Z) (n : Nic) : Nic :=
  mkNic (e1000 n) (tx_desc_buffer n) (packet_buffer n) (rx_desc_buffer n) v.

Definition zero_nic : Nic := mkNic ∅ [] [] [] [].

(** ** The globals *)

Record kstate := mkKstate {
  npages : Z;
  npages_basemem : Z;
  firmmem : Z;
  boot_nextfree : Z;
  pages : list PageInfo;
  page_free_list : option nat;
  mem : gmap Z Z;
  kern_pgdir : Z;
  mmio_nextfree : Z;
  user_mem_check_addr : Z;
  envs : list Env;
  env_free_list : option nat;
  curenv : option nat;
  satp : Z * Z;
  tlb_flushes : list Z;
  cpu_halted : bool;
  kernel_locked : bool;
  panicstr : bool;
  sstatus : Z;
  sie : Z;
  ticks : Z;
  cons_buf : list Z;
  cons_rpos : Z;
  cons_wpos : Z;
  cons_out : list Z;
  serial_exists : bool;
  nic : Nic;
  kern_sp : Z
}.

Definition set_npages (v : Z) (s : kstate) : kstate :=
  mkKstate v (npages_basemem s) (firmmem s) (boot_nextfree s) (pages s)
    (page_free_list s) (mem s) (kern_pgdir s) (mmio_nextfree s)
    (user_mem_check_addr s) (envs s) (env_free_list s) (curenv s) (satp s)
    (tlb_flushes s) (cpu_halted s) (kernel_locked s) (panicstr s) (sstatus s)
    (sie s) (ticks s) (cons_buf s) (cons_rpos s) (cons_wpos s) (cons_out s)
    (serial_exists s) (nic s) (kern_sp s).
Definition set_npages_basemem (v : Z) (s : kstate) : kstate :=
  mkKstate (npages s) v (firmmem s) (boot_nextfree s) (pages s) (page_free_list s)
    (mem s) (kern_pgdir s) (mmio_nextfree s) (user_mem_check_addr s) (envs s)
    (env_free_list s) (curenv s) (satp s) (tlb_flushes s) (cpu_halted s)
    (kernel_locked s) (panicstr s) (sstatus s) (sie s) (ticks s) (cons_buf s)
    (cons_rpos s) (cons_wpos s) (cons_out s) (serial_exists s) (nic s) (kern_sp s).
Definition set_firmmem (v : Z) (s : kstate) : kstate :=
  mkKstate (npages s) (npages_basemem s) v (boot_nextfree s) (pages s)
    (page_free_list s) (mem s) (kern_pgdir s) (mmio_nextfree s)
    (user_mem_check_addr s) (envs s) (env_free_list s) (curenv s) (satp s)
    (tlb_flushes s) (cpu_halted s) (kernel_locked s) (panicstr s) (sstatus s)
    (sie s) (ticks s) (cons_buf s) (cons_rpos s) (cons_wpos s) (cons_out s)
    (serial_exists s) (nic s) (kern_sp s).
Definition set_boot_nextfree (v : Z) (s : kstate) : kstate :=
  mkKstate (npages s) (npages_basemem s) (firmmem s) v (pages s) (page_free_list s)
    (mem s) (kern_pgdir s) (mmio_nextfree s) (user_mem_check_addr s) (envs s)
    (env_free_list s) (curenv s) (satp s) (tlb_flushes s) (cpu_halted s)
    (kernel_locked s) (panicstr s) (sstatus s) (sie s) (ticks s) (cons_buf s)
    (cons_rpos s) (cons_wpos s) (cons_out s) (serial_exists s) (nic s) (kern_sp s).
Definition set_pages (v : list PageInfo) (s : kstate) : kstate :=
  mkKstate (npages s) (npages_basemem s) (firmmem s) (boot_nextfree s) v
    (page_free_list s) (mem s) (kern_pgdir s) (mmio_nextfree s)
    (user_mem_check_addr s) (envs s) (env_free_list s) (curenv s) (satp s)
    (tlb_flushes s) (cpu_halted s) (kernel_locked s) (panicstr s) (sstatus s)
    (sie s) (ticks s) (cons_buf s) (cons_rpos s) (cons_wpos s) (cons_out s)
    (serial_exists s) (nic s) (kern_sp s).
Definition set_page_free_list (v : option nat) (s : kstate) : kstate :=
  mkKstate (npages s) (npages_basemem s) (firmmem s) (boot_nextfree s) (pages s) v
    (mem s) (kern_pgdir s) (mmio_nextfree s) (user_mem_check_addr s) (envs s)
    (env_free_list s) (curenv s) (satp s) (tlb_flushes s) (cpu_halted s)
    (kernel_locked s) (panicstr s) (sstatus s) (sie s) (ticks s) (cons_buf s)
    (cons_rpos s) (cons_wpos s) (cons_out s) (serial_exists s) (nic s) (kern_sp s).
Definition set_mem (v : gmap Z Z) (s : kstate) : kstate :=
  mkKstate (npages s) (npages_basemem s) (firmmem s) (boot_nextfree s) (pages s)
    (page_free_list s) v (kern_pgdir s) (mmio_nextfree s) (user_mem_check_addr s)
    (envs s) (env_free_list s) (curenv s) (satp s) (tlb_flushes s) (cpu_halted s)
    (kernel_locked s) (panicstr s) (sstatus s) (sie s) (ticks s) (cons_buf s)
    (cons_rpos s) (cons_wpos s) (cons_out s) (serial_exists s) (nic s) (kern_sp s).
Definition set_kern_pgdir (v : Z) (s : kstate) : kstate :=
  mkKstate (npages s) (npages_basemem s) (firmmem s) (boot_nextfree s) (pages s)
    (page_free_list s) (mem s) v (mmio_nextfree s) (user_mem_check_addr s) (envs s)
    (env_free_list s) (curenv s) (satp s) (tlb_flushes s) (cpu_halted s)
    (kernel_locked s) (panicstr s) (sstatus s) (sie s) (ticks s) (cons_buf s)
    (cons_rpos s) (cons_wpos s) (cons_out s) (serial_exists s) (nic s) (kern_sp s).
Definition set_mmio_nextfree (v : Z) (s : kstate) : kstate :=
  mkKstate (npages s) (npages_basemem s) (firmmem s) (boot_nextfree s) (pages s)
    (page_free_list s) (mem s) (kern_pgdir s) v (user_mem_check_addr s) (envs s)
    (env_free_list s) (curenv s) (satp s) (tlb_flushes s) (cpu_halted s)
    (kernel_locked s) (panicstr s) (sstatus s) (sie s) (ticks s) (cons_buf s)
    (cons_rpos s) (cons_wpos s) (cons_out s) (serial_exists s) (nic s) (kern_sp s).
Definition set_user_mem_check_addr (v : Z) (s : kstate) : kstate :=
  mkKstate (npages s) (npages_basemem s) (firmmem s) (boot_nextfree s) (pages s)
    (page_free_list s) (mem s) (kern_pgdir s) (mmio_nextfree s) v (envs s)
    (env_free_list s) (curenv s) (satp s) (tlb_flushes s) (cpu_halted s)
    (kernel_locked s) (panicstr s) (sstatus s) (sie s) (ticks s) (cons_buf s)
    (cons_rpos s) (cons_wpos s) (cons_out s) (serial_exists s) (nic s) (kern_sp s).
Definition set_envs (v : list Env) (s : kstate) : kstate :=
  mkKstate (npages s) (npages_basemem s) (firmmem s) (boot_nextfree s) (pages s)
    (page_free_list s) (mem s) (kern_pgdir s) (mmio_nextfree s)
    (user_mem_check_addr s) v (env_free_list s) (curenv s) (satp s) (tlb_flushes s)
    (cpu_halted s) (kernel_locked s) (panicstr s) (sstatus s) (sie s) (ticks s)
    (cons_buf s) (cons_rpos s) (cons_wpos s) (cons_out s) (serial_exists s) (nic s)
    (kern_sp s).
Definition set_env_free_list (v : option nat) (s : kstate) : kstate :=
  mkKstate (npages s) (npages_basemem s) (firmmem s) (boot_nextfree s) (pages s)
    (page_free_list s) (mem s) (kern_pgdir s) (mmio_nextfree s)
    (user_mem_check_addr s) (envs s) v (curenv s) (satp s) (tlb_flushes s)
    (cpu_halted s) (kernel_locked s) (panicstr s) (sstatus s) (sie s) (ticks s)
    (cons_buf s) (cons_rpos s) (cons_wpos s) (cons_out s) (serial_exists s) (nic s)
    (kern_sp s).
Definition set_curenv (v : option nat) (s : kstate) : kstate :=
  mkKstate (npages s) (npages_basemem s) (firmmem s) (boot_nextfree s) (pages s)
    (page_free_list s) (mem s) (kern_pgdir s) (mmio_nextfree s)
    (user_mem_check_addr s) (envs s) (env_free_list s) v (satp s) (tlb_flushes s)
    (cpu_halted s) (kernel_locked s) (panicstr s) (sstatus s) (sie s) (ticks s)
    (cons_buf s) (cons_rpos s) (cons_wpos s) (cons_out s) (serial_exists s) (nic s)
    (kern_sp s).
Definition set_satp (v : Z * Z) (s : kstate) : kstate :=
  mkKstate (npages s) (npages_basemem s) (firmmem s) (boot_nextfree s) (pages s)
    (page_free_list s) (mem s) (kern_pgdir s) (mmio_nextfree s)
    (user_mem_check_addr s) (envs s) (env_free_list s) (curenv s) v (tlb_flushes s)
    (cpu_halted s) (kernel_locked s) (panicstr s) (sstatus s) (sie s) (ticks s)
    (cons_buf s) (cons_rpos s) (cons_wpos s) (cons_out s) (serial_exists s) (nic s)
    (kern_sp s).
Definition set_tlb_flushes (v : list Z) (s : kstate) : kstate :=
  mkKstate (npages s) (npages_basemem s) (firmmem s) (boot_nextfree s) (pages s)
    (page_free_list s) (mem s) (kern_pgdir s) (mmio_nextfree s)
    (user_mem_check_addr s) (envs s) (env_free_list s) (curenv s) (satp s) v
    (cpu_halted s) (kernel_locked s) (panicstr s) (sstatus s) (sie s) (ticks s)
    (cons_buf s) (cons_rpos s) (cons_wpos s) (cons_out s) (serial_exists s) (nic s)
    (kern_sp s).
Definition set_cpu_halted (v : bool) (s : kstate) : kstate :=
  mkKstate (npages s) (npages_basemem s) (firmmem s) (boot_nextfree s) (pages s)
    (page_free_list s) (mem s) (kern_pgdir s) (mmio_nextfree s)
    (user_mem_check_addr s) (envs s) (env_free_list s) (curenv s) (satp s)
    (tlb_flushes s) v (kernel_locked s) (panicstr s) (sstatus s) (sie s) (ticks s)
    (cons_buf s) (cons_rpos s) (cons_wpos s) (cons_out s) (serial_exists s) (nic s)
    (kern_sp s).
Definition set_kernel_locked (v : bool) (s : kstate) : kstate :=
  mkKstate (npages s) (npages_basemem s) (firmmem s) (boot_nextfree s) (pages s)
    (page_free_list s) (mem s) (kern_pgdir s) (mmio_nextfree s)
    (user_mem_check_addr s) (envs s) (env_free_list s) (curenv s) (satp s)
    (tlb_flushes s) (cpu_halted s) v (panicstr s) (sstatus s) (sie s) (ticks s)
    (cons_buf s) (cons_rpos s) (cons_wpos s) (cons_out s) (serial_exists s) (nic s)
    (kern_sp s).
Definition set_panicstr (v : bool) (s : kstate) : kstate :=
  mkKstate (npages s) (npages_basemem s) (firmmem s) (boot_nextfree s) (pages s)
    (page_free_list s) (mem s) (kern_pgdir s) (mmio_nextfree s)
    (user_mem_check_addr s) (envs s) (env_free_list s) (curenv s) (satp s)
    (tlb_flushes s) (cpu_halted s) (kernel_locked s) v (sstatus s) (sie s) (ticks s)
    (cons_buf s) (cons_rpos s) (cons_wpos s) (cons_out s) (serial_exists s) (nic s)
    (kern_sp s).
Definition set_sstatus (v : Z) (s : kstate) : kstate :=
  mkKstate (npages s) (npages_basemem s) (firmmem s) (boot_nextfree s) (pages s)
    (page_free_list s) (mem s) (kern_pgdir s) (mmio_nextfree s)
    (user_mem_check_addr s) (envs s) (env_free_list s) (curenv s) (satp s)
    (tlb_flushes s) (cpu_halted s) (kernel_locked s) (panicstr s) v (sie s)
    (ticks s) (cons_buf s) (cons_rpos s) (cons_wpos s) (cons_out s)
    (serial_exists s) (nic s) (kern_sp s).
Definition set_sie (v : Z) (s : kstate) : kstate :=
  mkKstate (npages s) (npages_basemem s) (firmmem s) (boot_nextfree s) (pages s)
    (page_free_list s) (mem s) (kern_pgdir s) (mmio_nextfree s)
    (user_mem_check_addr s) (envs s) (env_free_list s) (curenv s) (satp s)
    (tlb_flushes s) (cpu_halted s) (kernel_locked s) (panicstr s) (sstatus s) v
    (ticks s) (cons_buf s) (cons_rpos s) (cons_wpos s) (cons_out s)
    (serial_exists s) (nic s) (kern_sp s).
Definition set_ticks (v : Z) (s : kstate) : kstate :=
  mkKstate (npages s) (npages_basemem s) (firmmem s) (boot_nextfree s) (pages s)
    (page_free_list s) (mem s) (kern_pgdir s) (mmio_nextfree s)
    (user_mem_check_addr s) (envs s) (env_free_list s) (curenv s) (satp s)
    (tlb_flushes s) (cpu_halted s) (kernel_locked s) (panicstr s) (sstatus s)
    (sie s) v (cons_buf s) (cons_rpos s) (cons_wpos s) (cons_out s)
    (serial_exists s) (nic s) (kern_sp s).
Definition set_cons_buf (v : list Z) (s : kstate) : kstate :=
  mkKstate (npages s) (npages_basemem s) (firmmem s) (boot_nextfree s) (pages s)
    (page_free_list s) (mem s) (kern_pgdir s) (mmio_nextfree s)
    (user_mem_check_addr s) (envs s) (env_free_list s) (curenv s) (satp s)
    (tlb_flushes s) (cpu_halted s) (kernel_locked s) (panicstr s) (sstatus s)
    (sie s) (ticks s) v (cons_rpos s) (cons_wpos s) (cons_out s) (serial_exists s)
    (nic s) (kern_sp s).
Definition set_cons_rpos (v : Z) (s : kstate) : kstate :=
  mkKstate (npages s) (npages_basemem s) (firmmem s) (boot_nextfree s) (pages s)
    (page_free_list s) (mem s) (kern_pgdir s) (mmio_nextfree s)
    (user_mem_check_addr s) (envs s) (env_free_list s) (curenv s) (satp s)
    (tlb_flushes s) (cpu_halted s) (kernel_locked s) (panicstr s) (sstatus s)
    (sie s) (ticks s) (cons_buf s) v (cons_wpos s) (cons_out s) (serial_exists s)
    (nic s) (kern_sp s).
Definition set_cons_wpos (v : Z) (s : kstate) : kstate :=
  mkKstate (npages s) (npages_basemem s) (firmmem s) (boot_nextfree s) (pages s)
    (page_free_list s) (mem s) (kern_pgdir s) (mmio_nextfree s)
    (user_mem_check_addr s) (envs s) (env_free_list s) (curenv s) (satp s)
    (tlb_flushes s) (cpu_halted s) (kernel_locked s) (panicstr s) (sstatus s)
    (sie s) (ticks s) (cons_buf s) (cons_rpos s) v (cons_out s) (serial_exists s)
    (nic s) (kern_sp s).
Definition set_cons_out (v : list Z) (s : kstate) : kstate :=
  mkKstate (npages s) (npages_basemem s) (firmmem s) (boot_nextfree s) (pages s)
    (page_free_list s) (mem s) (kern_pgdir s) (mmio_nextfree s)
    (user_mem_check_addr s) (envs s) (env_free_list s) (curenv s) (satp s)
    (tlb_flushes s) (cpu_halted s) (kernel_locked s) (panicstr s) (sstatus s)
    (sie s) (ticks s) (cons_buf s) (cons_rpos s) (cons_wpos s) v (serial_exists s)
    (nic s) (kern_sp s).
Definition set_serial_exists (v : bool) (s : kstate) : kstate :=
  mkKstate (npages s) (npages_basemem s) (firmmem s) (boot_nextfree s) (pages s)
    (page_free_list s) (mem s) (kern_pgdir s) (mmio_nextfree s)
    (user_mem_check_addr s) (envs s) (env_free_list s) (curenv s) (satp s)
    (tlb_flushes s) (cpu_halted s) (kernel_locked s) (panicstr s) (sstatus s)
    (sie s) (ticks s) (cons_buf s) (cons_rpos s) (cons_wpos s) (cons_out s) v
    (nic s) (kern_sp s).
Definition set_nic (v : Nic) (s : kstate) : kstate :=
  mkKstate (npages s) (npages_basemem s) (firmmem s) (boot_nextfree s) (pages s)
    (page_free_list s) (mem s) (kern_pgdir s) (mmio_nextfree s)
    (user_mem_check_addr s) (envs s) (env_free_list s) (curenv s) (satp s)
    (tlb_flushes s) (cpu_halted s) (kernel_locked s) (panicstr s) (sstatus s)
    (sie s) (ticks s) (cons_buf s) (cons_rpos s) (cons_wpos s) (cons_out s)
    (serial_exists s) v (kern_sp s).
Definition set_kern_sp (v : Z) (s : kstate) : kstate :=
  mkKstate (npages s) (npages_basemem s) (firmmem s) (boot_nextfree s) (pages s)
    (page_free_list s) (mem s) (kern_pgdir s) (mmio_nextfree s)
    (user_mem_check_addr s) (envs s) (env_free_list s) (curenv s) (satp s)
    (tlb_flushes s) (cpu_halted s) (kernel_locked s) (panicstr s) (sstatus s)
    (sie s) (ticks s) (cons_buf s) (cons_rpos s) (cons_wpos s) (cons_out s)
    (serial_exists s) (nic s) v.

Definition K (A : Type) : Type := M kstate A.

(** ** Access through pointers *)

Definition get_page (pp : nat) : K PageInfo := λ s,
  match pages s !! pp with Some p => Ret p s | None => Undef end.
Definition put_page (pp : nat) (p : PageInfo) : K unit :=
  modify (λ s, set_pages (<[pp := p]> (pages s)) s).

Definition get_env (e : nat) : K Env := λ s,
  match envs s !! e with Some v => Ret v s | None => Undef end.
Definition put_env (e : nat) (v : Env) : K unit :=
  modify (λ s, set_envs (<[e := v]> (envs s)) s).
Definition upd_env (e : nat) (f : Env → Env) : K unit :=
  v <- get_env e ;; put_env e (f v).

(** 64-bit loads and stores in the kernel's direct map. *)
Definition rd (m : gmap Z Z) (a : Z) : Z := default 0 (m !! a).
Definition load (a : Z) : K Z := gets (λ s, rd (mem s) a).
Definition store (a v : Z) : K unit := modify (λ s, set_mem (<[a := v]> (mem s)) s).

(** [p\[i\]] for a [pde_t *] or [pte_t *] whose address is [p]. *)
Definition slot (p i : Z) : Z := u64 (p + 8 * i).

(** [memset(kva, 0, PGSIZE)] on a page of 512 words. *)
Definition zero_words (kva : Z) (m : gmap Z Z) : gmap Z Z :=
  foldr (λ i m', <[slot kva i := 0]> m') m (seqZ 0 512).

(** ** Reads after writes *)

Lemma rd_insert m a b v : rd (<[a := v]> m) b = if decide (a = b) then v else rd m b.
Proof. unfold rd. rewrite lookup_insert. by case_decide. Qed.
Lemma rd_insert_eq m a v : rd (<[a := v]> m) a = v.
Proof. rewrite rd_insert. by case_decide. Qed.
Lemma rd_insert_ne m a b v : a ≠ b → rd (<[a := v]> m) b = rd m b.
Proof. intros. rewrite rd_insert. by case_decide. Qed.

Lemma rd_zero_list_in m kva (l : list Z) i :
  i ∈ l → rd (foldr (λ i m', <[slot kva i := 0]> m') m l) (slot kva i) = 0.
Proof.
  induction l as [|j l IH]; [by intros ?%elem_of_nil|].
  intros [->|H]%elem_of_cons; simpl; rewrite rd_insert; case_decide; naive_solver.
Qed.

Lemma rd_zero_list_out m kva (l : list Z) b :
  (∀ i, i ∈ l → b ≠ slot kva i) →
  rd (foldr (λ i m', <[slot kva i := 0]> m') m l) b = rd m b.
Proof.
  induction l as [|j l IH]; simpl; [done|]. intros H.
  rewrite rd_insert_ne by (intros <-; by apply (H j); [constructor|]).
  apply IH. intros i Hi. apply H. by constructor.
Qed.

Lemma rd_zero_words_in m kva i : 0 ≤ i < 512 → rd (zero_words kva m) (slot kva i) = 0.
Proof. intros. apply rd_zero_list_in, elem_of_seqZ. lia. Qed.

Lemma rd_zero_words_out m kva b :
  (∀ i, 0 ≤ i < 512 → b ≠ slot kva i) → rd (zero_words kva m) b = rd m b.
Proof. intros H. apply rd_zero_list_out. intros i Hi%elem_of_seqZ. apply H. lia. Qed.

#[global] Opaque zero_words.
