(* ===== verification/Pages.v ===== *)
(** * The physical page allocator of kern/riscv/pmap.c

    [boot_alloc], [riscv_detect_memory], [page_init], [page_alloc], [page_free]
    and [page_decref], with the address conversions of kern/riscv/pmap.h.  The
    free list is the linked list threaded through [pp_link]; the theorems show
    that it refines a LIFO list of page numbers. *)

From S2P Require Import Prelude Mmu Kstate.

(** ** Address conversions (kern/riscv/pmap.h) *)

Definition PADDR (kva : Z) : K Z :=
  if kva <? KERNBASE then panic else ret (kva - KERNBASE).

Definition KADDR (pa : Z) : K Z := λ s,
  if npages s <=? PGNUM pa then Panic s else Ret (u64 (pa + KERNBASE)) s.

Definition pa2page (pa : Z) : K nat := λ s,
  if npages s <=? PGNUM pa then Panic s else Ret (Z.to_nat (PGNUM pa)) s.

Definition page2kva (pp : nat) : K Z := KADDR (page2pa pp).

(** ** Boot time *)

(** The firmware bounds and the memory size are answers of SBI calls. *)
Definition riscv_detect_memory (fw_start fw_end memsize : Z) : K unit :=
  modify (set_firmmem (ROUNDUP (fw_end - fw_start) PGSIZE)) ;;;
  modify (set_npages (memsize / PGSIZE)) ;;;
  modify (set_npages_basemem (SIZE_2M / PGSIZE)).

(** [kend] is the linker symbol [end]; [n] is a [uint32_t]. *)
Definition boot_alloc (kend n : Z) : K Z :=
  modify (λ s, if boot_nextfree s =? 0
               then set_boot_nextfree (ROUNDUP kend PGSIZE) s else s) ;;;
  nextfree <- gets boot_nextfree ;;
  if 0 <? n then
    let n_page := i32 (n / PGSIZE + 1) in
    modify (set_boot_nextfree
      (ROUNDUP (u64 (nextfree + i32 (PGSIZE * n_page))) PGSIZE)) ;;;
    ret nextfree
  else ret nextfree.

(** The two loop bodies of [page_init]. *)
Definition page_init_used (i : Z) : K unit :=
  get_page (Z.to_nat i) ;;; put_page (Z.to_nat i) (mkPageInfo None 0).

Definition page_init_free (i : Z) : K unit :=
  get_page (Z.to_nat i) ;;;
  fl <- gets page_free_list ;;
  put_page (Z.to_nat i) (mkPageInfo fl 0) ;;;
  modify (set_page_free_list (Some (Z.to_nat i))).

Definition page_init_base (i : Z) : K unit :=
  if (MPENTRY_PADDR - 0x80000000) / PGSIZE =? i then page_init_used i
  else page_init_free i.

Definition page_init (kend : Z) : K unit :=
  fm <- gets firmmem ;;
  base <- gets npages_basemem ;;
  np <- gets npages ;;
  for_loop (Z.to_nat (fm / PGSIZE)) 0 page_init_used ;;;
  for_loop (Z.to_nat (base - fm / PGSIZE)) (fm / PGSIZE) page_init_base ;;;
  nextfree <- boot_alloc kend 0 ;;
  pa <- PADDR nextfree ;;
  let ext := EXTPHYSMEM / PGSIZE in
  let used := u64 (pa - PHYMEMOFF) / PGSIZE in
  for_loop (Z.to_nat (used - ext)) ext page_init_used ;;;
  let i := Z.max ext used in
  for_loop (Z.to_nat (np - i)) i page_init_free.

(** ** The allocator *)

Definition ALLOC_ZERO : Z := 1.

Definition page_alloc (alloc_flags : Z) : K (option nat) :=
  fl <- gets page_free_list ;;
  match fl with
  | None => ret None
  | Some pg_info =>
      p <- get_page pg_info ;;
      if negb (Z.land alloc_flags ALLOC_ZERO =? 0) then
        modify (set_page_free_list (pp_link p)) ;;;
        pg_addr <- page2kva pg_info ;;
        put_page pg_info (set_pp_link None p) ;;;
        modify (λ s, set_mem (zero_words pg_addr (mem s)) s) ;;;
        ret (Some pg_info)
      else
        modify (set_page_free_list (pp_link p)) ;;;
        put_page pg_info (set_pp_link None p) ;;;
        ret (Some pg_info)
  end.

Definition page_free (pp : nat) : K unit :=
  p <- get_page pp ;;
  if negb (pp_ref p =? 0) then panic else
  if pp_link p then panic else
  fl <- gets page_free_list ;;
  put_page pp (set_pp_link fl p) ;;;
  modify (set_page_free_list (Some pp)).

Definition page_decref (pp : nat) : K unit :=
  p <- get_page pp ;;
  let r := u16 (pp_ref p - 1) in
  put_page pp (set_pp_ref r p) ;;;
  if r =? 0 then page_free pp else ret tt.

(** ** The free list as a sequence of page numbers *)

(** The allocator's invariant, with the free pages as a ghost list. *)
Record pages_wf (s : kstate) (l : list nat) : Prop := {
  wf_length : Z.of_nat (length (pages s)) = npages s;
  wf_npages : npages s ≤ MAXPAGES;
  wf_chain : chain pp_link (pages s) (page_free_list s) l;
  wf_nodup : NoDup l;
  wf_free_ref i p : i ∈ l → pages s !! i = Some p → pp_ref p = 0;
  wf_used_link i p : i ∉ l → pages s !! i = Some p → pp_link p = None;
  wf_ref i p : pages s !! i = Some p → 0 ≤ pp_ref p < 2 ^ 16
}.

(** The invariant looks at three fields only. *)
Lemma pages_wf_ext s s' l :
  pages_wf s l → npages s' = npages s → pages s' = pages s →
  page_free_list s' = page_free_list s → pages_wf s' l.
Proof. intros [] E1 E2 E3. split; rewrite ?E1, ?E2, ?E3; done. Qed.

(** ** Behaviour of the operations *)

Lemma get_page_Some s i p : pages s !! i = Some p → get_page i s = Ret p s.
Proof. intros H. unfold get_page. by rewrite H. Qed.

Lemma get_page_Ret s i p s' :
  get_page i s = Ret p s' ↔ pages s !! i = Some p ∧ s' = s.
Proof. unfold get_page. case_match; naive_solver. Qed.

Lemma wf_lt s l i : pages_wf s l → is_Some (pages s !! i) → Z.of_nat i < npages s.
Proof. intros H Hi%lookup_lt_is_Some. destruct H. lia. Qed.

(** Kernel virtual address of a physical page. *)
Definition kva_of (pp : nat) : Z := u64 (page2pa pp + KERNBASE).

Lemma kva_of_spec pp :
  Z.of_nat pp < MAXPAGES → kva_of pp = KERNBASE + 2 ^ 31 + Z.of_nat pp * 4096.
Proof.
  intros H. unfold kva_of. rewrite page2pa_spec by done.
  unfold MAXPAGES in H. rewrite u64_small; unfold is_u64, KERNBASE; lia.
Qed.

Lemma KADDR_page s l i :
  pages_wf s l → is_Some (pages s !! i) → KADDR (page2pa i) s = Ret (kva_of i) s.
Proof.
  intros Hwf Hi. pose proof (wf_lt _ _ _ Hwf Hi). pose proof (wf_npages _ _ Hwf).
  unfold KADDR. rewrite PGNUM_page2pa by lia. case_match; [lia|done].
Qed.

Lemma pa2page_page s l i :
  pages_wf s l → is_Some (pages s !! i) → pa2page (page2pa i) s = Ret i s.
Proof.
  intros Hwf Hi. pose proof (wf_lt _ _ _ Hwf Hi). pose proof (wf_npages _ _ Hwf).
  unfold pa2page. rewrite PGNUM_page2pa by lia. case_match; [lia|]. by rewrite Nat2Z.id.
Qed.

(** The words of different pages do not overlap. *)
Lemma slot_kva pp i :
  Z.of_nat pp < MAXPAGES → 0 ≤ i < 512 → slot (kva_of pp) i = kva_of pp + 8 * i.
Proof.
  intros H Hi. unfold slot. rewrite kva_of_spec by done.
  unfold MAXPAGES in H. apply u64_small. unfold is_u64, KERNBASE. lia.
Qed.

Lemma slot_inj p q i j :
  Z.of_nat p < MAXPAGES → Z.of_nat q < MAXPAGES → 0 ≤ i < 512 → 0 ≤ j < 512 →
  slot (kva_of p) i = slot (kva_of q) j → p = q ∧ i = j.
Proof.
  intros Hp Hq Hi Hj. rewrite !slot_kva, !kva_of_spec by done. lia.
Qed.

(** The state after [page_alloc] took page [i] off the list. *)
Definition alloc_state (flags : Z) (i : nat) (p : PageInfo) (s : kstate) : kstate :=
  let s1 := set_pages (<[i := set_pp_link None p]> (pages s))
              (set_page_free_list (pp_link p) s) in
  if Z.land flags ALLOC_ZERO =? 0 then s1
  else set_mem (zero_words (kva_of i) (mem s)) s1.

Lemma page_alloc_cons s flags i l :
  pages_wf s (i :: l) →
  ∃ p, pages s !! i = Some p ∧
    page_alloc flags s = Ret (Some i) (alloc_state flags i p s).
Proof.
  intros Hwf. pose proof (wf_chain _ _ Hwf) as Hc. simpl in Hc.
  destruct Hc as (Hfl & p & Hp & Hc). exists p. split; [done|].
  unfold page_alloc, alloc_state. unfold bind at 1, gets at 1. rewrite Hfl.
  rewrite (bind_Ret_l _ _ _ _ _ (get_page_Some _ _ _ Hp)).
  destruct (Z.land flags ALLOC_ZERO =? 0); simpl; [done|].
  unfold bind at 1, modify at 1, page2kva. unfold bind at 1.
  assert (KADDR (page2pa i) (set_page_free_list (pp_link p) s) =
          Ret (kva_of i) (set_page_free_list (pp_link p) s)) as ->; [|done].
  pose proof (KADDR_page _ _ i Hwf (mk_is_Some _ _ Hp)) as Hk.
  unfold KADDR in *. simpl. by destruct (_ <=? _).
Qed.

Lemma page_alloc_nil s flags : pages_wf s [] → page_alloc flags s = Ret None s.
Proof. intros Hwf. pose proof (wf_chain _ _ Hwf) as H. simpl in H.
  unfold page_alloc, bind, gets. by rewrite H. Qed.

Lemma alloc_state_wf s flags i p l :
  pages_wf s (i :: l) → pages s !! i = Some p → pages_wf (alloc_state flags i p s) l.
Proof.
  intros Hwf Hp. pose proof (wf_chain _ _ Hwf) as (Hfl & q & Hq & Hc).
  pose proof (wf_nodup _ _ Hwf) as [Hni Hnd]%NoDup_cons. simplify_eq.
  assert (pages (alloc_state flags i p s) = <[i:=set_pp_link None p]> (pages s)) as Epg
    by (unfold alloc_state; by case_match).
  assert (page_free_list (alloc_state flags i p s) = pp_link p) as Efl
    by (unfold alloc_state; by case_match).
  assert (npages (alloc_state flags i p s) = npages s) as Enp
    by (unfold alloc_state; by case_match).
  split; rewrite ?Epg, ?Efl, ?Enp; rewrite ?length_insert; try by apply Hwf.
  - by apply chain_insert_notin.
  - done.
  - intros j r Hj. rewrite list_lookup_insert_ne by set_solver.
    intros Hr. eapply wf_free_ref; eauto. set_solver.
  - intros j r Hj. destruct (decide (i = j)) as [<-|Hij].
    + rewrite list_lookup_insert_eq by (by eapply lookup_lt_Some).
      intros [= <-]. done.
    + rewrite list_lookup_insert_ne by done. eapply wf_used_link; eauto. set_solver.
  - intros j r. destruct (decide (i = j)) as [<-|Hij].
    + rewrite list_lookup_insert_eq by (by eapply lookup_lt_Some).
      intros [= <-]. simpl. by eapply wf_ref.
    + rewrite list_lookup_insert_ne by done. by eapply wf_ref.
Qed.

Definition free_state (i : nat) (p : PageInfo) (s : kstate) : kstate :=
  set_page_free_list (Some i)
    (set_pages (<[i := set_pp_link (page_free_list s) p]> (pages s)) s).

Lemma page_free_eq s i p :
  pages s !! i = Some p →
  page_free i s =
    if negb (pp_ref p =? 0) then Panic s
    else if pp_link p then Panic s else Ret tt (free_state i p s).
Proof.
  intros Hp. unfold page_free. rewrite (bind_Ret_l _ _ _ _ _ (get_page_Some _ _ _ Hp)).
  destruct (negb _); [done|]. by destruct (pp_link p).
Qed.

Lemma page_free_used s l i p :
  pages_wf s l → i ∉ l → pages s !! i = Some p → pp_ref p = 0 →
  page_free i s = Ret tt (free_state i p s).
Proof.
  intros Hwf Hi Hp Hr. rewrite (page_free_eq _ _ _ Hp), Hr.
  by rewrite (wf_used_link _ _ Hwf i p Hi Hp).
Qed.

Lemma free_state_wf s l i p :
  pages_wf s l → i ∉ l → pages s !! i = Some p → pp_ref p = 0 →
  pages_wf (free_state i p s) (i :: l).
Proof.
  intros Hwf Hi Hp Hr. pose proof (lookup_lt_Some _ _ _ Hp) as Hlt.
  split; simpl; rewrite ?length_insert; try by apply Hwf.
  - split; [done|]. eexists. rewrite list_lookup_insert_eq by done. split; [done|].
    apply chain_insert_notin; [done|]. apply Hwf.
  - constructor; [done|apply Hwf].
  - intros j r [->|Hj]%elem_of_cons.
    + rewrite list_lookup_insert_eq by done. by intros [= <-].
    + rewrite list_lookup_insert_ne by (by intros ->). by eapply wf_free_ref.
  - intros j r [Hij Hj]%not_elem_of_cons. rewrite list_lookup_insert_ne by done.
    by eapply wf_used_link.
  - intros j r. destruct (decide (i = j)) as [<-|Hij].
    + rewrite list_lookup_insert_eq by done. intros [= <-]. simpl. by eapply wf_ref.
    + rewrite list_lookup_insert_ne by done. by eapply wf_ref.
Qed.

(** Changing the reference count of a page that is in use. *)
Definition ref_state (i : nat) (r : Z) (p : PageInfo) (s : kstate) : kstate :=
  set_pages (<[i := set_pp_ref r p]> (pages s)) s.

Lemma ref_state_wf s l i p r :
  pages_wf s l → i ∉ l → pages s !! i = Some p → 0 ≤ r < 2 ^ 16 →
  pages_wf (ref_state i r p s) l.
Proof.
  intros Hwf Hi Hp Hr. pose proof (lookup_lt_Some _ _ _ Hp) as Hlt.
  split; simpl; rewrite ?length_insert; try by apply Hwf.
  - apply chain_insert_notin; [done|]. apply Hwf.
  - intros j q Hj. rewrite list_lookup_insert_ne by set_solver. by eapply wf_free_ref.
  - intros j q Hj. destruct (decide (i = j)) as [<-|Hij].
    + rewrite list_lookup_insert_eq by done. intros [= <-]. simpl. by eapply wf_used_link.
    + rewrite list_lookup_insert_ne by done. by eapply wf_used_link.
  - intros j q. destruct (decide (i = j)) as [<-|Hij].
    + rewrite list_lookup_insert_eq by done. by intros [= <-].
    + rewrite list_lookup_insert_ne by done. by eapply wf_ref.
Qed.

(** [page_decref] on a page in use: the count drops by one, and the page goes
    to the front of the free list exactly when the count reaches zero. *)
Definition decref_list (i : nat) (p : PageInfo) (l : list nat) : list nat :=
  if pp_ref p =? 1 then i :: l else l.

Lemma page_decref_used s l i p :
  pages_wf s l → i ∉ l → pages s !! i = Some p → pp_ref p ≠ 0 →
  ∃ s', page_decref i s = Ret tt s' ∧ pages_wf s' (decref_list i p l)
    ∧ mem s' = mem s
    ∧ pages s' = <[i := mkPageInfo (if pp_ref p =? 1 then page_free_list s else None)
                          (pp_ref p - 1)]> (pages s)
    ∧ s' = set_page_free_list (page_free_list s') (set_pages (pages s') s).
Proof.
  intros Hwf Hi Hp Hr. pose proof (wf_ref _ _ Hwf i p Hp) as Hb.
  pose proof (wf_used_link _ _ Hwf i p Hi Hp) as Hl.
  pose proof (lookup_lt_Some _ _ _ Hp) as Hlt.
  unfold page_decref. rewrite (bind_Ret_l _ _ _ _ _ (get_page_Some _ _ _ Hp)).
  cbv zeta. rewrite u16_small by lia.
  rewrite (bind_Ret_l (put_page i (set_pp_ref (pp_ref p - 1) p)) _ s tt
    (ref_state i (pp_ref p - 1) p s) eq_refl).
  pose proof (ref_state_wf s l i p (pp_ref p - 1) Hwf Hi Hp ltac:(lia)) as Hwf1.
  assert (pages (ref_state i (pp_ref p - 1) p s) !! i = Some (set_pp_ref (pp_ref p - 1) p))
    as Hp1 by (simpl; by rewrite list_lookup_insert_eq).
  unfold decref_list.
  destruct (Z.eqb_spec (pp_ref p - 1) 0) as [E|E], (Z.eqb_spec (pp_ref p) 1); try lia.
  - eexists. split; [by eapply page_free_used|].
    split; [by eapply free_state_wf|]. split; [done|]. split; [|by destruct s].
    simpl. by rewrite list_insert_insert_eq.
  - eexists. split; [done|]. split; [done|]. split; [done|]. split; [|by destruct s].
    simpl. unfold set_pp_ref. by rewrite Hl.
Qed.

#[export] Hint Resolve alloc_state_wf free_state_wf ref_state_wf : zynex.

(** ** [page_init] establishes the invariant *)

(** What [mem_init] and [riscv_detect_memory] have set up before the call. *)
Record boot_ok (s : kstate) : Prop := {
  bo_length : Z.of_nat (length (pages s)) = npages s;
  bo_npages : npages s ≤ MAXPAGES;
  bo_zero i p : pages s !! i = Some p → p = mkPageInfo None 0;
  bo_list : page_free_list s = None;
  bo_firm : 0 ≤ firmmem s / PGSIZE ≤ npages_basemem s;
  bo_base : npages_basemem s = EXTPHYSMEM / PGSIZE;
  bo_ext : EXTPHYSMEM / PGSIZE ≤ npages s;
  bo_next : KERNBASE + PHYMEMOFF ≤ boot_nextfree s < 2 ^ 64;
  bo_room : (boot_nextfree s - KERNBASE - PHYMEMOFF) / PGSIZE ≤ npages s
}.

(** Pages below the end of what [boot_alloc] handed out. *)
Definition boot_used (s : kstate) : Z := (boot_nextfree s - KERNBASE - PHYMEMOFF) / PGSIZE.

(** The free pages [page_init] is to leave. *)
Definition init_free (s : kstate) (i : nat) : Prop :=
  (firmmem s / PGSIZE ≤ Z.of_nat i < EXTPHYSMEM / PGSIZE ∧
     Z.of_nat i ≠ (MPENTRY_PADDR - PHYMEMOFF) / PGSIZE)
  ∨ (Z.max (EXTPHYSMEM / PGSIZE) (boot_used s) ≤ Z.of_nat i < npages s).

(** The fields the loops leave alone. *)
Definition same_boot (s s' : kstate) : Prop :=
  npages s' = npages s ∧ firmmem s' = firmmem s ∧
  npages_basemem s' = npages_basemem s ∧ boot_nextfree s' = boot_nextfree s ∧
  mem s' = mem s.

Lemma page_init_used_step s l i :
  pages_wf s l → 0 ≤ i < npages s → Z.to_nat i ∉ l →
  ∃ s', page_init_used i s = Ret tt s' ∧ pages_wf s' l ∧ same_boot s s'.
Proof.
  intros Hwf Hi Hl.
  destruct (lookup_lt_is_Some_2 (pages s) (Z.to_nat i)) as [p Hp].
  { pose proof (wf_length _ _ Hwf). lia. }
  unfold page_init_used. rewrite (bind_Ret_l _ _ _ _ _ (get_page_Some _ _ _ Hp)).
  pose proof (wf_used_link _ _ Hwf _ _ Hl Hp) as Hlk.
  exists (ref_state (Z.to_nat i) 0 p s). split; [|split].
  - unfold ref_state, set_pp_ref. by rewrite Hlk.
  - apply ref_state_wf; auto. lia.
  - done.
Qed.

Lemma page_init_free_step s l i :
  pages_wf s l → 0 ≤ i < npages s → Z.to_nat i ∉ l →
  ∃ s', page_init_free i s = Ret tt s' ∧ pages_wf s' (Z.to_nat i :: l) ∧ same_boot s s'.
Proof.
  intros Hwf Hi Hl.
  destruct (page_init_used_step s l i Hwf Hi Hl) as (s1 & E & Hwf1 & Hs1).
  unfold page_init_used in E. inv_ret E.
  apply get_page_Ret in Hm as [Hp ->]. unfold put_page in Hk. inv_ret Hk.
  pose proof (lookup_lt_Some _ _ _ Hp) as Hlt.
  eexists. split; [|split].
  - unfold page_init_free. rewrite (bind_Ret_l _ _ _ _ _ (get_page_Some _ _ _ Hp)). done.
  - eapply (free_state_wf _ l (Z.to_nat i) (mkPageInfo None 0)) in Hwf1; [|done| |done].
    + unfold free_state in Hwf1. simpl in Hwf1.
      rewrite list_insert_insert_eq in Hwf1. exact Hwf1.
    + simpl. by rewrite list_lookup_insert_eq.
  - done.
Qed.

(** The invariant of the loops: the pages in [l] are those below [j] that the
    loop was to free. *)
Definition init_inv (s0 : kstate) (Q : nat → Prop) (j : Z) (s : kstate) : Prop :=
  same_boot s0 s ∧ ∃ l, pages_wf s l ∧ ∀ i, i ∈ l ↔ Q i ∧ Z.of_nat i < j.

Lemma page_init_loop s0 (Q : nat → Prop) (n : nat) i (body : Z → K unit) s :
  0 ≤ i → i + Z.of_nat n ≤ npages s0 →
  (∀ j, i ≤ j < i + Z.of_nat n →
     (Q (Z.to_nat j) ∧ ∀ t, body j t = page_init_free j t) ∨
     (¬ Q (Z.to_nat j) ∧ ∀ t, body j t = page_init_used j t)) →
  init_inv s0 Q i s →
  ∃ s', for_loop n i body s = Ret tt s' ∧ init_inv s0 Q (i + Z.of_nat n) s'.
Proof.
  intros Hi Hn HQ H0. apply (for_loop_inv (init_inv s0 Q)); [done|].
  intros j t Hj ((Enp & ?) & l & Hwf & Hl).
  assert (Z.to_nat j ∉ l) as Hnl by (rewrite Hl; lia).
  destruct (HQ j Hj) as [[Hq E]|[Hq E]]; rewrite E.
  - destruct (page_init_free_step t l j Hwf ltac:(lia) Hnl) as (t' & Et & Hwf' & Hs).
    exists t'. split; [done|]. split; [unfold same_boot in *; naive_solver congruence|].
    eexists. split; [done|]. intros k. rewrite elem_of_cons, Hl.
    destruct (decide (k = Z.to_nat j)) as [->|]; [|intuition lia].
    intuition lia.
  - destruct (page_init_used_step t l j Hwf ltac:(lia) Hnl) as (t' & Et & Hwf' & Hs).
    exists t'. split; [done|]. split; [unfold same_boot in *; naive_solver congruence|].
    exists l. split; [done|]. intros k. rewrite Hl.
    split; intros [Hk ?]; (split; [done|]); [lia|].
    destruct (decide (k = Z.to_nat j)) as [->|]; [done|lia].
Qed.

Lemma boot_pages_wf s : boot_ok s → pages_wf s [].
Proof.
  intros H. split; try by apply H.
  - apply NoDup_nil_2.
  - by intros i p ?%elem_of_nil.
  - intros i p _ Hp. by rewrite (bo_zero _ H _ _ Hp).
  - intros i p Hp. rewrite (bo_zero _ H _ _ Hp). simpl. lia.
Qed.

Lemma boot_alloc_0 s kend :
  boot_nextfree s ≠ 0 → boot_alloc kend 0 s = Ret (boot_nextfree s) s.
Proof.
  intros H. unfold boot_alloc, bind, modify, gets.
  destruct (Z.eqb_spec (boot_nextfree s) 0); [done|]. done.
Qed.

Lemma page_init_run s kend :
  boot_ok s →
  ∃ s', page_init kend s = Ret tt s' ∧ init_inv s (init_free s) (npages s) s'.
Proof.
  intros H. pose proof (bo_firm _ H). pose proof (bo_base _ H) as Eb.
  pose proof (bo_ext _ H). pose proof (bo_next _ H) as Hn. pose proof (bo_room _ H).
  change (EXTPHYSMEM / PGSIZE) with 512 in *.
  set (fm := firmmem s / PGSIZE) in *. set (Q := init_free s).
  assert (∀ j, 0 ≤ j < fm → ¬ Q (Z.to_nat j)) as HQ1.
  { unfold Q, init_free. fold fm. change (EXTPHYSMEM / PGSIZE) with 512. lia. }
  assert (∀ j, 512 ≤ j < boot_used s → ¬ Q (Z.to_nat j)) as HQ3.
  { unfold Q, init_free. change (EXTPHYSMEM / PGSIZE) with 512. lia. }
  assert (∀ j, Z.max 512 (boot_used s) ≤ j < npages s → Q (Z.to_nat j)) as HQ4.
  { intros j Hj. right. change (EXTPHYSMEM / PGSIZE) with 512. lia. }
  assert (init_inv s Q 0 s) as I0.
  { split; [done|]. exists []. split; [by apply boot_pages_wf|].
    intros i. rewrite elem_of_nil. lia. }
  unfold page_init, gets. do 3 rewrite (bind_Ret_l (λ s, Ret _ s) _ _ _ _ eq_refl).
  fold fm.
  destruct (page_init_loop s Q (Z.to_nat fm) 0 page_init_used s)
    as (s1 & E1 & I1); [lia|lia|naive_solver lia|done|].
  rewrite (bind_Ret_l _ _ _ _ _ E1). clear E1.
  replace (0 + Z.of_nat (Z.to_nat fm)) with fm in I1 by lia.
  destruct (page_init_loop s Q (Z.to_nat (512 - fm)) fm page_init_base s1)
    as (s2 & E2 & I2); [lia|lia| |done|].
  { intros j Hj. unfold page_init_base.
    change ((MPENTRY_PADDR - 0x80000000) / PGSIZE) with 256. destruct (Z.eqb_spec 256 j).
    - right. split; [|done]. unfold Q, init_free. fold fm.
      change ((MPENTRY_PADDR - PHYMEMOFF) / PGSIZE) with 256.
      change (EXTPHYSMEM / PGSIZE) with 512. lia.
    - left. split; [|done]. left. fold fm.
      change ((MPENTRY_PADDR - PHYMEMOFF) / PGSIZE) with 256.
      change (EXTPHYSMEM / PGSIZE) with 512. lia. }
  rewrite Eb, (bind_Ret_l _ _ _ _ _ E2). clear E2 I1 s1.
  replace (fm + Z.of_nat (Z.to_nat (512 - fm))) with 512 in I2 by lia.
  assert (boot_nextfree s2 = boot_nextfree s) as En by apply I2.
  rewrite (bind_Ret_l _ _ _ _ _ (boot_alloc_0 s2 kend ltac:(unfold KERNBASE, PHYMEMOFF in *; lia))).
  rewrite En. unfold PADDR at 1.
  destruct (Z.ltb_spec (boot_nextfree s) KERNBASE); [unfold PHYMEMOFF in *; lia|].
  rewrite (bind_Ret_l (ret _) _ _ _ _ eq_refl). cbv zeta.
  rewrite u64_small by (unfold is_u64, KERNBASE, PHYMEMOFF in *; lia).
  change (EXTPHYSMEM / PGSIZE) with 512. fold (boot_used s).
  destruct (page_init_loop s Q (Z.to_nat (boot_used s - 512)) 512 page_init_used s2)
    as (s3 & E3 & I3); [lia|unfold boot_used in *; lia| |done|].
  { intros j Hj. right. split; [|done]. apply HQ3. lia. }
  rewrite (bind_Ret_l _ _ _ _ _ E3). clear E3.
  replace (512 + Z.of_nat (Z.to_nat (boot_used s - 512)))
    with (Z.max 512 (boot_used s)) in I3 by lia.
  set (i := Z.max 512 (boot_used s)) in *.
  destruct (page_init_loop s Q (Z.to_nat (npages s - i)) i page_init_free s3)
    as (s4 & E4 & I4); [lia|unfold boot_used in *; lia| |done|].
  { intros j Hj. left. split; [|done]. apply HQ4. lia. }
  exists s4. split; [done|].
  by replace (i + Z.of_nat (Z.to_nat (npages s - i))) with (npages s) in I4
    by (unfold boot_used in *; lia).
Qed.

(** ** Properties *)

(** C21 ([page_init]): after [mem_init] has zeroed [pages], [page_init] returns and
    leaves a well-formed free list that holds exactly the pages between the
    firmware and 2 MB, without the page reserved for the AP entry code, and the
    pages above everything [boot_alloc] handed out. *)
Theorem page_init_correct (s : kstate) (kend : Z) (H : boot_ok s) :
  ∃ s' l, page_init kend s = Ret tt s' ∧ pages_wf s' l ∧
    (∀ i, i ∈ l ↔ init_free s i) ∧ mem s' = mem s.
Proof.
  destruct (page_init_run s kend H) as (s' & E & Hs & l & Hwf & Hl).
  exists s', l. split_and!; [done|done| |apply Hs].
  intros i. rewrite Hl. split; [by intros [??]|]. intros Hi. split; [done|].
  pose proof (bo_ext _ H). destruct Hi as [[??]|?]; lia.
Qed.

(** A machine of 600 pages whose kernel image and boot allocations end at
    page 560, with 35 pages of firmware. *)
Definition boot_example : kstate :=
  mkKstate 600 512 (35 * PGSIZE) (KERNBASE + PHYMEMOFF + 560 * PGSIZE)
    (replicate 600 (mkPageInfo None 0)) None ∅ 0 0 0 [] None None (0, 0) [] false false false
    0 0 0 [] 0 0 [] false zero_nic 0.

Lemma boot_example_ok : boot_ok boot_example.
Proof.
  split; try done.
  intros i p Hp. by apply lookup_replicate in Hp as [-> _].
Qed.

Lemma page_init_witness :
  ∃ s' l, page_init (KERNBASE + PHYMEMOFF) boot_example = Ret tt s' ∧ pages_wf s' l ∧
    (∀ i, i ∈ l ↔ init_free boot_example i) ∧ mem s' = mem boot_example.
Proof. apply page_init_correct. exact boot_example_ok. Defined.

(** An abstract allocator: a stack of page numbers. *)
Inductive page_op := OpAlloc (flags : Z) | OpFree (pp : nat).

Definition spec_op (n : nat) (op : page_op) (l : list nat) : option (option nat * list nat) :=
  match op with
  | OpAlloc _ => match l with [] => Some (None, []) | i :: l' => Some (Some i, l') end
  | OpFree i => if decide (i ∉ l ∧ (i < n)%nat) then Some (None, i :: l) else None
  end.

Definition run_op (op : page_op) : K (option nat) :=
  match op with
  | OpAlloc flags => page_alloc flags
  | OpFree i => page_free i ;;; ret None
  end.

Fixpoint spec_ops (n : nat) (ops : list page_op) (l : list nat) :
    option (list (option nat) * list nat) :=
  match ops with
  | [] => Some ([], l)
  | op :: ops' =>
      '(r, l1) ← spec_op n op l;
      '(rs, l2) ← spec_ops n ops' l1;
      Some (r :: rs, l2)
  end.

Fixpoint run_ops (ops : list page_op) : K (list (option nat)) :=
  match ops with
  | [] => ret []
  | op :: ops' => r <- run_op op ;; rs <- run_ops ops' ;; ret (r :: rs)
  end.

Definition refs_zero (s : kstate) : Prop := ∀ i p, pages s !! i = Some p → pp_ref p = 0.

Lemma refs_zero_insert s s' i p :
  refs_zero s → pages s' = <[i := p]> (pages s) → pp_ref p = 0 → refs_zero s'.
Proof.
  intros H E Hp j q. rewrite E. intros [(-> & <- & _)|(_ & Hq)]%list_lookup_insert_Some;
    [done|by eapply H].
Qed.

Lemma run_op_refines s l op r l' :
  pages_wf s l → refs_zero s → spec_op (length (pages s)) op l = Some (r, l') →
  ∃ s', run_op op s = Ret r s' ∧ pages_wf s' l' ∧ refs_zero s' ∧
    length (pages s') = length (pages s).
Proof.
  intros Hwf Hz. destruct op as [flags|i]; simpl.
  - destruct l as [|i l]; intros [= <- <-].
    + exists s. by rewrite page_alloc_nil.
    + destruct (page_alloc_cons s flags i l Hwf) as (p & Hp & E).
      assert (pages (alloc_state flags i p s) = <[i:=set_pp_link None p]> (pages s)) as Epg
        by (unfold alloc_state; by case_match).
      eexists. split; [done|]. split; [by eapply alloc_state_wf|].
      rewrite Epg, length_insert. split; [|done].
      eapply refs_zero_insert; eauto. simpl. by eapply Hz.
  - case_decide as Hd; [|done]. destruct Hd as [Hi Hlt]. intros [= <- <-].
    apply lookup_lt_is_Some_2 in Hlt as [p Hp].
    rewrite (bind_Ret_l _ _ _ _ _ (page_free_used s l i p Hwf Hi Hp (Hz _ _ Hp))).
    eexists. split; [done|]. split; [eauto with zynex|]. simpl.
    rewrite length_insert. split; [|done].
    eapply refs_zero_insert; [done|done|]. simpl. by eapply Hz.
Qed.

(** C2 ([page_alloc], [page_free]): on every sequence of allocations and frees the
    linked free list behaves as a stack: as long as no page is freed twice, the
    code returns, hands out the pages the abstract stack hands out, returns null
    exactly when the stack is empty, and ends with the stack's contents. *)
Theorem page_ops_refine (ops : list page_op) (s : kstate) (l l' : list nat)
    (rs : list (option nat)) (Hwf : pages_wf s l) (Hz : refs_zero s)
    (Hspec : spec_ops (length (pages s)) ops l = Some (rs, l')) :
  ∃ s', run_ops ops s = Ret rs s' ∧ pages_wf s' l' ∧ refs_zero s'.
Proof.
  revert s l rs Hwf Hz Hspec. induction ops as [|op ops IH]; intros s l rs Hwf Hz H; simpl in H.
  { simplify_eq. by exists s. }
  destruct (spec_op _ op l) as [[r l1]|] eqn:E1; simpl in H; [|done].
  destruct (run_op_refines s l op r l1 Hwf Hz E1) as (s1 & R1 & Hwf1 & Hz1 & Hlen).
  destruct (spec_ops _ ops l1) as [[rs' l2]|] eqn:E2; simpl in H; [|done]. simplify_eq.
  rewrite <-Hlen in E2. destruct (IH s1 l1 rs' Hwf1 Hz1 E2) as (s2 & R2 & ?).
  exists s2. simpl. by rewrite (bind_Ret_l _ _ _ _ _ R1), (bind_Ret_l _ _ _ _ _ R2).
Qed.

(** Four pages, of which 3 and 1 are free. *)
Definition pages_example : kstate :=
  mkKstate 4 0 0 0
    [mkPageInfo None 0; mkPageInfo None 0; mkPageInfo None 0; mkPageInfo (Some 1%nat) 0]
    (Some 3%nat) ∅ 0 0 0 [] None None (0, 0) [] false false false
    0 0 0 [] 0 0 [] false zero_nic 0.

Lemma pages_example_wf : pages_wf pages_example [3; 1]%nat.
Proof.
  split; try done.
  - simpl. split; [done|]. eexists. split; [done|]. simpl. split; [done|]. eexists. done.
  - apply (bool_decide_unpack _). by vm_compute.
  - intros i p _ Hp. do 4 (destruct i; [naive_solver|]). done.
  - intros i p Hi Hp. do 3 (destruct i; [naive_solver|]). destruct i; [set_solver|done].
  - intros i p Hp. do 4 (destruct i; [simpl in Hp; simplify_eq; simpl; lia|]). done.
Qed.

Lemma pages_example_refs : refs_zero pages_example.
Proof. intros i p Hp. do 4 (destruct i; [naive_solver|]). done. Qed.

Lemma page_ops_witness :
  ∃ s', run_ops [OpAlloc 0; OpAlloc 0; OpAlloc 0; OpFree 1; OpAlloc 1] pages_example
        = Ret [Some 3%nat; Some 1%nat; None; None; Some 1%nat] s' ∧
    pages_wf s' [] ∧ refs_zero s'.
Proof.
  apply (page_ops_refine _ _ [3; 1]%nat);
    [exact pages_example_wf|exact pages_example_refs|reflexivity].
Defined.

(** ([page_alloc]): with [ALLOC_ZERO] every word of the page handed out reads
    zero, and in every case the words of all other pages and the other entries of
    [pages] keep their values. *)
Theorem page_alloc_contents (s : kstate) (flags : Z) (i : nat) (l : list nat)
    (Hwf : pages_wf s (i :: l)) :
  ∃ s', page_alloc flags s = Ret (Some i) s' ∧
    (Z.land flags ALLOC_ZERO ≠ 0 →
       ∀ k, 0 ≤ k < 512 → rd (mem s') (slot (kva_of i) k) = 0) ∧
    (∀ j k, j ≠ i → Z.of_nat j < MAXPAGES → 0 ≤ k < 512 →
       rd (mem s') (slot (kva_of j) k) = rd (mem s) (slot (kva_of j) k)) ∧
    (∀ j, j ≠ i → pages s' !! j = pages s !! j).
Proof.
  destruct (page_alloc_cons s flags i l Hwf) as (p & Hp & E).
  pose proof (wf_lt _ _ i Hwf (mk_is_Some _ _ Hp)). pose proof (wf_npages _ _ Hwf).
  eexists. split; [done|]. unfold alloc_state.
  destruct (Z.eqb_spec (Z.land flags ALLOC_ZERO) 0); simpl; split_and!; try done.
  2: by intros _ k Hk; apply rd_zero_words_in.
  2: intros j k Hij Hj Hk; apply rd_zero_words_out; intros k' Hk' Heq;
     apply slot_inj in Heq; naive_solver lia.
  all: intros j Hij; by rewrite list_lookup_insert_ne.
Qed.

Lemma page_alloc_contents_witness :
  ∃ s', page_alloc 1 pages_example = Ret (Some 3%nat) s' ∧
    (Z.land 1 ALLOC_ZERO ≠ 0 →
       ∀ k, 0 ≤ k < 512 → rd (mem s') (slot (kva_of 3) k) = 0) ∧
    (∀ j k, j ≠ 3%nat → Z.of_nat j < MAXPAGES → 0 ≤ k < 512 →
       rd (mem s') (slot (kva_of j) k) = rd (mem pages_example) (slot (kva_of j) k)) ∧
    (∀ j, j ≠ 3%nat → pages s' !! j = pages pages_example !! j).
Proof. apply (page_alloc_contents _ _ _ [1%nat]). exact pages_example_wf. Defined.

(** ([page_free]): freeing a page that is already free is caught by the check
    on [pp_link] unless the page is the last of the list; for that page the call
    returns and the free list becomes cyclic, so that no finite list is traced
    from its head. *)
Theorem page_free_twice (s : kstate) (l : list nat) (i : nat)
    (Hwf : pages_wf s l) (Hi : i ∈ l) :
  (last l ≠ Some i → page_free i s = Panic s) ∧
  (last l = Some i → ∃ s', page_free i s = Ret tt s' ∧
     ∀ l', ¬ chain pp_link (pages s') (page_free_list s') l').
Proof.
  pose proof (wf_chain _ _ Hwf) as Hc. pose proof (wf_nodup _ _ Hwf) as Hnd.
  destruct (chain_lookup _ _ _ _ Hc Hi) as [p Hp].
  rewrite (page_free_eq _ _ _ Hp), (wf_free_ref _ _ Hwf i p Hi Hp). simpl.
  split; intros Hlast.
  - by destruct (chain_link_inner _ _ _ _ _ Hc Hi Hlast Hnd Hp) as [j ->].
  - rewrite (chain_link_last _ _ _ _ _ Hc Hlast Hp). eexists. split; [done|].
    intros l'. apply (chain_cycle _ (λ k, k ∈ l)); [|by exists i].
    intros k q Hk. simpl. intros [(<- & <- & _)|(Hik & Hq)]%list_lookup_insert_Some.
    + simpl. destruct l as [|j l]; [by apply elem_of_nil in Hi|]. destruct Hc as [-> _].
      exists j. set_solver.
    + destruct (chain_link_inner _ _ _ _ _ Hc Hk ltac:(naive_solver) Hnd Hq) as [j Hj].
      exists j. split; [done|]. by eapply chain_link_in.
Qed.

Lemma page_free_twice_witness :
  (last [3; 1]%nat ≠ Some 1%nat → page_free 1 pages_example = Panic pages_example) ∧
  (last [3; 1]%nat = Some 1%nat → ∃ s', page_free 1 pages_example = Ret tt s' ∧
     ∀ l', ¬ chain pp_link (pages s') (page_free_list s') l').
Proof. apply page_free_twice; [exact pages_example_wf|set_solver]. Defined.
