(* ===== verification/Pgtable.v ===== *)
(** * Page tables of kern/riscv/pmap.c

    The four-level walk ([pgdir_walk] and its helpers), [boot_map_region],
    [page_lookup], [page_insert], [page_remove], [tlb_invalidate],
    [mmio_map_region], the boot mappings and [user_mem_check].

    The abstract view of a page directory is the function from virtual addresses
    to leaf entries ([leaf]); the theorems show how each operation changes it. *)

From S2P Require Import Prelude Mmu Kstate Pages.

(** ** Walking *)

Definition pte_valid (e : Z) : bool := negb (Z.land e PTE_V =? 0).

Definition pgdir_walk_through (pgdir va : Z) : K (option Z) :=
  e0 <- load (slot pgdir (PD0X va)) ;;
  if negb (pte_valid e0) then ret None else
  t1 <- KADDR (PDE_PHY e0) ;;
  e1 <- load (slot t1 (PD1X va)) ;;
  if negb (pte_valid e1) then ret None else
  t2 <- KADDR (PDE_PHY e1) ;;
  e2 <- load (slot t2 (PD2X va)) ;;
  if negb (pte_valid e2) then ret None else
  t3 <- KADDR (PDE_PHY e2) ;;
  ret (Some (slot t3 (PTX va))).

(** [pp->pp_ref++] on a [uint16_t]. *)
Definition incref (pp : nat) : K unit :=
  p <- get_page pp ;; put_page pp (set_pp_ref (u16 (pp_ref p + 1)) p).

(** [page_alloc(ALLOC_ZERO)] followed by the increment of the new page's count. *)
Definition alloc_table : K (option nat) :=
  pg_info <- page_alloc ALLOC_ZERO ;;
  match pg_info with
  | None => ret None
  | Some pp => incref pp ;;; ret (Some pp)
  end.

(** One level of [pgdir_create_page_level]: if the entry is not valid, install
    the page at hand and allocate the next one. *)
Definition create_level (tbl i : Z) (pp : nat) : K (option nat) :=
  e <- load (slot tbl i) ;;
  if negb (pte_valid e) then
    store (slot tbl i) (Z.lor (PDE_ENTRY (page2pa pp)) PTE_V) ;;;
    alloc_table
  else ret (Some pp).

Definition pgdir_create_page_level (pgdir va : Z) : K (option Z) :=
  pg0 <- alloc_table ;;
  match pg0 with None => ret None | Some p0 =>
  pg1 <- create_level pgdir (PD0X va) p0 ;;
  match pg1 with None => ret None | Some p1 =>
  e0 <- load (slot pgdir (PD0X va)) ;;
  t1 <- KADDR (PDE_PHY e0) ;;
  pg2 <- create_level t1 (PD1X va) p1 ;;
  match pg2 with None => ret None | Some p2 =>
  e1 <- load (slot t1 (PD1X va)) ;;
  t2 <- KADDR (PDE_PHY e1) ;;
  e2 <- load (slot t2 (PD2X va)) ;;
  (if negb (pte_valid e2)
   then store (slot t2 (PD2X va)) (Z.lor (PDE_ENTRY (page2pa p2)) PTE_V)
   else ret tt) ;;;
  e2' <- load (slot t2 (PD2X va)) ;;
  t3 <- KADDR (PDE_PHY e2') ;;
  ret (Some (slot t3 (PTX va)))
  end end end.

Definition pgdir_walk (pgdir va : Z) (create : bool) : K (option Z) :=
  r <- pgdir_walk_through pgdir va ;;
  match r with
  | Some pte => ret (Some pte)
  | None => if create then pgdir_create_page_level pgdir va else ret None
  end.

(** ** Mapping and unmapping *)

(** One iteration of [boot_map_region] at page [i] of the region. *)
Definition boot_map_page (pgdir va pa perm i : Z) : K unit :=
  p_pte <- pgdir_walk pgdir (u64 (va + i * PGSIZE)) true ;;
  match p_pte with
  | None => panic
  | Some p =>
      store p (Z.lor (Z.lor (PTE_ENTRY (u64 (pa + i * PGSIZE))) perm) PTE_V)
  end.

Definition boot_map_region (pgdir va size pa perm : Z) : K unit :=
  for_loop (Z.to_nat (size / PGSIZE)) 0 (boot_map_page pgdir va pa perm).

Definition page_lookup (pgdir va : Z) : K (option (nat * Z)) :=
  p_pte <- pgdir_walk pgdir va false ;;
  match p_pte with
  | None => ret None
  | Some p =>
      v <- load p ;;
      if v =? 0 then ret None else
      pg_info <- pa2page (PTE_PHY v) ;;
      ret (Some (pg_info, p))
  end.

(** The invalidation reaches the TLB only for the address space in use; the
    state records the flushed page addresses, the latest first. *)
Definition tlb_invalidate (pgdir va : Z) : K unit :=
  cur <- gets curenv ;;
  flush <- match cur with
           | None => ret true
           | Some e => v <- get_env e ;; ret (env_pgdir v =? pgdir)
           end ;;
  if flush : bool
  then modify (λ s, set_tlb_flushes (ROUNDDOWN va PGSIZE :: tlb_flushes s) s)
  else ret tt.

Definition page_remove (pgdir va : Z) : K unit :=
  r <- page_lookup pgdir va ;;
  match r with
  | None => ret tt
  | Some (pg_info, p_pte) =>
      p <- get_page pg_info ;;
      assert_ (negb (pp_ref p =? 0)) ;;;
      page_decref pg_info ;;;
      store p_pte 0 ;;;
      tlb_invalidate pgdir va
  end.

(** The entry [page_insert] writes; [perm] is an [int], sign-extended. *)
Definition insert_entry (pp : nat) (perm : Z) : Z :=
  Z.lor (Z.lor (PTE_ENTRY (page2pa pp)) (u64 perm)) PTE_V.

Definition page_insert (pgdir : Z) (pp : nat) (va perm : Z) : K Z :=
  r <- pgdir_walk pgdir va true ;;
  match r with
  | None => ret (- E_NO_MEM)
  | Some p_pte =>
      v <- load p_pte ;;
      (if negb (v =? 0) then
         if negb (Z.land v (u64 (Z.lnot 0xffc00000000003ff)) =? PTE_ENTRY (page2pa pp))
         then page_remove pgdir va ;;; incref pp ;;; store p_pte (insert_entry pp perm)
         else store p_pte (insert_entry pp perm)
       else incref pp ;;; store p_pte (insert_entry pp perm)) ;;;
      fl <- gets page_free_list ;;
      (if decide (fl = Some pp)
       then p <- get_page pp ;; modify (set_page_free_list (pp_link p))
       else ret tt) ;;;
      ret 0
  end.

(** ** Device and boot mappings *)

Definition mmio_map_region (pa size : Z) : K Z :=
  modify (λ s, if mmio_nextfree s =? 0 then set_mmio_nextfree MMIOBASE s else s) ;;;
  result <- gets mmio_nextfree ;;
  (if MMIOLIM <? ROUNDUP (MMIOBASE + size) PGSIZE then panic else ret tt) ;;;
  pgdir <- gets kern_pgdir ;;
  boot_map_region pgdir result (ROUNDUP size PGSIZE) pa
    (Z.lor (Z.lor PTE_W PTE_R) PTE_V) ;;;
  modify (set_mmio_nextfree (u64 (result + ROUNDUP size PGSIZE))) ;;;
  ret result.

(** [percpu_kstacks] lists the kernel virtual addresses of the stacks. *)
Definition mem_init_mp (percpu_kstacks : list Z) : K unit :=
  for_loop (length percpu_kstacks) 0 (λ i,
    kstack <- deref (percpu_kstacks !! Z.to_nat i) ;;
    pgdir <- gets kern_pgdir ;;
    pa <- PADDR kstack ;;
    boot_map_region pgdir (KSTACKTOP - i * (KSTKSIZE + KSTKGAP) - KSTKSIZE)
      KSTKSIZE pa (Z.lor PTE_W PTE_R)).

Definition flash_map_init : K unit :=
  pgdir <- gets kern_pgdir ;;
  boot_map_region pgdir FLASH_MAP_ADDR 0x2000000 0x20000000
    (Z.lor (Z.lor (Z.lor PTE_W PTE_R) PTE_U) PTE_V).

Definition pcie_ecam_map_init : K unit :=
  pgdir <- gets kern_pgdir ;;
  boot_map_region pgdir PCIE_MAP_ECAM_ADDR PCIE_MAP_ECAM_SIZE 0x30000000
    (Z.lor (Z.lor PTE_W PTE_R) PTE_V).

(** ** Checking user pointers *)

(** The loop of [user_mem_check] with [n] iterations to go; [pte_store] keeps
    the pointer of the last successful lookup. *)
Fixpoint user_mem_check_loop (n : nat) (pgdir addr perm : Z) (pte_store : option Z) : K Z :=
  match n with
  | O => ret 0
  | S n' =>
      r <- page_lookup pgdir addr ;;
      match (match r with Some (_, p) => Some p | None => pte_store end) with
      | None => modify (set_user_mem_check_addr addr) ;;; ret (- E_FAULT)
      | Some p =>
          v <- load p ;;
          if Z.land v (u64 (Z.lor perm PTE_V)) =? 0
          then modify (set_user_mem_check_addr addr) ;;; ret (- E_FAULT)
          else user_mem_check_loop n' pgdir (u64 (ROUNDUP addr PGSIZE + PGSIZE)) perm (Some p)
      end
  end.

Definition user_mem_check (va len perm : Z) : K Z :=
  if ULIM <? ROUNDUP (u64 (va + len)) PGSIZE
  then modify (set_user_mem_check_addr va) ;;; ret (- E_FAULT)
  else
    cur <- gets curenv ;;
    e <- deref cur ;;
    v <- get_env e ;;
    user_mem_check_loop (Z.to_nat (len / PGSIZE + 1)) (env_pgdir v) va perm None.
