(* ===== verification/PgtableInv.v ===== *)
(** * The page-table invariant

    The tables a page directory reaches form a tree: every table is a page in
    use and no page is reached on two paths.  Under this invariant the walk of
    Pgtable.v is total on allocated pages, creating tables leaves the abstract
    view unchanged, and mapping or unmapping a page changes exactly one entry of
    the view.  The invariant is relative to a set [D] of top-level indices, since
    a page directory also holds entries it shares with [kern_pgdir]. *)

From S2P Require Import Prelude Mmu Kstate Pages Pgtable.

(** ** Paths *)

Definition idx (k : nat) (va : Z) : Z :=
  match k with
  | 0%nat => PD0X va
  | 1%nat => PD1X va
  | 2%nat => PD2X va
  | _ => PTX va
  end.

(** The first [k] indices of two addresses agree. *)
Fixpoint pfx (k : nat) (va va' : Z) : bool :=
  match k with
  | O => true
  | S k' => (idx k' va =? idx k' va') && pfx k' va va'
  end.

Definition same_page (va va' : Z) : bool := pfx 4 va va'.

Definition next_table (m : gmap Z Z) (t i : Z) : option Z :=
  let e := rd m (slot t i) in
  if pte_valid e then Some (u64 (PDE_PHY e + KERNBASE)) else None.

(** The table of level [k] on the path of [va]. *)
Fixpoint table (m : gmap Z Z) (pgdir va : Z) (k : nat) : option Z :=
  match k with
  | O => Some pgdir
  | S k' => t ← table m pgdir va k'; next_table m t (idx k' va)
  end.

(** The abstract view: the leaf entry of [va], zero where no table exists. *)
Definition leaf (m : gmap Z Z) (pgdir va : Z) : Z :=
  match table m pgdir va 3 with
  | Some t => rd m (slot t (PTX va))
  | None => 0
  end.

Lemma idx_bound k va : 0 ≤ idx k va < 512.
Proof. pose proof (index_bounds va). destruct k as [|[|[|k]]]; simpl; lia. Qed.

Lemma pfx_refl k va : pfx k va va = true.
Proof. induction k; simpl; [done|]. by rewrite Z.eqb_refl, IHk. Qed.

Lemma pfx_le k k' va va' : (k ≤ k')%nat → pfx k' va va' = true → pfx k va va' = true.
Proof.
  induction 1; [done|]. simpl. intros [_ ?]%andb_prop. auto.
Qed.

Lemma pfx_idx k j va va' : (j < k)%nat → pfx k va va' = true → idx j va = idx j va'.
Proof.
  induction k as [|k IH]; [lia|]. simpl. intros Hj [E%Z.eqb_eq H]%andb_prop.
  destruct (decide (j = k)) as [->|]; [done|]. apply IH; [lia|done].
Qed.

Lemma pfx_sym k va va' : pfx k va va' = true → pfx k va' va = true.
Proof.
  induction k as [|k IH]; [done|]. simpl. rewrite !andb_true_iff, !Z.eqb_eq. naive_solver.
Qed.

Lemma pfx_trans k a b c : pfx k a b = true → pfx k b c = true → pfx k a c = true.
Proof.
  induction k as [|k IH]; [done|]. simpl. rewrite !andb_true_iff, !Z.eqb_eq.
  intros [??] [??]. split; [congruence|auto].
Qed.

Lemma pfx_S k va va' :
  pfx (S k) va va' = true ↔ idx k va = idx k va' ∧ pfx k va va' = true.
Proof. simpl. rewrite andb_true_iff, Z.eqb_eq. done. Qed.

Lemma table_pfx m pgdir va va' k : pfx k va va' = true → table m pgdir va k = table m pgdir va' k.
Proof.
  induction k as [|k IH]; [done|]. rewrite pfx_S. intros [E H]. simpl.
  by rewrite (IH H), E.
Qed.

(** The path of [va] reads one entry per level. *)
Lemma table_agree m m' pgdir va k :
  (∀ j t, (j < k)%nat → table m pgdir va j = Some t →
     rd m' (slot t (idx j va)) = rd m (slot t (idx j va))) →
  table m' pgdir va k = table m pgdir va k.
Proof.
  induction k as [|k IH]; intros H; [done|]. simpl.
  rewrite IH by (intros; apply H; [lia|done]).
  destruct (table m pgdir va k) as [t|] eqn:E; [|done]. simpl.
  unfold next_table. rewrite H; [done|lia|done].
Qed.

Lemma table_step m pgdir va k t :
  table m pgdir va k = Some t → table m pgdir va (S k) = next_table m t (idx k va).
Proof. intros H. simpl. by rewrite H. Qed.

Lemma table_None_le m pgdir va k k' :
  (k ≤ k')%nat → table m pgdir va k = None → table m pgdir va k' = None.
Proof. induction 1 as [|k' _ IH]; [done|]. intros H. simpl. by rewrite (IH H). Qed.

(** The entry for a page leads to that page. *)
Lemma page2pa_aligned p : Z.of_nat p < MAXPAGES → 0 ≤ page2pa p < 2 ^ 56 ∧ page2pa p mod 4096 = 0.
Proof.
  intros H. rewrite page2pa_spec by done. unfold MAXPAGES in H. split; [lia|].
  replace (Z.of_nat p * 4096 + 2 ^ 31) with ((Z.of_nat p + 2 ^ 19) * 4096) by lia.
  apply Z.mod_mul. lia.
Qed.

Lemma pde_entry_next m t i p :
  Z.of_nat p < MAXPAGES → rd m (slot t i) = Z.lor (PDE_ENTRY (page2pa p)) PTE_V →
  next_table m t i = Some (kva_of p).
Proof.
  intros Hp E. unfold next_table, kva_of, pte_valid. rewrite E.
  destruct (Z.eqb_spec (Z.land (Z.lor (PDE_ENTRY (page2pa p)) PTE_V) PTE_V) 0) as [H|_];
    [by apply lor_PTE_V_valid in H|]. simpl.
  destruct (page2pa_aligned p Hp) as [Hb Ha].
  change (PDE_PHY (Z.lor (PDE_ENTRY (page2pa p)) PTE_V))
    with (PTE_PHY (Z.lor (PTE_ENTRY (page2pa p)) PTE_V)).
  by rewrite PTE_PHY_entry by (done || unfold PTE_V; lia).
Qed.

(** ** The invariant *)

Section invariant.
Variable D : Z → Prop.

Record pt_ok (s : kstate) (l : list nat) (pgdir : Z) : Prop := {
  pt_page va k t : (k ≤ 3)%nat → D (PD0X va) → table (mem s) pgdir va k = Some t →
    ∃ i, t = kva_of i ∧ is_Some (pages s !! i) ∧ i ∉ l;
  pt_inj va va' k k' t : (k ≤ 3)%nat → (k' ≤ 3)%nat → D (PD0X va) → D (PD0X va') →
    table (mem s) pgdir va k = Some t → table (mem s) pgdir va' k' = Some t →
    k = k' ∧ pfx k va va' = true
}.

(** Page [j] holds one of the tables. *)
Definition is_table (m : gmap Z Z) (pgdir : Z) (j : nat) : Prop :=
  Z.of_nat j < MAXPAGES ∧
  ∃ va k, (k ≤ 3)%nat ∧ D (PD0X va) ∧ table m pgdir va k = Some (kva_of j).

(** Memory outside the tables and the free pages is the same. *)
Definition frame (m m' : gmap Z Z) (pgdir : Z) (l : list nat) : Prop :=
  ∀ j i, Z.of_nat j < MAXPAGES → j ∉ l → ¬ is_table m pgdir j → 0 ≤ i < 512 →
    rd m' (slot (kva_of j) i) = rd m (slot (kva_of j) i).

(** What creating tables does to the state: some free pages become tables, the
    view stays, nothing else changes. *)
Record pt_grow (pgdir : Z) (s : kstate) (l : list nat) (s' : kstate) (l' : list nat) : Prop := {
  grow_wf : pages_wf s' l';
  grow_ok : pt_ok s' l' pgdir;
  grow_suffix : l' `suffix_of` l;
  grow_leaf va : D (PD0X va) → leaf (mem s') pgdir va = leaf (mem s) pgdir va;
  grow_frame : frame (mem s) (mem s') pgdir l;
  grow_tables j : is_table (mem s') pgdir j → is_table (mem s) pgdir j ∨ j ∈ l;
  grow_pages j : j ∉ l → pages s' !! j = pages s !! j;
  grow_rest : s' = set_mem (mem s') (set_page_free_list (page_free_list s')
                     (set_pages (pages s') s))
}.

Lemma kva_inj s l i j :
  pages_wf s l → is_Some (pages s !! i) → is_Some (pages s !! j) →
  kva_of i = kva_of j → i = j.
Proof.
  intros Hwf Hi Hj. pose proof (wf_lt _ _ i Hwf Hi). pose proof (wf_lt _ _ j Hwf Hj).
  pose proof (wf_npages _ _ Hwf). rewrite !kva_of_spec by lia. lia.
Qed.

Lemma kva_inj_max i j :
  Z.of_nat i < MAXPAGES → Z.of_nat j < MAXPAGES → kva_of i = kva_of j → i = j.
Proof. intros. rewrite !kva_of_spec in *; lia. Qed.

Lemma wf_max s l i : pages_wf s l → is_Some (pages s !! i) → Z.of_nat i < MAXPAGES.
Proof.
  intros Hwf Hi. pose proof (wf_lt _ _ i Hwf Hi). pose proof (wf_npages _ _ Hwf). lia.
Qed.

Lemma pt_grow_refl pgdir s l : pages_wf s l → pt_ok s l pgdir → pt_grow pgdir s l s l.
Proof.
  intros Hwf Hok. split; try done; [by left|by destruct s].
Qed.

Lemma pt_grow_trans pgdir s l s1 l1 s2 l2 :
  pt_grow pgdir s l s1 l1 → pt_grow pgdir s1 l1 s2 l2 → pt_grow pgdir s l s2 l2.
Proof.
  intros [W1 O1 S1 L1 F1 T1 P1 R1] [W2 O2 S2 L2 F2 T2 P2 R2].
  assert (∀ j, j ∉ l → j ∉ l1) as Hnl.
  { intros j Hj Hj1. apply Hj. destruct S1 as [pre ->]. set_solver. }
  split; try done.
  - by etrans.
  - intros va Hva. by rewrite L2, L1.
  - intros j i Hm Hj Ht Hi. rewrite F2, F1; try done; [by apply Hnl|].
    intros [?|?]%T1; done.
  - intros j [?|Hj]%T2; [by apply T1|]. right. destruct S1 as [pre ->]. set_solver.
  - intros j Hj. rewrite P2, P1 by auto. done.
  - rewrite R2, R1. done.
Qed.

(** An entry that leads to a table holds that table's physical address. *)
Lemma next_table_phy m t i j :
  Z.of_nat j < MAXPAGES → next_table m t i = Some (kva_of j) →
  pte_valid (rd m (slot t i)) = true ∧ PDE_PHY (rd m (slot t i)) = page2pa j.
Proof.
  intros Hj. unfold next_table. destruct (pte_valid _); [|done]. intros [= E].
  split; [done|]. set (x := PDE_PHY (rd m (slot t i))) in *.
  assert (is_u64 x) as Hx by apply u64_is_u64.
  unfold kva_of in E. pose proof (page2pa_spec j Hj) as Hp.
  assert (is_u64 (page2pa j)) as Hpj by (rewrite Hp; unfold is_u64, MAXPAGES in *; lia).
  unfold u64, is_u64, KERNBASE in *.
  rewrite (Z.add_mod x), (Z.add_mod (page2pa j)) in E by lia.
  rewrite (Z.mod_small x), (Z.mod_small (page2pa j)) in E by lia.
  apply (f_equal (λ z, (z - 0xFFFFFFFF00000000) mod 2 ^ 64)) in E.
  rewrite !Zminus_mod_idemp_l in E.
  rewrite (Z.mod_small 0xFFFFFFFF00000000) in E by lia.
  rewrite !Z.add_simpl_r, !Z.mod_small in E by lia. done.
Qed.

Lemma KADDR_next s l pgdir va k t t' :
  pages_wf s l → pt_ok s l pgdir → (k < 3)%nat → D (PD0X va) →
  table (mem s) pgdir va k = Some t → table (mem s) pgdir va (S k) = Some t' →
  pte_valid (rd (mem s) (slot t (idx k va))) = true ∧
  KADDR (PDE_PHY (rd (mem s) (slot t (idx k va)))) s = Ret t' s.
Proof.
  intros Hwf Hok Hk HD Ht Ht'.
  destruct (pt_page _ _ _ Hok va (S k) t') as (i & -> & Hi & _); [lia|done|done|].
  simpl in Ht'. rewrite Ht in Ht'. simpl in Ht'.
  destruct (next_table_phy _ _ _ _ (wf_max _ _ _ Hwf Hi) Ht') as [? ->].
  split; [done|]. by eapply KADDR_page.
Qed.

Lemma table_invalid m pgdir va k t :
  table m pgdir va k = Some t → table m pgdir va (S k) = None →
  pte_valid (rd m (slot t (idx k va))) = false.
Proof.
  intros Ht. simpl. rewrite Ht. simpl. unfold next_table. by destruct (pte_valid _).
Qed.

(** The read-only walk returns the slot of [va] in the last-level table. *)
Lemma walk_through_spec s l pgdir va :
  pages_wf s l → pt_ok s l pgdir → D (PD0X va) →
  pgdir_walk_through pgdir va s =
    Ret ((λ t, slot t (PTX va)) <$> table (mem s) pgdir va 3) s.
Proof.
  intros Hwf Hok HD. unfold pgdir_walk_through, load. step_pure.
  assert (table (mem s) pgdir va 0 = Some pgdir) as H0 by done.
  destruct (table (mem s) pgdir va 1) as [t1|] eqn:H1.
  2:{ pose proof (table_invalid _ _ _ _ _ H0 H1) as E. simpl in E.
      by rewrite E, (table_None_le _ _ _ 1 3) by (done || lia). }
  destruct (KADDR_next _ _ _ _ 0 _ _ Hwf Hok ltac:(lia) HD H0 H1) as [V0 E0].
  simpl in V0, E0. rewrite V0. cbn [negb]. step_with E0. step_pure.
  destruct (table (mem s) pgdir va 2) as [t2|] eqn:H2.
  2:{ pose proof (table_invalid _ _ _ _ _ H1 H2) as E. simpl in E.
      by rewrite E, (table_None_le _ _ _ 2 3) by (done || lia). }
  destruct (KADDR_next _ _ _ _ 1 _ _ Hwf Hok ltac:(lia) HD H1 H2) as [V1 E1].
  simpl in V1, E1. rewrite V1. cbn [negb]. step_with E1. step_pure.
  destruct (table (mem s) pgdir va 3) as [t3|] eqn:H3.
  2:{ pose proof (table_invalid _ _ _ _ _ H2 H3) as E. simpl in E. by rewrite E. }
  destruct (KADDR_next _ _ _ _ 2 _ _ Hwf Hok ltac:(lia) HD H2 H3) as [V2 E2].
  simpl in V2, E2. rewrite V2. cbn [negb]. by step_with E2.
Qed.

(** A page directory whose entries in [D] are zero has no tables. *)
Lemma table_root m i va k :
  (∀ j, 0 ≤ j < 512 → D j → rd m (slot (kva_of i) j) = 0) → D (PD0X va) →
  table m (kva_of i) va (S k) = None.
Proof.
  intros Hz HD. apply (table_None_le _ _ _ 1); [lia|].
  rewrite (table_step _ _ _ 0 (kva_of i) eq_refl). unfold next_table.
  by rewrite Hz by (apply (idx_bound 0) || done).
Qed.

Lemma pt_ok_root s l i :
  is_Some (pages s !! i) → i ∉ l →
  (∀ k, 0 ≤ k < 512 → D k → rd (mem s) (slot (kva_of i) k) = 0) → pt_ok s l (kva_of i).
Proof.
  intros Hi Hl Hz. split.
  - intros va [|k] t _ HD; [|by rewrite table_root]. intros [= <-]. by exists i.
  - intros va va' [|k] [|k'] t _ _ HD HD'; rewrite ?table_root by done; done.
Qed.

Lemma leaf_root m i va :
  (∀ j, 0 ≤ j < 512 → D j → rd m (slot (kva_of i) j) = 0) → D (PD0X va) →
  leaf m (kva_of i) va = 0.
Proof. intros Hz HD. unfold leaf. by rewrite table_root. Qed.

(** ** Fresh pages *)

(** A page that is allocated, zeroed and not a table. *)
Record fresh (pgdir : Z) (s : kstate) (l : list nat) (p : nat) : Prop := {
  fresh_page : is_Some (pages s !! p);
  fresh_used : p ∉ l;
  fresh_zero i : 0 ≤ i < 512 → rd (mem s) (slot (kva_of p) i) = 0;
  fresh_not_table : ¬ is_table (mem s) pgdir p
}.

Lemma table_kva s l pgdir va k t :
  pages_wf s l → pt_ok s l pgdir → (k ≤ 3)%nat → D (PD0X va) →
  table (mem s) pgdir va k = Some t →
  ∃ i, t = kva_of i ∧ Z.of_nat i < MAXPAGES ∧ i ∉ l ∧ is_table (mem s) pgdir i.
Proof.
  intros Hwf Hok Hk HD Ht.
  destruct (pt_page _ _ _ Hok va k t Hk HD Ht) as (i & -> & Hi & Hl).
  pose proof (wf_max _ _ _ Hwf Hi).
  exists i. split_and!; [done|done|done|]. split; [done|by exists va, k].
Qed.

(** Changing a word outside the tables leaves every path and leaf alone. *)
Lemma table_outside s l pgdir m' va k :
  pages_wf s l → pt_ok s l pgdir → (k ≤ 3)%nat → D (PD0X va) →
  (∀ j i, Z.of_nat j < MAXPAGES → is_table (mem s) pgdir j → 0 ≤ i < 512 →
     rd m' (slot (kva_of j) i) = rd (mem s) (slot (kva_of j) i)) →
  table m' pgdir va k = table (mem s) pgdir va k ∧ leaf m' pgdir va = leaf (mem s) pgdir va.
Proof.
  intros Hwf Hok Hk HD Hag.
  assert (∀ k, (k ≤ 3)%nat → table m' pgdir va k = table (mem s) pgdir va k) as Htab.
  { intros k' Hk'. apply table_agree. intros j t Hj Ht.
    destruct (table_kva _ _ _ _ j _ Hwf Hok ltac:(lia) HD Ht) as (i & -> & Hi & _ & Hti).
    apply Hag; [done|done|apply idx_bound]. }
  split; [by apply Htab|]. unfold leaf. rewrite Htab by lia.
  destruct (table (mem s) pgdir va 3) as [t|] eqn:Ht; [|done].
  destruct (table_kva _ _ _ _ 3 _ Hwf Hok ltac:(lia) HD Ht) as (i & -> & Hi & _ & Hti).
  apply Hag; [done|done|apply (idx_bound 3)].
Qed.

(** The same, for the invariant. *)
Lemma pt_ok_outside s l s' l' pgdir :
  pages_wf s l → pt_ok s l pgdir →
  (∀ j i, Z.of_nat j < MAXPAGES → is_table (mem s) pgdir j → 0 ≤ i < 512 →
     rd (mem s') (slot (kva_of j) i) = rd (mem s) (slot (kva_of j) i)) →
  (∀ j, is_table (mem s) pgdir j → is_Some (pages s !! j) → j ∉ l →
     is_Some (pages s' !! j) ∧ j ∉ l') →
  pt_ok s' l' pgdir ∧
  (∀ j, is_table (mem s') pgdir j ↔ is_table (mem s) pgdir j) ∧
  (∀ va, D (PD0X va) → leaf (mem s') pgdir va = leaf (mem s) pgdir va) ∧
  (∀ va k, (k ≤ 3)%nat → D (PD0X va) →
     table (mem s') pgdir va k = table (mem s) pgdir va k).
Proof.
  intros Hwf Hok Hag Hpg.
  assert (∀ va k, (k ≤ 3)%nat → D (PD0X va) →
    table (mem s') pgdir va k = table (mem s) pgdir va k) as Htab.
  { intros va k Hk HD. by destruct (table_outside s l pgdir (mem s') va k). }
  split_and!.
  - split.
    + intros va k t Hk HD. rewrite Htab by done. intros Ht.
      destruct (pt_page _ _ _ Hok va k t Hk HD Ht) as (i & -> & Hi & Hl).
      exists i. split; [done|]. apply Hpg; [|done|done].
      split; [by eapply wf_max|by exists va, k].
    + intros va va' k k' t Hk Hk' HD HD'. rewrite !Htab by done. by apply Hok.
  - intros j. split; intros (Hj & va & k & Hk & HD & Ht); (split; [done|]);
      exists va, k; split_and!; try done; [by rewrite <-Htab|by rewrite Htab].
  - intros va HD. by destruct (table_outside s l pgdir (mem s') va 3).
  - done.
Qed.

Lemma table_not_free s l pgdir j i :
  pages_wf s (i :: l) → pt_ok s (i :: l) pgdir →
  is_table (mem s) pgdir j → j ≠ i ∧ j ∉ l ∧ is_Some (pages s !! j).
Proof.
  intros Hwf Hok (Hj & va & k & Hk & HD & Ht).
  destruct (pt_page _ _ _ Hok va k _ Hk HD Ht) as (i' & E & Hi & Hl).
  apply kva_inj_max in E; [|done|by eapply wf_max]. subst i'. set_solver.
Qed.

(** ** Allocating a table page *)

Lemma incref_Ret s i p :
  pages s !! i = Some p →
  incref i s = Ret tt (ref_state i (u16 (pp_ref p + 1)) p s).
Proof. intros Hp. unfold incref. by step_with (get_page_Some _ _ _ Hp). Qed.

Lemma alloc_table_cons pgdir s i l :
  pages_wf s (i :: l) → pt_ok s (i :: l) pgdir →
  ∃ s1, alloc_table s = Ret (Some i) s1 ∧ pt_grow pgdir s (i :: l) s1 l ∧
    fresh pgdir s1 l i ∧
    ∀ va k, (k ≤ 3)%nat → D (PD0X va) → table (mem s1) pgdir va k = table (mem s) pgdir va k.
Proof.
  intros Hwf Hok. destruct (page_alloc_cons s ALLOC_ZERO i l Hwf) as (p & Hp & E).
  pose proof (alloc_state_wf s ALLOC_ZERO i p l Hwf Hp) as Hwf1.
  pose proof (wf_free_ref _ _ Hwf i p ltac:(set_solver) Hp) as Hr.
  pose proof (lookup_lt_Some _ _ _ Hp) as Hlt.
  pose proof (wf_nodup _ _ Hwf) as [Hil _]%NoDup_cons.
  set (s1 := alloc_state ALLOC_ZERO i p s) in *.
  assert (pages s1 !! i = Some (set_pp_link None p)) as Hp1
    by (simpl; by rewrite list_lookup_insert_eq).
  set (s2 := ref_state i 1 (set_pp_link None p) s1).
  assert (alloc_table s = Ret (Some i) s2) as Erun.
  { unfold alloc_table. step_with E. step_with (incref_Ret s1 i _ Hp1).
    unfold s2. simpl. by rewrite Hr. }
  pose proof (ref_state_wf s1 l i _ 1 Hwf1 Hil Hp1 ltac:(lia)) as Hwf2. fold s2 in Hwf2.
  assert (mem s2 = zero_words (kva_of i) (mem s)) as Em by done.
  pose proof (wf_max _ _ _ Hwf (mk_is_Some _ _ Hp)) as Him.
  assert (∀ j, j ≠ i → pages s2 !! j = pages s !! j) as Hpg.
  { intros j Hj. simpl. by rewrite !list_lookup_insert_ne. }
  assert (∀ j k, j ≠ i → Z.of_nat j < MAXPAGES → 0 ≤ k < 512 →
    rd (mem s2) (slot (kva_of j) k) = rd (mem s) (slot (kva_of j) k)) as Hmem.
  { intros j k Hj Hjm Hk. rewrite Em. apply rd_zero_words_out. intros k' Hk' Heq.
    apply slot_inj in Heq; naive_solver. }
  destruct (pt_ok_outside s (i :: l) s2 l pgdir Hwf Hok) as (Hok2 & Ht2 & Hleaf & Htab).
  { intros j k Hjm Hj Hk. apply Hmem; try done. by eapply table_not_free. }
  { intros j Hj Hjs Hjl. rewrite Hpg by set_solver. split; [done|set_solver]. }
  exists s2. split_and!; [done| | |].
  - split; try done.
    + by exists [i].
    + intros j k Hjm Hj _ Hk. apply Hmem; [set_solver|done|done].
    + intros j Hj%Ht2. by left.
    + intros j Hj. apply Hpg. set_solver.
  - split.
    + simpl. rewrite list_lookup_insert_eq; [done|by rewrite length_insert].
    + done.
    + intros k Hk. rewrite Em. by apply rd_zero_words_in.
    + intros Ht%Ht2. by destruct (table_not_free _ _ _ _ _ Hwf Hok Ht).
  - done.
Qed.

Lemma alloc_table_nil s : pages_wf s [] → alloc_table s = Ret None s.
Proof. intros Hwf. unfold alloc_table. by step_with (page_alloc_nil s ALLOC_ZERO Hwf). Qed.

(** ** Installing a fresh page as a table *)

Definition install (t i : Z) (p : nat) (m : gmap Z Z) : gmap Z Z :=
  <[slot t i := Z.lor (PDE_ENTRY (page2pa p)) PTE_V]> m.

Section installing.
Context (pgdir : Z) (s : kstate) (l : list nat) (p : nat) (va t : Z) (k : nat).
Context (Hwf : pages_wf s l) (Hok : pt_ok s l pgdir) (Hfr : fresh pgdir s l p).
Context (Hk : (k ≤ 2)%nat) (HD : D (PD0X va)).
Context (Ht : table (mem s) pgdir va k = Some t).
Context (Hinv : pte_valid (rd (mem s) (slot t (idx k va))) = false).

Lemma install_rd_other j va' t' :
  (j ≤ 3)%nat → D (PD0X va') → table (mem s) pgdir va' j = Some t' →
  ¬ (j = k ∧ pfx (S k) va va' = true) →
  rd (install t (idx k va) p (mem s)) (slot t' (idx j va')) = rd (mem s) (slot t' (idx j va')).
Proof.
  intros Hj HD' Ht' Hne. unfold install. apply rd_insert_ne. intros Heq. apply Hne.
  destruct (table_kva s l pgdir va k t Hwf Hok ltac:(lia) HD Ht) as (a & -> & Ha & _).
  destruct (table_kva s l pgdir va' j t' Hwf Hok Hj HD' Ht') as (b & -> & Hb & _).
  apply slot_inj in Heq as [-> Hidx]; [|done|done|apply idx_bound|apply idx_bound].
  destruct (pt_inj _ _ _ Hok va va' k j _ ltac:(lia) Hj HD HD' Ht Ht') as [<- Hp].
  split; [done|]. rewrite pfx_S. done.
Qed.

Lemma install_rd_fresh i :
  0 ≤ i < 512 → rd (install t (idx k va) p (mem s)) (slot (kva_of p) i) = 0.
Proof.
  intros Hi. unfold install. rewrite rd_insert_ne.
  - by apply Hfr.
  - intros Heq.
    destruct (table_kva s l pgdir va k t Hwf Hok ltac:(lia) HD Ht) as (a & -> & Ha & _ & Hta).
    apply slot_inj in Heq as [-> _]; [|done| |apply idx_bound|done].
    + by apply (fresh_not_table _ _ _ _ Hfr).
    + eapply wf_max; [done|apply Hfr].
Qed.

Lemma table_install va' k' :
  (k' ≤ 3)%nat → D (PD0X va') →
  table (install t (idx k va) p (mem s)) pgdir va' k' =
    if (k' <=? k)%nat || negb (pfx (S k) va va') then table (mem s) pgdir va' k'
    else if (k' =? S k)%nat then Some (kva_of p) else None.
Proof.
  intros Hk' HD'. set (m' := install _ _ _ _).
  assert (∀ k'', (k'' ≤ 3)%nat → (k'' ≤ k)%nat ∨ pfx (S k) va va' = false →
    table m' pgdir va' k'' = table (mem s) pgdir va' k'') as Hsame.
  { intros k'' Hk3 Hor. apply table_agree. intros j t' Hj Ht'.
    apply install_rd_other; [lia|done|done|]. intros [-> Hp]. destruct Hor; [lia|congruence]. }
  destruct (Nat.leb_spec k' k); [simpl; apply Hsame; auto|].
  destruct (pfx (S k) va va') eqn:Hp; [|simpl; apply Hsame; auto]. cbn [negb orb].
  assert (table m' pgdir va' (S k) = Some (kva_of p)) as HSk.
  { apply pfx_S in Hp as [Hidx Hp].
    rewrite (table_step _ _ _ _ t) by
      (rewrite Hsame by (lia || auto); by rewrite <-(table_pfx _ _ va va' k Hp)).
    rewrite <-Hidx. apply pde_entry_next; [eapply wf_max; [done|apply Hfr]|].
    unfold m', install. apply rd_insert_eq. }
  destruct (Nat.eqb_spec k' (S k)) as [->|]; [done|].
  apply (table_None_le _ _ _ (S (S k))); [lia|].
  rewrite (table_step _ _ _ _ _ HSk). unfold next_table.
  pose proof (install_rd_fresh (idx (S k) va') (idx_bound _ _)) as Hz. fold m' in Hz.
  by rewrite Hz.
Qed.

Lemma leaf_install va' :
  D (PD0X va') → leaf (install t (idx k va) p (mem s)) pgdir va' = leaf (mem s) pgdir va'.
Proof.
  intros HD'. unfold leaf. rewrite table_install by (done || lia).
  destruct (Nat.leb_spec 3 k); [lia|].
  destruct (pfx (S k) va va') eqn:Hp; cbn [orb negb].
  - assert (table (mem s) pgdir va' 3 = None) as ->.
    { apply (table_None_le _ _ _ (S k)); [lia|]. rewrite <-(table_pfx _ _ va va' (S k) Hp).
      rewrite (table_step _ _ _ _ _ Ht). unfold next_table. by rewrite Hinv. }
    destruct (3 =? S k)%nat; [|done]. apply install_rd_fresh. apply (idx_bound 3).
  - destruct (table (mem s) pgdir va' 3) as [t'|] eqn:Ht'; [|done].
    apply (install_rd_other 3); [lia|done|done|]. lia.
Qed.

Lemma is_table_install j :
  is_table (install t (idx k va) p (mem s)) pgdir j → is_table (mem s) pgdir j ∨ j = p.
Proof.
  intros (Hj & va' & k' & Hk' & HD' & Ht'). rewrite table_install in Ht' by done.
  destruct (_ || _); [left; split; [done|by exists va', k']|].
  destruct (_ =? _)%nat; [|done]. injection Ht' as E. right. symmetry.
  apply kva_inj_max; [|done|done]. eapply wf_max; [done|apply Hfr].
Qed.

Lemma pt_ok_install :
  pt_ok (set_mem (install t (idx k va) p (mem s)) s) l pgdir.
Proof.
  assert (∀ va' k', (k' ≤ 3)%nat → D (PD0X va') →
    table (mem s) pgdir va' k' ≠ Some (kva_of p)) as Hnt.
  { intros va' k' Hk' HD' H. apply (fresh_not_table _ _ _ _ Hfr).
    split; [eapply wf_max; [done|apply Hfr]|by exists va', k']. }
  split; simpl.
  - intros va' k' t' Hk' HD'. rewrite table_install by done.
    destruct (_ || _); [by eapply pt_page|]. destruct (_ =? _)%nat; [|done].
    intros [= <-]. exists p. split; [done|]. split; apply Hfr.
  - intros va1 va2 k1 k2 t' Hk1 Hk2 HD1 HD2. rewrite !table_install by done.
    destruct ((k1 <=? k)%nat || negb (pfx (S k) va va1)) eqn:E1;
      destruct ((k2 <=? k)%nat || negb (pfx (S k) va va2)) eqn:E2.
    + by apply Hok.
    + intros Ht1. destruct (k2 =? S k)%nat; [|done]. intros [= <-]. by apply Hnt in Ht1.
    + destruct (k1 =? S k)%nat; [|done]. intros [= <-] Ht2. by apply Hnt in Ht2.
    + destruct (Nat.eqb_spec k1 (S k)) as [->|]; [|done].
      destruct (Nat.eqb_spec k2 (S k)) as [->|]; [|done]. intros _ _. split; [done|].
      apply orb_false_elim in E1 as [_ E1%negb_false_iff].
      apply orb_false_elim in E2 as [_ E2%negb_false_iff].
      eapply pfx_trans; [by apply pfx_sym|done].
Qed.
End installing.

(** ** Creating the path of an address *)

Lemma install_grow pgdir s0 l0 s l p va t k :
  pt_grow pgdir s0 l0 s l → fresh pgdir s l p → p ∈ l0 →
  (k ≤ 2)%nat → D (PD0X va) → table (mem s) pgdir va k = Some t →
  pte_valid (rd (mem s) (slot t (idx k va))) = false →
  let s' := set_mem (install t (idx k va) p (mem s)) s in
  pt_grow pgdir s0 l0 s' l ∧ table (mem s') pgdir va (S k) = Some (kva_of p).
Proof.
  intros G Hfr Hp Hk HD Ht Hinv. pose proof G as [W O Su L F T P R].
  split; [split; simpl; try done|].
  - by destruct W.
  - by apply pt_ok_install.
  - intros va' HD'. rewrite (leaf_install pgdir s l p va t k) by done. by apply L.
  - intros j i Hjm Hj Hnt Hi. rewrite <-(F j i) by done. unfold install.
    apply rd_insert_ne. intros Heq.
    destruct (table_kva s l pgdir va k t W O ltac:(lia) HD Ht) as (a & -> & Ha & _ & Hta).
    apply slot_inj in Heq as [-> _]; [|done|done|apply idx_bound|done].
    by destruct (T _ Hta).
  - intros j Hj. apply (is_table_install pgdir s l p va t k) in Hj as [Hj| ->]; auto.
  - exact (f_equal (set_mem _) R).
  - simpl mem. rewrite (table_install pgdir s l p va t k) by (done || lia).
    rewrite pfx_refl. destruct (Nat.leb_spec (S k) k); [lia|]. cbn [orb negb].
    by rewrite Nat.eqb_refl.
Qed.

(** [alloc_table] in the middle of a walk. *)
Lemma alloc_table_grow pgdir s0 l0 s l :
  pt_grow pgdir s0 l0 s l →
  (l = [] ∧ alloc_table s = Ret None s) ∨
  (∃ i l1 s1, l = i :: l1 ∧ alloc_table s = Ret (Some i) s1 ∧
     pt_grow pgdir s0 l0 s1 l1 ∧ fresh pgdir s1 l1 i ∧ i ∈ l0 ∧
     ∀ va k, (k ≤ 3)%nat → D (PD0X va) →
       table (mem s1) pgdir va k = table (mem s) pgdir va k).
Proof.
  intros G. pose proof G as [W O Su _ _ _ _ _]. destruct l as [|i l1].
  - left. split; [done|]. by apply alloc_table_nil.
  - right. destruct (alloc_table_cons pgdir s i l1 W O) as (s1 & E & G1 & Hfr & Htab).
    exists i, l1, s1. split_and!; try done.
    + by eapply pt_grow_trans.
    + destruct Su as [pre ->]. set_solver.
Qed.

(** One level: afterwards the next table exists, and either a page is at hand
    or the free list is exhausted. *)
Lemma create_level_grow pgdir s0 l0 s l p va t k :
  pt_grow pgdir s0 l0 s l → fresh pgdir s l p → p ∈ l0 →
  (k ≤ 2)%nat → D (PD0X va) → table (mem s) pgdir va k = Some t →
  ∃ r s' l', create_level t (idx k va) p s = Ret r s' ∧ pt_grow pgdir s0 l0 s' l' ∧
    (length l ≤ S (length l'))%nat ∧ table (mem s') pgdir va k = Some t ∧
    (∃ t', table (mem s') pgdir va (S k) = Some t') ∧
    match r with
    | None => l = []
    | Some p' => fresh pgdir s' l' p' ∧ p' ∈ l0
    end.
Proof.
  intros G Hfr Hp Hk HD Ht. unfold create_level, load. step_pure.
  destruct (pte_valid (rd (mem s) (slot t (idx k va)))) eqn:Hv; cbn [negb].
  - exists (Some p), s, l. split_and!; try done; [lia|]. eexists.
    rewrite (table_step _ _ _ _ _ Ht). unfold next_table. by rewrite Hv.
  - destruct (install_grow pgdir s0 l0 s l p va t k G Hfr Hp Hk HD Ht Hv) as [G1 Ht1].
    unfold store. step_pure. fold (install t (idx k va) p (mem s)).
    set (s1 := set_mem _ s) in *.
    assert (table (mem s1) pgdir va k = Some t) as Hsame.
    { simpl. rewrite (table_install pgdir s l p va t k); try done; try lia.
      - by rewrite Nat.leb_refl.
      - apply G.
      - apply G. }
    destruct (alloc_table_grow pgdir s0 l0 s1 l G1)
      as [[-> E]|(i & l1 & s2 & -> & E & G2 & Hfr2 & Hi & Htab)]; rewrite E.
    + exists None, s1, []. split_and!; [done|done|simpl; lia|done|by eexists|done].
    + exists (Some i), s2, l1. rewrite !Htab by (done || lia).
      split_and!; [done|done|simpl; lia|done|by eexists|done|done].
Qed.

Lemma walk_KADDR pgdir s l va k t t' :
  pages_wf s l → pt_ok s l pgdir → (k < 3)%nat → D (PD0X va) →
  table (mem s) pgdir va k = Some t → table (mem s) pgdir va (S k) = Some t' →
  KADDR (PDE_PHY (rd (mem s) (slot t (idx k va)))) s = Ret t' s.
Proof. intros. by eapply KADDR_next. Qed.

Lemma create_page_level_grow pgdir s l va :
  pages_wf s l → pt_ok s l pgdir → D (PD0X va) →
  ∃ r s' l', pgdir_create_page_level pgdir va s = Ret r s' ∧ pt_grow pgdir s l s' l' ∧
    (length l ≤ length l' + 3)%nat ∧
    match r with
    | None => (length l ≤ 2)%nat
    | Some p => ∃ t, table (mem s') pgdir va 3 = Some t ∧ p = slot t (PTX va)
    end.
Proof.
  intros Hwf Hok HD. pose proof (pt_grow_refl pgdir s l Hwf Hok) as G.
  unfold pgdir_create_page_level.
  destruct (alloc_table_grow pgdir s l s l G)
    as [[-> E]|(p0 & l1 & s1 & -> & E & G1 & Hf1 & Hp0 & _)]; step_with E.
  { exists None, s, []. split_and!; [done|done|simpl; lia|simpl; lia]. }
  destruct (create_level_grow pgdir _ _ s1 l1 p0 va pgdir 0 G1 Hf1 Hp0 ltac:(lia) HD eq_refl)
    as (r1 & s2 & l2 & E2 & G2 & Hl2 & _ & (t1 & Ht1) & Hr1).
  cbn [idx] in E2. step_with E2. destruct r1 as [p1|].
  2:{ subst l1. exists None, s2, l2. split_and!; [done|done|simpl; lia|simpl; lia]. }
  destruct Hr1 as [Hf2 Hp1]. unfold load at 1. step_pure.
  pose proof (walk_KADDR _ s2 l2 va 0 _ _ (grow_wf _ _ _ _ _ G2) (grow_ok _ _ _ _ _ G2)
    ltac:(lia) HD eq_refl Ht1) as K1. cbn [idx] in K1. step_with K1.
  destruct (create_level_grow pgdir _ _ s2 l2 p1 va t1 1 G2 Hf2 Hp1 ltac:(lia) HD Ht1)
    as (r2 & s3 & l3 & E3 & G3 & Hl3 & Ht1' & (t2 & Ht2) & Hr2).
  cbn [idx] in E3. step_with E3. destruct r2 as [p2|].
  2:{ subst l2. exists None, s3, l3. split_and!; [done|done|simpl in *; lia|simpl in *; lia]. }
  destruct Hr2 as [Hf3 Hp2]. unfold load at 1. step_pure.
  pose proof (walk_KADDR _ s3 l3 va 1 _ _ (grow_wf _ _ _ _ _ G3) (grow_ok _ _ _ _ _ G3)
    ltac:(lia) HD Ht1' Ht2) as K2. cbn [idx] in K2. step_with K2.
  unfold load at 1. step_pure.
  assert (∃ s4 t3, (if negb (pte_valid (rd (mem s3) (slot t2 (PD2X va))))
      then store (slot t2 (PD2X va)) (Z.lor (PDE_ENTRY (page2pa p2)) PTE_V)
      else ret tt) s3 = Ret tt s4 ∧ pt_grow pgdir s (p0 :: l1) s4 l3 ∧
      table (mem s4) pgdir va 2 = Some t2 ∧ table (mem s4) pgdir va 3 = Some t3)
    as (s4 & t3 & E4 & G4 & Ht2' & Ht3).
  { destruct (pte_valid (rd (mem s3) (slot t2 (PD2X va)))) eqn:Hv; cbn [negb].
    - exists s3. eexists. split_and!; try done. rewrite (table_step _ _ _ _ _ Ht2).
      unfold next_table. cbn [idx]. by rewrite Hv.
    - destruct (install_grow pgdir _ _ s3 l3 p2 va t2 2 G3 Hf3 Hp2 ltac:(lia) HD Ht2 Hv)
        as [G4 Ht3]. eexists _, _. split; [done|]. split_and!; try done. simpl mem.
      rewrite (table_install pgdir s3 l3 p2 va t2 2); try done; try lia; apply G3. }
  step_with E4. unfold load. step_pure.
  pose proof (walk_KADDR _ s4 l3 va 2 _ _ (grow_wf _ _ _ _ _ G4) (grow_ok _ _ _ _ _ G4)
    ltac:(lia) HD Ht2' Ht3) as K3. cbn [idx] in K3. step_with K3.
  exists (Some (slot t3 (PTX va))), s4, l3. split_and!; [done|done|simpl; lia|by exists t3].
Qed.

(** [pgdir_walk] with [create] set: it returns; the view, the memory outside the
    tables and the pages in use stay; it returns null only when fewer than three
    pages are free and a table is missing. *)
Lemma pgdir_walk_grow pgdir s l va :
  pages_wf s l → pt_ok s l pgdir → D (PD0X va) →
  ∃ r s' l', pgdir_walk pgdir va true s = Ret r s' ∧ pt_grow pgdir s l s' l' ∧
    (length l ≤ length l' + 3)%nat ∧
    match r with
    | None => (length l ≤ 2)%nat ∧ table (mem s) pgdir va 3 = None
    | Some p => ∃ t, table (mem s') pgdir va 3 = Some t ∧ p = slot t (PTX va)
    end.
Proof.
  intros Hwf Hok HD. unfold pgdir_walk.
  step_with (walk_through_spec s l pgdir va Hwf Hok HD).
  destruct (table (mem s) pgdir va 3) as [t|] eqn:Ht; simpl fmap; cbv iota beta.
  - exists (Some (slot t (PTX va))), s, l. split_and!; [done|by apply pt_grow_refl|lia|by exists t].
  - destruct (create_page_level_grow pgdir s l va Hwf Hok HD) as (r & s' & l' & E & G & Hlen & Hr).
    exists r, s', l'. split_and!; try done. by destruct r.
Qed.
End invariant.
