(* ===== verification/PgtableMap.v ===== *)
(** * Mapping pages: [page_lookup], [page_remove], [page_insert], [boot_map_region]

    Under the invariant of PgtableInv.v each operation changes exactly one entry
    of the abstract view of a page directory and keeps the reference counts equal
    to what the change of the view calls for. *)

From S2P Require Import Prelude Mmu Kstate Pages Pgtable PgtableInv.

(** ** Entries written by [page_insert] *)

Definition perm_ok (perm : Z) : Prop := 0 ≤ perm < 1024.

Lemma insert_entry_alt pp perm :
  perm_ok perm → insert_entry pp perm = Z.lor (PTE_ENTRY (page2pa pp)) (Z.lor perm PTE_V).
Proof.
  intros H. unfold insert_entry, perm_ok in *. rewrite u64_small by (unfold is_u64; lia).
  by rewrite Z.lor_assoc.
Qed.

Lemma perm_lor_V perm : perm_ok perm → perm_ok (Z.lor perm PTE_V).
Proof. intros H. apply (lor_bound _ _ 10); unfold perm_ok, PTE_V in *; lia. Qed.

Lemma insert_entry_num pp perm :
  Z.of_nat pp < MAXPAGES → perm_ok perm →
  insert_entry pp perm = (Z.of_nat pp + 2 ^ 19) * 2 ^ 10 + Z.lor perm PTE_V.
Proof.
  intros Hpp Hp. pose proof (perm_lor_V _ Hp) as Hp'. unfold perm_ok in Hp'.
  destruct (page2pa_aligned pp Hpp) as [Hb Ha].
  rewrite insert_entry_alt, PTE_ENTRY_spec by done.
  replace (page2pa pp / 4) with (Z.shiftl (Z.of_nat pp + 2 ^ 19) 10).
  - by apply lor_shiftl_add.
  - rewrite Z.shiftl_mul_pow2, page2pa_spec by lia.
    apply Z.div_unique with 0; lia.
Qed.

Lemma insert_entry_nonzero pp perm :
  Z.of_nat pp < MAXPAGES → perm_ok perm → insert_entry pp perm ≠ 0.
Proof.
  intros Hpp Hp. pose proof (perm_lor_V _ Hp) as Hp'. unfold perm_ok in Hp'.
  rewrite insert_entry_num by done. lia.
Qed.

Lemma insert_entry_PHY pp perm :
  Z.of_nat pp < MAXPAGES → perm_ok perm → PTE_PHY (insert_entry pp perm) = page2pa pp.
Proof.
  intros Hpp Hp. destruct (page2pa_aligned pp Hpp). rewrite insert_entry_alt by done.
  apply PTE_PHY_entry; [done|done|by apply perm_lor_V].
Qed.

Lemma insert_entry_mask pp perm :
  Z.of_nat pp < MAXPAGES → perm_ok perm →
  Z.land (insert_entry pp perm) (u64 (Z.lnot 0xffc00000000003ff)) = PTE_ENTRY (page2pa pp).
Proof.
  intros Hpp Hp. destruct (page2pa_aligned pp Hpp).
  pose proof (perm_lor_V _ Hp) as Hp'. unfold perm_ok in Hp'.
  rewrite insert_entry_num by done. set (a := Z.of_nat pp + 2 ^ 19).
  set (b := Z.lor perm PTE_V) in *.
  replace (u64 (Z.lnot 0xffc00000000003ff)) with (Z.shiftl (Z.ones 44) 10) by done.
  rewrite <-lor_shiftl_add, Z.land_lor_distr_l, <-Z.shiftl_land, Z.land_ones by lia.
  rewrite (Z.mod_small a) by (unfold a, MAXPAGES in *; lia).
  replace (Z.land b (Z.shiftl (Z.ones 44) 10)) with 0.
  - rewrite Z.lor_0_r, PTE_ENTRY_spec, page2pa_spec by done.
    rewrite Z.shiftl_mul_pow2 by lia. apply Z.div_unique with 0; unfold a; lia.
  - apply Z.bits_inj'. intros i Hi. rewrite Z.land_spec, Z.bits_0.
    destruct (decide (i < 10)).
    + rewrite Z.shiftl_spec_low by lia. by rewrite andb_false_r.
    + rewrite <-(Z.mod_small b (2 ^ 10)) by lia.
      by rewrite Z.mod_pow2_bits_high by lia.
Qed.

Lemma PTE_ENTRY_inj p q :
  Z.of_nat p < MAXPAGES → Z.of_nat q < MAXPAGES →
  PTE_ENTRY (page2pa p) = PTE_ENTRY (page2pa q) → p = q.
Proof.
  intros Hp Hq. destruct (page2pa_aligned p Hp), (page2pa_aligned q Hq).
  rewrite !PTE_ENTRY_spec, !page2pa_spec by done.
  replace (Z.of_nat p * 4096 + 2 ^ 31) with ((Z.of_nat p * 1024 + 2 ^ 29) * 4) by lia.
  replace (Z.of_nat q * 4096 + 2 ^ 31) with ((Z.of_nat q * 1024 + 2 ^ 29) * 4) by lia.
  rewrite !Z.div_mul by lia. lia.
Qed.

Section mapping.
Variable D : Z → Prop.

(** ** Writing a leaf entry *)

Section store_leaf.
Context (pgdir : Z) (s : kstate) (l : list nat) (va t v : Z).
Context (Hwf : pages_wf s l) (Hok : pt_ok D s l pgdir) (HD : D (PD0X va)).
Context (Ht : table (mem s) pgdir va 3 = Some t).

Lemma store_leaf_table va' k :
  (k ≤ 3)%nat → D (PD0X va') →
  table (<[slot t (PTX va) := v]> (mem s)) pgdir va' k = table (mem s) pgdir va' k.
Proof.
  intros Hk HD'. apply table_agree. intros j t' Hj Ht'. apply rd_insert_ne. intros Heq.
  destruct (table_kva D s l pgdir va 3 t Hwf Hok ltac:(lia) HD Ht) as (a & -> & Ha & _).
  destruct (table_kva D s l pgdir va' j t' Hwf Hok ltac:(lia) HD' Ht') as (b & -> & Hb & _).
  apply slot_inj in Heq as [-> _]; [|done|done|apply (idx_bound 3)|apply idx_bound].
  destruct (pt_inj _ _ _ _ Hok va va' 3 j _ ltac:(lia) ltac:(lia) HD HD' Ht Ht'). lia.
Qed.

Lemma store_leaf_leaf va' :
  D (PD0X va') →
  leaf (<[slot t (PTX va) := v]> (mem s)) pgdir va' =
    if same_page va va' then v else leaf (mem s) pgdir va'.
Proof.
  intros HD'. unfold leaf. rewrite store_leaf_table by (done || lia).
  unfold same_page. destruct (pfx 4 va va') eqn:Hp.
  - apply pfx_S in Hp as [Hi Hp]. rewrite <-(table_pfx _ _ _ _ _ Hp), Ht.
    cbn [idx] in Hi. rewrite Hi. apply rd_insert_eq.
  - destruct (table (mem s) pgdir va' 3) as [t'|] eqn:Ht'; [|done].
    apply rd_insert_ne. intros Heq.
    destruct (table_kva D s l pgdir va 3 t Hwf Hok ltac:(lia) HD Ht) as (a & -> & Ha & _).
    destruct (table_kva D s l pgdir va' 3 t' Hwf Hok ltac:(lia) HD' Ht') as (b & -> & Hb & _).
    apply slot_inj in Heq as [-> Hi]; [|done|done|apply (idx_bound 3)|apply (idx_bound 3)].
    destruct (pt_inj _ _ _ _ Hok va va' 3 3 _ ltac:(lia) ltac:(lia) HD HD' Ht Ht') as [_ Hp3].
    assert (pfx 4 va va' = true); [|congruence]. apply pfx_S. done.
Qed.

Lemma store_leaf_is_table j :
  is_table D (<[slot t (PTX va) := v]> (mem s)) pgdir j ↔ is_table D (mem s) pgdir j.
Proof.
  split; intros (Hj & va' & k & Hk & HD' & H); (split; [done|]); exists va', k;
    split_and!; try done; [by rewrite store_leaf_table in H|by rewrite store_leaf_table].
Qed.

Lemma store_leaf_frame :
  frame D (mem s) (<[slot t (PTX va) := v]> (mem s)) pgdir [].
Proof.
  intros j i Hj _ Hnt Hi. apply rd_insert_ne. intros Heq.
  destruct (table_kva D s l pgdir va 3 t Hwf Hok ltac:(lia) HD Ht) as (a & -> & Ha & _ & Hta).
  apply slot_inj in Heq as [-> _]; try done. apply (idx_bound 3).
Qed.

(** With a state [s'] that has the new memory, the same pages in use and at most
    non-table pages added to the free list. *)
Lemma store_leaf_ok s' l' :
  mem s' = <[slot t (PTX va) := v]> (mem s) →
  (∀ j, is_table D (mem s) pgdir j → is_Some (pages s !! j) → j ∉ l →
     is_Some (pages s' !! j) ∧ j ∉ l') →
  pt_ok D s' l' pgdir.
Proof.
  intros Em Hpg. split; rewrite Em.
  - intros va' k t' Hk HD'. rewrite store_leaf_table by done. intros Ht'.
    destruct (pt_page _ _ _ _ Hok va' k t' Hk HD' Ht') as (i & -> & Hi & Hl).
    exists i. split; [done|]. apply Hpg; [|done|done].
    split; [by eapply wf_max|by exists va', k].
  - intros va1 va2 k1 k2 t' ????. rewrite !store_leaf_table by done. by apply Hok.
Qed.
End store_leaf.

(** ** Looking up *)

Lemma page_lookup_none s l pgdir va :
  pages_wf s l → pt_ok D s l pgdir → D (PD0X va) → leaf (mem s) pgdir va = 0 →
  page_lookup pgdir va s = Ret None s.
Proof.
  intros Hwf Hok HD Hl. unfold page_lookup, pgdir_walk.
  rewrite bind_assoc. step_with (walk_through_spec D s l pgdir va Hwf Hok HD).
  unfold leaf in Hl. destruct (table (mem s) pgdir va 3) as [t|]; simpl fmap; cbv iota beta;
    step_pure; [|done].
  unfold load. step_pure. by rewrite Hl.
Qed.

Lemma page_lookup_some s l pgdir va q p :
  pages_wf s l → pt_ok D s l pgdir → D (PD0X va) →
  leaf (mem s) pgdir va ≠ 0 → PTE_PHY (leaf (mem s) pgdir va) = page2pa q →
  pages s !! q = Some p →
  ∃ t, table (mem s) pgdir va 3 = Some t ∧
    page_lookup pgdir va s = Ret (Some (q, slot t (PTX va))) s.
Proof.
  intros Hwf Hok HD Hl Hphy Hp. unfold page_lookup, pgdir_walk.
  rewrite bind_assoc. step_with (walk_through_spec D s l pgdir va Hwf Hok HD).
  unfold leaf in *. destruct (table (mem s) pgdir va 3) as [t|] eqn:Ht; [|done].
  exists t. split; [done|]. simpl fmap; cbv iota beta. step_pure.
  unfold load. step_pure. destruct (Z.eqb_spec (rd (mem s) (slot t (PTX va))) 0); [done|].
  rewrite Hphy. by step_with (pa2page_page s l q Hwf (mk_is_Some _ _ Hp)).
Qed.

(** Two states that agree outside the allocator, memory and the TLB. *)
Definition same_rest (s s' : kstate) : Prop :=
  s' = set_tlb_flushes (tlb_flushes s') (set_mem (mem s')
         (set_page_free_list (page_free_list s') (set_pages (pages s') s))).

Lemma same_rest_trans s1 s2 s3 : same_rest s1 s2 → same_rest s2 s3 → same_rest s1 s3.
Proof. unfold same_rest. intros E1 E2. rewrite E2, E1. done. Qed.

Lemma grow_same_rest pgdir s l s' l' : pt_grow D pgdir s l s' l' → same_rest s s'.
Proof. intros G. unfold same_rest. rewrite (grow_rest _ _ _ _ _ _ G). done. Qed.

(** ** Unmapping *)

(** [curenv] is null or points into [envs]. *)
Definition cur_ok (s : kstate) : Prop := ∀ e, curenv s = Some e → is_Some (envs s !! e).

(** The page tables being edited are those of the running environment, or no
    environment runs. *)
Definition pgdir_in_use (s : kstate) (pgdir : Z) : bool :=
  match curenv s with
  | None => true
  | Some e => match envs s !! e with Some v => env_pgdir v =? pgdir | None => false end
  end.

Definition tlb_after (pgdir va : Z) (s : kstate) : list Z :=
  if pgdir_in_use s pgdir then ROUNDDOWN va PGSIZE :: tlb_flushes s else tlb_flushes s.

Lemma tlb_invalidate_Ret s pgdir va :
  cur_ok s → tlb_invalidate pgdir va s = Ret tt (set_tlb_flushes (tlb_after pgdir va s) s).
Proof.
  intros Hc. unfold tlb_invalidate, tlb_after, pgdir_in_use. step_pure.
  destruct (curenv s) as [e|] eqn:He; [|done].
  destruct (Hc e He) as [v Hv]. rewrite bind_assoc. rewrite Hv.
  unfold get_env, bind at 1. rewrite Hv. step_pure.
  destruct (env_pgdir v =? pgdir); [done|]. by destruct s.
Qed.

Lemma ref_used s l q p :
  pages_wf s l → pages s !! q = Some p → pp_ref p ≠ 0 → q ∉ l.
Proof. intros Hwf Hp Hr Hl. by apply Hr, (wf_free_ref _ _ Hwf q p). Qed.

Lemma page_remove_none s l pgdir va :
  pages_wf s l → pt_ok D s l pgdir → D (PD0X va) → leaf (mem s) pgdir va = 0 →
  page_remove pgdir va s = Ret tt s.
Proof.
  intros Hwf Hok HD Hl. unfold page_remove.
  by step_with (page_lookup_none s l pgdir va Hwf Hok HD Hl).
Qed.

(** [va] is mapped to page [q], whose count allows one unmapping. *)
Record unmappable (s : kstate) (pgdir va : Z) (q : nat) (p : PageInfo) : Prop := {
  um_leaf : leaf (mem s) pgdir va ≠ 0;
  um_phy : PTE_PHY (leaf (mem s) pgdir va) = page2pa q;
  um_page : pages s !! q = Some p;
  um_ref : pp_ref p ≠ 0;
  um_table : pp_ref p = 1 → ¬ is_table D (mem s) pgdir q
}.

Lemma page_remove_mapped s l pgdir va q p :
  pages_wf s l → pt_ok D s l pgdir → D (PD0X va) → cur_ok s → unmappable s pgdir va q p →
  ∃ s' t, page_remove pgdir va s = Ret tt s' ∧ pages_wf s' (decref_list q p l) ∧
    pt_ok D s' (decref_list q p l) pgdir ∧
    table (mem s) pgdir va 3 = Some t ∧ mem s' = <[slot t (PTX va) := 0]> (mem s) ∧
    pages s' = <[q := mkPageInfo (if pp_ref p =? 1 then page_free_list s else None)
                        (pp_ref p - 1)]> (pages s) ∧
    s' = set_tlb_flushes (tlb_after pgdir va s) (set_mem (mem s')
           (set_page_free_list (page_free_list s') (set_pages (pages s') s))).
Proof.
  intros Hwf Hok HD Hc [Hl Hphy Hp Hr Htab]. unfold page_remove.
  destruct (page_lookup_some s l pgdir va q p Hwf Hok HD Hl Hphy Hp) as (t & Ht & E).
  step_with E. step_with (get_page_Some _ _ _ Hp).
  destruct (Z.eqb_spec (pp_ref p) 0); [done|]. cbn [negb]. unfold assert_ at 1. step_pure.
  pose proof (ref_used _ _ _ _ Hwf Hp Hr) as Hq.
  destruct (page_decref_used s l q p Hwf Hq Hp Hr) as (s1 & E1 & Hwf1 & Em & Epg & Es).
  step_with E1. unfold store. step_pure.
  set (s2 := set_mem _ s1).
  assert (cur_ok s2) as Hc2 by (unfold cur_ok, s2; simpl; by rewrite Es).
  rewrite (tlb_invalidate_Ret s2 pgdir va Hc2).
  assert (tlb_after pgdir va s2 = tlb_after pgdir va s) as ->.
  { unfold s2. rewrite Es. done. }
  eexists _, t. split; [done|]. split_and!; try done.
  - by destruct Hwf1.
  - eapply (store_leaf_ok pgdir s l va t 0 Hwf Hok HD Ht); simpl; [by rewrite Em|].
    intros j Hj Hjs Hjl. rewrite Epg. split.
    + apply lookup_lt_is_Some. rewrite length_insert. by apply lookup_lt_is_Some.
    + unfold decref_list. destruct (Z.eqb_spec (pp_ref p) 1); [|done].
      apply not_elem_of_cons. split; [|done]. intros ->. by apply Htab.
  - simpl. by rewrite Em.
  - exact (f_equal (λ x, set_tlb_flushes _ (set_mem _ x)) Es).
Qed.

(** ** Mapping *)

Lemma pt_ok_pages s l s' pgdir :
  pt_ok D s l pgdir → mem s' = mem s →
  (∀ j, is_Some (pages s !! j) → is_Some (pages s' !! j)) → pt_ok D s' l pgdir.
Proof.
  intros Hok Em Hpg. split; rewrite Em; [|apply Hok].
  intros va k t Hk HD Ht. destruct (pt_page _ _ _ _ Hok va k t Hk HD Ht) as (i & -> & Hi & Hl).
  exists i. split_and!; auto.
Qed.

Lemma head_in s l i : pages_wf s l → page_free_list s = Some i → i ∈ l.
Proof.
  intros Hwf Hh. pose proof (wf_chain _ _ Hwf) as Hc. rewrite Hh in Hc.
  destruct l as [|j l]; simpl in Hc; [done|]. destruct Hc as ([= ->] & _). set_solver.
Qed.

(** The last statement of [page_insert] does nothing for a page in use. *)
Lemma insert_tail s l pp :
  pages_wf s l → pp ∉ l →
  (fl <- gets page_free_list ;;
   (if decide (fl = Some pp)
    then p <- get_page pp ;; modify (set_page_free_list (pp_link p))
    else ret tt) ;;; ret 0) s = Ret 0 s.
Proof.
  intros Hwf Hpp. step_pure. rewrite decide_False; [done|].
  intros Hh. by eapply Hpp, head_in.
Qed.

(** The page a leaf entry maps. *)
Definition old_page (v : Z) : option nat :=
  if v =? 0 then None else Some (Z.to_nat (PGNUM (PTE_PHY v))).

(** How often page [i] is what [o] names. *)
Definition counts (o : option nat) (i : nat) : Z := if decide (o = Some i) then 1 else 0.

(** What may be mapped at [va] before: nothing, or a page [page_insert] mapped. *)
Definition replaceable (s : kstate) (pgdir va : Z) : Prop :=
  leaf (mem s) pgdir va = 0 ∨
  ∃ q p perm, Z.of_nat q < MAXPAGES ∧ perm_ok perm ∧
    leaf (mem s) pgdir va = insert_entry q perm ∧ unmappable s pgdir va q p.

(** The effect of mapping [pp] at [va] on the view and the reference counts. *)
Record inserted (s : kstate) (l : list nat) (s' : kstate) (l' : list nat)
    (pgdir : Z) (pp : nat) (va perm : Z) : Prop := {
  in_wf : pages_wf s' l';
  in_ok : pt_ok D s' l' pgdir;
  in_used : pp ∉ l';
  in_leaf va' : D (PD0X va') → leaf (mem s') pgdir va' =
    if same_page va va' then insert_entry pp perm else leaf (mem s) pgdir va';
  in_refs i p : i ∉ l → pages s !! i = Some p → ∃ p', pages s' !! i = Some p' ∧
    pp_ref p' = pp_ref p + counts (Some pp) i - counts (old_page (leaf (mem s) pgdir va)) i;
  in_frame : frame D (mem s) (mem s') pgdir l;
  in_tables j : is_table D (mem s') pgdir j → is_table D (mem s) pgdir j ∨ j ∈ l;
  in_rest : same_rest s s'
}.

Lemma old_page_entry q perm :
  Z.of_nat q < MAXPAGES → perm_ok perm → old_page (insert_entry q perm) = Some q.
Proof.
  intros Hq Hp. unfold old_page.
  destruct (Z.eqb_spec (insert_entry q perm) 0) as [E|_].
  - by apply insert_entry_nonzero in E.
  - by rewrite insert_entry_PHY, PGNUM_page2pa, Nat2Z.id.
Qed.

(** Storing the new entry, from any state that differs from the one after the
    walk in reference counts and in the entry of [va] only. *)
Lemma insert_store s l s1 l1 s2 l2 pgdir pp va perm t :
  pt_grow D pgdir s l s1 l1 → D (PD0X va) → table (mem s1) pgdir va 3 = Some t →
  pages_wf s2 l2 → pt_ok D s2 l2 pgdir → pp ∉ l2 →
  (mem s2 = mem s1 ∨ mem s2 = <[slot t (PTX va) := 0]> (mem s1)) → same_rest s1 s2 →
  (∀ i p, i ∉ l → pages s !! i = Some p → ∃ p', pages s2 !! i = Some p' ∧
    pp_ref p' = pp_ref p + counts (Some pp) i - counts (old_page (leaf (mem s) pgdir va)) i) →
  inserted s l (set_mem (<[slot t (PTX va) := insert_entry pp perm]> (mem s2)) s2) l2
    pgdir pp va perm.
Proof.
  intros G HD Ht Hwf2 Hok2 Hpp Hm Hrest Href. pose proof G as [W O _ L F T _ _].
  assert (<[slot t (PTX va) := insert_entry pp perm]> (mem s2) =
          <[slot t (PTX va) := insert_entry pp perm]> (mem s1)) as Em.
  { destruct Hm as [->| ->]; [done|by rewrite insert_insert_eq]. }
  assert (table (mem s2) pgdir va 3 = Some t) as Ht2.
  { destruct Hm as [->| ->]; [done|].
    by rewrite (store_leaf_table pgdir s1 l1 va t 0 W O HD Ht). }
  split; simpl.
  - by destruct Hwf2.
  - eapply (store_leaf_ok pgdir s2 l2 va t (insert_entry pp perm) Hwf2 Hok2 HD Ht2); done.
  - done.
  - intros va' HD'. rewrite Em.
    rewrite (store_leaf_leaf pgdir s1 l1 va t (insert_entry pp perm) W O HD Ht va' HD').
    by rewrite L.
  - done.
  - intros j i Hjm Hj Hnt Hi. rewrite Em, <-(F j i) by done.
    apply (store_leaf_frame pgdir s1 l1 va t (insert_entry pp perm) W O HD Ht); try done.
    + by apply not_elem_of_nil.
    + intros Htj. by destruct (T _ Htj).
  - intros j. rewrite Em.
    rewrite (store_leaf_is_table pgdir s1 l1 va t (insert_entry pp perm) W O HD Ht). apply T.
  - pose proof (same_rest_trans _ _ _ (grow_same_rest _ _ _ _ _ G) Hrest) as Hs.
    exact (f_equal (set_mem _) Hs).
Qed.

Lemma unmappable_grow pgdir s l s1 l1 va q p :
  pages_wf s l → pt_grow D pgdir s l s1 l1 → D (PD0X va) →
  unmappable s pgdir va q p → unmappable s1 pgdir va q p.
Proof.
  intros Hwf G HD [Hl Hphy Hp Hr Ht]. pose proof (ref_used _ _ _ _ Hwf Hp Hr) as Hq.
  split; rewrite ?(grow_leaf _ _ _ _ _ _ G) by done; try done.
  - by rewrite (grow_pages _ _ _ _ _ _ G).
  - intros H1 [?|?]%(grow_tables _ _ _ _ _ _ G); [by apply Ht|done].
Qed.

(** [pp->pp_ref++] on a page in use keeps both invariants. *)
Lemma incref_ok s l pgdir pp p :
  pages_wf s l → pt_ok D s l pgdir → pp ∉ l → pages s !! pp = Some p → pp_ref p < 2 ^ 16 - 1 →
  ∃ s', incref pp s = Ret tt s' ∧ s' = ref_state pp (pp_ref p + 1) p s ∧
    pages_wf s' l ∧ pt_ok D s' l pgdir.
Proof.
  intros Hwf Hok Hpp Hp Hr. pose proof (wf_ref _ _ Hwf _ _ Hp).
  eexists. split_and!; [|done| |].
  - rewrite (incref_Ret _ _ _ Hp). by rewrite u16_small by lia.
  - apply ref_state_wf; auto. lia.
  - eapply pt_ok_pages; [done|done|]. intros j Hj. simpl.
    apply lookup_lt_is_Some. rewrite length_insert. by apply lookup_lt_is_Some.
Qed.

Section inserting.
Context (pgdir : Z) (s : kstate) (l : list nat) (s1 : kstate) (l1 : list nat).
Context (pp : nat) (p : PageInfo) (va perm t : Z).
Context (Hwf : pages_wf s l) (G : pt_grow D pgdir s l s1 l1) (HD : D (PD0X va)).
Context (Hpp : pp ∉ l) (Hp : pages s !! pp = Some p) (Hr : pp_ref p < 2 ^ 16 - 1).
Context (Hpm : Z.of_nat pp < MAXPAGES) (Hperm : perm_ok perm) (Hc : cur_ok s).
Context (Ht : table (mem s1) pgdir va 3 = Some t).

(** The assignment to the entry, by case on what was mapped before. *)
Definition insert_body (v : Z) : K unit :=
  if negb (v =? 0) then
    if negb (Z.land v (u64 (Z.lnot 0xffc00000000003ff)) =? PTE_ENTRY (page2pa pp))
    then page_remove pgdir va ;;; incref pp ;;; store (slot t (PTX va)) (insert_entry pp perm)
    else store (slot t (PTX va)) (insert_entry pp perm)
  else incref pp ;;; store (slot t (PTX va)) (insert_entry pp perm).

Lemma pp_after_walk : pp ∉ l1 ∧ pages s1 !! pp = Some p.
Proof.
  split; [|by rewrite (grow_pages _ _ _ _ _ _ G)].
  destruct (grow_suffix _ _ _ _ _ _ G) as [pre E]. set_solver.
Qed.

Lemma insert_body_empty :
  leaf (mem s) pgdir va = 0 →
  ∃ s' l', insert_body 0 s1 = Ret tt s' ∧ inserted s l s' l' pgdir pp va perm.
Proof.
  intros Hl. destruct pp_after_walk as [Hpp1 Hp1].
  destruct (incref_ok s1 l1 pgdir pp p (grow_wf _ _ _ _ _ _ G) (grow_ok _ _ _ _ _ _ G)
    Hpp1 Hp1 Hr) as (s2 & E & Es & Hwf2 & Hok2).
  eexists _, l1. split; [unfold insert_body; simpl; by step_with E|].
  eapply insert_store; eauto; [left; by rewrite Es|by rewrite Es|].
  intros i pi Hi Hpi. rewrite Hl, Es. simpl. unfold counts.
  rewrite <-(grow_pages _ _ _ _ _ _ G i Hi) in Hpi.
  destruct (decide (pp = i)) as [<-|Hne].
  - rewrite Hp1 in Hpi. simplify_eq. rewrite list_lookup_insert_eq by (by eapply lookup_lt_Some).
    eexists. split; [done|]. rewrite decide_True by done. simpl. lia.
  - rewrite list_lookup_insert_ne, decide_False by naive_solver. eexists. split; [done|].
    simpl. lia.
Qed.

Lemma insert_body_same q perm0 :
  q = pp → leaf (mem s) pgdir va = insert_entry q perm0 → perm_ok perm0 →
  ∃ s' l', insert_body (insert_entry q perm0) s1 = Ret tt s' ∧
    inserted s l s' l' pgdir pp va perm.
Proof.
  intros -> Hl Hperm0. destruct pp_after_walk as [Hpp1 Hp1].
  eexists _, l1. split.
  - unfold insert_body. destruct (Z.eqb_spec (insert_entry pp perm0) 0) as [E|_];
      [exfalso; by apply insert_entry_nonzero in E|]. cbn [negb].
    rewrite insert_entry_mask, Z.eqb_refl by done. reflexivity.
  - eapply insert_store; eauto; [apply G|apply G|by destruct s1|].
    intros i pi Hi Hpi. rewrite Hl, old_page_entry by done.
    rewrite (grow_pages _ _ _ _ _ _ G i Hi). exists pi. split; [done|lia].
Qed.

Lemma insert_body_other q q0 perm0 :
  q ≠ pp → leaf (mem s) pgdir va = insert_entry q perm0 → perm_ok perm0 →
  Z.of_nat q < MAXPAGES → unmappable s pgdir va q q0 →
  ∃ s' l', insert_body (insert_entry q perm0) s1 = Ret tt s' ∧
    inserted s l s' l' pgdir pp va perm.
Proof.
  intros Hne Hl Hperm0 Hqm Hum. destruct pp_after_walk as [Hpp1 Hp1].
  pose proof (unmappable_grow _ _ _ _ _ _ _ _ Hwf G HD Hum) as Hum1.
  assert (cur_ok s1) as Hc1 by (unfold cur_ok; rewrite (grow_rest _ _ _ _ _ _ G); done).
  destruct (page_remove_mapped s1 l1 pgdir va q q0 (grow_wf _ _ _ _ _ _ G)
    (grow_ok _ _ _ _ _ _ G) HD Hc1 Hum1)
    as (s2 & t' & E2 & Hwf2 & Hok2 & Ht' & Em2 & Epg2 & Es2).
  rewrite Ht in Ht'. injection Ht' as <-.
  assert (pp ∉ decref_list q q0 l1) as Hpp2.
  { unfold decref_list. case_match; [|done]. by apply not_elem_of_cons. }
  assert (pages s2 !! pp = Some p) as Hp2 by (rewrite Epg2; by rewrite list_lookup_insert_ne).
  destruct (incref_ok s2 _ pgdir pp p Hwf2 Hok2 Hpp2 Hp2 Hr) as (s3 & E3 & Es3 & Hwf3 & Hok3).
  eexists _, _. split.
  - unfold insert_body. destruct (Z.eqb_spec (insert_entry q perm0) 0) as [E|_];
      [exfalso; by apply insert_entry_nonzero in E|]. cbn [negb].
    rewrite insert_entry_mask by done.
    destruct (Z.eqb_spec (PTE_ENTRY (page2pa q)) (PTE_ENTRY (page2pa pp))) as [E|_];
      [exfalso; by apply PTE_ENTRY_inj in E|]. cbn [negb]. step_with E2. step_with E3. reflexivity.
  - eapply insert_store; eauto; [right; by rewrite Es3| |].
    { unfold same_rest. rewrite Es3, Es2. done. }
    intros i pi Hi Hpi. rewrite Hl, old_page_entry, Es3 by done. simpl. rewrite Epg2.
    rewrite <-(grow_pages _ _ _ _ _ _ G i Hi) in Hpi.
    pose proof (um_page _ _ _ _ _ Hum1) as Hq1. unfold counts.
    destruct (decide (pp = i)) as [<-|Hpi'].
    + rewrite Hp1 in Hpi. simplify_eq.
      rewrite list_lookup_insert_eq by (rewrite length_insert; by eapply lookup_lt_Some).
      eexists. split; [done|]. rewrite decide_True, decide_False by naive_solver. simpl. lia.
    + rewrite list_lookup_insert_ne by done. rewrite (decide_False (P := Some pp = Some i)) by naive_solver.
      destruct (decide (q = i)) as [<-|Hqi].
      * rewrite Hq1 in Hpi. simplify_eq.
        rewrite list_lookup_insert_eq by (by eapply lookup_lt_Some).
        eexists. split; [done|]. rewrite decide_True by done. simpl. lia.
      * rewrite list_lookup_insert_ne, decide_False by naive_solver.
        eexists. split; [done|]. lia.
Qed.
End inserting.

Lemma page_insert_run pgdir s l pp p va perm :
  pages_wf s l → pt_ok D s l pgdir → D (PD0X va) → cur_ok s →
  pp ∉ l → pages s !! pp = Some p → pp_ref p < 2 ^ 16 - 1 → perm_ok perm →
  replaceable s pgdir va →
  (∃ s' l', page_insert pgdir pp va perm s = Ret (- E_NO_MEM) s' ∧
     (length l ≤ 2)%nat ∧ table (mem s) pgdir va 3 = None ∧ pt_grow D pgdir s l s' l') ∨
  (∃ s' l', page_insert pgdir pp va perm s = Ret 0 s' ∧ inserted s l s' l' pgdir pp va perm).
Proof.
  intros Hwf Hok HD Hc Hpp Hp Hr Hperm Hrep. unfold page_insert.
  destruct (pgdir_walk_grow D pgdir s l va Hwf Hok HD) as (r & s1 & l1 & E & G & _ & Hr1).
  step_with E. destruct r as [pte|].
  2:{ left. exists s1, l1. destruct Hr1. done. }
  right. destruct Hr1 as (t & Ht & ->). unfold load. step_pure.
  assert (rd (mem s1) (slot t (PTX va)) = leaf (mem s) pgdir va) as Hv.
  { rewrite <-(grow_leaf _ _ _ _ _ _ G) by done. unfold leaf. by rewrite Ht. }
  rewrite Hv. pose proof (wf_max _ _ _ Hwf (mk_is_Some _ _ Hp)) as Hpm.
  assert (∃ s' l', insert_body pgdir pp va perm t (leaf (mem s) pgdir va) s1 = Ret tt s' ∧
    inserted s l s' l' pgdir pp va perm) as (s' & l' & Eb & Hin).
  { destruct Hrep as [Hl|(q & q0 & perm0 & Hqm & Hperm0 & Hl & Hum)].
    - rewrite Hl. eapply insert_body_empty; eauto.
    - rewrite Hl. destruct (decide (q = pp)).
      + eapply insert_body_same; eauto.
      + eapply insert_body_other; eauto. }
  exists s', l'. split; [|done]. unfold insert_body in Eb. step_with Eb.
  eapply insert_tail; apply Hin.
Qed.
End mapping.

(** ** Properties *)

(** C1 ([page_insert]): let [pp] be a page in use and let [va] be unmapped or
    mapped by an earlier [page_insert].  The call either returns [-E_NO_MEM], only
    when fewer than three pages are free and a table of [va] is missing, with the
    view unchanged; or it returns 0, after which [page_lookup] finds [pp] at [va],
    the entry of [va] carries the requested permissions, every other entry is
    unchanged, and the counts of the new and of the previously mapped page moved
    by one (not at all when they are the same page). *)
Theorem page_insert_correct (D : Z → Prop) (pgdir : Z) (s : kstate) (l : list nat)
    (pp : nat) (p : PageInfo) (va perm : Z)
    (Hwf : pages_wf s l) (Hok : pt_ok D s l pgdir) (HD : D (PD0X va)) (Hc : cur_ok s)
    (Hpp : pp ∉ l) (Hp : pages s !! pp = Some p) (Hr : pp_ref p < 2 ^ 16 - 1)
    (Hperm : perm_ok perm) (Hrep : replaceable D s pgdir va) :
  (∃ s' l', page_insert pgdir pp va perm s = Ret (- E_NO_MEM) s' ∧
     (length l ≤ 2)%nat ∧ table (mem s) pgdir va 3 = None ∧ pages_wf s' l' ∧
     pt_ok D s' l' pgdir ∧
     ∀ va', D (PD0X va') → leaf (mem s') pgdir va' = leaf (mem s) pgdir va') ∨
  (∃ s' l' pte, page_insert pgdir pp va perm s = Ret 0 s' ∧
     inserted D s l s' l' pgdir pp va perm ∧
     page_lookup pgdir va s' = Ret (Some (pp, pte)) s').
Proof.
  destruct (page_insert_run D pgdir s l pp p va perm)
    as [(s' & l' & E & Hlen & Ht & G)|(s' & l' & E & Hin)]; try done.
  - left. exists s', l'. split_and!; try done; apply G.
  - right. pose proof (wf_max _ _ _ Hwf (mk_is_Some _ _ Hp)) as Hpm.
    assert (leaf (mem s') pgdir va = insert_entry pp perm) as Hl.
    { rewrite (in_leaf _ _ _ _ _ _ _ _ _ Hin) by done. unfold same_page. by rewrite pfx_refl. }
    destruct (in_refs _ _ _ _ _ _ _ _ _ Hin pp p Hpp Hp) as (p' & Hp' & _).
    destruct (page_lookup_some D s' l' pgdir va pp p') as (t & _ & El); try done.
    + apply Hin.
    + apply Hin.
    + rewrite Hl. by apply insert_entry_nonzero.
    + rewrite Hl. by apply insert_entry_PHY.
    + exists s', l', (slot t (PTX va)). done.
Qed.

(** Eight pages: page 0 an empty page directory, pages 1 to 4 free, page 5 in use. *)
Definition map_example : kstate :=
  mkKstate 8 0 0 0
    [mkPageInfo None 1; mkPageInfo (Some 2%nat) 0; mkPageInfo (Some 3%nat) 0;
     mkPageInfo (Some 4%nat) 0; mkPageInfo None 0; mkPageInfo None 0; mkPageInfo None 0;
     mkPageInfo None 0]
    (Some 1%nat) ∅ (kva_of 0) 0 0 [] None None (0, 0) [] false false false
    0 0 0 [] 0 0 [] false zero_nic 0.

Lemma map_example_wf : pages_wf map_example [1; 2; 3; 4]%nat.
Proof.
  split; try done.
  - simpl. split; [done|]. do 3 (eexists; split; [done|]; simpl; split; [done|]).
    eexists. done.
  - apply (bool_decide_unpack _). by vm_compute.
  - intros i p Hi Hp. destruct i; [set_solver|].
    do 7 (destruct i; [simpl in Hp; by simplify_eq|]). done.
  - intros i p Hi Hp. do 8 (destruct i; [simpl in Hp; simplify_eq; first [done|set_solver]|]).
    done.
  - intros i p Hp. do 8 (destruct i; [simpl in Hp; simplify_eq; simpl; lia|]). done.
Qed.

Lemma map_example_pt (D : Z → Prop) : pt_ok D map_example [1; 2; 3; 4]%nat (kva_of 0).
Proof. apply pt_ok_root; [done|set_solver|done]. Qed.

Lemma map_example_tables (D : Z → Prop) j :
  is_table D (mem map_example) (kva_of 0) j → j = 0%nat.
Proof.
  intros (Hj & va & k & Hk & _ & Ht). destruct k as [|k].
  - injection Ht as E. apply kva_inj_max in E; [done|done|done].
  - rewrite (table_None_le _ _ _ 1) in Ht; [done|lia|done].
Qed.

Lemma page_insert_witness :
  (∃ s' l', page_insert (kva_of 0) 5 UTEXT (Z.lor PTE_U PTE_W) map_example = Ret (- E_NO_MEM) s' ∧
     (length [1; 2; 3; 4]%nat ≤ 2)%nat ∧ table (mem map_example) (kva_of 0) UTEXT 3 = None ∧
     pages_wf s' l' ∧ pt_ok (λ _, True) s' l' (kva_of 0) ∧
     ∀ va', True → leaf (mem s') (kva_of 0) va' = leaf (mem map_example) (kva_of 0) va') ∨
  (∃ s' l' pte, page_insert (kva_of 0) 5 UTEXT (Z.lor PTE_U PTE_W) map_example = Ret 0 s' ∧
     inserted (λ _, True) map_example [1; 2; 3; 4]%nat s' l' (kva_of 0) 5 UTEXT (Z.lor PTE_U PTE_W) ∧
     page_lookup (kva_of 0) UTEXT s' = Ret (Some (5%nat, pte)) s').
Proof.
  apply (page_insert_correct (λ _, True) (kva_of 0) map_example [1; 2; 3; 4]%nat 5
           (mkPageInfo None 0) UTEXT (Z.lor PTE_U PTE_W)); try done.
  - exact map_example_wf.
  - apply map_example_pt.
  - set_solver.
  - by left.
Defined.

(** C14 ([page_remove]): on a mapped address the call returns; afterwards nothing is
    mapped there, every other entry is unchanged, the page's count is one lower
    and the page is on top of the free list exactly when the count reached zero;
    the TLB entry of the page is flushed when the tables are those in use. *)
Theorem page_remove_correct (D : Z → Prop) (pgdir : Z) (s : kstate) (l : list nat)
    (va : Z) (q : nat) (p : PageInfo)
    (Hwf : pages_wf s l) (Hok : pt_ok D s l pgdir) (HD : D (PD0X va)) (Hc : cur_ok s)
    (Hum : unmappable D s pgdir va q p) :
  ∃ s' p', page_remove pgdir va s = Ret tt s' ∧ page_lookup pgdir va s' = Ret None s' ∧
    (∀ va', D (PD0X va') → leaf (mem s') pgdir va' =
       if same_page va va' then 0 else leaf (mem s) pgdir va') ∧
    pages s' !! q = Some p' ∧ pp_ref p' = pp_ref p - 1 ∧
    pages_wf s' (if pp_ref p =? 1 then q :: l else l) ∧
    (∀ j, j ≠ q → pages s' !! j = pages s !! j) ∧
    tlb_flushes s' = tlb_after pgdir va s.
Proof.
  destruct (page_remove_mapped D s l pgdir va q p Hwf Hok HD Hc Hum)
    as (s' & t & E & Hwf' & Hok' & Ht & Em & Epg & Es).
  assert (∀ va', D (PD0X va') → leaf (mem s') pgdir va' =
       if same_page va va' then 0 else leaf (mem s) pgdir va') as Hleaf.
  { intros va' HD'. rewrite Em. by rewrite (store_leaf_leaf D pgdir s l va t 0). }
  eexists s', _. split_and!; [done| |done| | |done| |].
  - eapply page_lookup_none; [done|done|done|]. rewrite Hleaf by done.
    unfold same_page. by rewrite pfx_refl.
  - rewrite Epg. apply list_lookup_insert_eq. eapply lookup_lt_Some, Hum.
  - simpl. lia.
  - intros j Hj. rewrite Epg. by rewrite list_lookup_insert_ne.
  - by rewrite Es.
Qed.

(** The state [map_example] with page 5 mapped at [UTEXT]. *)
Definition mapped_example : kstate :=
  end_state (page_insert (kva_of 0) 5 UTEXT (Z.lor PTE_U PTE_W) map_example) map_example.

Lemma mapped_example_inserted :
  ∃ l, inserted (λ _, True) map_example [1; 2; 3; 4]%nat mapped_example l
         (kva_of 0) 5 UTEXT (Z.lor PTE_U PTE_W).
Proof.
  destruct (page_insert_run (λ _, True) (kva_of 0) map_example [1; 2; 3; 4]%nat 5
    (mkPageInfo None 0) UTEXT (Z.lor PTE_U PTE_W) map_example_wf (map_example_pt _))
    as [(? & ? & _ & Hlen & _)|(s' & l' & E & H)]; [done|done|set_solver|done|done|done|by left| |].
  - simpl in Hlen. lia.
  - exists l'. unfold mapped_example. by rewrite E.
Qed.
#[global] Opaque mapped_example.

(** What a later unmapping of that page needs. *)
Lemma map_example_unmappable s l :
  inserted (λ _, True) map_example [1; 2; 3; 4]%nat s l (kva_of 0) 5 UTEXT (Z.lor PTE_U PTE_W) →
  ∃ p, cur_ok s ∧ unmappable (λ _, True) s (kva_of 0) UTEXT 5 p.
Proof.
  intros H.
  destruct (in_refs _ _ _ _ _ _ _ _ _ H 5%nat (mkPageInfo None 0)) as (p & Hp & Hr);
    [set_solver|done|].
  assert (leaf (mem s) (kva_of 0) UTEXT = insert_entry 5 (Z.lor PTE_U PTE_W)) as Hl
    by (by rewrite (in_leaf _ _ _ _ _ _ _ _ _ H)).
  exists p. split.
  - pose proof (in_rest _ _ _ _ _ _ _ _ _ H) as E. unfold same_rest in E.
    unfold cur_ok. by rewrite E.
  - split; rewrite ?Hl; [done|done|done|by rewrite Hr|].
    intros _ [Ht|Hj]%(in_tables _ _ _ _ _ _ _ _ _ H); [|set_solver].
    by apply map_example_tables in Ht.
Qed.

Lemma page_remove_witness :
  ∃ l p s' p', page_remove (kva_of 0) UTEXT mapped_example = Ret tt s' ∧
    page_lookup (kva_of 0) UTEXT s' = Ret None s' ∧
    (∀ va', True → leaf (mem s') (kva_of 0) va' =
       if same_page UTEXT va' then 0 else leaf (mem mapped_example) (kva_of 0) va') ∧
    pages s' !! 5%nat = Some p' ∧ pp_ref p' = pp_ref p - 1 ∧
    pages_wf s' (if pp_ref p =? 1 then 5%nat :: l else l) ∧
    (∀ j, j ≠ 5%nat → pages s' !! j = pages mapped_example !! j) ∧
    tlb_flushes s' = tlb_after (kva_of 0) UTEXT mapped_example.
Proof.
  destruct mapped_example_inserted as [l H].
  destruct (map_example_unmappable _ _ H) as (p & Hc & Hum). exists l, p.
  exact (page_remove_correct (λ _, True) (kva_of 0) mapped_example l UTEXT 5 p
           (in_wf _ _ _ _ _ _ _ _ _ H) (in_ok _ _ _ _ _ _ _ _ _ H) I Hc Hum).
Defined.

(** C3 (address-space isolation): [page_insert] on one page directory leaves the view
    of every other page directory unchanged, as long as the two share no table
    page in the index ranges considered. *)
Theorem page_insert_isolated (D D' : Z → Prop) (pgdir pgdir' : Z) (s : kstate) (l : list nat)
    (pp : nat) (p : PageInfo) (va perm : Z)
    (Hwf : pages_wf s l) (Hok : pt_ok D s l pgdir) (HD : D (PD0X va)) (Hc : cur_ok s)
    (Hpp : pp ∉ l) (Hp : pages s !! pp = Some p) (Hr : pp_ref p < 2 ^ 16 - 1)
    (Hperm : perm_ok perm) (Hrep : replaceable D s pgdir va)
    (Hok' : pt_ok D' s l pgdir')
    (Hdisj : ∀ j, is_table D' (mem s) pgdir' j → ¬ is_table D (mem s) pgdir j) :
  ∃ r s', page_insert pgdir pp va perm s = Ret r s' ∧
    ∀ va', D' (PD0X va') → leaf (mem s') pgdir' va' = leaf (mem s) pgdir' va'.
Proof.
  assert (∃ r s', page_insert pgdir pp va perm s = Ret r s' ∧ frame D (mem s) (mem s') pgdir l)
    as (r & s' & E & F).
  { destruct (page_insert_run D pgdir s l pp p va perm)
      as [(s' & l' & E & _ & _ & G)|(s' & l' & E & Hin)]; try done.
    - eexists _, s'. split; [done|apply G].
    - eexists _, s'. split; [done|apply Hin]. }
  exists r, s'. split; [done|]. intros va' HD'.
  destruct (table_outside D' s l pgdir' (mem s') va' 3 Hwf Hok' ltac:(lia) HD'); [|done].
  intros j i Hj Ht Hi. apply F; auto. destruct Ht as (_ & va1 & k & Hk & HD1 & Ht).
  destruct (pt_page _ _ _ _ Hok' _ _ _ Hk HD1 Ht) as (j' & Ej & Hj' & Hl).
  apply kva_inj_max in Ej as ->; [done|done|by eapply wf_max].
Qed.

Lemma page_insert_isolated_witness :
  ∃ r s', page_insert (kva_of 0) 5 UTEXT (Z.lor PTE_U PTE_W) map_example = Ret r s' ∧
    ∀ va', True → leaf (mem s') (kva_of 6) va' = leaf (mem map_example) (kva_of 6) va'.
Proof.
  apply (page_insert_isolated (λ _, True) (λ _, True) (kva_of 0) (kva_of 6) map_example
    [1; 2; 3; 4]%nat 5 (mkPageInfo None 0)); try done.
  - exact map_example_wf.
  - apply map_example_pt.
  - set_solver.
  - by left.
  - apply pt_ok_root; [done|set_solver|done].
  - intros j (Hj & va & k & Hk & _ & Ht) Hj0. apply map_example_tables in Hj0 as ->.
    destruct k as [|k]; [done|]. rewrite (table_None_le _ _ _ 1) in Ht; [done|lia|done].
Defined.
