(* ===== verification/PgtableBoot.v ===== *)
(** * Boot mappings and the check of user pointers

    [boot_map_region] maps every page of its region and nothing else;
    [user_mem_check] looks at the pages of a user buffer. *)

From S2P Require Import Prelude Mmu Kstate Pages Pgtable PgtableInv PgtableMap.

(** ** Pages of an address *)

Lemma mod_512_pow a :
  a mod 2 ^ 36 = a mod 512 + 512 * ((a / 512) mod 512 + 512 * ((a / 512 / 512) mod 512
                 + 512 * ((a / 512 / 512 / 512) mod 512))).
Proof.
  change (2 ^ 36) with (512 * (512 * (512 * 512))).
  rewrite Z.rem_mul_r, (Z.rem_mul_r (a / 512)), (Z.rem_mul_r (a / 512 / 512)) by lia. done.
Qed.

Lemma idx_spec va :
  idx 0 va = (va / 4096 / 512 / 512 / 512) mod 512 ∧ idx 1 va = (va / 4096 / 512 / 512) mod 512 ∧
  idx 2 va = (va / 4096 / 512) mod 512 ∧ idx 3 va = (va / 4096) mod 512.
Proof.
  cbn [idx]. rewrite PD0X_spec, PD1X_spec, PD2X_spec, PTX_spec, !Z.div_div by lia. done.
Qed.

(** Two addresses select the same leaf slot when their page numbers agree on the
    36 bits the four levels look at. *)
Lemma same_page_spec x y :
  same_page x y = true ↔ (x / 4096) mod 2 ^ 36 = (y / 4096) mod 2 ^ 36.
Proof.
  unfold same_page. rewrite !pfx_S.
  destruct (idx_spec x) as (-> & -> & -> & ->), (idx_spec y) as (-> & -> & -> & ->).
  rewrite !mod_512_pow.
  pose proof (Z.mod_pos_bound (x / 4096) 512). pose proof (Z.mod_pos_bound (y / 4096) 512).
  pose proof (Z.mod_pos_bound (x / 4096 / 512) 512).
  pose proof (Z.mod_pos_bound (y / 4096 / 512) 512).
  pose proof (Z.mod_pos_bound (x / 4096 / 512 / 512) 512).
  pose proof (Z.mod_pos_bound (y / 4096 / 512 / 512) 512).
  split; [intuition congruence|]. intros E. cbn [pfx]. lia.
Qed.

Lemma page_u64 x : (u64 x / 4096) mod 2 ^ 36 = (x / 4096) mod 2 ^ 36.
Proof.
  unfold u64. change (2 ^ 64) with (4096 * 2 ^ 52). rewrite Z.rem_mul_r by lia.
  rewrite Z.add_comm, Z.mul_comm, Z.div_add_l by lia.
  rewrite (Z.div_small (x mod 4096)) by (apply Z.mod_pos_bound; lia).
  rewrite Z.add_0_r. symmetry. apply Znumtheory.Zmod_div_mod; try lia.
  exists (2 ^ 16). done.
Qed.

Lemma same_page_region va i j :
  0 ≤ i < 2 ^ 36 → 0 ≤ j < 2 ^ 36 →
  same_page (u64 (va + i * PGSIZE)) (u64 (va + j * PGSIZE)) = true → i = j.
Proof.
  intros Hi Hj. rewrite same_page_spec, !page_u64. unfold PGSIZE.
  rewrite !Z.div_add by lia. intros E.
  assert ((i - j) mod 2 ^ 36 = 0) as H.
  { replace (i - j) with ((va / 4096 + i) - (va / 4096 + j)) by lia.
    rewrite Zminus_mod, E, Z.sub_diag. done. }
  apply Z.mod_divide in H as [c Hc]; [|lia]. nia.
Qed.

(** ** [boot_map_region] *)

Definition region_entry (pa perm i : Z) : Z :=
  Z.lor (Z.lor (PTE_ENTRY (u64 (pa + i * PGSIZE))) perm) PTE_V.

Section boot_map.
Context (D : Z → Prop) (pgdir va pa perm : Z) (s : kstate) (l : list nat) (n : nat).
Context (Hwf : pages_wf s l) (Hok : pt_ok D s l pgdir).
Context (Hn : Z.of_nat n < 2 ^ 36) (Hfree : (3 * n ≤ length l)%nat).
Context (HD : ∀ i, 0 ≤ i < Z.of_nat n → D (PD0X (u64 (va + i * PGSIZE)))).

(** After the first [j] pages. *)
Definition region_inv (j : Z) (sj : kstate) : Prop :=
  ∃ lj, pages_wf sj lj ∧ pt_ok D sj lj pgdir ∧ lj `suffix_of` l ∧
    Z.of_nat (length l) ≤ Z.of_nat (length lj) + 3 * j ∧
    (∀ i, 0 ≤ i < j → leaf (mem sj) pgdir (u64 (va + i * PGSIZE)) = region_entry pa perm i) ∧
    (∀ va', D (PD0X va') → (∀ i, 0 ≤ i < j → same_page (u64 (va + i * PGSIZE)) va' = false) →
       leaf (mem sj) pgdir va' = leaf (mem s) pgdir va') ∧
    (∀ q, q ∉ l → pages sj !! q = pages s !! q).

Lemma region_step j sj :
  0 ≤ j < Z.of_nat n → region_inv j sj →
  ∃ s', boot_map_page pgdir va pa perm j sj = Ret tt s' ∧ region_inv (j + 1) s'.
Proof.
  intros Hj (lj & Hwfj & Hokj & Hsuf & Hlen & Hin & Hout & Hpg).
  set (vj := u64 (va + j * PGSIZE)). assert (D (PD0X vj)) as HDj by (by apply HD).
  unfold boot_map_page. fold vj.
  destruct (pgdir_walk_grow D pgdir sj lj vj Hwfj Hokj HDj)
    as (r & s1 & l1 & E & G & Hl1 & Hr). step_with E.
  destruct r as [pte|]; [|destruct Hr; lia]. destruct Hr as (t & Ht & ->).
  fold (region_entry pa perm j). pose proof G as [W O S1 L _ _ P _].
  eexists. split; [done|]. exists l1. simpl.
  assert (∀ va', D (PD0X va') →
    leaf (<[slot t (PTX vj):=region_entry pa perm j]> (mem s1)) pgdir va' =
    if same_page vj va' then region_entry pa perm j else leaf (mem sj) pgdir va') as Hleaf.
  { intros va' HD'. rewrite (store_leaf_leaf D pgdir s1 l1 vj t) by done. by rewrite L. }
  split_and!.
  - by destruct W.
  - by eapply (store_leaf_ok D pgdir s1 l1 vj t (region_entry pa perm j)).
  - by etrans.
  - lia.
  - intros i Hi. rewrite Hleaf by (apply HD; lia).
    destruct (decide (i = j)) as [->|Hij].
    + fold vj. unfold same_page. by rewrite pfx_refl.
    + destruct (same_page vj _) eqn:Hs; [|apply Hin; lia].
      apply same_page_region in Hs; lia.
  - intros va' HD' Hne. rewrite Hleaf by done. unfold vj. rewrite (Hne j) by lia.
    apply Hout; [done|]. intros i Hi. apply Hne. lia.
  - intros q Hq. rewrite P; [by apply Hpg|]. destruct Hsuf as [pre ->].
    intros Hq'. apply Hq, elem_of_app. by right.
Qed.

Lemma region_run :
  ∃ s', for_loop n 0 (boot_map_page pgdir va pa perm) s = Ret tt s' ∧ region_inv (Z.of_nat n) s'.
Proof.
  apply (for_loop_inv region_inv).
  - exists l. split_and!; try done; intros; lia.
  - intros j sj Hj. apply region_step. lia.
Qed.
End boot_map.

(** C15 ([boot_map_region]): with three free pages per page of the region the call
    returns; page [i] of the region is then mapped to page [i] of the physical
    range with the given permissions, every other entry is as before, and no
    reference count of a page in use changes. *)
Theorem boot_map_region_correct (D : Z → Prop) (pgdir va size pa perm : Z)
    (s : kstate) (l : list nat)
    (Hwf : pages_wf s l) (Hok : pt_ok D s l pgdir)
    (Hsize : 0 ≤ size / PGSIZE < 2 ^ 36) (Hfree : 3 * (size / PGSIZE) ≤ Z.of_nat (length l))
    (HD : ∀ i, 0 ≤ i < size / PGSIZE → D (PD0X (u64 (va + i * PGSIZE)))) :
  ∃ s' l', boot_map_region pgdir va size pa perm s = Ret tt s' ∧
    pages_wf s' l' ∧ pt_ok D s' l' pgdir ∧
    (∀ i, 0 ≤ i < size / PGSIZE →
       leaf (mem s') pgdir (u64 (va + i * PGSIZE)) = region_entry pa perm i) ∧
    (∀ va', D (PD0X va') →
       (∀ i, 0 ≤ i < size / PGSIZE → same_page (u64 (va + i * PGSIZE)) va' = false) →
       leaf (mem s') pgdir va' = leaf (mem s) pgdir va') ∧
    (∀ q, q ∉ l → pages s' !! q = pages s !! q).
Proof.
  destruct (region_run D pgdir va pa perm s l (Z.to_nat (size / PGSIZE)))
    as (s' & E & l' & Hwf' & Hok' & _ & _ & Hin & Hout & Hpg); try done; try lia.
  { intros i Hi. apply HD. lia. }
  rewrite Z2Nat.id in Hin, Hout by lia. exists s', l'. done.
Qed.

Lemma boot_map_region_witness :
  ∃ s' l', boot_map_region (kva_of 0) FLASH_MAP_ADDR PGSIZE 0x20000000 PTE_W map_example = Ret tt s' ∧
    pages_wf s' l' ∧ pt_ok (λ _, True) s' l' (kva_of 0) ∧
    (∀ i, 0 ≤ i < PGSIZE / PGSIZE →
       leaf (mem s') (kva_of 0) (u64 (FLASH_MAP_ADDR + i * PGSIZE))
       = region_entry 0x20000000 PTE_W i) ∧
    (∀ va', True →
       (∀ i, 0 ≤ i < PGSIZE / PGSIZE → same_page (u64 (FLASH_MAP_ADDR + i * PGSIZE)) va' = false) →
       leaf (mem s') (kva_of 0) va' = leaf (mem map_example) (kva_of 0) va') ∧
    (∀ q, q ∉ [1; 2; 3; 4]%nat → pages s' !! q = pages map_example !! q).
Proof.
  apply (boot_map_region_correct (λ _, True) (kva_of 0) FLASH_MAP_ADDR PGSIZE 0x20000000 PTE_W
           map_example [1; 2; 3; 4]%nat); try done.
  - exact map_example_wf.
  - apply map_example_pt.
Defined.

(** ** [user_mem_check] *)

(** The address the [k]-th iteration of the loop looks at. *)
Fixpoint probe (k : nat) (addr : Z) : Z :=
  match k with
  | O => addr
  | S k' => probe k' (u64 (ROUNDUP addr PGSIZE + PGSIZE))
  end.

Lemma valid_lor_V v perm : pte_valid v = true → Z.land v (u64 (Z.lor perm PTE_V)) ≠ 0.
Proof.
  unfold pte_valid. intros Hv E.
  assert (Z.land v PTE_V = 0) as H0; [|by rewrite H0 in Hv].
  change PTE_V with (2 ^ 0). apply land_pow2_testbit; [lia|].
  apply (f_equal (λ x, Z.testbit x 0)) in E. rewrite Z.land_spec, Z.bits_0 in E.
  unfold u64 in E. rewrite Z.mod_pow2_bits_low, Z.lor_spec in E by lia.
  by rewrite orb_true_r, andb_true_r in E.
Qed.

Lemma check_loop_stale D s l pgdir perm n addr p :
  pages_wf s l → pt_ok D s l pgdir →
  (∀ k, (k < n)%nat → D (PD0X (probe k addr)) ∧ leaf (mem s) pgdir (probe k addr) = 0) →
  Z.land (rd (mem s) p) (u64 (Z.lor perm PTE_V)) ≠ 0 →
  user_mem_check_loop n pgdir addr perm (Some p) s = Ret 0 s.
Proof.
  intros Hwf Hok. revert addr. induction n as [|n IH]; intros addr Hpr Hv; [done|]. simpl.
  destruct (Hpr 0%nat ltac:(lia)) as [HD Hl]. simpl in HD, Hl.
  step_with (page_lookup_none D s l pgdir addr Hwf Hok HD Hl). unfold load. step_pure.
  destruct (Z.eqb_spec (Z.land (rd (mem s) p) (u64 (Z.lor perm PTE_V))) 0); [done|].
  apply IH; [|done]. intros k Hk. apply (Hpr (S k)). lia.
Qed.

(** ([user_mem_check]): below [ULIM] only the page of [va] decides when the pages
    probed after it are unmapped, because [pte_store] keeps the entry of the last
    page found: the call faults when the page of [va] is unmapped, and succeeds
    for every [perm] as soon as the entry of that page has its valid bit set. *)
Theorem user_mem_check_first_page (D : Z → Prop) (s : kstate) (l : list nat)
    (e : nat) (v : Env) (q : nat) (p : PageInfo) (va len perm : Z)
    (Hwf : pages_wf s l) (Hcur : curenv s = Some e) (He : envs s !! e = Some v)
    (Hok : pt_ok D s l (env_pgdir v)) (HD : D (PD0X va))
    (Hulim : ROUNDUP (u64 (va + len)) PGSIZE ≤ ULIM) (Hlen : 0 ≤ len)
    (Hrest : ∀ k, (0 < k)%nat → (k ≤ Z.to_nat (len / PGSIZE))%nat →
       D (PD0X (probe k va)) ∧ leaf (mem s) (env_pgdir v) (probe k va) = 0) :
  (leaf (mem s) (env_pgdir v) va = 0 →
     user_mem_check va len perm s = Ret (- E_FAULT) (set_user_mem_check_addr va s)) ∧
  (pte_valid (leaf (mem s) (env_pgdir v) va) = true →
   PTE_PHY (leaf (mem s) (env_pgdir v) va) = page2pa q → pages s !! q = Some p →
     user_mem_check va len perm s = Ret 0 s).
Proof.
  assert (user_mem_check va len perm s =
    user_mem_check_loop (S (Z.to_nat (len / PGSIZE))) (env_pgdir v) va perm None s) as ->.
  { unfold user_mem_check. destruct (Z.ltb_spec ULIM (ROUNDUP (u64 (va + len)) PGSIZE)); [lia|].
    assert (0 ≤ len / PGSIZE) by (apply Z.div_pos; unfold PGSIZE; lia).
    replace (Z.to_nat (len / PGSIZE + 1)) with (S (Z.to_nat (len / PGSIZE))) by lia.
    step_pure. rewrite Hcur. simpl. step_pure. unfold bind, get_env. by rewrite He. }
  simpl. split.
  - intros Hl. by step_with (page_lookup_none D s l _ va Hwf Hok HD Hl).
  - intros Hv Hphy Hp.
    assert (leaf (mem s) (env_pgdir v) va ≠ 0) as Hnz by (intros E; by rewrite E in Hv).
    destruct (page_lookup_some D s l _ va q p Hwf Hok HD Hnz Hphy Hp) as (t & Ht & E).
    step_with E. unfold load. step_pure.
    assert (rd (mem s) (slot t (PTX va)) = leaf (mem s) (env_pgdir v) va) as Hr
      by (unfold leaf; by rewrite Ht).
    pose proof (valid_lor_V _ perm Hv) as Hnz'. rewrite <-Hr in Hnz'.
    destruct (Z.eqb_spec (Z.land (rd (mem s) (slot t (PTX va))) (u64 (Z.lor perm PTE_V))) 0); [done|].
    eapply check_loop_stale; [done|done| |done].
    intros k Hk. apply (Hrest (S k)); lia.
Qed.

(** An environment runs with page 0 as its page directory. *)
Definition with_env0 (s : kstate) : kstate :=
  set_curenv (Some 0%nat) (set_envs [set_env_pgdir (kva_of 0) zero_env] s).

Lemma user_mem_check_witness :
  ∃ s p, (leaf (mem s) (kva_of 0) UTEXT = 0 →
     user_mem_check UTEXT (3 * PGSIZE) PTE_W (with_env0 s)
     = Ret (- E_FAULT) (set_user_mem_check_addr UTEXT (with_env0 s))) ∧
  (pte_valid (leaf (mem s) (kva_of 0) UTEXT) = true →
   PTE_PHY (leaf (mem s) (kva_of 0) UTEXT) = page2pa 5 →
   pages s !! 5%nat = Some p →
     user_mem_check UTEXT (3 * PGSIZE) PTE_W (with_env0 s) = Ret 0 (with_env0 s)).
Proof.
  destruct mapped_example_inserted as [l H]. revert H. generalize mapped_example. intros s H.
  destruct (map_example_unmappable _ _ H) as (p & _ & Hum). exists s, p.
  apply (user_mem_check_first_page (λ _, True) (with_env0 s) l 0
            (set_env_pgdir (kva_of 0) zero_env)); try done.
  - exact (pages_wf_ext s (with_env0 s) l (in_wf _ _ _ _ _ _ _ _ _ H) eq_refl eq_refl eq_refl).
  - exact (pt_ok_pages _ s l (with_env0 s) _ (in_ok _ _ _ _ _ _ _ _ _ H) eq_refl (λ j Hj, Hj)).
  - intros k Hk Hk3. split; [done|]. simpl. rewrite (in_leaf _ _ _ _ _ _ _ _ _ H) by done.
    change (Z.to_nat (3 * PGSIZE / PGSIZE)) with 3%nat in Hk3.
    destruct k as [|[|[|[|k]]]]; [lia|done|done|done|lia].
Defined.
