(* ===== verification/Env.v ===== *)
(** * Environments of kern/riscv/env.c

    [envid2env], [env_init], [env_setup_vm], [env_alloc], [region_alloc],
    [load_icode], [env_create], [env_free], [env_pop_tf] and [env_run].

    What the code reads from the machine is a parameter, the class [Hart]: the
    number of the processor ([cpunum()], an SBI answer), the characters the SBI
    console delivers when it is polled, and the address at which [mem_init] placed
    [envs].  Kernel accesses to user addresses go through the
    page tables in [satp]; one the hardware refuses is a page fault in kernel
    mode, on which [page_fault_handler] panics. *)

From S2P Require Import Prelude Mmu Kstate Pages Pgtable PgtableInv PgtableMap PgtableBoot.

Class Hart := {
  cpunum : Z;
  envs_base : Z;
  console_input : list Z
}.

(** [(unsigned long)e] for [e = &envs\[i\]]; a [struct Env] takes 368 bytes. *)
Definition env_addr `{Hart} (e : nat) : Z := u64 (envs_base + 368 * Z.of_nat e).

(** ** inc/riscv/riscv.h: the registers of the processor *)

Definition load_satp_asid (physical asid : Z) : K unit := modify (set_satp (physical, asid)).

(** [or] of bit 18, supervisor access to user memory. *)
Definition set_status_sum (sum : bool) : K unit :=
  modify (λ s, set_sstatus (Z.lor (sstatus s) (Z.shiftl (if sum then 1 else 0) 18)) s).

(** ** Kernel accesses to virtual addresses *)

(** Where the hardware finds the byte at [va] for a store in supervisor mode:
    the direct-map address of the byte. *)
Definition vm_store_addr (va : Z) : K Z := λ s,
  let e := leaf (mem s) (u64 (fst (satp s) + KERNBASE)) va in
  if pte_valid e && negb (Z.land e PTE_W =? 0)
     && ((Z.land e PTE_U =? 0) || Z.testbit (sstatus s) 18)
  then Ret (u64 (PTE_PHY e + PGOFF va + KERNBASE)) s
  else Panic s.

(** The same for a load. *)
Definition vm_load_addr (va : Z) : K Z := λ s,
  let e := leaf (mem s) (u64 (fst (satp s) + KERNBASE)) va in
  if pte_valid e && negb (Z.land e PTE_R =? 0)
     && ((Z.land e PTE_U =? 0) || Z.testbit (sstatus s) 18)
  then Ret (u64 (PTE_PHY e + PGOFF va + KERNBASE)) s
  else Panic s.

Definition vm_load8 (va : Z) : K Z :=
  a <- vm_load_addr va ;;
  w <- load (a - a mod 8) ;;
  ret (u8 (Z.shiftr w (8 * (a mod 8)))).

(** A 64-bit access is one word when it is aligned; a misaligned one is left to
    the platform. *)
Definition vm_store64 (va x : Z) : K unit :=
  if negb (va mod 8 =? 0) then undef else
  a <- vm_store_addr va ;;
  store a x.

Definition vm_load64 (va : Z) : K Z :=
  if negb (va mod 8 =? 0) then undef else
  a <- vm_load_addr va ;;
  load a.

(** The word [w] with byte [k] replaced by [b]. *)
Definition set_byte (w k b : Z) : Z :=
  Z.lor (Z.land w (Z.lnot (Z.shiftl 0xff (8 * k)))) (Z.shiftl (u8 b) (8 * k)).

Definition vm_store8 (va b : Z) : K unit :=
  a <- vm_store_addr va ;;
  w <- load (a - a mod 8) ;;
  store (a - a mod 8) (set_byte w (a mod 8) b).

(** ** Environment numbers *)

Definition ENVGENSHIFT : Z := 12.

Definition envid2env (envid : Z) (checkperm : bool) : K (Z * option nat) :=
  cur <- gets curenv ;;
  if envid =? 0 then ret (0, cur) else
  let e := Z.to_nat (ENVX envid) in
  v <- get_env e ;;
  if (env_status v =? ENV_FREE) || negb (env_id v =? envid)
  then ret (- E_BAD_ENV, None) else
  denied <- (if checkperm && negb (bool_decide (cur = Some e)) then
               c <- deref cur ;; cv <- get_env c ;;
               ret (negb (env_parent_id v =? env_id cv))
             else ret false) ;;
  if denied : bool then ret (- E_BAD_ENV, None) else ret (0, Some e).

(** ** Initialization *)

(** [n] slots to go from slot [i]; [tail] is the last slot that was linked. *)
Fixpoint env_init_loop (n i : nat) (tail : option nat) : K unit :=
  match n with
  | O => ret tt
  | S n' =>
      upd_env i (set_env_id 0) ;;;
      (if negb (Nat.eqb i 0) then
         t <- deref tail ;; upd_env t (set_env_link (Some i))
       else
         fl <- gets env_free_list ;;
         upd_env i (set_env_link fl) ;;;
         modify (set_env_free_list (Some i))) ;;;
      env_init_loop n' (S i) (Some i)
  end.

Definition env_init_percpu : K unit := set_status_sum true.

Definition env_init : K unit :=
  env_init_loop (Z.to_nat NENV) 0 None ;;; env_init_percpu.

(** ** Creation *)

(** [e->env_pgdir\[i\] = kern_pgdir\[i\]] *)
Definition copy_pde (pgdir i : Z) : K unit :=
  kp <- gets kern_pgdir ;;
  v <- load (slot kp i) ;;
  store (slot pgdir i) v.

Definition env_setup_vm (e : nat) : K Z :=
  p <- page_alloc ALLOC_ZERO ;;
  match p with
  | None => ret (- E_NO_MEM)
  | Some pp =>
      kva <- page2kva pp ;;
      upd_env e (set_env_pgdir kva) ;;;
      incref pp ;;;
      copy_pde kva (PD0X UPAGES) ;;;
      copy_pde kva (PD0X UENVS) ;;;
      copy_pde kva (PD0X MMIOBASE) ;;;
      for_loop (Z.to_nat (512 - PD0X KERNBASE)) (PD0X KERNBASE) (copy_pde kva) ;;;
      pa <- PADDR kva ;;
      store (slot kva (PD0X UVPT)) (Z.lor pa PTE_V) ;;;
      ret 0
  end.

(** The next number of slot [e]; [env_id] is an [int32_t]. *)
Definition next_env_id (old : Z) (e : nat) : Z :=
  let generation := Z.land (i32 (old + Z.shiftl 1 ENVGENSHIFT)) (Z.lnot (NENV - 1)) in
  let generation := if generation <=? 0 then Z.shiftl 1 ENVGENSHIFT else generation in
  Z.lor generation (Z.of_nat e).

Section with_hart.
Context `{Hart}.

(** The fields [env_alloc] gives the new environment; [status] is the value
    [read_status()] returned. *)
Definition new_env (e : nat) (parent_id status : Z) (v : Env) : Env :=
  set_env_ipc_recving false (set_env_pgfault_upcall 0
   (set_env_tf (set_tf_tp (env_addr e) (set_tf_status (Z.lor status 0x20)
                 (set_tf_sp USTACKTOP zero_tf)))
   (set_env_runs 0 (set_env_status ENV_RUNNABLE (set_env_type ENV_TYPE_USER
   (set_env_parent_id parent_id (set_env_id (next_env_id (env_id v) e) v))))))).

Definition env_alloc (parent_id : Z) : K (Z * option nat) :=
  fl <- gets env_free_list ;;
  match fl with
  | None => ret (- E_NO_FREE_ENV, None)
  | Some e =>
      r <- env_setup_vm e ;;
      if r <? 0 then ret (r, None) else
      status <- gets sstatus ;;
      upd_env e (new_env e parent_id status) ;;;
      v <- get_env e ;;
      modify (set_env_free_list (env_link v)) ;;;
      ret (0, Some e)
  end.

(** ** Loading a program *)

Definition region_perm : Z := Z.lor (Z.lor (Z.lor PTE_U PTE_W) PTE_R) PTE_X.

Definition region_alloc_page (e : nat) (va : Z) : K unit :=
  modify (λ s, set_tlb_flushes (va :: tlb_flushes s) s) ;;;
  pg_info <- page_alloc 0 ;;
  match pg_info with
  | None => panic
  | Some pp =>
      v <- get_env e ;;
      r <- page_insert (env_pgdir v) pp va region_perm ;;
      if r <? 0 then panic else
      kp <- gets kern_pgdir ;;
      d <- load (slot (env_pgdir v) (PD0X va)) ;;
      store (slot kp (PD0X va)) d
  end.

Definition region_alloc (e : nat) (va len : Z) : K unit :=
  let va := ROUNDDOWN va PGSIZE in
  let end_ := ROUNDUP (u64 (va + len)) PGSIZE in
  for_loop (Z.to_nat ((end_ - va) / PGSIZE)) 0
    (λ i, region_alloc_page e (va + i * PGSIZE)).

(** The image linked into the kernel, as the function from offsets to bytes;
    [n]-byte little-endian fields of its headers. *)
Fixpoint le_field (binary : Z → Z) (n : nat) (off : Z) : Z :=
  match n with
  | O => 0
  | S n' => binary off + 256 * le_field binary n' (off + 1)
  end.

Definition ELF_MAGIC : Z := 0x464C457F.
Definition ELF_PROG_LOAD : Z := 1.

Record Proghdr := mkProghdr {
  p_type : Z;
  p_flags : Z;
  p_offset : Z;
  p_va : Z;
  p_pa : Z;
  p_filesz : Z;
  p_memsz : Z;
  p_align : Z
}.

Definition read_proghdr (binary : Z → Z) (off : Z) : Proghdr :=
  mkProghdr (le_field binary 4 off) (le_field binary 4 (off + 4))
    (le_field binary 8 (off + 8)) (le_field binary 8 (off + 16))
    (le_field binary 8 (off + 24)) (le_field binary 8 (off + 32))
    (le_field binary 8 (off + 40)) (le_field binary 8 (off + 48)).

(** One program header: [region_alloc], [memmove] and [memset]. *)
Definition load_segment (e : nat) (binary : Z → Z) (ph : Proghdr) : K unit :=
  if p_type ph =? ELF_PROG_LOAD then
    if p_memsz ph <? p_filesz ph then panic else
    region_alloc e (p_va ph) (p_memsz ph) ;;;
    for_loop (Z.to_nat (p_filesz ph)) 0
      (λ i, vm_store8 (u64 (p_va ph + i)) (binary (p_offset ph + i))) ;;;
    for_loop (Z.to_nat (p_memsz ph - p_filesz ph)) (p_filesz ph)
      (λ i, vm_store8 (u64 (p_va ph + i)) 0)
  else ret tt.

Definition load_icode (e : nat) (binary : Z → Z) : K unit :=
  if negb (le_field binary 4 0 =? ELF_MAGIC) then panic else
  let e_entry := le_field binary 8 24 in
  let e_phoff := le_field binary 8 32 in
  let e_phnum := le_field binary 2 56 in
  for_loop (Z.to_nat e_phnum) 0
    (λ i, load_segment e binary (read_proghdr binary (e_phoff + 56 * i))) ;;;
  upd_env e (λ v, set_env_tf (set_tf_sepc e_entry (env_tf v)) v) ;;;
  pg_info <- page_alloc 0 ;;
  v <- get_env e ;;
  pp <- deref pg_info ;;
  page_insert (env_pgdir v) pp (USTACKTOP - PGSIZE) (Z.lor (Z.lor PTE_U PTE_W) PTE_R) ;;;
  ret tt.

Definition env_create (binary : Z → Z) (type : EnvType) : K unit :=
  r <- env_alloc 0 ;;
  match r with
  | (ret_, env) =>
      if ret_ <? 0 then panic else
      e <- deref env ;;
      set_status_sum true ;;;
      load_icode e binary ;;;
      upd_env e (set_env_type type) ;;;
      match type with
      | ENV_TYPE_FS => v <- get_env e ;; copy_pde (env_pgdir v) (PD0X FLASH_MAP_ADDR)
      | _ => ret tt
      end
  end.
End with_hart.

(** ** Teardown *)

Definition env_free_pte (pgdir pt pde1no pde2no pteno : Z) : K unit :=
  v <- load (slot pt pteno) ;;
  if pte_valid v then page_remove pgdir (PGADDR 0 pde1no pde2no pteno 0) else ret tt.

Definition env_free_pd2 (pgdir pd2 pde1no pde2no : Z) : K unit :=
  v <- load (slot pd2 pde2no) ;;
  if negb (pte_valid v) then ret tt else
  pt <- KADDR (PTE_ADDR v) ;;
  for_loop 512 0 (env_free_pte pgdir pt pde1no pde2no) ;;;
  store (slot pd2 pde2no) 0 ;;;
  pp <- pa2page (PTE_ADDR v) ;;
  page_decref pp.

Definition env_free_pd1 (pgdir pd1 pde1no : Z) : K unit :=
  v <- load (slot pd1 pde1no) ;;
  if negb (pte_valid v) then ret tt else
  pd2 <- KADDR (PTE_ADDR v) ;;
  for_loop 512 0 (env_free_pd2 pgdir pd2 pde1no) ;;;
  store (slot pd1 pde1no) 0 ;;;
  pp <- pa2page (PTE_ADDR v) ;;
  page_decref pp.

(** Only the first entry of the page directory is visited. *)
Definition env_free_tables (pgdir : Z) : K unit :=
  v <- load (slot pgdir 0) ;;
  if negb (pte_valid v) then ret tt else
  pd1 <- KADDR (PTE_ADDR v) ;;
  for_loop 512 0 (env_free_pd1 pgdir pd1) ;;;
  store (slot pgdir 0) 0 ;;;
  pp <- pa2page (PTE_ADDR v) ;;
  page_decref pp.

Definition env_free (e : nat) : K unit :=
  cur <- gets curenv ;;
  (if bool_decide (cur = Some e) then
     kp <- gets kern_pgdir ;; pa <- PADDR kp ;; load_satp_asid pa 0
   else ret tt) ;;;
  v <- get_env e ;;
  env_free_tables (env_pgdir v) ;;;
  pa <- PADDR (env_pgdir v) ;;
  upd_env e (set_env_pgdir 0) ;;;
  pp <- pa2page pa ;;
  page_decref pp ;;;
  fl <- gets env_free_list ;;
  upd_env e (λ v, set_env_link fl (set_env_status ENV_FREE v)) ;;;
  modify (set_env_free_list (Some e)).

(** ** Running *)

Section running.
Context `{Hart}.

(** The return to user mode leaves the kernel, with the big lock released. *)
Definition env_pop_tf : K unit :=
  cur <- gets curenv ;;
  e <- deref cur ;;
  upd_env e (set_env_cpunum cpunum) ;;;
  modify (set_kernel_locked false) ;;;
  noret.

Definition env_run (e : nat) : K unit :=
  cur <- gets curenv ;;
  match cur with
  | Some c =>
      v <- get_env c ;;
      if env_status v =? ENV_RUNNING then upd_env c (set_env_status ENV_RUNNABLE) else ret tt
  | None => ret tt
  end ;;;
  modify (set_curenv (Some e)) ;;;
  upd_env e (λ v, set_env_runs (u32 (env_runs v + 1)) (set_env_status ENV_RUNNING v)) ;;;
  v <- get_env e ;;
  pa <- PADDR (env_pgdir v) ;;
  load_satp_asid pa (Z.land (env_id v) 0x3ff) ;;;
  env_pop_tf.
End running.
