(* ===== verification/EnvInv.v ===== *)
(** * Correctness of environment allocation and lookup

    The invariant of the [envs] array ([envs_wf]): the free list threaded through
    [env_link] visits exactly the free slots, and the number of a slot encodes
    its index.  The theorems cover [env_init], [envid2env] and [env_alloc]. *)

From S2P Require Import Prelude Mmu Kstate Pages Pgtable PgtableInv PgtableMap PgtableBoot Env.

(** ** Environment numbers *)

(** A slot's number is 0 before its first use; generation [g] is [4096 * g] plus
    the index. *)
Definition id_ok (i : nat) (id : Z) : Prop :=
  id = 0 ∨ ∃ g, 1 ≤ g < 2 ^ 19 ∧ id = 4096 * g + Z.of_nat i.

Lemma land_lnot_1023 x : Z.land x (Z.lnot (NENV - 1)) = x / 1024 * 1024.
Proof.
  change (NENV - 1) with (Z.ones 10). rewrite <-Z.ldiff_land, Z.ldiff_ones_r by lia.
  rewrite Z.shiftl_mul_pow2, Z.shiftr_div_pow2 by lia. done.
Qed.

Lemma i32_wrap x : 2 ^ 31 ≤ x < 2 ^ 32 → i32 x = x - 2 ^ 32.
Proof. intros H. unfold i32. rewrite Z.mod_small by lia. case_match; lia. Qed.

Lemma lor_4096 (i : nat) : (i < 1024)%nat → Z.lor 4096 (Z.of_nat i) = 4096 + Z.of_nat i.
Proof. intros. change 4096 with (Z.shiftl 4 10) at 1. rewrite lor_shiftl_add; lia. Qed.

(** The generation counter steps by one and wraps from [2^19 - 1] to 1. *)
Lemma next_env_id_gen (i : nat) g :
  (i < 1024)%nat → 1 ≤ g < 2 ^ 19 →
  next_env_id (4096 * g + Z.of_nat i) i =
  4096 * (if g + 1 <? 2 ^ 19 then g + 1 else 1) + Z.of_nat i.
Proof.
  intros Hi Hg. unfold next_env_id. rewrite land_lnot_1023.
  change (Z.shiftl 1 ENVGENSHIFT) with 4096.
  destruct (Z.ltb_spec (g + 1) (2 ^ 19)).
  - rewrite i32_small by lia.
    replace ((4096 * g + Z.of_nat i + 4096) / 1024) with (4 * (g + 1)).
    2:{ apply Z.div_unique with (Z.of_nat i); lia. }
    destruct (Z.leb_spec (4 * (g + 1) * 1024) 0); [lia|].
    change 1024 with (2 ^ 10). rewrite <-Z.shiftl_mul_pow2 by lia.
    rewrite lor_shiftl_add; lia.
  - rewrite i32_wrap by lia.
    destruct (Z.leb_spec ((4096 * g + Z.of_nat i + 4096 - 2 ^ 32) / 1024 * 1024) 0) as [_|E].
    2:{ pose proof (Z.div_lt_upper_bound (4096 * g + Z.of_nat i + 4096 - 2 ^ 32) 1024 0); lia. }
    rewrite lor_4096 by done. lia.
Qed.

Lemma next_env_id_first (i : nat) : (i < 1024)%nat → next_env_id 0 i = 4096 + Z.of_nat i.
Proof.
  intros Hi. unfold next_env_id. change (Z.land _ _) with 4096. simpl (4096 <=? 0).
  cbv iota. by apply lor_4096.
Qed.

Lemma next_env_id_ok (i : nat) id :
  (i < 1024)%nat → id_ok i id → id_ok i (next_env_id id i) ∧ next_env_id id i ≠ 0.
Proof.
  intros Hi [->|(g & Hg & ->)].
  - rewrite next_env_id_first by done. split; [|lia]. right. exists 1. lia.
  - rewrite next_env_id_gen by done. split; [|case_match; lia].
    right. case_match; [exists (g + 1)|exists 1]; lia.
Qed.

Lemma id_ok_ENVX (i : nat) id : (i < 1024)%nat → id_ok i id → id ≠ 0 → ENVX id = Z.of_nat i.
Proof.
  intros Hi [->|(g & Hg & ->)] Hz; [done|]. unfold ENVX. change (NENV - 1) with (2 ^ 10 - 1).
  rewrite land_ones_mod by lia. symmetry. apply Z.mod_unique with (4 * g); lia.
Qed.

(** The generation after [k] more uses of the slot. *)
Lemma next_env_id_iter (i : nat) g (k : nat) :
  (i < 1024)%nat → 1 ≤ g < 2 ^ 19 → Z.of_nat k < 2 ^ 19 - 1 →
  Nat.iter k (λ id, next_env_id id i) (4096 * g + Z.of_nat i) =
  4096 * (if g + Z.of_nat k <? 2 ^ 19 then g + Z.of_nat k
          else g + Z.of_nat k - (2 ^ 19 - 1)) + Z.of_nat i.
Proof.
  intros Hi Hg. induction k as [|k IH]; intros Hk.
  - cbn [Nat.iter nat_rect]. zcases; lia.
  - rewrite Nat.iter_succ, IH by lia. clear IH.
    destruct (Z.ltb_spec (g + Z.of_nat k) (2 ^ 19));
      rewrite next_env_id_gen by lia; f_equal; f_equal; zcases; lia.
Qed.

(** Environment numbers are not reused early.  If a slot's number is [id],
    the number it gets from any of the next 524286 allocations of the slot
    differs from [id], is positive and still carries the slot's index; so a
    number kept across that many reuses is recognised as stale. *)
Theorem env_id_no_early_reuse (i k : nat) (id : Z)
  (Hi : (i < 1024)%nat) (Hok : id_ok i id) (Hlive : id ≠ 0)
  (Hk : 0 < Z.of_nat k < 2 ^ 19 - 1) :
  let id' := Nat.iter k (λ id, next_env_id id i) id in
  id' ≠ id ∧ 0 < id' < 2 ^ 31 ∧ ENVX id' = Z.of_nat i.
Proof.
  cbv zeta. destruct Hok as [->|(g & Hg & ->)]; [done|].
  rewrite next_env_id_iter by lia.
  assert (∃ g', 1 ≤ g' < 2 ^ 19 ∧ g' ≠ g ∧
    (if g + Z.of_nat k <? 2 ^ 19 then g + Z.of_nat k
     else g + Z.of_nat k - (2 ^ 19 - 1)) = g') as (g' & Hg' & Hne & ->).
  { eexists. split_and!; [..|done]; zcases; lia. }
  split_and!; [lia..|]. apply id_ok_ENVX; [done| |lia]. right. by exists g'.
Qed.

Lemma env_id_witness :
  let id' := Nat.iter 3 (λ id, next_env_id id 5) 0x7ffff005 in
  id' ≠ 0x7ffff005 ∧ 0 < id' < 2 ^ 31 ∧ ENVX id' = 5.
Proof.
  apply (env_id_no_early_reuse 5 3 0x7ffff005); [lia| |done|lia].
  right. exists 0x7ffff. done.
Defined.

(** ** The invariant of the [envs] array *)

Record envs_wf (s : kstate) (le : list nat) : Prop := {
  ew_length : length (envs s) = Z.to_nat NENV;
  ew_chain : chain env_link (envs s) (env_free_list s) le;
  ew_nodup : NoDup le;
  ew_free i v : envs s !! i = Some v → (i ∈ le ↔ env_status v = ENV_FREE);
  ew_id i v : envs s !! i = Some v → id_ok i (env_id v);
  ew_live i v : envs s !! i = Some v → i ∉ le → env_id v ≠ 0
}.

Lemma envs_wf_ext s s' le :
  envs_wf s le → envs s' = envs s → env_free_list s' = env_free_list s → envs_wf s' le.
Proof. intros [] E1 E2. split; rewrite ?E1, ?E2; done. Qed.

Lemma envs_wf_lt s le i v : envs_wf s le → envs s !! i = Some v → (i < 1024)%nat.
Proof. intros Hwf Hv%lookup_lt_Some. rewrite (ew_length _ _ Hwf) in Hv. exact Hv. Qed.

Lemma get_env_Some s e v : envs s !! e = Some v → get_env e s = Ret v s.
Proof. intros H. unfold get_env. by rewrite H. Qed.

Lemma upd_env_Some s e v f :
  envs s !! e = Some v → upd_env e f s = Ret tt (set_envs (<[e := f v]> (envs s)) s).
Proof. intros H. unfold upd_env. by step_with (get_env_Some s e v H). Qed.

(** ** env_init *)

(** The array after [i] slots were linked. *)
Definition init_slot (i j : nat) : Env :=
  if bool_decide (S j < i)%nat then set_env_link (Some (S j)) zero_env else zero_env.

Lemma init_slot_step (s : kstate) i :
  (1 ≤ i)%nat → (i < length (envs s))%nat →
  (∀ j v, envs s !! j = Some v → v = init_slot i j) →
  ∃ s', (upd_env i (set_env_id 0) ;;; upd_env (i - 1) (set_env_link (Some i))) s = Ret tt s' ∧
    length (envs s') = length (envs s) ∧ s' = set_envs (envs s') s ∧
    (∀ j v, envs s' !! j = Some v → v = init_slot (S i) j).
Proof.
  intros Hi Hlen Hinv.
  destruct (lookup_lt_is_Some_2 (envs s) i Hlen) as [v Hv].
  destruct (lookup_lt_is_Some_2 (envs s) (i - 1) ltac:(lia)) as [w Hw].
  step_with (upd_env_Some s i v (set_env_id 0) Hv).
  rewrite (upd_env_Some _ (i - 1) w).
  2:{ simpl. by rewrite list_lookup_insert_ne by lia. }
  eexists. split_and!; [done|simpl; by rewrite !length_insert|done|].
  intros j u. simpl.
  pose proof (Hinv _ _ Hv) as Ev. pose proof (Hinv _ _ Hw) as Ew. subst v w.
  unfold init_slot at 1 2. unfold init_slot.
  rewrite !bool_decide_eq_false_2 by lia.
  destruct (decide (j = i - 1)%nat) as [->|Hj1].
  - rewrite list_lookup_insert_eq by (rewrite length_insert; lia).
    intros [= <-]. rewrite bool_decide_eq_true_2 by lia. by replace (S (i - 1)) with i by lia.
  - rewrite list_lookup_insert_ne by done.
    destruct (decide (j = i)) as [->|Hj].
    + rewrite list_lookup_insert_eq by lia. intros [= <-].
      by rewrite bool_decide_eq_false_2 by lia.
    + rewrite list_lookup_insert_ne by done. intros Hu. rewrite (Hinv _ _ Hu).
      unfold init_slot. by rewrite (bool_decide_ext (S j < i)%nat (S j < S i)%nat) by lia.
Qed.

Lemma env_init_loop_run (n i : nat) (s : kstate) :
  (1 ≤ i)%nat → length (envs s) = (i + n)%nat →
  (∀ j v, envs s !! j = Some v → v = init_slot i j) →
  ∃ s', env_init_loop n i (Some (i - 1)%nat) s = Ret tt s' ∧
    length (envs s') = length (envs s) ∧ s' = set_envs (envs s') s ∧
    (∀ j v, envs s' !! j = Some v → v = init_slot (i + n) j).
Proof.
  revert i s. induction n as [|n IH]; intros i s Hi Hlen Hinv.
  - exists s. rewrite Nat.add_0_r. split_and!; [done|done|by destruct s|done].
  - destruct (init_slot_step s i Hi ltac:(lia) Hinv) as (s1 & E1 & L1 & R1 & I1).
    destruct (IH (S i) s1 ltac:(lia) ltac:(lia) I1) as (s2 & E2 & L2 & R2 & I2).
    exists s2. split_and!.
    + cbn [env_init_loop]. rewrite bind_Ret in E1. destruct E1 as ([] & sa & Ea & Eb).
      step_with Ea. destruct (Nat.eqb_spec i 0); [lia|]. cbn [negb].
      rewrite bind_assoc. unfold deref. step_pure. step_with Eb.
      by replace (S i - 1)%nat with i in E2 by lia.
    + congruence.
    + rewrite R2, R1. done.
    + by replace (i + S n)%nat with (S i + n)%nat by lia.
Qed.

Lemma init_chain (es : list Env) (N n i : nat) :
  length es = N → (i + n = N)%nat → (∀ j v, es !! j = Some v → v = init_slot N j) →
  chain env_link es (if bool_decide (i < N)%nat then Some i else None) (seq i n).
Proof.
  intros Hlen. revert i. induction n as [|n IH]; intros i Hi Hinv; simpl.
  - by rewrite bool_decide_eq_false_2 by lia.
  - rewrite bool_decide_eq_true_2 by lia. split; [done|].
    destruct (lookup_lt_is_Some_2 es i ltac:(lia)) as [v Hv]. exists v. split; [done|].
    rewrite (Hinv _ _ Hv). specialize (IH (S i) ltac:(lia) Hinv).
    unfold init_slot. by case_bool_decide.
Qed.

Lemma env_init_loop_all (n : nat) (s : kstate) :
  envs s = replicate (S n) zero_env → env_free_list s = None →
  ∃ s', env_init_loop (S n) 0 None s = Ret tt s' ∧ length (envs s') = S n ∧
    s' = set_env_free_list (Some 0%nat) (set_envs (envs s') s) ∧
    (∀ j v, envs s' !! j = Some v → v = init_slot (S n) j).
Proof.
  intros Hz Hfl.
  destruct (env_init_loop_run n 1 (set_env_free_list (Some 0%nat) s)) as (s1 & E1 & L1 & R1 & I1).
  { lia. }
  { simpl. by rewrite Hz, length_replicate. }
  { intros j v. simpl. rewrite Hz. intros [-> _]%lookup_replicate.
    unfold init_slot. by rewrite bool_decide_eq_false_2 by lia. }
  change (envs (set_env_free_list (Some 0%nat) s)) with (envs s) in L1.
  rewrite Hz, length_replicate in L1.
  exists s1. split_and!; [|done|done|done].
  cbn [env_init_loop]. step_with (upd_env_Some s 0 zero_env (set_env_id 0) ltac:(by rewrite Hz)).
  cbn [Nat.eqb negb]. rewrite bind_assoc. step_pure. rewrite bind_assoc.
  step_with (upd_env_Some (set_envs (<[0%nat := set_env_id 0 zero_env]> (envs s)) s)
              0 (set_env_id 0 zero_env) (set_env_link (env_free_list s)) ltac:(by simpl; rewrite Hz)).
  step_pure. rewrite <-E1. f_equal. rewrite Hfl, Hz. destruct s; simpl in *; by subst.
Qed.

Lemma init_slots_wf (n : nat) (s : kstate) :
  Z.to_nat NENV = S n → length (envs s) = S n → env_free_list s = Some 0%nat →
  (∀ j v, envs s !! j = Some v → v = init_slot (S n) j) → envs_wf s (seq 0 (S n)).
Proof.
  intros HN L Hfl I. split; [by rewrite HN| |apply NoDup_seq|..].
  - rewrite Hfl. exact (init_chain (envs s) (S n) (S n) 0 L eq_refl I).
  - intros i v Hv. rewrite elem_of_seq. pose proof (lookup_lt_Some _ _ _ Hv).
    rewrite (I _ _ Hv). unfold init_slot. case_bool_decide; simpl; split; (done || lia).
  - intros i v Hv. rewrite (I _ _ Hv). unfold init_slot. left. by case_bool_decide.
  - intros i v Hv Hni. apply lookup_lt_Some in Hv. exfalso. apply Hni, elem_of_seq. lia.
Qed.

Lemma env_init_run s :
  envs s = replicate (Z.to_nat NENV) zero_env → env_free_list s = None →
  ∃ s', env_init s = Ret tt s' ∧ envs_wf s' (seq 0 (Z.to_nat NENV)) ∧
    (∀ i v, envs s' !! i = Some v → env_id v = 0) ∧
    Z.testbit (sstatus s') 18 = true ∧
    s' = set_sstatus (sstatus s') (set_env_free_list (Some 0%nat) (set_envs (envs s') s)).
Proof.
  intros Hz Hfl. unfold env_init. destruct (Z.to_nat NENV) as [|n] eqn:HN; [done|].
  destruct (env_init_loop_all n s Hz Hfl) as (s1 & E1 & L1 & R1 & I1).
  step_with E1. eexists. split; [done|]. cbn [sstatus envs set_sstatus]. split_and!.
  - apply (envs_wf_ext s1); [|done|done]. apply init_slots_wf; [done|done| |done]. by rewrite R1.
  - intros i v Hv. rewrite (I1 _ _ Hv). unfold init_slot. by case_bool_decide.
  - rewrite Z.lor_spec. apply orb_true_r.
  - by rewrite R1 at 2.
Qed.

(** [env_init] on the zeroed array returns with every slot on the free list
    in the order of the array (the first [env_alloc] takes slot 0), all numbers
    zero, and supervisor access to user memory enabled; nothing else changes. *)
Theorem env_init_correct (s : kstate)
  (Hz : envs s = replicate (Z.to_nat NENV) zero_env) (Hfl : env_free_list s = None) :
  ∃ s', env_init s = Ret tt s' ∧ envs_wf s' (seq 0 (Z.to_nat NENV)) ∧
    (∀ i v, envs s' !! i = Some v → env_id v = 0) ∧
    Z.testbit (sstatus s') 18 = true ∧
    s' = set_sstatus (sstatus s') (set_env_free_list (Some 0%nat) (set_envs (envs s') s)).
Proof. by apply env_init_run. Qed.

(** The zeroed array of boot time. *)
Definition env_boot_example : kstate :=
  set_envs (replicate (Z.to_nat NENV) zero_env) map_example.

Lemma env_init_witness :
  ∃ s', env_init env_boot_example = Ret tt s' ∧ envs_wf s' (seq 0 (Z.to_nat NENV)) ∧
    (∀ i v, envs s' !! i = Some v → env_id v = 0) ∧
    Z.testbit (sstatus s') 18 = true ∧
    s' = set_sstatus (sstatus s') (set_env_free_list (Some 0%nat)
           (set_envs (envs s') env_boot_example)).
Proof. apply (env_init_correct env_boot_example); done. Defined.

(** ** envid2env *)

(** [e] is the live environment numbered [id] that [c] may act on. *)
Definition names_env (s : kstate) (c : nat) (chk : bool) (id : Z) (e : nat) : Prop :=
  ∃ v cv, envs s !! e = Some v ∧ envs s !! c = Some cv ∧
    env_status v ≠ ENV_FREE ∧ env_id v = id ∧
    (chk = true → e = c ∨ env_parent_id v = env_id cv).

(** The slot that the number points at decides. *)
Lemma envid2env_slot s c cv id chk v :
  curenv s = Some c → envs s !! c = Some cv → id ≠ 0 →
  envs s !! Z.to_nat (ENVX id) = Some v →
  ∃ b, envid2env id chk s =
     Ret (if b : bool then (0, Some (Z.to_nat (ENVX id))) else (- E_BAD_ENV, None)) s ∧
     (b = true ↔ names_env s c chk id (Z.to_nat (ENVX id))).
Proof.
  intros Hcur Hcv Hid Hv.
  unfold envid2env. step_pure. destruct (Z.eqb_spec id 0); [done|].
  step_with (get_env_Some s _ v Hv). rewrite Hcur.
  destruct (Z.eqb_spec (env_status v) ENV_FREE) as [Hs|Hs]; cbn [orb].
  { exists false. split; [done|]. split; [done|]. intros (v' & ? & ? & _ & ? & _). by simplify_eq. }
  destruct (Z.eqb_spec (env_id v) id) as [Ei|Ei]; cbn [negb orb].
  2:{ exists false. split; [done|]. split; [done|]. intros (v' & ? & ? & _ & _ & ? & _).
      by simplify_eq. }
  cbv iota.
  destruct (chk && negb (bool_decide (Some c = Some (Z.to_nat (ENVX id))))) eqn:Echk.
  - apply andb_prop in Echk as [-> Hne%negb_true_iff%bool_decide_eq_false].
    rewrite bind_assoc. unfold deref. step_pure. rewrite bind_assoc.
    step_with (get_env_Some s c cv Hcv). step_pure.
    destruct (Z.eqb_spec (env_parent_id v) (env_id cv)) as [Ep|Ep]; cbn [negb].
    + exists true. split; [done|]. split; [|done]. intros _. exists v, cv. naive_solver.
    + exists false. split; [done|]. split; [done|].
      intros (v' & cv' & ? & ? & _ & _ & Hp). simplify_eq. naive_solver.
  - step_pure. exists true. split; [done|]. split; [|done]. intros _. exists v, cv.
    split_and!; try done. intros ->. simpl in Echk.
    apply negb_false_iff, bool_decide_eq_true in Echk. left. congruence.
Qed.

Lemma envid2env_run (s : kstate) (le : list nat) (c : nat) (id : Z) (chk : bool)
  (Hwf : envs_wf s le) (Hcur : curenv s = Some c) (Hc : is_Some (envs s !! c)) :
  (id = 0 → envid2env id chk s = Ret (0, Some c) s) ∧
  (id ≠ 0 →
   (∀ e, envid2env id chk s = Ret (0, Some e) s ↔ names_env s c chk id e) ∧
   ((∀ e, ¬ names_env s c chk id e) → envid2env id chk s = Ret (- E_BAD_ENV, None) s)).
Proof.
  destruct Hc as [cv Hcv]. split; [intros ->; unfold envid2env; step_pure; by rewrite Hcur|].
  intros Hid.
  assert (∀ e, names_env s c chk id e → e = Z.to_nat (ENVX id)) as Hidx.
  { intros e (v & cv' & Hv & _ & _ & <- & _).
    rewrite (id_ok_ENVX e); [lia|by eapply envs_wf_lt|by eapply ew_id|done]. }
  assert (ENVX id = id mod 2 ^ 10) as Hx by (apply (land_ones_mod id 10); lia).
  pose proof (Z.mod_pos_bound id (2 ^ 10) ltac:(lia)) as Hb.
  destruct (lookup_lt_is_Some_2 (envs s) (Z.to_nat (ENVX id))) as [v Hv].
  { rewrite (ew_length _ _ Hwf). change (Z.to_nat NENV) with 1024%nat. lia. }
  assert (∃ b, envid2env id chk s =
     Ret (if b : bool then (0, Some (Z.to_nat (ENVX id))) else (- E_BAD_ENV, None)) s ∧
     (b = true ↔ names_env s c chk id (Z.to_nat (ENVX id)))) as (b & Eb & Hb')
    by (by eapply envid2env_slot).
  rewrite Eb. split.
  - intros e. split; [destruct b; [|done]|].
    + intros [= <-]. by apply Hb'.
    + intros Hn. pose proof (Hidx _ Hn) as ->. by apply Hb' in Hn as ->.
  - intros Hno. destruct b; [|done]. exfalso. apply (Hno (Z.to_nat (ENVX id))). by apply Hb'.
Qed.

(** [envid2env] agrees with a search of the whole array, although it looks
    at one slot only.  For number 0 it gives the running environment.  For any
    other number it gives slot [e] exactly when [e] is live, has that number and,
    with [checkperm], is the running environment or its child; when no slot
    qualifies it fails with [-E_BAD_ENV].  It changes nothing. *)
Theorem envid2env_correct (s : kstate) (le : list nat) (c : nat) (id : Z) (chk : bool)
  (Hwf : envs_wf s le) (Hcur : curenv s = Some c) (Hc : is_Some (envs s !! c)) :
  (id = 0 → envid2env id chk s = Ret (0, Some c) s) ∧
  (id ≠ 0 →
   (∀ e, envid2env id chk s = Ret (0, Some e) s ↔ names_env s c chk id e) ∧
   ((∀ e, ¬ names_env s c chk id e) → envid2env id chk s = Ret (- E_BAD_ENV, None) s)).
Proof. by eapply envid2env_run. Qed.

(** ** env_setup_vm *)

(** The directory entries an environment shares with the kernel, and the rest
    without the self-map entry. *)
Definition kern_idx (i : Z) : Prop := i = 506 ∨ i = 507 ∨ i = 509 ∨ i = 511.
Definition user_idx (i : Z) : Prop := i ≠ 256 ∧ ¬ kern_idx i.

(** Memory after [env_setup_vm] used the page at [kva] as page directory. *)
Definition copy_entry (kp kva : Z) (m : gmap Z Z) (i : Z) : gmap Z Z :=
  <[slot kva i := rd m (slot kp i)]> m.
Definition setup_mem (kp kva : Z) (m : gmap Z Z) : gmap Z Z :=
  <[slot kva 256 := Z.lor (kva - KERNBASE) PTE_V]>
    (foldl (copy_entry kp kva) (zero_words kva m) [507; 506; 509; 511]).

Lemma copy_pde_Ret kva i s :
  copy_pde kva i s = Ret tt (set_mem (copy_entry (kern_pgdir s) kva (mem s) i) s).
Proof. done. Qed.

Section setup.
Variables (k p : nat) (m : gmap Z Z).
Hypotheses (Hk : Z.of_nat k < MAXPAGES) (Hp : Z.of_nat p < MAXPAGES) (Hkp : k ≠ p).

Lemma copy_entry_rd m' j i q :
  Z.of_nat q < MAXPAGES → 0 ≤ j < 512 → 0 ≤ i < 512 →
  rd (copy_entry (kva_of k) (kva_of p) m' j) (slot (kva_of q) i) =
  if decide (q = p ∧ i = j) then rd m' (slot (kva_of k) j) else rd m' (slot (kva_of q) i).
Proof.
  intros Hq Hj Hi. unfold copy_entry. rewrite rd_insert. repeat case_decide; try done.
  - exfalso. eapply slot_inj in H as [-> ->]; [naive_solver|done..].
  - destruct H0 as [-> ->]. done.
Qed.

Lemma rd_setup_mem q i :
  Z.of_nat q < MAXPAGES → 0 ≤ i < 512 →
  rd (setup_mem (kva_of k) (kva_of p) m) (slot (kva_of q) i) =
  if decide (q = p) then
    if decide (i = 256) then Z.lor (kva_of p - KERNBASE) PTE_V
    else if decide (kern_idx i) then rd m (slot (kva_of k) i) else 0
  else rd m (slot (kva_of q) i).
Proof.
  intros Hq Hi. unfold setup_mem. simpl foldl.
  assert (∀ j, 0 ≤ j < 512 → rd (zero_words (kva_of p) m) (slot (kva_of k) j) =
    rd m (slot (kva_of k) j)) as Hzk.
  { intros j Hj. apply rd_zero_words_out. intros j' Hj' [? ?]%slot_inj; done. }
  rewrite rd_insert. case_decide as E.
  { eapply slot_inj in E as [-> <-]; [|done..]. by rewrite !decide_True. }
  rewrite !copy_entry_rd, !Hzk by lia.
  destruct (decide (q = p)) as [->|Hqp].
  - destruct (decide (i = 256)) as [->|Hi256]; [done|].
    rewrite rd_zero_words_in by done. unfold kern_idx.
    repeat case_decide; subst; first [done | exfalso; lia | f_equal; f_equal; lia].
  - rewrite !(decide_False (P := q = p ∧ _)) by naive_solver.
    apply rd_zero_words_out. intros j' Hj' [? ?]%slot_inj; done.
Qed.
End setup.

(** The state after [env_setup_vm] on slot [e] took page [p]. *)
Definition setup_state (e p : nat) (v : Env) (pi : PageInfo) (s : kstate) : kstate :=
  set_mem (setup_mem (kern_pgdir s) (kva_of p) (mem s))
   (set_envs (<[e := set_env_pgdir (kva_of p) v]> (envs s))
     (set_pages (<[p := mkPageInfo None 1]> (pages s))
       (set_page_free_list (pp_link pi) s))).

Lemma env_setup_vm_run s l e p v :
  pages_wf s (p :: l) → envs s !! e = Some v →
  ∃ pi, pages s !! p = Some pi ∧ env_setup_vm e s = Ret 0 (setup_state e p v pi s) ∧
    pages_wf (setup_state e p v pi s) l.
Proof.
  intros Hwf Hv. destruct (page_alloc_cons s ALLOC_ZERO p l Hwf) as (pi & Hp & E).
  exists pi. split; [done|].
  pose proof (alloc_state_wf s ALLOC_ZERO p pi l Hwf Hp) as Hwf1.
  pose proof (wf_free_ref _ _ Hwf p pi ltac:(set_solver) Hp) as Hr.
  pose proof (lookup_lt_Some _ _ _ Hp) as Hlt.
  pose proof (wf_nodup _ _ Hwf) as [Hpl _]%NoDup_cons.
  pose proof (wf_max _ _ _ Hwf (mk_is_Some _ _ Hp)) as Hpm.
  set (s1 := alloc_state ALLOC_ZERO p pi s) in *.
  assert (pages s1 !! p = Some (set_pp_link None pi)) as Hp1
    by (simpl; by rewrite list_lookup_insert_eq).
  unfold env_setup_vm. step_with E. unfold page2kva.
  step_with (KADDR_page s1 l p Hwf1 (mk_is_Some _ _ Hp1)).
  step_with (upd_env_Some s1 e v (set_env_pgdir (kva_of p)) Hv).
  set (s2 := set_envs _ s1). step_with (incref_Ret s2 p (set_pp_link None pi) Hp1).
  do 3 (rewrite (bind_Ret_l (copy_pde _ _) _ _ _ _ (copy_pde_Ret _ _ _)); cbv beta).
  change (for_loop (Z.to_nat (512 - PD0X KERNBASE)) (PD0X KERNBASE) (copy_pde (kva_of p)))
    with (copy_pde (kva_of p) 511 ;;; ret tt). rewrite bind_assoc.
  rewrite (bind_Ret_l (copy_pde _ _) _ _ _ _ (copy_pde_Ret _ _ _)); cbv beta.
  step_pure. unfold PADDR.
  rewrite kva_of_spec by done. destruct (Z.ltb_spec (KERNBASE + 2 ^ 31 + Z.of_nat p * 4096) KERNBASE);
    [lia|]. rewrite <-kva_of_spec by done. step_pure. unfold store. step_pure.
  assert (∀ m, set_mem m (ref_state p (u16 (pp_ref (set_pp_link None pi) + 1))
    (set_pp_link None pi) s2) = set_mem m (setup_state e p v pi s)) as Est.
  { intros m. unfold setup_state, ref_state, s2, s1. simpl. rewrite Hr.
    rewrite list_insert_insert_eq. by destruct s. }
  split; [unfold ret; simpl; by rewrite Est|].
  pose proof (ref_state_wf s1 l p _ 1 Hwf1 Hpl Hp1 ltac:(lia)) as Hwf2.
  eapply (pages_wf_ext _ _ _ Hwf2); [done| |done].
  simpl. by rewrite list_insert_insert_eq; unfold set_pp_ref.
Qed.

(** ** env_alloc *)

Section alloc.
Context `{Hart}.

(** What a successful [env_alloc] of slot [e] with page directory [p] does. *)
Record env_created (parent_id : Z) (s s' : kstate) (e p : nat) (v : Env) : Prop := {
  cr_slot : envs s !! e = Some v;
  cr_envs : envs s' = <[e := new_env e parent_id (sstatus s) (set_env_pgdir (kva_of p) v)]> (envs s);
  cr_id : 0 < env_id (new_env e parent_id (sstatus s) v) < 2 ^ 31 ∧
          ENVX (env_id (new_env e parent_id (sstatus s) v)) = Z.of_nat e;
  cr_user va : user_idx (PD0X va) → leaf (mem s') (kva_of p) va = 0;
  cr_kern i : kern_idx i → rd (mem s') (slot (kva_of p) i) = rd (mem s) (slot (kern_pgdir s) i);
  cr_uvpt : rd (mem s') (slot (kva_of p) (PD0X UVPT)) = Z.lor (kva_of p - KERNBASE) PTE_V;
  cr_mem j i : j ≠ p → Z.of_nat j < MAXPAGES → 0 ≤ i < 512 →
    rd (mem s') (slot (kva_of j) i) = rd (mem s) (slot (kva_of j) i);
  cr_pages : pages s' = <[p := mkPageInfo None 1]> (pages s);
  cr_rest : s' = set_env_free_list (env_free_list s') (set_mem (mem s') (set_envs (envs s')
      (set_pages (pages s') (set_page_free_list (page_free_list s') s))))
}.

Lemma new_env_wf s s' le e v w parent st :
  envs_wf s (e :: le) → envs s !! e = Some v →
  env_link w = env_link v → env_id w = env_id v →
  envs s' = <[e := new_env e parent st w]> (envs s) → env_free_list s' = env_link v →
  envs_wf s' le.
Proof.
  intros Hwf Hv Hlink Hid Ees Efl. pose proof (envs_wf_lt _ _ _ _ Hwf Hv) as Hlt.
  pose proof (lookup_lt_Some _ _ _ Hv) as Hlen.
  pose proof (ew_nodup _ _ Hwf) as [Hni Hnd]%NoDup_cons.
  pose proof (ew_chain _ _ Hwf) as (_ & v' & Hv' & Hch). simplify_eq.
  destruct (next_env_id_ok e (env_id v) Hlt (ew_id _ _ Hwf _ _ Hv)) as [Hok Hnz].
  assert (∀ i u, envs s' !! i = Some u → i = e ∧ u = new_env e parent st w ∨
    i ≠ e ∧ envs s !! i = Some u) as Hlook.
  { intros i u. rewrite Ees. destruct (decide (i = e)) as [->|Hie].
    - rewrite list_lookup_insert_eq by done. intros [= <-]. by left.
    - rewrite list_lookup_insert_ne by done. by right. }
  split.
  - rewrite Ees, length_insert. apply Hwf.
  - rewrite Ees, Efl. by apply chain_insert_notin.
  - done.
  - intros i u [[-> ->]|[Hie Hu]]%Hlook; [done|].
    rewrite <-(ew_free _ _ Hwf i u Hu). set_solver.
  - intros i u [[-> ->]|[Hie Hu]]%Hlook; [|by eapply ew_id].
    simpl. by rewrite Hid.
  - intros i u [[-> ->]|[Hie Hu]]%Hlook Hil; [simpl; by rewrite Hid|].
    eapply (ew_live _ _ Hwf i); [done|set_solver].
Qed.

Lemma env_alloc_run s l le e p k parent :
  pages_wf s (p :: l) → envs_wf s (e :: le) → kern_pgdir s = kva_of k →
  is_Some (pages s !! k) → k ∉ p :: l →
  ∃ s' v, env_alloc parent s = Ret (0, Some e) s' ∧ pages_wf s' l ∧ envs_wf s' le ∧
    pt_ok user_idx s' l (kva_of p) ∧ env_created parent s s' e p v.
Proof.
  intros Hwf Hew Hkp Hk Hkl.
  pose proof (ew_chain _ _ Hew) as (Hfl & v & Hv & _).
  pose proof (envs_wf_lt _ _ _ _ Hew Hv) as Hlt.
  destruct (env_setup_vm_run s l e p v Hwf Hv) as (pi & Hp & E & Hwf1).
  pose proof (wf_max _ _ _ Hwf Hk) as Hkm.
  pose proof (wf_max _ _ _ Hwf (mk_is_Some _ _ Hp)) as Hpm.
  pose proof (lookup_lt_Some _ _ _ Hv) as Hlen. pose proof (lookup_lt_Some _ _ _ Hp) as Hplen.
  set (s1 := setup_state e p v pi s) in *.
  assert (envs s1 !! e = Some (set_env_pgdir (kva_of p) v)) as Hv1
    by (simpl; by rewrite list_lookup_insert_eq).
  set (v' := new_env e parent (sstatus s) (set_env_pgdir (kva_of p) v)).
  set (s2 := set_envs (<[e := v']> (envs s1)) s1).
  assert (env_alloc parent s = Ret (0, Some e) (set_env_free_list (env_link v) s2)) as Erun.
  { unfold env_alloc. step_pure. rewrite Hfl. step_with E. cbn [Z.ltb Z.compare].
    step_pure. step_with (upd_env_Some s1 e _ (new_env e parent (sstatus s1)) Hv1).
    change (new_env e parent (sstatus s1) (set_env_pgdir (kva_of p) v)) with v'. fold s2.
    step_with (get_env_Some s2 e v' ltac:(simpl; by rewrite list_lookup_insert_eq by
      (by rewrite length_insert))). done. }
  assert (k ≠ p) as Hkpne by (intros ->; apply Hkl; by left).
  assert (mem s2 = setup_mem (kva_of k) (kva_of p) (mem s)) as Em by (simpl; by rewrite Hkp).
  assert (∀ i, 0 ≤ i < 512 → user_idx i → rd (mem s2) (slot (kva_of p) i) = 0) as Hzero.
  { intros i Hi [Hi1 Hi2]. rewrite Em, rd_setup_mem by done.
    by rewrite decide_True, !decide_False. }
  exists (set_env_free_list (env_link v) s2), v. split_and!.
  - done.
  - by apply (pages_wf_ext s1).
  - eapply (new_env_wf s _ le e v (set_env_pgdir (kva_of p) v) parent (sstatus s) Hew Hv); [..|done]; try done.
    simpl. by rewrite list_insert_insert_eq.
  - apply pt_ok_root; [|by eapply NoDup_cons_1_1, wf_nodup|done].
    simpl. by rewrite list_lookup_insert_eq.
  - destruct (next_env_id_ok e (env_id v) Hlt (ew_id _ _ Hew _ _ Hv)) as [Hok Hnz]. split.
    + done.
    + simpl. by rewrite list_insert_insert_eq.
    + simpl. split; [destruct Hok as [?|(g & ? & ->)]; [done|lia]|by apply id_ok_ENVX].
    + intros va Hva. by apply (leaf_root user_idx).
    + intros i Hi. assert (0 ≤ i < 512 ∧ i ≠ 256) as [Hib Hi256] by (unfold kern_idx in Hi; lia).
      change (mem (set_env_free_list (env_link v) s2)) with (mem s2).
      rewrite Em, Hkp, rd_setup_mem by done.
      by rewrite decide_True, decide_False, decide_True.
    + change (mem (set_env_free_list (env_link v) s2)) with (mem s2).
      rewrite Em, rd_setup_mem by done. by rewrite !decide_True.
    + intros j i Hj Hjm Hi. change (mem (set_env_free_list (env_link v) s2)) with (mem s2).
      rewrite Em, rd_setup_mem by done. by rewrite decide_False.
    + done.
    + simpl. by destruct s.
Qed.

(** C33  [env_alloc] fails with [-E_NO_FREE_ENV] when no slot is free and with
    [-E_NO_MEM] when no page is, leaving the state as it was.  Otherwise it takes
    the first free slot and the first free page: the new environment gets a fresh
    positive number that encodes its slot, a cleared frame with the initial
    stack, and a page directory with the kernel's entries for [UENVS], [UPAGES],
    [MMIOBASE] and [KERNBASE] (506, 507, 509 and 511), the self map at [UVPT], and
    nothing mapped through any other entry: not below [UTOP], and not through
    508 and 510 either, which lie above it; other slots, other pages and the rest of
    memory are untouched, and both allocators' invariants and the page-table
    invariant of the new directory hold. *)
Theorem env_alloc_correct (s : kstate) (l le : list nat) (k : nat) (parent_id : Z)
  (Hwf : pages_wf s l) (Hew : envs_wf s le) (Hkp : kern_pgdir s = kva_of k)
  (Hk : is_Some (pages s !! k)) (Hkl : k ∉ l) :
  match le, l with
  | [], _ => env_alloc parent_id s = Ret (- E_NO_FREE_ENV, None) s
  | _, [] => env_alloc parent_id s = Ret (- E_NO_MEM, None) s
  | e :: le', p :: l' => ∃ s' v,
      env_alloc parent_id s = Ret (0, Some e) s' ∧ pages_wf s' l' ∧ envs_wf s' le' ∧
      pt_ok user_idx s' l' (kva_of p) ∧ env_created parent_id s s' e p v
  end.
Proof.
  destruct le as [|e le]; [|destruct l as [|p l]].
  - pose proof (ew_chain _ _ Hew) as Hc. simpl in Hc. unfold env_alloc. step_pure. by rewrite Hc.
  - pose proof (ew_chain _ _ Hew) as (Hfl & _). unfold env_alloc. step_pure. rewrite Hfl.
    unfold env_setup_vm. rewrite bind_assoc. by step_with (page_alloc_nil s ALLOC_ZERO Hwf).
  - by eapply env_alloc_run.
Qed.
End alloc.

(** A hart and a machine right after [env_init]. *)
#[export] Instance hart0 : Hart := 
  {| cpunum := 0; envs_base := KERNBASE + PHYMEMOFF; console_input := [] |}.

Lemma env_example :
  ∃ s, pages_wf s [1; 2; 3; 4]%nat ∧ envs_wf s (seq 0 (Z.to_nat NENV)) ∧
    kern_pgdir s = kva_of 0 ∧ pages s = pages map_example ∧ mem s = mem map_example ∧
    curenv s = None.
Proof.
  destruct (env_init_run env_boot_example eq_refl eq_refl) as (s & _ & Hew & _ & _ & R).
  exists s. split_and!; try done; try by rewrite R.
  apply (pages_wf_ext map_example); [apply map_example_wf|by rewrite R..].
Qed.

Lemma env_alloc_witness : ∃ s s' v le,
  env_alloc 0 s = Ret (0, Some 0%nat) s' ∧ pages_wf s' [2; 3; 4]%nat ∧ envs_wf s' le ∧
  pt_ok user_idx s' [2; 3; 4]%nat (kva_of 1) ∧ env_created 0 s s' 0 1 v.
Proof.
  destruct env_example as (s & Hwf & Hew & Hkp & Hpg & _). exists s.
  pose proof (env_alloc_correct s [1; 2; 3; 4]%nat (seq 0 (Z.to_nat NENV)) 0 0 Hwf Hew Hkp) as Hc.
  destruct (Z.to_nat NENV) as [|n] eqn:HN; [done|]. cbn [seq] in Hc.
  destruct Hc as (s' & v & Hc); [by rewrite Hpg|set_solver|]. by exists s', v, (seq 1 n).
Defined.

(** The first environment, allocated and current. *)
Lemma live_example : ∃ s e le v, envs_wf s (e :: le) ∧ curenv s = Some 0%nat ∧
  pages_wf s [2; 3; 4]%nat ∧ envs s !! 0%nat = Some v ∧ 0%nat ∉ e :: le ∧ env_id v = 0x1000 ∧
  env_pgdir v = kva_of 1 ∧ kern_pgdir s = kva_of 0 ∧ pt_ok user_idx s [2; 3; 4]%nat (kva_of 1) ∧
  (∀ va, user_idx (PD0X va) → leaf (mem s) (kva_of 1) va = 0) ∧ is_Some (pages s !! 0%nat).
Proof.
  destruct (env_init_run env_boot_example eq_refl eq_refl) as (s & _ & Hew & Hid & _ & R).
  assert (pages_wf s [1; 2; 3; 4]%nat) as Hwf
    by (apply (pages_wf_ext map_example); [apply map_example_wf|by rewrite R..]).
  destruct (Z.to_nat NENV) as [|[|n]] eqn:HN; [done..|]. cbn [seq] in Hew.
  destruct (env_alloc_run s [2; 3; 4]%nat (1%nat :: seq 2 n) 0 1 0 0 Hwf Hew) as (s' & v & _ & Hwf' & Hew' & Hok & Hcr).
  { by rewrite R. }
  { by rewrite R. }
  { set_solver. }
  pose proof (Hid _ _ (cr_slot _ _ _ _ _ _ Hcr)) as Hv0.
  pose proof (lookup_lt_Some _ _ _ (cr_slot _ _ _ _ _ _ Hcr)) as Hlt.
  exists (set_curenv (Some 0%nat) s'), 1%nat, (seq 2 n),
    (new_env 0 0 (sstatus s) (set_env_pgdir (kva_of 1) v)). split_and!.
  - by apply (envs_wf_ext s').
  - done.
  - by apply (pages_wf_ext s').
  - simpl. by rewrite (cr_envs _ _ _ _ _ _ Hcr), list_lookup_insert_eq.
  - rewrite not_elem_of_cons, elem_of_seq. lia.
  - simpl. by rewrite Hv0.
  - done.
  - simpl. rewrite (cr_rest _ _ _ _ _ _ Hcr). by rewrite R.
  - exact (pt_ok_pages _ s' [2; 3; 4]%nat (set_curenv (Some 0%nat) s') _ Hok eq_refl (λ j Hj, Hj)).
  - apply Hcr.
  - simpl. rewrite (cr_pages _ _ _ _ _ _ Hcr). rewrite list_lookup_insert_ne by done. by rewrite R.
Qed.

Lemma envid2env_witness : ∃ s,
  (0x1000 = 0 → envid2env 0x1000 true s = Ret (0, Some 0%nat) s) ∧
  (0x1000 ≠ 0 →
   (∀ e, envid2env 0x1000 true s = Ret (0, Some e) s ↔ names_env s 0 true 0x1000 e) ∧
   ((∀ e, ¬ names_env s 0 true 0x1000 e) →
      envid2env 0x1000 true s = Ret (- E_BAD_ENV, None) s)).
Proof.
  destruct live_example as (s & e & le & v & Hew & Hc & _ & Hv & _). exists s.
  exact (envid2env_correct s (e :: le) 0 0x1000 true Hew Hc (mk_is_Some _ _ Hv)).
Defined.
