(* ===== verification/Sched.v ===== *)
(** * The scheduler of kern/riscv/sched.c, and env_destroy of kern/riscv/env.c

    [sched_yield] chooses the next environment round-robin, [sched_halt] parks
    the processor.  The theorems show that the choice is the first runnable
    environment in circular order, and that a runnable environment is reached
    within one round. *)

From S2P Require Import Prelude Mmu Kstate Pages Pgtable PgtableInv PgtableMap PgtableBoot Env EnvInv.

Definition nenv : nat := Z.to_nat NENV.
#[global] Opaque nenv.

(** [for (i = lo; i < lo + n; i++) if (P(envs\[i\])) break;] gives the final [i]. *)
Fixpoint search (P : Env → bool) (n i : nat) : K nat :=
  match n with
  | O => ret i
  | S n' => v <- get_env i ;; if P v then ret i else search P n' (S i)
  end.

Definition runnable (v : Env) : bool := env_status v =? ENV_RUNNABLE.
Definition schedulable (v : Env) : bool :=
  (env_status v =? ENV_RUNNABLE) || (env_status v =? ENV_RUNNING)
  || (env_status v =? ENV_DYING).

(** With nothing left to schedule the kernel stays in its monitor for good;
    otherwise the processor waits with interrupts on and the lock released. *)
Definition sched_halt : K unit :=
  i <- search schedulable nenv 0 ;;
  if Nat.eqb i nenv then noret else
  modify (set_curenv None) ;;;
  kp <- gets kern_pgdir ;;
  pa <- PADDR kp ;;
  load_satp_asid pa 0 ;;;
  modify (set_cpu_halted true) ;;;
  modify (set_kernel_locked false) ;;;
  modify (λ s, set_sstatus (Z.lor (sstatus s) 0x2) s) ;;;
  modify (set_sie 0x20) ;;;
  noret.

Section with_hart.
Context `{Hart}.

Definition sched_yield : K unit :=
  cur <- gets curenv ;;
  match cur with
  | None =>
      i <- search runnable nenv 0 ;;
      (if Nat.eqb i nenv then sched_halt else ret tt) ;;;
      env_run i
  | Some curid =>
      v <- get_env curid ;;
      i <- search runnable (nenv - curid) curid ;;
      if Nat.eqb i nenv then
        j <- search runnable curid 0 ;;
        (if Nat.eqb j curid then
           if env_status v =? ENV_RUNNING then env_run curid else ret tt
         else env_run j) ;;;
        sched_halt
      else env_run i ;;; sched_halt
  end.

Definition env_destroy (e : nat) : K unit :=
  v <- get_env e ;;
  cur <- gets curenv ;;
  if (env_status v =? ENV_RUNNING) && negb (bool_decide (cur = Some e))
  then upd_env e (set_env_status ENV_DYING)
  else
    env_free e ;;;
    cur <- gets curenv ;;
    if bool_decide (cur = Some e)
    then modify (set_curenv None) ;;; sched_yield
    else ret tt.

(** ** The search loop *)

(** The first index of [l] whose environment satisfies [P]. *)
Definition first (P : Env → bool) (es : list Env) (l : list nat) : option nat :=
  snd <$> list_find (λ i, Is_true (from_option P false (es !! i))) l.

Lemma first_nil P es : first P es [] = None.
Proof. done. Qed.

Lemma first_cons P es i l :
  first P es (i :: l) =
  if from_option P false (es !! i) then Some i else first P es l.
Proof.
  unfold first. simpl. case_decide as E; destruct (from_option P false (es !! i)); try done.
  by destruct (list_find _ l) as [[??]|].
Qed.

Lemma first_app P es l1 l2 :
  first P es (l1 ++ l2) = match first P es l1 with Some i => Some i | None => first P es l2 end.
Proof.
  induction l1 as [|i l1 IH]; [done|]. rewrite <-app_comm_cons, !first_cons.
  by destruct (from_option P false (es !! i)).
Qed.

Lemma first_Some P es l i :
  first P es l = Some i → i ∈ l ∧ ∃ v, es !! i = Some v ∧ P v = true.
Proof.
  induction l as [|j l IH]; [done|]. rewrite first_cons.
  destruct (es !! j) as [v|] eqn:Hj; simpl.
  - destruct (P v) eqn:HP; [|set_solver]. intros [= <-]. split; [left|eauto].
  - set_solver.
Qed.

Lemma first_None P es l i v : first P es l = None → i ∈ l → es !! i = Some v → P v = false.
Proof.
  induction l as [|j l IH]; [by intros _ ?%elem_of_nil|]. rewrite first_cons.
  intros Hf [->|Hi]%elem_of_cons Hv.
  - rewrite Hv in Hf. simpl in Hf. by destruct (P v).
  - apply IH; try done. by destruct (from_option P false (es !! j)).
Qed.

(** The loop ends at the first match, or one past the range. *)
Lemma search_run P n i s :
  (i + n ≤ length (envs s))%nat →
  search P n i s = Ret (default (i + n)%nat (first P (envs s) (seq i n))) s.
Proof.
  revert i. induction n as [|n IH]; intros i Hlen; simpl.
  - by rewrite Nat.add_0_r.
  - destruct (lookup_lt_is_Some_2 (envs s) i ltac:(lia)) as [v Hv].
    step_with (get_env_Some s i v Hv). rewrite first_cons, Hv. simpl.
    destruct (P v); [done|]. rewrite IH by lia. by rewrite Nat.add_succ_comm.
Qed.

Lemma first_seq_lt P es i n j : first P es (seq i n) = Some j → (i ≤ j < i + n)%nat.
Proof. intros [Hj%elem_of_seq _]%first_Some. lia. Qed.

(** ** env_run *)

Definition demote (v : Env) : Env :=
  if env_status v =? ENV_RUNNING then set_env_status ENV_RUNNABLE v else v.
Definition promote (v : Env) : Env :=
  set_env_cpunum cpunum (set_env_runs (u32 (env_runs v + 1)) (set_env_status ENV_RUNNING v)).

(** The array after the running environment, if any, gave up the processor. *)
Definition demoted (s : kstate) : list Env :=
  match curenv s with Some c => alter demote c (envs s) | None => envs s end.

(** The array and the state a switch to [e] leaves. *)
Definition run_envs (e : nat) (s : kstate) : list Env :=
  alter promote e (demoted s).
Definition run_state (e : nat) (v : Env) (s : kstate) : kstate :=
  set_kernel_locked false (set_envs (run_envs e s) (set_curenv (Some e)
    (set_satp (env_pgdir v - KERNBASE, Z.land (env_id v) 0x3ff) s))).

Lemma upd_env_alter s e f :
  is_Some (envs s !! e) → upd_env e f s = Ret tt (set_envs (alter f e (envs s)) s).
Proof.
  intros [v Hv]. rewrite (upd_env_Some s e v f Hv). do 2 f_equal.
  apply list_eq. intros i. destruct (decide (i = e)) as [->|Hi].
  - rewrite list_lookup_alter_eq, list_lookup_insert_eq by (by eapply lookup_lt_Some). by rewrite Hv.
  - by rewrite list_lookup_alter_ne, list_lookup_insert_ne by done.
Qed.

Lemma alter_alter (es : list Env) (e : nat) (f g : Env → Env) :
  alter f e (alter g e es) = alter (f ∘ g) e es.
Proof.
  apply list_eq. intros i. destruct (decide (i = e)) as [->|Hi].
  - rewrite !list_lookup_alter_eq. by destruct (es !! e).
  - by rewrite !list_lookup_alter_ne.
Qed.

Lemma alter_same (es : list Env) (c e : nat) (f : Env → Env) v :
  es !! e = Some v → (∀ w, env_pgdir (f w) = env_pgdir w ∧ env_id (f w) = env_id w) →
  ∃ w, alter f c es !! e = Some w ∧ env_pgdir w = env_pgdir v ∧ env_id w = env_id v.
Proof.
  intros Hv Hf. destruct (decide (c = e)) as [->|Hce].
  - exists (f v). rewrite list_lookup_alter_eq, Hv. split; [done|]. apply Hf.
  - exists v. by rewrite list_lookup_alter_ne.
Qed.

Lemma demote_step s B (k : unit → K B) :
  cur_ok s →
  bind (match curenv s with
        | Some c => v <- get_env c ;; if env_status v =? ENV_RUNNING
                    then upd_env c (set_env_status ENV_RUNNABLE) else ret tt
        | None => ret tt end) k s = k tt (set_envs (demoted s) s).
Proof.
  intros Hcur. unfold demoted. destruct (curenv s) as [c|] eqn:Ec; [|step_pure; by destruct s].
  destruct (Hcur c Ec) as [w Hw]. rewrite bind_assoc. step_with (get_env_Some s c w Hw).
  assert (∀ f, f w = demote w → alter f c (envs s) = alter demote c (envs s)) as Hext.
  { intros f Hf. apply list_eq. intros i. destruct (decide (i = c)) as [->|Hi].
    - rewrite !list_lookup_alter_eq, Hw. simpl. by rewrite Hf.
    - by rewrite !list_lookup_alter_ne. }
  destruct (Z.eqb_spec (env_status w) ENV_RUNNING) as [Hst|Hst].
  - step_with (upd_env_alter s c (set_env_status ENV_RUNNABLE) (mk_is_Some _ _ Hw)).
    rewrite (Hext (set_env_status ENV_RUNNABLE)); [done|]. unfold demote. by rewrite Hst.
  - step_pure. rewrite <-(Hext id).
    + rewrite list_alter_id by done. by destruct s.
    + unfold demote. by destruct (Z.eqb_spec (env_status w) ENV_RUNNING).
Qed.

Lemma env_run_run s e v :
  cur_ok s → envs s !! e = Some v → KERNBASE ≤ env_pgdir v →
  env_run e s = NoRet (run_state e v s).
Proof.
  intros Hcur Hv Hpg. unfold env_run. step_pure. rewrite (demote_step s _ _ Hcur). step_pure.
  assert (∃ w, demoted s !! e = Some w ∧ env_pgdir w = env_pgdir v ∧ env_id w = env_id v) as (w & Hw & Ew & Ei).
  { unfold demoted. destruct (curenv s) as [c|]; [|by exists v].
    apply alter_same; [done|]. intros u. unfold demote. by case_match. }
  set (s1 := set_curenv (Some e) (set_envs (demoted s) s)).
  step_with (upd_env_alter s1 e (λ v, set_env_runs (u32 (env_runs v + 1))
    (set_env_status ENV_RUNNING v)) (mk_is_Some _ _ Hw)).
  set (s2 := set_envs _ s1).
  step_with (get_env_Some s2 e (set_env_runs (u32 (env_runs w + 1)) (set_env_status ENV_RUNNING w))
    ltac:(simpl; by rewrite list_lookup_alter_eq, Hw)).
  simpl env_pgdir. unfold PADDR. rewrite Ew. destruct (Z.ltb_spec (env_pgdir v) KERNBASE); [lia|].
  step_pure. unfold load_satp_asid. step_pure. unfold env_pop_tf. step_pure. change (deref (curenv _)) with (@ret kstate nat e). step_pure.
  set (s3 := set_satp _ s2).
  step_with (upd_env_alter s3 e (set_env_cpunum cpunum)
    ltac:(simpl; by rewrite list_lookup_alter_eq, Hw)).
  step_pure. unfold noret, run_state, run_envs, s3, s2, s1. rewrite <-Ei. simpl.
  rewrite alter_alter. by destruct s.
Qed.

(** ** Round robin *)

(** What the scheduler needs: a full array, a valid [curenv] and a page directory
    for everything it may run. *)
Record sched_ok (s : kstate) : Prop := {
  so_length : length (envs s) = nenv;
  so_cur : cur_ok s;
  so_pgdir i v : envs s !! i = Some v →
    env_status v = ENV_RUNNABLE ∨ env_status v = ENV_RUNNING → KERNBASE ≤ env_pgdir v;
  so_kern : KERNBASE ≤ kern_pgdir s
}.

(** The indices in the order in which they are tried. *)
Definition ring (s : kstate) : list nat :=
  match curenv s with
  | None => seq 0 nenv
  | Some c => seq c (nenv - c) ++ seq 0 c
  end.

Definition cur_running (s : kstate) : bool :=
  match curenv s with
  | None => false
  | Some c => from_option (λ v, env_status v =? ENV_RUNNING) false (envs s !! c)
  end.

(** The reference scheduler: the first runnable environment of the ring, else
    the running one if it still runs, else none. *)
Definition choice (s : kstate) : option nat :=
  match first runnable (envs s) (ring s) with
  | Some i => Some i
  | None => if cur_running s then curenv s else None
  end.

Definition halt_state (s : kstate) : kstate :=
  match first schedulable (envs s) (seq 0 nenv) with
  | None => s
  | Some _ =>
      set_sie 0x20 (set_sstatus (Z.lor (sstatus s) 0x2) (set_kernel_locked false
        (set_cpu_halted true (set_satp (kern_pgdir s - KERNBASE, 0) (set_curenv None s)))))
  end.

Lemma sched_halt_run s : sched_ok s → sched_halt s = NoRet (halt_state s).
Proof.
  intros Hok. unfold sched_halt.
  step_with (search_run schedulable nenv 0 s ltac:(rewrite so_length by done; lia)).
  unfold halt_state. destruct (first schedulable (envs s) (seq 0 nenv)) as [i|] eqn:Hf; simpl.
  - apply first_seq_lt in Hf. destruct (Nat.eqb_spec i nenv); [lia|].
    step_pure. step_pure. unfold PADDR. pose proof (so_kern _ Hok). simpl kern_pgdir.
    destruct (Z.ltb_spec (kern_pgdir s) KERNBASE); [lia|]. done.
  - by rewrite Nat.eqb_refl.
Qed.

Lemma choice_runs s i :
  sched_ok s → choice s = Some i →
  ∃ v, envs s !! i = Some v ∧ (env_status v = ENV_RUNNABLE ∨
    curenv s = Some i ∧ env_status v = ENV_RUNNING) ∧ env_run i s = NoRet (run_state i v s).
Proof.
  intros Hok. unfold choice. destruct (first runnable (envs s) (ring s)) as [j|] eqn:Hf.
  - intros [= <-]. apply first_Some in Hf as (_ & v & Hv & Hr%Z.eqb_eq).
    exists v. split; [done|]. split; [by left|]. apply env_run_run; [apply Hok|done|].
    eapply so_pgdir; [done|done|by left].
  - unfold cur_running. destruct (curenv s) as [c|] eqn:Ec; [|done].
    destruct (envs s !! c) as [v|] eqn:Hv; [simpl|done].
    destruct (Z.eqb_spec (env_status v) ENV_RUNNING); [|done]. intros [= <-].
    exists v. split; [done|]. split; [by right|]. apply env_run_run; [apply Hok|done|].
    eapply so_pgdir; [done|done|by right].
Qed.

(** Code after a call that leaves the kernel does not run. *)
Lemma bind_left {A B} (m : K A) (f : A → K B) s s' : m s = NoRet s' → bind m f s = NoRet s'.
Proof. unfold bind. by intros ->. Qed.

Lemma sched_yield_run s :
  sched_ok s →
  sched_yield s = match choice s with Some i => env_run i s | None => sched_halt s end.
Proof.
  intros Hok. pose proof (choice_runs s) as Hrun. pose proof (sched_halt_run s Hok) as Hhalt.
  pose proof (so_length _ Hok) as Hlen.
  unfold sched_yield. step_pure. unfold choice, ring, cur_running in *.
  destruct (curenv s) as [c|] eqn:Ec.
  - destruct (so_cur _ Hok c Ec) as [v Hv]. pose proof (lookup_lt_Some _ _ _ Hv) as Hlt.
    step_with (get_env_Some s c v Hv). step_with (search_run runnable (nenv - c) c s ltac:(lia)).
    rewrite first_app in *. rewrite Hv in *. simpl from_option in *.
    destruct (first runnable (envs s) (seq c (nenv - c))) as [i|] eqn:Hf; cbn [default from_option id].
    + apply first_seq_lt in Hf. destruct (Nat.eqb_spec i nenv); [lia|].
      destruct (Hrun i Hok eq_refl) as (w & _ & _ & E). rewrite E. by apply bind_left.
    + replace (c + (nenv - c))%nat with nenv by lia. rewrite Nat.eqb_refl.
      step_with (search_run runnable c 0 s ltac:(lia)).
      destruct (first runnable (envs s) (seq 0 c)) as [i|] eqn:Hf2; cbn [default from_option id].
      * apply first_seq_lt in Hf2. destruct (Nat.eqb_spec i c); [lia|].
        destruct (Hrun i Hok eq_refl) as (w & _ & _ & E). rewrite E. by apply bind_left.
      * simpl Nat.add. rewrite Nat.eqb_refl. destruct (env_status v =? ENV_RUNNING).
        -- destruct (Hrun c Hok eq_refl) as (w & _ & _ & E). rewrite E. by apply bind_left.
        -- by step_pure.
  - step_with (search_run runnable nenv 0 s ltac:(lia)).
    destruct (first runnable (envs s) (seq 0 nenv)) as [i|] eqn:Hf; cbn [default from_option id].
    + apply first_seq_lt in Hf. destruct (Nat.eqb_spec i nenv); [lia|]. by step_pure.
    + simpl Nat.add. rewrite Nat.eqb_refl, Hhalt. by apply bind_left.
Qed.

(** C36  [sched_yield] is the reference round-robin scheduler.  It switches to
    the first runnable environment in circular order from the running one; if
    none is runnable it resumes the running one if that still runs; otherwise it
    halts the processor.  It never picks an environment that runs on another
    processor, and it never returns. *)
Theorem sched_yield_round_robin (s : kstate) (Hok : sched_ok s) :
  match choice s with
  | Some i => ∃ v, envs s !! i = Some v ∧
      (env_status v = ENV_RUNNABLE ∨ curenv s = Some i ∧ env_status v = ENV_RUNNING) ∧
      sched_yield s = NoRet (run_state i v s)
  | None =>
      (∀ i v, envs s !! i = Some v → env_status v ≠ ENV_RUNNABLE) ∧
      sched_yield s = NoRet (halt_state s)
  end.
Proof.
  rewrite (sched_yield_run s Hok). destruct (choice s) as [i|] eqn:Hc.
  - by apply choice_runs.
  - split; [|by apply sched_halt_run]. intros i v Hv Hr. unfold choice in Hc.
    destruct (first runnable (envs s) (ring s)) as [j|] eqn:Hf; [done|].
    assert (i ∈ ring s) as Hi.
    { pose proof (lookup_lt_Some _ _ _ Hv) as Hl. rewrite (so_length _ Hok) in Hl. unfold ring.
      destruct (curenv s) as [c|]; rewrite ?elem_of_app, !elem_of_seq; lia. }
    pose proof (first_None _ _ _ _ _ Hf Hi Hv) as HP. unfold runnable in HP. by rewrite Hr in HP.
Qed.

(** ** Fairness *)

(** [c] runs (it is not runnable), and [j] waits. *)
Record waiting (s : kstate) (c j : nat) : Prop := {
  wt_ok : sched_ok s;
  wt_cur : curenv s = Some c;
  wt_run : ∃ v, envs s !! c = Some v ∧ env_status v ≠ ENV_RUNNABLE;
  wt_wait : ∃ v, envs s !! j = Some v ∧ env_status v = ENV_RUNNABLE
}.

(** [n] further time slices: the chosen environment runs ([u] is what it and the
    system calls it makes do to the state), then the scheduler is called again. *)
Fixpoint slices (u : kstate → kstate) (n : nat) (s : kstate) : option kstate :=
  match sched_yield s with
  | NoRet t => match n with O => Some t | S n' => slices u n' (u t) end
  | _ => None
  end.

(** Steps from [c] to [j] around the ring. *)
Definition ahead (c j : nat) : nat := if (c <=? j)%nat then j - c else j + nenv - c.

Lemma first_seq_le P es a n j v i :
  first P es (seq a n) = Some i → (a ≤ j < a + n)%nat → es !! j = Some v → P v = true → (i ≤ j)%nat.
Proof.
  revert a. induction n as [|n IH]; intros a; simpl; [done|]. rewrite first_cons.
  intros Hf Hj Hv HP. destruct (decide (j = a)) as [->|Hja].
  - rewrite Hv in Hf. simpl in Hf. rewrite HP in Hf. by simplify_eq.
  - destruct (from_option P false (es !! a)); [simplify_eq; lia|].
    eapply IH; eauto. lia.
Qed.

(** The choice moves towards [j] without passing it. *)
Lemma choice_ahead s c j :
  waiting s c j → ∃ i v, choice s = Some i ∧ envs s !! i = Some v ∧
    env_status v = ENV_RUNNABLE ∧ i ≠ c ∧ (ahead i j < ahead c j)%nat.
Proof.
  intros [Hok Hcur (vc & Hvc & Hnc) (vj & Hvj & Hrj)].
  pose proof (so_length _ Hok) as Hlen.
  pose proof (lookup_lt_Some _ _ _ Hvc). pose proof (lookup_lt_Some _ _ _ Hvj).
  assert (runnable vj = true) as HPj by (unfold runnable; by rewrite Hrj).
  destruct (first runnable (envs s) (ring s)) as [i|] eqn:Hf.
  2:{ exfalso. assert (j ∈ ring s) as Hj.
      { unfold ring. rewrite Hcur, elem_of_app, !elem_of_seq. lia. }
      by rewrite (first_None _ _ _ _ _ Hf Hj Hvj) in HPj. }
  pose proof (first_Some _ _ _ _ Hf) as (_ & v & Hv & HP%Z.eqb_eq).
  assert (i ≠ c) as Hic by (intros ->; by simplify_eq).
  exists i, v. unfold choice. rewrite Hf. split_and!; [done..|].
  unfold ring in Hf. rewrite Hcur, first_app in Hf. unfold ahead.
  destruct (first runnable (envs s) (seq c (nenv - c))) as [i'|] eqn:Hf1.
  - injection Hf as ->. pose proof (first_seq_lt _ _ _ _ _ Hf1).
    destruct (Nat.leb_spec c j), (Nat.leb_spec i j); try lia.
    pose proof (first_seq_le _ _ _ _ j _ _ Hf1 ltac:(lia) Hvj HPj). lia.
  - pose proof (first_seq_lt _ _ _ _ _ Hf).
    destruct (Nat.leb_spec c j) as [Hcj|Hcj].
    + assert (j ∈ seq c (nenv - c)) as Hj by (rewrite elem_of_seq; lia).
      by rewrite (first_None _ _ _ _ _ Hf1 Hj Hvj) in HPj.
    + pose proof (first_seq_le _ _ _ _ j _ _ Hf ltac:(lia) Hvj HPj).
      destruct (Nat.leb_spec i j); lia.
Qed.

Lemma run_envs_lookup s e k w :
  run_envs e s !! k = Some w → ∃ v, envs s !! k = Some v ∧
    w = (if decide (k = e) then promote else id)
          ((if decide (curenv s = Some k) then demote else id) v).
Proof.
  unfold run_envs, demoted. intros Hw.
  assert (∃ u, (match curenv s with Some c => alter demote c (envs s) | None => envs s end) !! k
    = Some u ∧ w = (if decide (k = e) then promote else id) u) as (u & Hu & ->).
  { destruct (decide (k = e)) as [->|Hk].
    - rewrite list_lookup_alter_eq in Hw. by apply fmap_Some in Hw.
    - rewrite list_lookup_alter_ne in Hw by done. by exists w. }
  destruct (curenv s) as [c|]; [|by exists u; rewrite (decide_False (P := None = Some k))].
  destruct (decide (c = k)) as [->|Hc].
  - rewrite list_lookup_alter_eq in Hu. apply fmap_Some in Hu as (v & Hv & ->).
    exists v. by rewrite (decide_True (P := Some k = Some k)).
  - rewrite list_lookup_alter_ne in Hu by done. exists u.
    by rewrite (decide_False (P := Some c = Some k)) by congruence.
Qed.

(** After the switch, the new environment runs and the others still wait. *)
Lemma run_state_waiting s c i v j :
  waiting s c j → envs s !! i = Some v → env_status v = ENV_RUNNABLE → i ≠ c → i ≠ j →
  waiting (run_state i v s) i j.
Proof.
  intros [Hok Hcur (vc & Hvc & Hnc) (vj & Hvj & Hrj)] Hv Hr Hic Hij.
  assert (j ≠ c) as Hjc by (intros ->; by simplify_eq).
  assert (length (run_envs i s) = length (envs s)) as Hlen.
  { unfold run_envs, demoted. rewrite Hcur. by rewrite !length_alter. }
  assert (∀ k, (k < length (envs s))%nat → is_Some (run_envs i s !! k)) as Hlook.
  { intros k Hk. apply lookup_lt_is_Some. by rewrite Hlen. }
  split.
  - split; simpl.
    + rewrite Hlen. apply Hok.
    + intros e [= <-]. simpl. apply Hlook. by eapply lookup_lt_Some.
    + intros k w Hw Hst. apply run_envs_lookup in Hw as (u & Hu & ->).
      assert (env_status u = ENV_RUNNABLE ∨ env_status u = ENV_RUNNING → KERNBASE ≤ env_pgdir u)
        as Hpg by (by apply (so_pgdir _ Hok k)).
      destruct (decide (k = i)) as [->|Hki].
      * rewrite decide_False by congruence. simplify_eq. apply Hpg. by left.
      * destruct (decide (curenv s = Some k)); simpl in *; unfold demote in *;
          destruct (Z.eqb_spec (env_status u) ENV_RUNNING); simpl in *; auto.
    + apply Hok.
  - done.
  - destruct (Hlook i) as [w Hw]; [by eapply lookup_lt_Some|]. exists w. split; [done|].
    apply run_envs_lookup in Hw as (u & Hu & ->). by rewrite (decide_True (P := i = i)).
  - destruct (Hlook j) as [w Hw]; [by eapply lookup_lt_Some|]. exists w. split; [done|].
    apply run_envs_lookup in Hw as (u & Hu & ->). rewrite !decide_False by congruence.
    simpl. by simplify_eq.
Qed.

(** C37  No starvation.  Suppose that an environment [j] is runnable, that
    between calls of the scheduler the running environment does not leave (it
    may block or be preempted, but not exit), and that nothing stops [j] from being
    runnable.  Then the scheduler keeps switching without failing and gives [j] the
    processor after fewer switches to others than there are steps from the slot of
    the running environment to that of [j] around the table, so fewer than [NENV].
    After an exit [curenv] is null and the search starts from slot 0 again, so the
    bound does not hold across one. *)
Theorem sched_no_starvation (u : kstate → kstate) (s : kstate) (c j : nat)
  (Hs : waiting s c j)
  (Hu : ∀ t e, e ≠ j → waiting t e j → waiting (u t) e j) :
  ∃ n t, (n < ahead c j < nenv)%nat ∧ slices u n s = Some t ∧ curenv t = Some j.
Proof.
  assert (ahead c j < nenv)%nat as Hlt.
  { destruct Hs as [Hok _ (vc & Hvc & Hnc) (vj & Hvj & Hrj)]. pose proof (so_length _ Hok).
    pose proof (lookup_lt_Some _ _ _ Hvj). assert (c ≠ j) by (intros ->; by simplify_eq).
    unfold ahead. destruct (Nat.leb_spec c j); lia. }
  enough (∃ n t, (n < ahead c j)%nat ∧ slices u n s = Some t ∧ curenv t = Some j)
    as (n & t & ? & ?) by (exists n, t; split; [lia|done]).
  clear Hlt. remember (ahead c j) as d eqn:Hd. revert s c Hs Hd.
  induction d as [d IH] using lt_wf_ind. intros s c Hs Hd.
  destruct (choice_ahead s c j Hs) as (i & v & Hch & Hv & Hr & Hic & Ha).
  assert (sched_yield s = NoRet (run_state i v s)) as E.
  { rewrite sched_yield_run by apply Hs. rewrite Hch. apply env_run_run; [apply Hs|done|].
    destruct Hs as [Hok _ _ _]. eapply so_pgdir; [done|done|by left]. }
  destruct (decide (i = j)) as [->|Hij].
  { exists O, (run_state j v s). simpl. rewrite E. split; [lia|done]. }
  pose proof (run_state_waiting s c i v j Hs Hv Hr Hic Hij) as Hw.
  destruct (IH (ahead i j) ltac:(lia) (u (run_state i v s)) i (Hu _ i Hij Hw) eq_refl)
    as (n & t & Hn & Hsl & Ht).
  exists (S n), t. simpl. rewrite E. split; [lia|done].
Qed.
End with_hart.

(** Environment 0 runs, environment 5 waits, the other slots are free. *)
Definition env_with (status : Z) : Env :=
  set_env_status status (set_env_pgdir (kva_of 0) zero_env).
Definition sched_example : kstate :=
  set_curenv (Some 0%nat) (set_envs (<[5%nat := env_with ENV_RUNNABLE]>
    (<[0%nat := env_with ENV_RUNNING]> (replicate nenv zero_env))) map_example).

Lemma sched_example_waiting : waiting sched_example 0 5.
Proof.
  assert (5 < nenv)%nat as Hn by (rewrite <-Nat.ltb_lt; by vm_compute).
  assert (envs sched_example !! 0%nat = Some (env_with ENV_RUNNING)) as H0.
  { simpl. rewrite list_lookup_insert_ne by done.
    rewrite list_lookup_insert_eq; [done|]. rewrite length_replicate. lia. }
  assert (envs sched_example !! 5%nat = Some (env_with ENV_RUNNABLE)) as H5.
  { simpl. rewrite list_lookup_insert_eq; [done|]. by rewrite length_insert, length_replicate. }
  split; [|done|by exists (env_with ENV_RUNNING)|by exists (env_with ENV_RUNNABLE)].
  split; [simpl; by rewrite !length_insert, length_replicate|by intros e [= <-]| |].
  - intros i v Hv Hst. destruct (decide (i = 5)%nat) as [->|Hi5]; [rewrite H5 in Hv; by simplify_eq|].
    destruct (decide (i = 0)%nat) as [->|Hi0]; [rewrite H0 in Hv; by simplify_eq|].
    simpl in Hv. rewrite !list_lookup_insert_ne in Hv by done.
    apply lookup_replicate in Hv as [-> _]. simpl in Hst. by destruct Hst.
  - by vm_compute.
Qed.

Lemma sched_yield_witness :
  match choice sched_example with
  | Some i => ∃ v, envs sched_example !! i = Some v ∧
      (env_status v = ENV_RUNNABLE ∨ curenv sched_example = Some i ∧ env_status v = ENV_RUNNING) ∧
      sched_yield sched_example = NoRet (run_state i v sched_example)
  | None =>
      (∀ i v, envs sched_example !! i = Some v → env_status v ≠ ENV_RUNNABLE) ∧
      sched_yield sched_example = NoRet (halt_state sched_example)
  end.
Proof. apply sched_yield_round_robin. exact (wt_ok _ _ _ sched_example_waiting). Defined.

Lemma sched_no_starvation_witness :
  ∃ n t, (n < ahead 0 5 < nenv)%nat ∧ slices id n sched_example = Some t ∧ curenv t = Some 5%nat.
Proof.
  apply (sched_no_starvation id sched_example 0 5 sched_example_waiting). intros t e _ Hw. exact Hw.
Defined.
