(* ===== verification/Devices.v ===== *)
(** * Timer, console and network card

    kern/riscv/time.c, the input ring of kern/riscv/console.c and the descriptor
    rings of kern/riscv/e1000.c.  What the firmware and the card deliver is a
    parameter: the characters that [sbi_console_getchar] returns before -1, and
    the descriptors as the card has left them. *)

From S2P Require Import Prelude Mmu Kstate Pages Pgtable PgtableInv PgtableMap PgtableBoot Env.

(** ** kern/riscv/time.c *)

Definition time_init : K unit := modify (set_ticks 0).

Definition time_tick : K unit :=
  modify (λ s, set_ticks (u32 (ticks s + 1)) s) ;;;
  t <- gets ticks ;;
  if u32 (t * 10) <? t then panic else ret tt.

Definition time_msec : K Z := t <- gets ticks ;; ret (u32 (t * 10)).

(** ** kern/riscv/console.c *)

Definition CONSBUFSIZE : Z := 512.

(** One character from the device; zero is dropped. *)
Definition cons_put (c : Z) : K unit :=
  if c =? 0 then ret tt else
  w <- gets cons_wpos ;;
  b <- gets cons_buf ;;
  (if bool_decide (is_Some (zlookup b w))
   then modify (set_cons_buf (<[Z.to_nat w := u8 c]> b)) else undef) ;;;
  let w' := u32 (w + 1) in
  modify (set_cons_wpos (if w' =? CONSBUFSIZE then 0 else w')).

(** [input] is what the device returns before it returns -1. *)
Fixpoint cons_intr (input : list Z) : K unit :=
  match input with
  | [] => ret tt
  | c :: input' => cons_put c ;;; cons_intr input'
  end.

Definition serial_intr (input : list Z) : K unit :=
  b <- gets serial_exists ;; if b : bool then cons_intr input else ret tt.

Definition cons_getc (input : list Z) : K Z :=
  serial_intr input ;;;
  r <- gets cons_rpos ;;
  w <- gets cons_wpos ;;
  if negb (r =? w) then
    b <- gets cons_buf ;;
    c <- deref (zlookup b r) ;;
    let r' := u32 (r + 1) in
    modify (set_cons_rpos (if r' =? CONSBUFSIZE then 0 else r')) ;;;
    ret c
  else ret 0.

Definition serial_init : K unit := modify (set_serial_exists true).
Definition cons_init : K unit := serial_init.

Definition cons_putc (c : Z) : K unit := modify (λ s, set_cons_out (c :: cons_out s) s).
Definition cputchar (c : Z) : K unit := cons_putc c.

(** ** kern/riscv/e1000.c *)

Definition E1000_TCTL : Z := 0x400 / 4.
Definition E1000_TDBAL : Z := 0x3800 / 4.
Definition E1000_TDBAH : Z := 0x3804 / 4.
Definition E1000_TDLEN : Z := 0x3808 / 4.
Definition E1000_TDH : Z := 0x3810 / 4.
Definition E1000_TDT : Z := 0x3818 / 4.
Definition E1000_TIPG : Z := 0x410 / 4.
Definition E1000_IMS : Z := 0xd0 / 4.
Definition E1000_RCTL : Z := 0x100 / 4.
Definition E1000_RDBAL : Z := 0x2800 / 4.
Definition E1000_RDBAH : Z := 0x2804 / 4.
Definition E1000_RDLEN : Z := 0x2808 / 4.
Definition E1000_RDH : Z := 0x2810 / 4.
Definition E1000_RDT : Z := 0x2818 / 4.
Definition E1000_MTA : Z := 0x5200 / 4.
Definition E1000_RAL0 : Z := 0x5400 / 4.
Definition E1000_RAH0 : Z := 0x5404 / 4.

Definition E1000_TCTL_EN : Z := 0x2.
Definition E1000_TCTL_PSP : Z := 0x8.
Definition E1000_TCTL_CT : Z := 0xff0.
Definition E1000_TCTL_COLD : Z := 0x3ff000.
Definition E1000_TXD_CMD_EOP : Z := 0x01000000.
Definition E1000_TXD_CMD_RS : Z := 0x08000000.
Definition E1000_TXD_STAT_DD : Z := 0x1.
Definition E1000_RCTL_EN : Z := 0x2.
Definition E1000_RCTL_LPE : Z := 0x20.
Definition E1000_RCTL_LBM_NO : Z := 0.
Definition E1000_RCTL_RDMTS_HALF : Z := 0.
Definition E1000_RCTL_SZ_1024 : Z := 0x10000.
Definition E1000_RCTL_SECRC : Z := 0x04000000.
Definition E1000_RAH_AV : Z := 0x80000000.
Definition E1000_RXD_STAT_DD : Z := 0x1.

Definition tx_desc_len : Z := 32.
Definition rx_desc_len : Z := 128.

(** Reads and writes of the 32-bit device registers. *)
Definition get_reg (r : Z) : K Z := gets (λ s, rd (e1000 (nic s)) r).
Definition put_reg (r v : Z) : K unit :=
  modify (λ s, set_nic (set_e1000 (<[r := u32 v]> (e1000 (nic s))) (nic s)) s).
Definition upd_reg (r : Z) (f : Z → Z) : K unit := v <- get_reg r ;; put_reg r (f v).

(** The arguments are the kernel addresses of [tx_desc_buffer] and
    [packet_buffer]. *)
Definition transmit_init (ring bufs : Z) : K unit :=
  pa <- PADDR ring ;;
  put_reg E1000_TDBAL pa ;;;
  put_reg E1000_TDBAH 0 ;;;
  put_reg E1000_TDLEN (16 * tx_desc_len) ;;;
  put_reg E1000_TDH 0 ;;;
  put_reg E1000_TDT 0 ;;;
  upd_reg E1000_TCTL (λ v, Z.lor v E1000_TCTL_EN) ;;;
  upd_reg E1000_TCTL (λ v, Z.lor v E1000_TCTL_PSP) ;;;
  upd_reg E1000_TCTL (λ v, Z.land v (Z.lnot E1000_TCTL_CT)) ;;;
  upd_reg E1000_TCTL (λ v, Z.lor v (Z.shiftl 0x10 4)) ;;;
  upd_reg E1000_TCTL (λ v, Z.land v (Z.lnot E1000_TCTL_COLD)) ;;;
  upd_reg E1000_TCTL (λ v, Z.lor v (Z.shiftl 0x40 12)) ;;;
  put_reg E1000_TIPG 10 ;;;
  pb <- PADDR bufs ;;
  modify (λ s, set_nic (set_tx_desc_buffer
    ((λ i, mkTxDesc (u32 (pb + 1024 * i)) 0 E1000_TXD_STAT_DD) <$> seqZ 0 tx_desc_len) (nic s)) s).

(** The arguments are the kernel addresses of [rx_desc_buffer] and
    [receive_buffer]. *)
Definition receive_init (ring bufs : Z) : K unit :=
  put_reg E1000_RAL0 0x12005452 ;;;
  put_reg E1000_RAH0 0x00005634 ;;;
  upd_reg E1000_RAH0 (λ v, Z.lor v E1000_RAH_AV) ;;;
  put_reg E1000_MTA 0 ;;;
  put_reg E1000_IMS 0 ;;;
  pa <- PADDR ring ;;
  put_reg E1000_RDBAL pa ;;;
  put_reg E1000_RDBAH 0 ;;;
  put_reg E1000_RDLEN (rx_desc_len * 16) ;;;
  put_reg E1000_RDH 0 ;;;
  put_reg E1000_RDT (rx_desc_len - 1) ;;;
  upd_reg E1000_RCTL (λ v, Z.land v (Z.lnot E1000_RCTL_LPE)) ;;;
  upd_reg E1000_RCTL (λ v, Z.lor v E1000_RCTL_LBM_NO) ;;;
  upd_reg E1000_RCTL (λ v, Z.lor v E1000_RCTL_RDMTS_HALF) ;;;
  upd_reg E1000_RCTL (λ v, Z.lor v E1000_RCTL_SZ_1024) ;;;
  upd_reg E1000_RCTL (λ v, Z.lor v E1000_RCTL_SECRC) ;;;
  pb <- PADDR bufs ;;
  modify (λ s, set_nic (set_rx_desc_buffer
    ((λ i, mkRxDesc (u32 (pb + 1024 * i)) 0 0 0 0 0) <$> seqZ 0 rx_desc_len) (nic s)) s) ;;;
  upd_reg E1000_RCTL (λ v, Z.lor v E1000_RCTL_EN).

(** One byte of [memmove(packet_buffer\[index\], data, len)]; nothing stops a
    long packet from running into the buffers that follow. *)
Definition packet_put (index data i : Z) : K unit :=
  b <- vm_load8 (u64 (data + i)) ;;
  p <- gets (λ s, packet_buffer (nic s)) ;;
  let a := index * 1024 + i in
  if bool_decide (is_Some (zlookup p a))
  then modify (λ s, set_nic (set_packet_buffer (<[Z.to_nat a := b]> p) (nic s)) s)
  else undef.

(** The descriptor of a packet of [len] bytes: end of packet, report status,
    status cleared, length in the low half of [lower]. *)
Definition tx_fill (len : Z) (d : tx_desc) : tx_desc :=
  mkTxDesc (tx_addr d)
    (Z.lor (Z.land (Z.lor (Z.lor (tx_lower d) E1000_TXD_CMD_RS) E1000_TXD_CMD_EOP)
                   (Z.lnot 0xffff)) (u16 len))
    (Z.land (tx_upper d) (Z.lnot 0xff)).

Definition transmit_pack (data len : Z) : K Z :=
  tdt <- get_reg E1000_TDT ;;
  let index := i32 tdt in
  ring <- gets (λ s, tx_desc_buffer (nic s)) ;;
  c_tx <- deref (zlookup ring index) ;;
  if Z.land (tx_upper c_tx) E1000_TXD_STAT_DD =? 0 then ret (- E_NO_MEM) else
  for_loop (Z.to_nat (u64 len)) 0 (packet_put index data) ;;;
  modify (λ s, set_nic (set_tx_desc_buffer (<[Z.to_nat index := tx_fill len c_tx]>
                                              (tx_desc_buffer (nic s))) (nic s)) s) ;;;
  put_reg E1000_TDT (Z.rem (index + 1) tx_desc_len) ;;;
  ret 0.

(** One byte of the copy from the receive buffer of [index] to user memory. *)
Definition receive_get (index buf i : Z) : K unit :=
  r <- gets (λ s, receive_buffer (nic s)) ;;
  b <- deref (zlookup r (index * 1024 + i)) ;;
  vm_store8 (u64 (buf + i)) b.

(** [*len = v] for an [int] in user memory. *)
Definition vm_store32 (va v : Z) : K unit :=
  for_loop 4 0 (λ i, vm_store8 (u64 (va + i)) (Z.shiftr v (8 * i))).

(** [receive_init] gave descriptor [i] the buffer [i]. *)
Definition receive_pack (buf len : Z) : K Z :=
  rdt <- get_reg E1000_RDT ;;
  let index := Z.rem (i32 rdt + 1) rx_desc_len in
  ring <- gets (λ s, rx_desc_buffer (nic s)) ;;
  rx <- deref (zlookup ring index) ;;
  if Z.land (rx_status rx) E1000_RXD_STAT_DD =? 0 then ret (- E_NO_MEM) else
  KADDR (rx_buffer_addr rx) ;;;
  for_loop (Z.to_nat (rx_length rx)) 0 (receive_get index buf) ;;;
  vm_store32 len (rx_length rx) ;;;
  put_reg E1000_RDT index ;;;
  ret 0.

(** ** The clock never shows a wrong time *)

(** As long as the tick count in milliseconds fits 32 bits, [time_tick]
    counts one tick and [time_msec] reads exactly ten times the count; the tick
    that would not fit stops the kernel, whatever the count. *)
Theorem time_exact (s : kstate) (H0 : 0 ≤ ticks s) (Hfit : ticks s * 10 < 2 ^ 32) :
  time_msec s = Ret (10 * ticks s) s ∧
  (time_tick s = Ret tt (set_ticks (ticks s + 1) s) ∧ (ticks s + 1) * 10 < 2 ^ 32 ∨
   time_tick s = Panic (set_ticks (ticks s + 1) s) ∧ 2 ^ 32 ≤ (ticks s + 1) * 10).
Proof.
  split.
  - unfold time_msec. step_pure. unfold ret. rewrite u32_small by lia. by rewrite Z.mul_comm.
  - unfold time_tick. step_pure. step_pure.
    change (ticks (set_ticks (u32 (ticks s + 1)) s)) with (u32 (ticks s + 1)).
    rewrite (u32_small (ticks s + 1)) by lia.
    destruct (Z.lt_ge_cases ((ticks s + 1) * 10) (2 ^ 32)) as [Hlt|Hge].
    + left. rewrite u32_small by lia. zcases; [lia|done].
    + right. replace (u32 ((ticks s + 1) * 10)) with ((ticks s + 1) * 10 - 2 ^ 32).
      2:{ apply Z.mod_unique with 1; lia. }
      zcases; [done|lia].
Qed.

Lemma time_witness :
  time_msec (set_ticks 429496729 map_example) = Ret (10 * 429496729) (set_ticks 429496729 map_example) ∧
  (time_tick (set_ticks 429496729 map_example) = Ret tt (set_ticks 429496730 map_example) ∧
     429496730 * 10 < 2 ^ 32 ∨
   time_tick (set_ticks 429496729 map_example) = Panic (set_ticks 429496730 map_example) ∧
     2 ^ 32 ≤ 429496730 * 10).
Proof. apply (time_exact (set_ticks 429496729 map_example)); simpl; lia. Defined.

(** ** The console ring is a queue *)

(** [q]: the characters received and not yet read, the oldest first. *)
Record cons_ok (s : kstate) (q : list Z) : Prop := {
  co_serial : serial_exists s = true;
  co_length : length (cons_buf s) = 512%nat;
  co_rpos : 0 ≤ cons_rpos s < 512;
  co_q : (length q < 512)%nat;
  co_wpos : cons_wpos s = (cons_rpos s + Z.of_nat (length q)) mod 512;
  co_buf k c : q !! k = Some c →
    cons_buf s !! Z.to_nat ((cons_rpos s + Z.of_nat k) mod 512) = Some c
}.

Lemma ring_next p : 0 ≤ p < 512 →
  (if u32 (p + 1) =? CONSBUFSIZE then 0 else u32 (p + 1)) = (p + 1) mod 512.
Proof.
  intros Hp. rewrite u32_small by lia. unfold CONSBUFSIZE. destruct (Z.eqb_spec (p + 1) 512) as [->|].
  - done.
  - by rewrite Z.mod_small by lia.
Qed.

Lemma zlookup_nonneg {A} (l : list A) i : 0 ≤ i → zlookup l i = l !! Z.to_nat i.
Proof. intros. unfold zlookup. zcases; [lia|done]. Qed.

Lemma cons_put_run s q c :
  cons_ok s q → (length q < 511)%nat →
  ∃ s', cons_put c s = Ret tt s' ∧ cons_ok s' (q ++ (if c =? 0 then [] else [u8 c])) ∧
    s' = set_cons_buf (cons_buf s') (set_cons_wpos (cons_wpos s') s).
Proof.
  intros [Hser Hlen Hr Hq Hw Hb] Hlq. unfold cons_put. destruct (Z.eqb_spec c 0) as [->|Hc].
  { exists s. rewrite app_nil_r. split; [done|]. split; [by split|by destruct s]. }
  step_pure. step_pure.
  pose proof (Z.mod_pos_bound (cons_rpos s + Z.of_nat (length q)) 512 ltac:(lia)) as Hwb.
  rewrite <-Hw in Hwb. rewrite zlookup_nonneg by lia.
  rewrite bool_decide_eq_true_2 by (apply lookup_lt_is_Some; lia). step_pure.
  eexists. split; [done|]. split; [|by destruct s]. split; simpl.
  - done.
  - by rewrite length_insert.
  - done.
  - rewrite length_app. simpl. lia.
  - rewrite ring_next by done. rewrite Hw, length_app. simpl.
    rewrite Z.add_mod_idemp_l by lia. f_equal. lia.
  - intros k c' Hk. apply lookup_app_Some in Hk as [Hk|[Hk1 Hk2]].
    + rewrite list_lookup_insert_ne; [by apply Hb|]. apply lookup_lt_Some in Hk.
      rewrite Hw. intros E. apply Z2Nat.inj in E; [|apply Z.mod_pos_bound; lia..].
      assert (Z.of_nat (length q) = Z.of_nat k) as E'; [|lia].
      assert ((Z.of_nat (length q) - Z.of_nat k) mod 512 = 0) as E0.
      { replace (Z.of_nat (length q) - Z.of_nat k)
          with ((cons_rpos s + Z.of_nat (length q)) - (cons_rpos s + Z.of_nat k)) by lia.
        rewrite Zminus_mod, E, Z.sub_diag. done. }
      rewrite Z.mod_small in E0 by lia. lia.
    + apply list_lookup_singleton_Some in Hk2 as [Hk2 <-].
      replace k with (length q) by lia. rewrite <-Hw. apply list_lookup_insert_eq. lia.
Qed.

(** The characters that [cons_intr] keeps. *)
Definition received (input : list Z) : list Z := u8 <$> filter (λ c, c ≠ 0) input.

Lemma cons_intr_run s q input :
  cons_ok s q → (length q + length (received input) < 512)%nat →
  ∃ s', cons_intr input s = Ret tt s' ∧ cons_ok s' (q ++ received input) ∧
    s' = set_cons_buf (cons_buf s') (set_cons_wpos (cons_wpos s') s).
Proof.
  revert s q. induction input as [|c input IH]; intros s q Hok Hlen.
  { exists s. simpl. rewrite app_nil_r. split; [done|]. split; [done|by destruct s]. }
  simpl. unfold received in *. rewrite filter_cons in *. destruct (decide (c ≠ 0)) as [Hc|Hc].
  - simpl in Hlen. destruct (cons_put_run s q c Hok ltac:(lia)) as (s1 & E1 & Hok1 & R1).
    destruct (Z.eqb_spec c 0); [done|]. step_with E1.
    destruct (IH s1 _ Hok1) as (s2 & E2 & Hok2 & R2).
    { rewrite length_app. simpl. rewrite length_fmap in *. lia. }
    exists s2. rewrite <-app_assoc in Hok2. split; [done|]. split; [done|]. rewrite R2, R1. done.
  - assert (c = 0) as -> by lia. cbn [cons_put Z.eqb]. step_pure. by apply IH.
Qed.

(** The console input ring is a first-in first-out queue of capacity 511.
    If the characters waiting and the nonzero ones the device delivers now are at
    most 511, [cons_getc] returns the oldest of them and leaves the rest in
    order, or returns 0 when there is none. *)
Theorem cons_getc_fifo (s : kstate) (q input : list Z)
  (Hok : cons_ok s q) (Hroom : (length q + length (received input) < 512)%nat) :
  ∃ s', cons_getc input s = Ret (default 0 (head (q ++ received input))) s' ∧
    cons_ok s' (tail (q ++ received input)) ∧
    s' = set_cons_buf (cons_buf s') (set_cons_wpos (cons_wpos s')
           (set_cons_rpos (cons_rpos s') s)).
Proof.
  destruct (cons_intr_run s q input Hok Hroom) as (s1 & E1 & Hok1 & R1).
  unfold cons_getc, serial_intr. rewrite bind_assoc. step_pure. rewrite (co_serial _ _ Hok).
  step_with E1. step_pure. step_pure. clear E1 Hok Hroom.
  remember (q ++ received input) as q1 eqn:Eq1. clear Eq1.
  destruct Hok1 as [Hser Hlen Hr Hq Hw Hb]. rewrite Hw.
  destruct q1 as [|c q1]; simpl.
  - rewrite Z.add_0_r, Z.mod_small, Z.eqb_refl by lia. exists s1. split; [done|].
    split; [|assert (cons_rpos s1 = cons_rpos s) as -> by (by rewrite R1);
      etrans; [exact R1|by destruct s]].
    by split; try done; simpl; rewrite ?Z.add_0_r, ?Z.mod_small by lia.
  - destruct (Z.eqb_spec (cons_rpos s1) ((cons_rpos s1 + Z.of_nat (S (length q1))) mod 512)) as [E|_].
    { exfalso. simpl in Hq. destruct (Z.lt_ge_cases (cons_rpos s1 + Z.of_nat (S (length q1))) 512).
      - rewrite Z.mod_small in E by lia. lia.
      - rewrite <-(Z.mod_unique _ 512 1 (cons_rpos s1 + Z.of_nat (S (length q1)) - 512)) in E; lia. }
    cbn [negb]. step_pure. pose proof (Hb O c eq_refl) as H0. simpl in H0.
    rewrite Z.add_0_r, Z.mod_small in H0 by lia. rewrite zlookup_nonneg, H0 by lia.
    unfold deref. step_pure. step_pure. eexists. split; [done|].
    split; [|exact (f_equal (set_cons_rpos _) R1)]. split; simpl.
    + done.
    + done.
    + rewrite ring_next by done. apply Z.mod_pos_bound. lia.
    + simpl in Hq. lia.
    + rewrite Hw, ring_next by done. rewrite Z.add_mod_idemp_l by lia. f_equal. simpl. lia.
    + intros k c' Hk. rewrite ring_next by done. rewrite Z.add_mod_idemp_l by lia.
      specialize (Hb (S k) c' Hk). by replace (cons_rpos s1 + 1 + Z.of_nat k)
        with (cons_rpos s1 + Z.of_nat (S k)) by lia.
Qed.

(** The console after [cons_init]. *)
Definition cons_example : kstate :=
  set_serial_exists true (set_cons_buf (replicate 512 0) map_example).

Lemma cons_getc_witness :
  ∃ s', cons_getc [104; 0; 105] cons_example = Ret 104 s' ∧ cons_ok s' [105] ∧
    s' = set_cons_buf (cons_buf s') (set_cons_wpos (cons_wpos s')
           (set_cons_rpos (cons_rpos s') cons_example)).
Proof.
  apply (cons_getc_fifo cons_example [] [104; 0; 105]); [|simpl; lia].
  split; [first [by vm_compute | simpl; lia]..|done].
Defined.
