(* ===== verification/Syscall.v ===== *)
(** * System calls of kern/riscv/syscall.c

    The handlers [sys_*] and the dispatcher [syscall], with [user_mem_assert] of
    kern/riscv/pmap.c.  Pointers to user memory are 64-bit addresses that the
    kernel reads and writes through the current page tables.  Diagnostic output
    is left out; what [sys_cputs] prints is recorded in [cons_out]. *)

From S2P Require Import Prelude Mmu Kstate Pages Pgtable PgtableInv PgtableMap PgtableBoot Env EnvInv Sched Devices.

(** ** inc/riscv/syscall.h *)

Definition SYS_cputs : Z := 0.
Definition SYS_cgetc : Z := 1.
Definition SYS_getenvid : Z := 2.
Definition SYS_env_destroy : Z := 3.
Definition SYS_page_alloc : Z := 4.
Definition SYS_page_map : Z := 5.
Definition SYS_page_unmap : Z := 6.
Definition SYS_exofork : Z := 7.
Definition SYS_env_set_status : Z := 8.
Definition SYS_env_set_trapframe : Z := 9.
Definition SYS_yield : Z := 10.
Definition SYS_env_set_pgfault_upcall : Z := 11.
Definition SYS_ipc_try_send : Z := 12.
Definition SYS_ipc_recv : Z := 13.
Definition SYS_page_clear_dirty : Z := 14.
Definition SYS_uvpt_pte : Z := 15.
Definition SYS_copy_shared_pages : Z := 16.
Definition SYS_disable_irq : Z := 17.
Definition SYS_enable_irq : Z := 18.
Definition SYS_time_msec : Z := 19.
Definition SYS_pack_send : Z := 20.
Definition SYS_pack_recv : Z := 21.

(** ** inc/riscv/csr.h *)

Definition MIP_STIP : Z := Z.shiftl 1 5.

(** ** User memory *)

(** The words at [va], [va + 8], ... *)
Fixpoint vm_load_words (n : nat) (va : Z) : K (list Z) :=
  match n with
  | O => ret []
  | S n' => x <- vm_load64 (u64 va) ;; l <- vm_load_words n' (va + 8) ;; ret (x :: l)
  end.

(** A [struct Trapframe] from its 36 words. *)
Definition tf_of_words (l : list Z) : Trapframe :=
  let w i := default 0 (zlookup l i) in
  mkTrapframe (w 0) (w 1) (w 2) (w 3) (w 4) (w 5) (w 6) (w 7) (w 8)
    (w 9) (w 10) (w 11) (w 12) (w 13) (w 14) (w 15) (w 16) (w 17)
    (w 18) (w 19) (w 20) (w 21) (w 22) (w 23) (w 24) (w 25) (w 26)
    (w 27) (w 28) (w 29) (w 30) (w 31) (w 32) (w 33) (w 34) (w 35).

Section with_hart.
Context `{Hart}.

Definition user_mem_assert (env : nat) (va len perm : Z) : K unit :=
  r <- user_mem_check va len (Z.lor perm PTE_U) ;;
  if r <? 0 then env_destroy env else ret tt.

(** ** Console *)

(** [cprintf("%.*s", len, s)]: characters up to a NUL, at most [prec] of them when
    [prec] is not negative; the character after the last one is read too. *)
Fixpoint put_user_string (fuel : nat) (va prec : Z) : K unit :=
  match fuel with
  | O => ret tt
  | S fuel' =>
      ch <- vm_load8 (u64 va) ;;
      if ch =? 0 then ret tt else
      if (prec <? 0) || (0 <=? prec - 1)
      then cputchar ch ;;; put_user_string fuel' (va + 1) (if prec <? 0 then prec else prec - 1)
      else ret tt
  end.

(** What [cprintf] prints for a null string. *)
Definition null_string : list Z := [40; 110; 117; 108; 108; 41].

Definition sys_cputs (s len : Z) : K unit :=
  cur <- gets curenv ;;
  env <- deref cur ;;
  user_mem_assert env s len PTE_U ;;;
  let prec := i32 len in
  if s =? 0
  then foldr (λ c k, cputchar c ;;; k) (ret tt)
         (if prec <? 0 then null_string else take (Z.to_nat prec) null_string)
  else put_user_string (Z.to_nat (if prec <? 0 then 2 ^ 64 else prec + 1)) s prec.

Definition sys_cgetc : K Z := cons_getc console_input.

(** ** Environments *)

Definition cur_env : K (nat * Env) :=
  cur <- gets curenv ;; e <- deref cur ;; v <- get_env e ;; ret (e, v).

Definition sys_getenvid : K Z := c <- cur_env ;; ret (env_id (snd c)).

Definition sys_env_destroy (envid : Z) : K Z :=
  r <- envid2env envid true ;;
  match r with (r, env) =>
    if r <? 0 then ret r else
    e <- deref env ;;
    env_destroy e ;;;
    ret 0
  end.

Definition sys_yield : K unit := sched_yield.

(** The child's fields that [sys_exofork] sets after [env_alloc]. *)
Definition fork_env (child : nat) (parent v : Env) : Env :=
  set_env_pgfault_upcall (env_pgfault_upcall parent)
   (set_env_tf (set_tf_tp (env_addr child)
      (set_tf_sepc (u64 (tf_sepc (env_tf parent) + 4)) (set_tf_a0 0 (env_tf parent))))
   (set_env_ipc_recving false (set_env_parent_id (env_id parent)
   (set_env_status ENV_NOT_RUNNABLE v)))).

Definition sys_exofork : K Z :=
  c <- cur_env ;;
  r <- env_alloc (env_parent_id (snd c)) ;;
  match r with (ret_, env) =>
    if ret_ <? 0 then panic else
    e <- deref env ;;
    p <- cur_env ;;
    upd_env e (fork_env e (snd p)) ;;;
    v <- get_env e ;;
    ret (env_id v)
  end.

Definition sys_env_set_status (envid status : Z) : K Z :=
  if (status <? 0) || (ENV_NOT_RUNNABLE <? status) then ret (- E_INVAL) else
  r <- envid2env envid true ;;
  match r with (r, env) =>
    if r <? 0 then ret (- E_BAD_ENV) else
    e <- deref env ;;
    v <- get_env e ;;
    if (env_status v =? ENV_RUNNABLE) || (env_status v =? ENV_NOT_RUNNABLE)
    then upd_env e (set_env_status status) ;;; ret 0
    else ret (- E_INVAL)
  end.

Definition sys_env_set_pgfault_upcall (envid func : Z) : K Z :=
  r <- envid2env envid true ;;
  match r with (r, env) =>
    if r <? 0 then ret (- E_BAD_ENV) else
    if func =? 0 then ret (- E_INVAL) else
    e <- deref env ;;
    upd_env e (set_env_pgfault_upcall func) ;;; ret 0
  end.

Definition sys_env_set_trapframe (envid tf : Z) : K Z :=
  r <- envid2env envid true ;;
  match r with (r, env) =>
    if r <? 0 then ret (- E_BAD_ENV) else
    e <- deref env ;;
    ws <- vm_load_words 36 tf ;;
    upd_env e (set_env_tf (tf_of_words ws)) ;;; ret 0
  end.

(** ** Memory *)

(** The checks that the mapping calls make on an address. *)
Definition bad_va (va : Z) : bool := (UTOP <=? va) || negb (va mod PGSIZE =? 0).

Definition sys_page_alloc (envid va perm : Z) : K Z :=
  r <- envid2env envid true ;;
  match r with (r, env) =>
    if r <? 0 then ret (- E_BAD_ENV) else
    if bad_va va then ret (- E_INVAL) else
    if negb (Z.land perm (Z.lnot PTE_SYSCALL) =? 0) then ret (- E_INVAL) else
    pginfo <- page_alloc ALLOC_ZERO ;;
    e <- deref env ;;
    v <- get_env e ;;
    pp <- deref pginfo ;;
    r <- page_insert (env_pgdir v) pp va perm ;;
    if r <? 0 then page_free pp ;;; ret r else ret 0
  end.

Definition sys_page_map (srcenvid srcva dstenvid dstva perm : Z) : K Z :=
  r <- envid2env srcenvid true ;;
  match r with (r, src) =>
    if r <? 0 then ret (- E_BAD_ENV) else
    r <- envid2env dstenvid true ;;
    match r with (r, dst) =>
      if r <? 0 then ret (- E_BAD_ENV) else
      if bad_va srcva then ret (- E_INVAL) else
      if bad_va dstva then ret (- E_INVAL) else
      envsrc <- deref src ;;
      vs <- get_env envsrc ;;
      p <- page_lookup (env_pgdir vs) srcva ;;
      match p with
      | None => ret (- E_INVAL)
      | Some (pginfo, pte) =>
          x <- load pte ;;
          if negb (Z.land perm PTE_W =? 0) && (Z.land x PTE_W =? 0) then ret (- E_INVAL) else
          envdst <- deref dst ;;
          vd <- get_env envdst ;;
          r <- page_insert (env_pgdir vd) pginfo dstva perm ;;
          if r <? 0 then ret r else ret 0
      end
    end
  end.

Definition sys_page_unmap (envid va : Z) : K Z :=
  r <- envid2env envid true ;;
  match r with (r, env) =>
    if r <? 0 then ret (- E_BAD_ENV) else
    if bad_va va then ret (- E_INVAL) else
    e <- deref env ;;
    v <- get_env e ;;
    page_remove (env_pgdir v) va ;;; ret 0
  end.

Definition sys_page_clear_dirty (srcenv srcva dstenv dstva : Z) : K Z :=
  assert_ (srcenv =? dstenv) ;;;
  assert_ (srcva =? dstva) ;;;
  c <- cur_env ;;
  pte <- pgdir_walk (env_pgdir (snd c)) srcva false ;;
  match pte with
  | None => panic
  | Some p =>
      x <- load p ;;
      r <- sys_page_map srcenv srcva dstenv dstva (i32 (Z.land x PTE_SYSCALL)) ;;
      if r <? 0 then ret r else ret 0
  end.

(** The return type is [int]. *)
Definition sys_uvpt_pte (srcva : Z) : K Z :=
  c <- cur_env ;;
  pte <- pgdir_walk (env_pgdir (snd c)) srcva false ;;
  match pte with
  | None => ret 0
  | Some p => x <- load p ;; ret (i32 x)
  end.

Definition PTE_SHARE : Z := 0x200.
Definition SHARED_BASE : Z := 0xD0000000.

(** [n] of the 64 descriptor pages to go, from page [i]. *)
Fixpoint copy_shared_loop (n : nat) (i child : Z) : K Z :=
  match n with
  | O => ret 0
  | S n' =>
      let va := SHARED_BASE + i * PGSIZE in
      c <- cur_env ;;
      pte <- pgdir_walk (env_pgdir (snd c)) va false ;;
      match pte with
      | None => copy_shared_loop n' (i + 1) child
      | Some p =>
          x <- load p ;;
          let perm := i32 (Z.land x PTE_SYSCALL) in
          if negb (Z.land perm PTE_SHARE =? 0) then
            r <- sys_page_map 0 va child va (Z.lor (Z.lor PTE_SHARE perm) PTE_U) ;;
            if r <? 0 then ret r else copy_shared_loop n' (i + 1) child
          else copy_shared_loop n' (i + 1) child
      end
  end.

Definition sys_copy_shared_pages (child : Z) : K Z := copy_shared_loop 64 0 child.

(** ** Messages *)

(** The receiver's fields when a message arrives. *)
Definition ipc_deliver (from value perm : Z) (v : Env) : Env :=
  set_env_ipc_recving false (set_env_status ENV_RUNNABLE
   (set_env_tf (set_tf_sepc (u64 (tf_sepc (env_tf v) + 4)) (set_tf_a0 0 (env_tf v)))
   (set_env_ipc_perm perm (set_env_ipc_value value (set_env_ipc_from from v))))).

(** The page part of a send: 1 when a page went over, 0 when none was asked
    for, an error below zero. *)
Definition ipc_send_page (env : nat) (srcva perm : Z) : K Z :=
  if srcva <? UTOP then
    if negb (srcva mod PGSIZE =? 0) then ret (- E_INVAL) else
    if negb (Z.land perm (u32 (Z.lnot PTE_SYSCALL)) =? 0) then ret (- E_INVAL) else
    c <- cur_env ;;
    p <- page_lookup (env_pgdir (snd c)) srcva ;;
    match p with
    | None => ret (- E_INVAL)
    | Some (pginfo, pte) =>
        x <- load pte ;;
        if negb (Z.land perm PTE_W =? 0) && (Z.land x PTE_W =? 0) then ret (- E_INVAL) else
        v <- get_env env ;;
        r <- page_insert (env_pgdir v) pginfo (env_ipc_dstva v) (i32 perm) ;;
        if r <? 0 then ret (- E_NO_MEM) else ret 1
    end
  else ret 0.

Definition sys_ipc_try_send (envid value srcva perm : Z) : K Z :=
  r <- envid2env envid false ;;
  match r with (r, env) =>
    if r <? 0 then ret (- E_BAD_ENV) else
    e <- deref env ;;
    v <- get_env e ;;
    if negb (env_ipc_recving v) then ret (- E_IPC_NOT_RECV) else
    p_flag <- ipc_send_page e srcva perm ;;
    if p_flag <? 0 then ret p_flag else
    c <- cur_env ;;
    upd_env e (ipc_deliver (env_id (snd c)) value (if p_flag =? 0 then 0 else i32 perm)) ;;;
    ret 0
  end.

Definition sys_ipc_recv (dstva : Z) : K Z :=
  c <- cur_env ;;
  (if env_ipc_recving (snd c)
   then upd_env (fst c) (set_env_status ENV_NOT_RUNNABLE) ;;; sched_yield
   else ret tt) ;;;
  if (dstva <? UTOP) && negb (dstva mod PGSIZE =? 0) then ret (- E_INVAL) else
  (if dstva <? UTOP then upd_env (fst c) (set_env_ipc_dstva dstva) else ret tt) ;;;
  upd_env (fst c) (λ v, set_env_status ENV_NOT_RUNNABLE (set_env_ipc_recving true v)) ;;;
  sched_yield ;;;
  ret 0.

(** ** Interrupts, time and the network card *)

Definition sys_disable_irq : K Z :=
  modify (λ s, set_sie (Z.land (sie s) (Z.lnot MIP_STIP)) s) ;;; ret 0.
Definition sys_enable_irq : K Z :=
  modify (λ s, set_sie (Z.lor (sie s) MIP_STIP) s) ;;; ret 0.

Definition sys_time_msec : K Z := t <- time_msec ;; ret (i32 t).

Definition sys_pack_send (data len : Z) : K Z :=
  cur <- gets curenv ;;
  env <- deref cur ;;
  user_mem_assert env data (u64 len) PTE_U ;;;
  if (UTOP <=? data) || (UTOP <=? u64 (data + len)) then ret (- E_INVAL) else
  r <- transmit_pack data len ;;
  if r <? 0 then panic else ret r.

Definition sys_pack_recv (data len : Z) : K Z :=
  if UTOP <=? data then ret (- E_INVAL) else
  r <- receive_pack data len ;;
  if r =? - E_NO_MEM then ret (- E_WAIT) else
  if r <? 0 then panic else ret r.

(** ** Dispatch *)

(** The arguments are 64-bit registers; each handler gets them converted to its
    parameter types. *)
Definition syscall (syscallno a1 a2 a3 a4 a5 : Z) : K Z :=
  if syscallno =? SYS_cputs then sys_cputs a1 a2 ;;; ret 0
  else if syscallno =? SYS_cgetc then sys_cgetc
  else if syscallno =? SYS_getenvid then sys_getenvid
  else if syscallno =? SYS_env_destroy then sys_env_destroy (i32 a1)
  else if syscallno =? SYS_yield then sys_yield ;;; ret 0
  else if syscallno =? SYS_exofork then sys_exofork
  else if syscallno =? SYS_env_set_status then sys_env_set_status (i32 a1) (i32 a2)
  else if syscallno =? SYS_page_alloc then sys_page_alloc (i32 a1) a2 (i32 a3)
  else if syscallno =? SYS_page_map then sys_page_map (i32 a1) a2 (i32 a3) a4 (i32 a5)
  else if syscallno =? SYS_page_unmap then sys_page_unmap (i32 a1) a2
  else if syscallno =? SYS_env_set_trapframe then sys_env_set_trapframe (i32 a1) a2
  else if syscallno =? SYS_env_set_pgfault_upcall then sys_env_set_pgfault_upcall (i32 a1) a2
  else if syscallno =? SYS_ipc_try_send then sys_ipc_try_send (i32 a1) (u32 a2) a3 (u32 a4)
  else if syscallno =? SYS_ipc_recv then sys_ipc_recv a1 ;;; ret 0
  else if syscallno =? SYS_page_clear_dirty then sys_page_clear_dirty (i32 a1) a2 (i32 a3) a4
  else if syscallno =? SYS_uvpt_pte then sys_uvpt_pte a1
  else if syscallno =? SYS_copy_shared_pages then sys_copy_shared_pages (i32 a1)
  else if syscallno =? SYS_disable_irq then sys_disable_irq
  else if syscallno =? SYS_enable_irq then sys_enable_irq
  else if syscallno =? SYS_time_msec then sys_time_msec
  else if syscallno =? SYS_pack_send then sys_pack_send a1 (i32 a2)
  else if syscallno =? SYS_pack_recv then sys_pack_recv a1 a2
  else ret (- E_INVAL).
End with_hart.
