(* ===== verification/SyscallInv.v ===== *)
(** * Correctness of the system calls

    Which environments a call may touch, and what the memory, environment and
    message calls do on every branch. *)

From S2P Require Import Prelude Mmu Kstate Pages Pgtable PgtableInv PgtableMap PgtableBoot Env EnvInv Sched Devices Syscall.

(** ** Targets *)

(** Number [id] stands for slot [e] when [c] runs. *)
Definition targets (s : kstate) (c : nat) (chk : bool) (id : Z) (e : nat) : Prop :=
  id = 0 ∧ e = c ∨ id ≠ 0 ∧ names_env s c chk id e.

(** A call in progress: [c] runs and the array is well formed. *)
Record calling (s : kstate) (le : list nat) (c : nat) : Prop := {
  ca_wf : envs_wf s le;
  ca_cur : curenv s = Some c;
  ca_env : is_Some (envs s !! c)
}.

Lemma calling_cur_ok s le c : calling s le c → cur_ok s.
Proof. intros [_ Hc He] e He'. by simplify_eq. Qed.

Lemma envid2env_target s le c chk id e :
  calling s le c → targets s c chk id e → envid2env id chk s = Ret (0, Some e) s.
Proof.
  intros [Hew Hcur Hc] Ht. destruct (envid2env_run s le c id chk Hew Hcur Hc) as [H0 H1].
  destruct Ht as [[-> ->]|[Hid Hn]]; [by apply H0|]. by apply H1.
Qed.

Lemma envid2env_none s le c chk id :
  calling s le c → (∀ e, ¬ targets s c chk id e) → envid2env id chk s = Ret (- E_BAD_ENV, None) s.
Proof.
  intros [Hew Hcur Hc] Ht. destruct (envid2env_run s le c id chk Hew Hcur Hc) as [_ H1].
  assert (id ≠ 0) as Hid by (intros ->; apply (Ht c); by left).
  apply (H1 Hid). intros e He. apply (Ht e). by right.
Qed.

Lemma targets_lookup s c chk id e :
  is_Some (envs s !! c) → targets s c chk id e → is_Some (envs s !! e).
Proof. intros Hc [[_ ->]|[_ (v & _ & Hv & _)]]; [done|by eexists]. Qed.

(** ** Permission *)

Section with_hart.
Context `{Hart}.

Lemma cur_env_Ret s c cv : curenv s = Some c → envs s !! c = Some cv → cur_env s = Ret (c, cv) s.
Proof.
  intros Hc Hv. unfold cur_env. step_pure. rewrite Hc. unfold deref. step_pure.
  by step_with (get_env_Some s c cv Hv).
Qed.

Section foreign.
Context (s : kstate) (id : Z) (c : nat) (cv : Env) (l : list nat).
Context (Hcur : cur_env s = Ret (c, cv) s) (Hwf : pages_wf s l) (Hok : pt_ok user_idx s l (env_pgdir cv)).

Lemma walk_Ret va : user_idx (PD0X va) →
  pgdir_walk (env_pgdir cv) va false s = Ret ((λ t, slot t (PTX va)) <$> table (mem s) (env_pgdir cv) va 3) s.
Proof.
  intros Hva. unfold pgdir_walk. step_with (walk_through_spec user_idx s l (env_pgdir cv) va Hwf Hok Hva).
  by destruct (table _ _ _ _).
Qed.

Lemma clear_dirty_foreign srcva dst dstva : user_idx (PD0X srcva) →
  (∀ va va' perm, sys_page_map id va dst va' perm s = Ret (- E_BAD_ENV) s) →
  sys_page_clear_dirty id srcva dst dstva s =
    if bool_decide (id = dst ∧ srcva = dstva ∧ is_Some (table (mem s) (env_pgdir cv) srcva 3))
    then Ret (- E_BAD_ENV) s else Panic s.
Proof.
  intros Hva Hmap. unfold sys_page_clear_dirty.
  destruct (Z.eqb_spec id dst); [|by rewrite bool_decide_eq_false_2 by naive_solver].
  destruct (Z.eqb_spec srcva dstva); [|by rewrite bool_decide_eq_false_2 by naive_solver].
  rewrite !(bind_Ret_l _ _ _ tt s eq_refl). step_with Hcur. step_with (walk_Ret srcva Hva).
  destruct (table _ _ _ _) as [p|] eqn:Hp; [|by rewrite bool_decide_eq_false_2 by (intros (_ & _ & []); done)].
  rewrite bool_decide_eq_true_2 by eauto. cbn [fmap option_fmap option_map]. unfold load. step_pure.
  by step_with (Hmap srcva dstva (i32 (Z.land (rd (mem s) (slot p (PTX srcva))) PTE_SYSCALL))).
Qed.

(** The caller shares descriptor page [i]. *)
Definition shares (i : Z) : bool :=
  negb (Z.land (i32 (Z.land (leaf (mem s) (env_pgdir cv) (SHARED_BASE + i * PGSIZE)) PTE_SYSCALL)) PTE_SHARE =? 0).

Lemma shared_user i : 0 ≤ i < 64 → user_idx (PD0X (SHARED_BASE + i * PGSIZE)).
Proof.
  intros Hi. replace (PD0X (SHARED_BASE + i * PGSIZE)) with 0; [by split; [|intros [|[|[]]]]|].
  unfold PD0X, PDX0SHIFT, SHARED_BASE, PGSIZE. rewrite Z.shiftr_div_pow2, Z.div_small by lia. done.
Qed.

Lemma copy_shared_foreign n i : 0 ≤ i → i + Z.of_nat n ≤ 64 →
  (∀ va va' perm, sys_page_map 0 va id va' perm s = Ret (- E_BAD_ENV) s) →
  copy_shared_loop n i id s = Ret (if existsb shares (seqZ i (Z.of_nat n)) then - E_BAD_ENV else 0) s.
Proof.
  intros Hi Hn Hmap. revert i Hi Hn. induction n as [|n IH]; intros i Hi Hn; [done|].
  rewrite seqZ_cons by lia. replace (Z.pred (Z.of_nat (S n))) with (Z.of_nat n) by lia.
  cbn [copy_shared_loop existsb]. specialize (IH (Z.succ i) ltac:(lia) ltac:(lia)). rewrite <-Z.add_1_r in IH |- *.
  step_with Hcur. step_with (walk_Ret _ (shared_user i ltac:(lia))). unfold shares at 1, leaf.
  destruct (table _ _ _ _) as [p|]; cbn [fmap option_fmap option_map]; [|by rewrite IH].
  unfold load. step_pure. destruct (negb _); cbn [orb]; [|by rewrite IH].
  by step_with (Hmap (SHARED_BASE + i * PGSIZE) (SHARED_BASE + i * PGSIZE)
    (Z.lor (Z.lor PTE_SHARE (i32 (Z.land (rd (mem s) (slot p (PTX (SHARED_BASE + i * PGSIZE)))) PTE_SYSCALL))) PTE_U)).
Qed.
End foreign.

(** C38  A call that acts on another environment needs a right to it, unless it is
    [sys_ipc_try_send], which any environment may use.  When the number given is not
    that of the caller or of a live child of the caller, the calls that destroy,
    change the fault handler or the registers, and allocate or remove mappings all
    return [-E_BAD_ENV] and change nothing; sharing a page needs the right to both
    ends.  The call that changes the status returns [-E_BAD_ENV], or [-E_INVAL] if
    the status is not one, and changes nothing.  When the page tables of the caller are
    well formed, [sys_page_clear_dirty] returns [-E_BAD_ENV] and changes nothing if its
    two ends are the same and the caller has a page table there, and panics otherwise;
    [sys_copy_shared_pages] changes nothing and returns [-E_BAD_ENV] if the caller shares
    a descriptor page, else 0. *)
Theorem syscall_needs_permission (s : kstate) (le : list nat) (c : nat) (id id' : Z) (e' : nat)
  (Hcall : calling s le c) (Hno : ∀ e, ¬ targets s c true id e)
  (Hself : targets s c true id' e') :
  sys_env_destroy id s = Ret (- E_BAD_ENV) s ∧
  (∀ st, sys_env_set_status id st s =
     Ret (if (st <? 0) || (ENV_NOT_RUNNABLE <? st) then - E_INVAL else - E_BAD_ENV) s) ∧
  (∀ func, sys_env_set_pgfault_upcall id func s = Ret (- E_BAD_ENV) s) ∧
  (∀ tf, sys_env_set_trapframe id tf s = Ret (- E_BAD_ENV) s) ∧
  (∀ va perm, sys_page_alloc id va perm s = Ret (- E_BAD_ENV) s) ∧
  (∀ va, sys_page_unmap id va s = Ret (- E_BAD_ENV) s) ∧
  (∀ srcva dst dstva perm, sys_page_map id srcva dst dstva perm s = Ret (- E_BAD_ENV) s) ∧
  (∀ srcva dstva perm, sys_page_map id' srcva id dstva perm s = Ret (- E_BAD_ENV) s) ∧
  (∀ l cv, pages_wf s l → envs s !! c = Some cv → pt_ok user_idx s l (env_pgdir cv) →
     (∀ srcva dst dstva, user_idx (PD0X srcva) → sys_page_clear_dirty id srcva dst dstva s =
        if bool_decide (id = dst ∧ srcva = dstva ∧ is_Some (table (mem s) (env_pgdir cv) srcva 3))
        then Ret (- E_BAD_ENV) s else Panic s) ∧
     sys_copy_shared_pages id s = Ret (if existsb (shares s cv) (seqZ 0 64) then - E_BAD_ENV else 0) s).
Proof.
  pose proof (envid2env_none s le c true id Hcall Hno) as E.
  pose proof (envid2env_target s le c true id' e' Hcall Hself) as E'.
  pose proof (envid2env_target s le c true 0 c Hcall ltac:(by left)) as E0.
  assert (∀ va dst va' perm, sys_page_map id va dst va' perm s = Ret (- E_BAD_ENV) s) as Hsrc.
  { intros. unfold sys_page_map. by step_with E. }
  assert (∀ va va' perm, sys_page_map 0 va id va' perm s = Ret (- E_BAD_ENV) s) as Hdst.
  { intros. unfold sys_page_map. step_with E0. cbn [Z.ltb Z.compare]. by step_with E. }
  split_and!.
  - unfold sys_env_destroy. by step_with E.
  - intros st. unfold sys_env_set_status. destruct ((st <? 0) || (ENV_NOT_RUNNABLE <? st)); [done|]. by step_with E.
  - intros func. unfold sys_env_set_pgfault_upcall. by step_with E.
  - intros tf. unfold sys_env_set_trapframe. by step_with E.
  - intros va perm. unfold sys_page_alloc. by step_with E.
  - intros va. unfold sys_page_unmap. by step_with E.
  - done.
  - intros. unfold sys_page_map. step_with E'. cbn [Z.ltb Z.compare]. by step_with E.
  - intros l cv Hwf Hcv Hok. pose proof (cur_env_Ret s c cv (ca_cur _ _ _ Hcall) Hcv) as Ecur. split.
    + intros srcva dst dstva Hva. by apply (clear_dirty_foreign s id c cv l).
    + by apply (copy_shared_foreign s id c cv l Ecur Hwf Hok 64 0).
Qed.
End with_hart.

(** A new environment leaves the page tables of the others as they were. *)
Lemma pt_ok_created s s' l p e w parent pgdir :
  pages_wf s (p :: l) → pt_ok user_idx s (p :: l) pgdir → env_created parent s s' e p w → pt_ok user_idx s' l pgdir.
Proof.
  intros Hwf Hok Hcr. apply (pt_ok_outside user_idx s (p :: l) s' l pgdir Hwf Hok).
  - intros j i Hj (_ & va & k & Hk & HD & Ht) Hi. apply (cr_mem _ _ _ _ _ _ Hcr); [|done|done].
    destruct (pt_page _ _ _ _ Hok va k _ Hk HD Ht) as (j' & E & Hj' & Hnl). intros ->.
    apply kva_inj_max in E as <-; [set_solver|done|by eapply wf_max].
  - intros j _ Hj Hnl. apply not_elem_of_cons in Hnl as [Hne Hnl]. split; [|done].
    by rewrite (cr_pages _ _ _ _ _ _ Hcr), list_lookup_insert_ne.
Qed.

(** Two environments; the second, in use, is not a child of the first, which runs. *)
Lemma foreign_example : ∃ s le e v cv l, calling s le 0 ∧ envs s !! e = Some v ∧ env_status v ≠ ENV_FREE ∧
  (∀ e', ¬ targets s 0 true (env_id v) e') ∧
  pages_wf s l ∧ envs s !! 0%nat = Some cv ∧ pt_ok user_idx s l (env_pgdir cv).
Proof.
  destruct live_example as (s & e & le & v & Hew & Hcur & Hwf & Hv & Hfree & Hid & Hpd & Hkp & Hok & _ & Hp0).
  destruct (env_alloc_run s [3; 4]%nat le e 2 0 0 Hwf Hew Hkp Hp0) as (s' & w & _ & Hwf' & Hew' & _ & Hcr); [set_solver|].
  assert (e ≠ 0%nat) as He by set_solver. pose proof (lookup_lt_Some _ _ _ (cr_slot _ _ _ _ _ _ Hcr)) as Hlt.
  set (u := new_env e 0 (sstatus s) (set_env_pgdir (kva_of 2) w)).
  assert (envs s' !! e = Some u) as Hu by (by rewrite (cr_envs _ _ _ _ _ _ Hcr), list_lookup_insert_eq).
  assert (envs s' !! 0%nat = Some v) as Hv' by (by rewrite (cr_envs _ _ _ _ _ _ Hcr), list_lookup_insert_ne).
  assert (curenv s' = Some 0%nat) as Hcur' by (rewrite (cr_rest _ _ _ _ _ _ Hcr); exact Hcur).
  exists s', le, e, u, v, [3; 4]%nat. split_and!; [by split; [..|eexists]|done|done| |done|done|].
  2:{ rewrite Hpd. apply (pt_ok_created s s' [3; 4]%nat 2 e w 0 _ Hwf Hok Hcr). }
  pose proof (cr_id _ _ _ _ _ _ Hcr) as [Hpos Hx]. change (env_id (new_env e 0 (sstatus s) w)) with (env_id u) in *.
  intros e' [[H0 _]|(_ & x & cv & Hx1 & Hcv & Hst & Hxi & Hchk)]; [lia|]. rewrite Hv' in Hcv. simplify_eq.
  assert (e' = e) as ->.
  { pose proof (id_ok_ENVX e' (env_id u)) as Hy. rewrite Hx in Hy. apply Nat2Z.inj. symmetry. apply Hy; [|rewrite <-Hxi; by eapply ew_id|lia].
    by eapply envs_wf_lt. }
  rewrite Hu in Hx1. injection Hx1 as <-. destruct (Hchk eq_refl) as [?|Hpar]; [done|]. rewrite Hid in Hpar. done.
Qed.

Lemma syscall_needs_permission_witness : ∃ s e v id, envs s !! e = Some v ∧ env_status v ≠ ENV_FREE ∧ env_id v = id ∧
  sys_env_destroy id s = Ret (- E_BAD_ENV) s ∧
  (∀ st, sys_env_set_status id st s =
     Ret (if (st <? 0) || (ENV_NOT_RUNNABLE <? st) then - E_INVAL else - E_BAD_ENV) s) ∧
  (∀ func, sys_env_set_pgfault_upcall id func s = Ret (- E_BAD_ENV) s) ∧
  (∀ tf, sys_env_set_trapframe id tf s = Ret (- E_BAD_ENV) s) ∧
  (∀ va perm, sys_page_alloc id va perm s = Ret (- E_BAD_ENV) s) ∧
  (∀ va, sys_page_unmap id va s = Ret (- E_BAD_ENV) s) ∧
  (∀ srcva dst dstva perm, sys_page_map id srcva dst dstva perm s = Ret (- E_BAD_ENV) s) ∧
  (∀ srcva dstva perm, sys_page_map 0 srcva id dstva perm s = Ret (- E_BAD_ENV) s) ∧
  (∀ va, user_idx (PD0X va) → sys_page_clear_dirty id va 0 va s = Panic s) ∧
  (∃ b : bool, sys_copy_shared_pages id s = Ret (if b then - E_BAD_ENV else 0) s).
Proof.
  destruct foreign_example as (s & le & e & v & cv & l & Hcall & Hv & Hst & Hno & Hwf & Hcv & Hok).
  assert (env_id v ≠ 0) as Hid by (intros E; apply (Hno 0%nat); by left).
  exists s, e, v, (env_id v). split; [done|]. split; [done|]. split; [done|].
  destruct (syscall_needs_permission s le 0 (env_id v) 0 0 Hcall Hno) as (H1 & H2 & H3 & H4 & H5 & H6 & H7 & H8 & H9);
    [by left|].
  destruct (H9 l cv Hwf Hcv Hok) as [H10 H11]. split_and!; try done; [|by eexists].
  intros va Hva. rewrite (H10 va 0 va Hva). by rewrite bool_decide_eq_false_2 by naive_solver.
Defined.

(** ** Allocating a page for a mapping *)

Section alloc_page.
Variable D : Z → Prop.

(** What taking a zeroed page off the free list leaves of the page tables. *)
Record page_taken (pgdir : Z) (s : kstate) (l : list nat) (s1 : kstate) (p : nat) : Prop := {
  tk_wf : pages_wf s1 l;
  tk_ok : pt_ok D s1 l pgdir;
  tk_used : p ∉ l;
  tk_page : pages s1 !! p = Some (mkPageInfo None 0);
  tk_pages j : j ≠ p → pages s1 !! j = pages s !! j;
  tk_tables j : is_table D (mem s1) pgdir j ↔ is_table D (mem s) pgdir j;
  tk_not_table : ¬ is_table D (mem s) pgdir p;
  tk_leaf va : D (PD0X va) → leaf (mem s1) pgdir va = leaf (mem s) pgdir va;
  tk_zero i : 0 ≤ i < 512 → rd (mem s1) (slot (kva_of p) i) = 0;
  tk_mem j i : j ≠ p → Z.of_nat j < MAXPAGES → 0 ≤ i < 512 →
    rd (mem s1) (slot (kva_of j) i) = rd (mem s) (slot (kva_of j) i);
  tk_rest : s1 = set_mem (mem s1) (set_pages (pages s1) (set_page_free_list (page_free_list s1) s))
}.

Lemma page_alloc_taken pgdir s p l :
  pages_wf s (p :: l) → pt_ok D s (p :: l) pgdir →
  ∃ s1, page_alloc ALLOC_ZERO s = Ret (Some p) s1 ∧ page_taken pgdir s l s1 p.
Proof.
  intros Hwf Hok. destruct (page_alloc_cons s ALLOC_ZERO p l Hwf) as (pi & Hp & E).
  exists (alloc_state ALLOC_ZERO p pi s). split; [done|].
  pose proof (alloc_state_wf s ALLOC_ZERO p pi l Hwf Hp) as Hwf1.
  pose proof (wf_free_ref _ _ Hwf p pi ltac:(by left) Hp) as Hr.
  pose proof (lookup_lt_Some _ _ _ Hp) as Hlt.
  pose proof (wf_nodup _ _ Hwf) as [Hpl _]%NoDup_cons.
  pose proof (wf_max _ _ _ Hwf (mk_is_Some _ _ Hp)) as Hpm.
  set (s1 := alloc_state ALLOC_ZERO p pi s) in *.
  assert (mem s1 = zero_words (kva_of p) (mem s)) as Em by done.
  assert (∀ j, j ≠ p → pages s1 !! j = pages s !! j) as Hpg
    by (intros j Hj; simpl; by rewrite list_lookup_insert_ne).
  assert (∀ j i, j ≠ p → Z.of_nat j < MAXPAGES → 0 ≤ i < 512 →
    rd (mem s1) (slot (kva_of j) i) = rd (mem s) (slot (kva_of j) i)) as Hmem.
  { intros j i Hj Hjm Hi. rewrite Em. apply rd_zero_words_out.
    intros i' Hi' [? ?]%slot_inj; done. }
  assert (∀ j, is_table D (mem s) pgdir j → j ≠ p) as Hnt.
  { intros j Hj. by eapply table_not_free. }
  destruct (pt_ok_outside D s (p :: l) s1 l pgdir Hwf Hok) as (Hok1 & Ht1 & Hleaf & _).
  { intros j k Hjm Hj Hk. apply Hmem; auto. }
  { intros j Hj Hjs Hjl. rewrite Hpg by auto. split; [done|]. intros ?. apply Hjl. by right. }
  split; try done.
  - simpl. rewrite list_lookup_insert_eq by done. destruct pi; simpl in *. by rewrite Hr.
  - intros Hj. by apply (Hnt p).
  - intros i Hi. rewrite Em. by apply rd_zero_words_in.
Qed.

(** What was replaceable stays so: a mapped page is not a free one. *)
Lemma replaceable_taken pgdir s p l s1 va :
  pages_wf s (p :: l) → page_taken pgdir s l s1 p → D (PD0X va) →
  replaceable D s pgdir va → replaceable D s1 pgdir va.
Proof.
  intros Hwf Htk HD [Hl|(q & pq & perm & Hqm & Hperm & Hl & Hum)].
  - left. by rewrite (tk_leaf _ _ _ _ _ Htk).
  - right. exists q, pq, perm. rewrite (tk_leaf _ _ _ _ _ Htk) by done.
    split_and!; try done. destruct Hum as [H1 H2 H3 H4 H5].
    assert (q ≠ p) as Hqp.
    { intros ->. apply H4. eapply wf_free_ref; [done| |done]. by left. }
    split; rewrite ?(tk_leaf _ _ _ _ _ Htk), ?(tk_pages _ _ _ _ _ Htk) by done; try done.
    rewrite (tk_tables _ _ _ _ _ Htk). done.
Qed.
End alloc_page.

Lemma land_lnot_0 x m : Z.land x (Z.lnot m) = 0 → 0 ≤ m < 1024 → perm_ok x.
Proof.
  intros Hx Hm. assert (Z.land x m = x) as E.
  { apply Z.bits_inj'. intros i Hi. rewrite Z.land_spec.
    apply (f_equal (λ y, Z.testbit y i)) in Hx.
    rewrite Z.land_spec, Z.lnot_spec, Z.bits_0 in Hx by done.
    by destruct (Z.testbit x i), (Z.testbit m i). }
  unfold perm_ok. rewrite <-E. split; [apply Z.land_nonneg; lia|].
  change 1024 with (2 ^ 10). rewrite <-(Z.mod_small m (2 ^ 10)) by lia.
  rewrite <-Z.land_ones, Z.land_assoc, Z.land_ones by lia. apply Z.mod_pos_bound. lia.
Qed.

Section page_taken.
Variables (D : Z → Prop) (pgdir : Z) (s : kstate) (l : list nat) (s1 : kstate) (p : nat).
Hypotheses (Hwf : pages_wf s (p :: l)) (Htk : page_taken D pgdir s l s1 p).

(** Giving the page back after table creation failed. *)
Lemma taken_give_back s2 l2 :
  pt_grow D pgdir s1 l s2 l2 →
  ∃ s3, page_free p s2 = Ret tt s3 ∧ pages_wf s3 (p :: l2) ∧ pt_ok D s3 (p :: l2) pgdir ∧
    ∀ va, D (PD0X va) → leaf (mem s3) pgdir va = leaf (mem s) pgdir va.
Proof.
  intros G. destruct (grow_suffix _ _ _ _ _ _ G) as [k Hk].
  assert (p ∉ l2) as Hpl2.
  { intros Hp2. apply (tk_used _ _ _ _ _ _ Htk). rewrite Hk. apply elem_of_app. by right. }
  assert (pages s2 !! p = Some (mkPageInfo None 0)) as Hp2.
  { rewrite (grow_pages _ _ _ _ _ _ G) by apply Htk. apply Htk. }
  exists (free_state p (mkPageInfo None 0) s2).
  split; [exact (page_free_used s2 l2 p _ (grow_wf _ _ _ _ _ _ G) Hpl2 Hp2 eq_refl)|].
  split; [exact (free_state_wf s2 l2 p _ (grow_wf _ _ _ _ _ _ G) Hpl2 Hp2 eq_refl)|].
  destruct (pt_ok_outside D s2 l2 (free_state p (mkPageInfo None 0) s2) (p :: l2) pgdir)
    as (Hok3 & _ & Hleaf & _); [apply G|apply G|done| |].
  - intros j Hj Hjs Hjl. split.
    + simpl. apply lookup_lt_is_Some. rewrite length_insert. by apply lookup_lt_is_Some.
    + apply not_elem_of_cons. split; [|done]. intros ->.
      apply (grow_tables _ _ _ _ _ _ G) in Hj as [Hj|Hj]; [|by apply Htk in Hj].
      by apply (tk_not_table _ _ _ _ _ _ Htk), (tk_tables _ _ _ _ _ _ Htk).
  - split; [done|]. intros va Hva. rewrite Hleaf by done.
    rewrite (grow_leaf _ _ _ _ _ _ G) by done. by apply Htk.
Qed.

(** The page mapped before is not the one taken. *)
Lemma taken_not_old va :
  replaceable D s pgdir va → old_page (leaf (mem s) pgdir va) ≠ Some p.
Proof.
  intros [->|(q & pq & perm & Hqm & Hperm & -> & Hum)]; [done|].
  rewrite old_page_entry by done. intros [= ->]. destruct Hum as [_ _ Hp Hr _].
  apply Hr. eapply wf_free_ref; [done| |done]. by left.
Qed.

(** The page is mapped, still zero and counted once. *)
Lemma taken_mapped s2 l2 va perm :
  inserted D s1 l s2 l2 pgdir p va perm → D (PD0X va) → replaceable D s pgdir va →
  (∀ va', D (PD0X va') → leaf (mem s2) pgdir va' =
     if same_page va va' then insert_entry p perm else leaf (mem s) pgdir va') ∧
  (∀ i, 0 ≤ i < 512 → rd (mem s2) (slot (kva_of p) i) = 0) ∧
  (∃ pi, pages s2 !! p = Some pi ∧ pp_ref pi = 1) ∧
  (∀ i pi, i ∉ p :: l → pages s !! i = Some pi → ∃ pi', pages s2 !! i = Some pi' ∧
     pp_ref pi' = pp_ref pi - counts (old_page (leaf (mem s) pgdir va)) i).
Proof.
  intros Hin HD Hrep. pose proof (taken_not_old va Hrep) as Hold.
  assert (leaf (mem s1) pgdir va = leaf (mem s) pgdir va) as Hlv by (by apply Htk).
  split_and!.
  - intros va' Hva'. rewrite (in_leaf _ _ _ _ _ _ _ _ _ Hin) by done.
    by rewrite (tk_leaf _ _ _ _ _ _ Htk).
  - intros i Hi. rewrite (in_frame _ _ _ _ _ _ _ _ _ Hin); [by apply Htk| |apply Htk| |done].
    + eapply wf_max; [exact Hwf|]. eapply chain_lookup; [apply Hwf|by left].
    + rewrite (tk_tables _ _ _ _ _ _ Htk). apply Htk.
  - destruct (in_refs _ _ _ _ _ _ _ _ _ Hin p (mkPageInfo None 0)) as (pi & Hpi & Hr);
      [apply Htk|apply Htk|].
    exists pi. split; [done|]. rewrite Hr, Hlv. unfold counts.
    by rewrite decide_True, decide_False.
  - intros i pi [Hip Hil]%not_elem_of_cons Hpi.
    destruct (in_refs _ _ _ _ _ _ _ _ _ Hin i pi) as (pi' & Hpi' & Hr); [done| |].
    { by rewrite (tk_pages _ _ _ _ _ _ Htk). }
    exists pi'. split; [done|]. rewrite Hr, Hlv. unfold counts at 1.
    rewrite decide_False by congruence. lia.
Qed.
End page_taken.

Section page_calls.
Context `{Hart}.

(** [e]'s address space can take a mapping at [va]. *)
Record mappable (s : kstate) (l : list nat) (e : nat) (v : Env) (va : Z) : Prop := {
  mp_env : envs s !! e = Some v;
  mp_ok : pt_ok user_idx s l (env_pgdir v);
  mp_va : user_idx (PD0X va);
  mp_old : replaceable user_idx s (env_pgdir v) va
}.

(** [sys_page_alloc] with a right to the target: an address that is not
    page-aligned or not below [UTOP], and permission bits outside [PTE_SYSCALL],
    give [-E_INVAL] with nothing changed.  Otherwise the target gets a page of
    zeros at [va] with exactly the permissions asked for, all its other mappings
    stay, the page is counted once and the one it replaces once less; or, only
    when fewer than four pages are free, the call gives [-E_NO_MEM], puts the page
    back at the head of the free list and leaves the mappings as they were. *)
Theorem sys_page_alloc_correct (s : kstate) (le l : list nat) (c e p : nat) (v : Env) (id va perm : Z)
  (Hcall : calling s le c) (Htgt : targets s c true id e)
  (Hwf : pages_wf s (p :: l)) (Hmap : mappable s (p :: l) e v va) :
  (bad_va va = true → sys_page_alloc id va perm s = Ret (- E_INVAL) s) ∧
  (Z.land perm (Z.lnot PTE_SYSCALL) ≠ 0 → sys_page_alloc id va perm s = Ret (- E_INVAL) s) ∧
  (bad_va va = false → Z.land perm (Z.lnot PTE_SYSCALL) = 0 →
   (∃ s' l', sys_page_alloc id va perm s = Ret (- E_NO_MEM) s' ∧ (length l ≤ 2)%nat ∧
      pages_wf s' (p :: l') ∧ pt_ok user_idx s' (p :: l') (env_pgdir v) ∧
      ∀ va', user_idx (PD0X va') → leaf (mem s') (env_pgdir v) va' = leaf (mem s) (env_pgdir v) va') ∨
   (∃ s' l', sys_page_alloc id va perm s = Ret 0 s' ∧ pages_wf s' l' ∧
      pt_ok user_idx s' l' (env_pgdir v) ∧
      (∀ va', user_idx (PD0X va') → leaf (mem s') (env_pgdir v) va' =
         if same_page va va' then insert_entry p perm else leaf (mem s) (env_pgdir v) va') ∧
      (∀ i, 0 ≤ i < 512 → rd (mem s') (slot (kva_of p) i) = 0) ∧
      (∃ pi, pages s' !! p = Some pi ∧ pp_ref pi = 1) ∧
      (∀ i pi, i ∉ p :: l → pages s !! i = Some pi → ∃ pi', pages s' !! i = Some pi' ∧
         pp_ref pi' = pp_ref pi - counts (old_page (leaf (mem s) (env_pgdir v) va)) i))).
Proof.
  pose proof (envid2env_target s le c true id e Hcall Htgt) as E.
  destruct Hmap as [Hv Hok Hua Hrep].
  unfold sys_page_alloc. step_with E. cbn [Z.ltb Z.compare]. split_and!.
  - by intros ->.
  - intros Hp. destruct (bad_va va); [done|].
    by destruct (Z.eqb_spec (Z.land perm (Z.lnot PTE_SYSCALL)) 0).
  - intros -> Hp. rewrite Hp. cbn [Z.eqb negb].
    assert (perm_ok perm) as Hperm by (by eapply land_lnot_0).
    destruct (page_alloc_taken user_idx (env_pgdir v) s p l Hwf Hok) as (s1 & E1 & Htk).
    step_with E1. unfold deref. step_pure.
    assert (envs s1 = envs s ∧ curenv s1 = curenv s) as [Ees Ecur]
      by (by rewrite (tk_rest _ _ _ _ _ _ Htk)).
    step_with (get_env_Some s1 e v ltac:(by rewrite Ees)). step_pure.
    assert (leaf (mem s1) (env_pgdir v) va = leaf (mem s) (env_pgdir v) va) as Hlv
      by (by apply (tk_leaf _ _ _ _ _ _ Htk)).
    destruct (page_insert_run user_idx (env_pgdir v) s1 l p (mkPageInfo None 0) va perm)
      as [(s2 & l2 & E2 & Hlen & _ & G)|(s2 & l2 & E2 & Hin)]; try apply Htk; try done.
    { unfold cur_ok. rewrite Ees, Ecur. by eapply calling_cur_ok. }
    { by eapply replaceable_taken. }
    + left. step_with E2. change (- E_NO_MEM <? 0) with true. cbv iota.
      destruct (taken_give_back user_idx (env_pgdir v) s l s1 p Htk s2 l2 G)
        as (s3 & E3 & Hwf3 & Hok3 & Hleaf).
      step_with E3. by exists s3, l2.
    + right. step_with E2. exists s2, l2. split; [done|]. split; [apply Hin|]. split; [apply Hin|].
      by apply (taken_mapped user_idx (env_pgdir v) s l s1 p Hwf Htk s2 l2 va perm Hin).
Qed.
End page_calls.

Lemma sys_page_alloc_witness : ∃ s v,
  let perm := Z.lor PTE_U PTE_W in
  (∃ s' l', sys_page_alloc 0 UTEXT perm s = Ret (- E_NO_MEM) s' ∧ (length [3; 4]%nat ≤ 2)%nat ∧
     pages_wf s' (2%nat :: l') ∧ pt_ok user_idx s' (2%nat :: l') (env_pgdir v) ∧
     ∀ va', user_idx (PD0X va') → leaf (mem s') (env_pgdir v) va' = leaf (mem s) (env_pgdir v) va') ∨
  (∃ s' l', sys_page_alloc 0 UTEXT perm s = Ret 0 s' ∧ pages_wf s' l' ∧
     pt_ok user_idx s' l' (env_pgdir v) ∧
     (∀ va', user_idx (PD0X va') → leaf (mem s') (env_pgdir v) va' =
        if same_page UTEXT va' then insert_entry 2 perm else leaf (mem s) (env_pgdir v) va') ∧
     (∀ i, 0 ≤ i < 512 → rd (mem s') (slot (kva_of 2) i) = 0) ∧
     (∃ pi, pages s' !! 2%nat = Some pi ∧ pp_ref pi = 1) ∧
     (∀ i pi, i ∉ [2; 3; 4]%nat → pages s !! i = Some pi → ∃ pi', pages s' !! i = Some pi' ∧
        pp_ref pi' = pp_ref pi - counts (old_page (leaf (mem s) (env_pgdir v) UTEXT)) i)).
Proof.
  destruct live_example as (s & e & le & v & Hew & Hcur & Hwf & Hv & _ & _ & Hpg & _ & Hok & Hleaf & _).
  exists s, v. cbv zeta.
  assert (user_idx (PD0X UTEXT)) as Hua by (vm_compute; intuition congruence).
  apply (sys_page_alloc_correct s (e :: le) [3; 4]%nat 0 0 2 v 0 UTEXT (Z.lor PTE_U PTE_W)); try done.
  - by left.
  - split; [done| |done|]; rewrite Hpg; [done|]. left. by apply Hleaf.
Defined.

(** ** Messages *)

(** The invariant of the array does not look at the other fields. *)
Lemma envs_wf_same s s' le :
  envs_wf s le → length (envs s') = length (envs s) → env_free_list s' = env_free_list s →
  (∀ i v', envs s' !! i = Some v' → ∃ v, envs s !! i = Some v ∧ env_link v' = env_link v ∧
     env_id v' = env_id v ∧ (env_status v' = ENV_FREE ↔ env_status v = ENV_FREE)) →
  envs_wf s' le.
Proof.
  intros Hwf Hlen Hfl Hpt. split.
  - rewrite Hlen. apply Hwf.
  - rewrite Hfl. eapply chain_same, ew_chain, Hwf. intros i v Hv.
    destruct (lookup_lt_is_Some_2 (envs s') i) as [v' Hv'].
    { rewrite Hlen. by eapply lookup_lt_Some. }
    destruct (Hpt _ _ Hv') as (w & Hw & E & _). simplify_eq. by exists v'.
  - apply Hwf.
  - intros i v' Hv'. destruct (Hpt _ _ Hv') as (v & Hv & _ & _ & ->). by apply Hwf.
  - intros i v' Hv'. destruct (Hpt _ _ Hv') as (v & Hv & _ & -> & _). by apply Hwf.
  - intros i v' Hv' Hi. destruct (Hpt _ _ Hv') as (v & Hv & _ & -> & _). by eapply ew_live.
Qed.

Lemma envs_wf_upd s le e v w :
  envs_wf s le → envs s !! e = Some v → env_link w = env_link v → env_id w = env_id v →
  (env_status w = ENV_FREE ↔ env_status v = ENV_FREE) →
  envs_wf (set_envs (<[e := w]> (envs s)) s) le.
Proof.
  intros Hwf Hv Hl Hid Hst. apply (envs_wf_same s); [done|simpl; by rewrite length_insert|done|].
  intros i v' Hv'. simpl in Hv'. destruct (decide (i = e)) as [->|Hi].
  - rewrite list_lookup_insert_eq in Hv' by (by eapply lookup_lt_Some). simplify_eq. by exists v.
  - rewrite list_lookup_insert_ne in Hv' by done. by exists v'.
Qed.

Section ipc.
Context `{Hart}.

Lemma ipc_send_value s le c e v cv id value srcva perm :
  calling s le c → targets s c false id e → envs s !! e = Some v → envs s !! c = Some cv →
  env_ipc_recving v = true → UTOP ≤ srcva →
  sys_ipc_try_send id value srcva perm s =
  Ret 0 (set_envs (<[e := ipc_deliver (env_id cv) value 0 v]> (envs s)) s).
Proof.
  intros Hcall Ht Hv Hcv Hrecv Hsrc. unfold sys_ipc_try_send.
  step_with (envid2env_target s le c false id e Hcall Ht). cbn [Z.ltb Z.compare].
  unfold deref. step_pure. step_with (get_env_Some s e v Hv). rewrite Hrecv. cbn [negb].
  unfold ipc_send_page. destruct (Z.ltb_spec srcva UTOP); [lia|]. step_pure. cbn [Z.ltb Z.compare Z.eqb].
  step_with (cur_env_Ret s c cv (ca_cur _ _ _ Hcall) Hcv).
  by step_with (upd_env_Some s e v (ipc_deliver (env_id (snd (c, cv))) value 0) Hv).
Qed.

Lemma ipc_send_refused s le c e v id value srcva perm :
  calling s le c → targets s c false id e → envs s !! e = Some v → env_ipc_recving v = false →
  sys_ipc_try_send id value srcva perm s = Ret (- E_IPC_NOT_RECV) s.
Proof.
  intros Hcall Ht Hv Hrecv. unfold sys_ipc_try_send.
  step_with (envid2env_target s le c false id e Hcall Ht). cbn [Z.ltb Z.compare].
  unfold deref. step_pure. step_with (get_env_Some s e v Hv). by rewrite Hrecv.
Qed.

(** The caller of [sys_ipc_recv] while it is blocked. *)
Definition blocked (dstva : Z) (v : Env) : Env :=
  set_env_status ENV_NOT_RUNNABLE (set_env_ipc_recving true
    (if dstva <? UTOP then set_env_ipc_dstva dstva v else v)).

Lemma ipc_recv_run s c v dstva :
  curenv s = Some c → envs s !! c = Some v → env_ipc_recving v = false →
  (dstva < UTOP → dstva mod PGSIZE = 0) →
  sys_ipc_recv dstva s =
  (sched_yield ;;; ret 0) (set_envs (<[c := blocked dstva v]> (envs s)) s).
Proof.
  intros Hc Hv Hr Hal. unfold sys_ipc_recv. step_with (cur_env_Ret s c v Hc Hv).
  cbn [fst snd]. rewrite Hr. step_pure. unfold blocked.
  pose proof (lookup_lt_Some _ _ _ Hv) as Hlt.
  destruct (Z.ltb_spec dstva UTOP) as [Hd|Hd]; cbn [andb].
  - rewrite Hal by done. cbn [Z.eqb negb].
    step_with (upd_env_Some s c v (set_env_ipc_dstva dstva) Hv).
    set (s1 := set_envs _ s).
    step_with (upd_env_Some s1 c (set_env_ipc_dstva dstva v)
      (λ v, set_env_status ENV_NOT_RUNNABLE (set_env_ipc_recving true v))
      ltac:(simpl; by apply list_lookup_insert_eq)).
    unfold s1. simpl. by rewrite list_insert_insert_eq.
  - step_pure. by step_with (upd_env_Some s c v
      (λ v, set_env_status ENV_NOT_RUNNABLE (set_env_ipc_recving true v)) Hv).
Qed.

Lemma blocked_waiting s c j v dstva :
  waiting s c j → envs s !! c = Some v →
  waiting (set_envs (<[c := blocked dstva v]> (envs s)) s) c j.
Proof.
  intros [Hok Hcur (v' & Hv' & Hn) (w & Hw & Hr)] Hv.
  assert (v' = v) as -> by congruence. pose proof (lookup_lt_Some _ _ _ Hv) as Hlt.
  assert (j ≠ c) as Hjc by (intros ->; by simplify_eq). split; simpl.
  - split; simpl.
    + rewrite length_insert. apply Hok.
    + intros e He. apply lookup_lt_is_Some. simpl. rewrite length_insert.
      by apply lookup_lt_is_Some, (so_cur _ Hok).
    + intros i u Hu Hst. destruct (decide (i = c)) as [->|Hi].
      * rewrite list_lookup_insert_eq in Hu by done. simplify_eq. by destruct Hst.
      * rewrite list_lookup_insert_ne in Hu by done. by eapply so_pgdir.
    + apply Hok.
  - done.
  - exists (blocked dstva v). by rewrite list_lookup_insert_eq.
  - exists w. by rewrite list_lookup_insert_ne.
Qed.

Lemma run_envs_ne s e k v : k ≠ e → curenv s ≠ Some k → envs s !! k = Some v →
  run_envs e s !! k = Some v.
Proof.
  intros Hk Hc Hv. unfold run_envs, demoted. rewrite list_lookup_alter_ne by done.
  destruct (curenv s) as [c|]; [|done]. rewrite list_lookup_alter_ne by congruence. done.
Qed.

(** A switch keeps the array well formed. *)
Lemma run_state_envs_wf s le e v :
  envs_wf s le → envs s !! e = Some v → env_status v ≠ ENV_FREE → envs_wf (run_state e v s) le.
Proof.
  intros Hwf Hv Hst. apply (envs_wf_same s); [done| |done|].
  - simpl. unfold run_envs, demoted. destruct (curenv s); by rewrite !length_alter.
  - intros i v' Hv'. simpl in Hv'. apply run_envs_lookup in Hv' as (u & Hu & ->).
    exists u. split; [done|].
    assert (∀ w, env_link (demote w) = env_link w ∧ env_id (demote w) = env_id w ∧
      (env_status (demote w) = ENV_FREE ↔ env_status w = ENV_FREE)) as Hd.
    { intros w. unfold demote. destruct (Z.eqb_spec (env_status w) ENV_RUNNING) as [E|E]; [|done].
      simpl. rewrite E. done. }
    repeat case_decide; subst; simpl; try done; try apply Hd.
    + assert (u = v) as -> by congruence. destruct (Hd v) as (-> & -> & _). done.
    + by assert (u = v) as -> by congruence.
Qed.

Lemma blocked_fields dstva v :
  env_id (blocked dstva v) = env_id v ∧ env_link (blocked dstva v) = env_link v ∧
  env_pgdir (blocked dstva v) = env_pgdir v ∧ env_tf (blocked dstva v) = env_tf v ∧
  env_ipc_recving (blocked dstva v) = true ∧ env_status (blocked dstva v) = ENV_NOT_RUNNABLE.
Proof. unfold blocked. by destruct (dstva <? UTOP). Qed.

(** The receiver blocks and somebody else runs. *)
Lemma ipc_recv_switch s le c j v dstva :
  envs_wf s le → waiting s c j → envs s !! c = Some v → env_status v = ENV_RUNNING →
  env_ipc_recving v = false → (dstva < UTOP → dstva mod PGSIZE = 0) →
  ∃ d dv s1, sys_ipc_recv dstva s = NoRet s1 ∧ calling s1 le d ∧ d ≠ c ∧
    envs s1 !! d = Some dv ∧ envs s1 !! c = Some (blocked dstva v).
Proof.
  intros Hew Hw Hv Hlive Hidle Hal.
  pose proof (blocked_waiting s c j v dstva Hw Hv) as Hw1.
  pose proof (lookup_lt_Some _ _ _ Hv) as Hlt.
  set (s0 := set_envs (<[c := blocked dstva v]> (envs s)) s) in *.
  destruct (choice_ahead s0 c j Hw1) as (d & dv & Hch & Hdv & Hdr & Hdc & _).
  assert (sched_yield s0 = NoRet (run_state d dv s0)) as Ey.
  { rewrite sched_yield_run by apply Hw1. rewrite Hch. apply env_run_run; [apply Hw1|done|].
    eapply so_pgdir; [apply Hw1|done|by left]. }
  set (s1 := run_state d dv s0) in *.
  assert (envs s0 !! c = Some (blocked dstva v)) as Hc0 by (simpl; by rewrite list_lookup_insert_eq).
  destruct (blocked_fields dstva v) as (Bid & Blink & _ & _ & _ & Bst).
  assert (envs s1 !! c = Some (blocked dstva v)) as Hc1.
  { simpl. unfold run_envs, demoted. rewrite (wt_cur _ _ _ Hw1).
    rewrite list_lookup_alter_ne by done. rewrite list_lookup_alter_eq, Hc0. simpl.
    unfold demote. by rewrite Bst. }
  destruct (lookup_lt_is_Some_2 (envs s1) d) as [dv1 Hd1].
  { simpl. unfold run_envs, demoted. rewrite (wt_cur _ _ _ Hw1), !length_alter.
    by eapply lookup_lt_Some. }
  exists d, dv1, s1. split_and!; try done.
  - rewrite (ipc_recv_run s c v dstva (wt_cur _ _ _ Hw) Hv Hidle Hal). by apply bind_left.
  - split; [|done|by eexists]. apply run_state_envs_wf; [|done|by rewrite Hdr].
    apply (envs_wf_upd s le c v); try done. by rewrite Bst, Hlive.
Qed.

(** C34  Rendezvous.  An environment that calls [sys_ipc_recv] blocks and the
    processor goes to some other runnable environment.  When that one sends a value
    to it, the send returns 0; the receiver is runnable again with the value, the
    sender's number and no page, its pending call returning 0 at the next
    instruction; and until it receives again every further send is refused. *)
Theorem ipc_rendezvous (s : kstate) (le : list nat) (c j : nat) (v : Env) (dstva value srcva perm : Z)
  (Hew : envs_wf s le) (Hw : waiting s c j) (Hv : envs s !! c = Some v)
  (Hlive : env_status v = ENV_RUNNING) (Hidle : env_ipc_recving v = false)
  (Hal : dstva < UTOP → dstva mod PGSIZE = 0) (Hsrc : UTOP ≤ srcva) :
  ∃ d dv s1 s2 w,
    sys_ipc_recv dstva s = NoRet s1 ∧ curenv s1 = Some d ∧ d ≠ c ∧ envs s1 !! d = Some dv ∧
    sys_ipc_try_send (env_id v) value srcva perm s1 = Ret 0 s2 ∧ envs s2 !! c = Some w ∧
    env_ipc_value w = value ∧ env_ipc_from w = env_id dv ∧ env_ipc_perm w = 0 ∧
    env_status w = ENV_RUNNABLE ∧ tf_a0 (env_tf w) = 0 ∧
    tf_sepc (env_tf w) = u64 (tf_sepc (env_tf v) + 4) ∧ env_pgdir w = env_pgdir v ∧
    (∀ value' srcva' perm',
       sys_ipc_try_send (env_id v) value' srcva' perm' s2 = Ret (- E_IPC_NOT_RECV) s2).
Proof.
  destruct (ipc_recv_switch s le c j v dstva Hew Hw Hv Hlive Hidle Hal)
    as (d & dv & s1 & E1 & Hcall1 & Hdc & Hd1 & Hc1).
  destruct (blocked_fields dstva v) as (Bid & Blink & Bpg & Btf & Brecv & Bst).
  assert (env_id v ≠ 0) as Hid.
  { eapply (ew_live _ _ Hew c v Hv). rewrite (ew_free _ _ Hew c v Hv). by rewrite Hlive. }
  assert (targets s1 d false (env_id v) c) as Ht1.
  { right. split; [done|]. exists (blocked dstva v), dv. by rewrite Bst. }
  pose proof (ipc_send_value s1 le d c _ dv (env_id v) value srcva perm Hcall1 Ht1 Hc1 Hd1 Brecv Hsrc)
    as Es.
  set (w := ipc_deliver (env_id dv) value 0 (blocked dstva v)) in *.
  set (s2 := set_envs (<[c := w]> (envs s1)) s1) in *.
  assert (envs s2 !! c = Some w) as Hc2
    by (simpl; by rewrite list_lookup_insert_eq by (by eapply lookup_lt_Some)).
  assert (envs s2 !! d = Some dv) as Hd2 by (simpl; by rewrite list_lookup_insert_ne).
  exists d, dv, s1, s2, w. split_and!; try done.
  - apply Hcall1.
  - unfold w. cbn [ipc_deliver env_tf set_env_ipc_recving set_env_status set_env_tf tf_sepc set_tf_sepc].
    by rewrite Btf.
  - intros value' srcva' perm'. apply (ipc_send_refused s2 le d c w); [| |done|done].
    + split; [|apply Hcall1|by eexists].
      apply (envs_wf_upd s1 le c (blocked dstva v)); try done. apply Hcall1.
    + right. split; [done|]. by exists w, dv.
Qed.
End ipc.

(** Two environments: 0 runs, 1 is runnable. *)
Lemma pair_example : ∃ s le v0 v1,
  envs_wf s le ∧ waiting s 0 1 ∧ envs s !! 0%nat = Some v0 ∧ envs s !! 1%nat = Some v1 ∧
  env_status v0 = ENV_RUNNING ∧ env_ipc_recving v0 = false ∧ env_id v1 = 0x1001 ∧
  env_parent_id v1 = 0x1000 ∧ env_id v0 = 0x1000 ∧ env_status v1 = ENV_RUNNABLE.
Proof.
  destruct (env_init_run env_boot_example eq_refl eq_refl) as (s & _ & Hew & Hid & _ & R).
  assert (pages_wf s [1; 2; 3; 4]%nat) as Hwf
    by (apply (pages_wf_ext map_example); [apply map_example_wf|by rewrite R..]).
  assert (kern_pgdir s = kva_of 0 ∧ pages s = pages map_example) as [Hkp Hpg] by (by rewrite R).
  clear R. destruct (Z.to_nat NENV) as [|[|n]] eqn:HN; [done..|]. cbn [seq] in Hew.
  destruct (env_alloc_run s [2; 3; 4]%nat (1%nat :: seq 2 n) 0 1 0 0 Hwf Hew Hkp)
    as (s1 & u0 & _ & Hwf1 & Hew1 & _ & C1); [by rewrite Hpg|set_solver|].
  assert (kern_pgdir s1 = kva_of 0) as Hkp1 by (by rewrite (cr_rest _ _ _ _ _ _ C1)).
  destruct (env_alloc_run s1 [3; 4]%nat (seq 2 n) 1 2 0 0x1000 Hwf1 Hew1 Hkp1)
    as (s2 & u1 & _ & _ & Hew2 & _ & C2);
    [rewrite (cr_pages _ _ _ _ _ _ C1); by rewrite Hpg|set_solver|].
  pose proof (lookup_lt_Some _ _ _ (cr_slot _ _ _ _ _ _ C1)) as Hl0.
  pose proof (lookup_lt_Some _ _ _ (cr_slot _ _ _ _ _ _ C2)) as Hl1.
  set (v0 := new_env 0 0 (sstatus s) (set_env_pgdir (kva_of 1) u0)).
  set (v1 := new_env 1 0x1000 (sstatus s1) (set_env_pgdir (kva_of 2) u1)).
  assert (envs s1 !! 0%nat = Some v0) as H0.
  { rewrite (cr_envs _ _ _ _ _ _ C1). by rewrite list_lookup_insert_eq. }
  assert (envs s2 !! 0%nat = Some v0) as H0'.
  { rewrite (cr_envs _ _ _ _ _ _ C2). by rewrite list_lookup_insert_ne. }
  assert (envs s2 !! 1%nat = Some v1) as H1.
  { rewrite (cr_envs _ _ _ _ _ _ C2). by rewrite list_lookup_insert_eq. }
  assert (env_id u1 = 0) as Hu1.
  { apply (Hid 1%nat). pose proof (cr_slot _ _ _ _ _ _ C2) as Hs.
    rewrite (cr_envs _ _ _ _ _ _ C1) in Hs. by rewrite list_lookup_insert_ne in Hs. }
  set (w0 := set_env_status ENV_RUNNING v0).
  set (s3 := set_curenv (Some 0%nat) (set_envs (<[0%nat := w0]> (envs s2)) s2)).
  assert (envs_wf s3 (seq 2 n)) as Hew3.
  { apply (envs_wf_ext (set_envs (<[0%nat := w0]> (envs s2)) s2)); [|done|done].
    by apply (envs_wf_upd s2 (seq 2 n) 0 v0). }
  assert (envs s3 !! 0%nat = Some w0) as K0
    by (simpl; rewrite list_lookup_insert_eq; [done|by eapply lookup_lt_Some]).
  assert (envs s3 !! 1%nat = Some v1) as K1 by (simpl; by rewrite list_lookup_insert_ne).
  exists s3, (seq 2 n), w0, v1.
  split_and!; try done; try (simpl; by rewrite ?Hu1, ?(Hid _ _ (cr_slot _ _ _ _ _ _ C1))).
  split; [|done|by exists w0|by exists v1]. split.
  - rewrite (ew_length _ _ Hew3). done.
  - intros e [= <-]. by eexists.
  - intros i v Hv Hst. destruct i as [|[|i]]; [by simplify_eq..|].
    exfalso. assert (S (S i) ∈ seq 2 n) as Hi.
    { apply lookup_lt_Some in Hv. rewrite (ew_length _ _ Hew3) in Hv. rewrite elem_of_seq. lia. }
    apply (ew_free _ _ Hew3 _ _ Hv) in Hi. rewrite Hi in Hst. by destruct Hst.
  - simpl. rewrite (cr_rest _ _ _ _ _ _ C2). simpl. rewrite Hkp1. done.
Qed.

Lemma ipc_rendezvous_witness : ∃ s v d dv s1 s2 w,
  sys_ipc_recv UTOP s = NoRet s1 ∧ curenv s1 = Some d ∧ d ≠ 0%nat ∧ envs s1 !! d = Some dv ∧
  sys_ipc_try_send (env_id v) 42 UTOP 0 s1 = Ret 0 s2 ∧ envs s2 !! 0%nat = Some w ∧
  env_ipc_value w = 42 ∧ env_ipc_from w = env_id dv ∧ env_ipc_perm w = 0 ∧
  env_status w = ENV_RUNNABLE ∧ tf_a0 (env_tf w) = 0 ∧
  tf_sepc (env_tf w) = u64 (tf_sepc (env_tf v) + 4) ∧ env_pgdir w = env_pgdir v ∧
  (∀ value' srcva' perm',
     sys_ipc_try_send (env_id v) value' srcva' perm' s2 = Ret (- E_IPC_NOT_RECV) s2).
Proof.
  destruct pair_example as (s & le & v0 & v1 & Hew & Hw & H0 & _ & Hr & Hi & _). exists s, v0.
  exact (ipc_rendezvous s le 0 1 v0 UTOP 42 UTOP 0 Hew Hw H0 Hr Hi
    (λ Hlt, False_ind _ (Z.lt_irrefl _ Hlt)) (Z.le_refl _)).
Defined.
