(* ===== verification/SyscallEnv.v ===== *)
(** * System calls on environments: fork, status and dispatch

    [sys_exofork], [sys_env_set_status] and the dispatcher, and the places where
    a call breaks a promise of its comment. *)

From S2P Require Import Prelude Mmu Kstate Pages Pgtable PgtableInv PgtableMap PgtableBoot Env EnvInv Sched Devices Syscall SyscallInv.

Section fork.
Context `{Hart}.

Lemma fork_env_fields e cv v :
  env_link (fork_env e cv v) = env_link v ∧ env_id (fork_env e cv v) = env_id v ∧
  env_status (fork_env e cv v) ≠ ENV_FREE ∧ env_status (fork_env e cv v) = ENV_NOT_RUNNABLE ∧
  env_parent_id (fork_env e cv v) = env_id cv ∧
  env_tf (fork_env e cv v) = set_tf_tp (env_addr e)
    (set_tf_sepc (u64 (tf_sepc (env_tf cv) + 4)) (set_tf_a0 0 (env_tf cv))) ∧
  env_pgfault_upcall (fork_env e cv v) = env_pgfault_upcall cv ∧
  env_ipc_recving (fork_env e cv v) = false ∧ env_pgdir (fork_env e cv v) = env_pgdir v.
Proof. split_and!; done. Qed.

Lemma created_calling parent s s' e p v le c :
  env_created parent s s' e p v → envs_wf s' le → curenv s = Some c → c ≠ e →
  is_Some (envs s !! c) → calling s' le c ∧ envs s' !! c = envs s !! c.
Proof.
  intros Hcr Hew Hcur Hce [cv Hcv].
  assert (envs s' !! c = envs s !! c) as E.
  { rewrite (cr_envs _ _ _ _ _ _ Hcr). by rewrite list_lookup_insert_ne. }
  split; [|done]. split; [done|by rewrite (cr_rest _ _ _ _ _ _ Hcr)|]. rewrite E. by eexists.
Qed.

(** The child's record once it is allocated. *)
Lemma fork_tail s le c cv e u :
  calling s le c → envs s !! c = Some cv → envs s !! e = Some u → env_status u ≠ ENV_FREE →
  (p <- cur_env ;; upd_env e (fork_env e (snd p)) ;;; v <- get_env e ;; ret (env_id v)) s =
  Ret (env_id (fork_env e cv u)) (set_envs (<[e := fork_env e cv u]> (envs s)) s) ∧
  envs_wf (set_envs (<[e := fork_env e cv u]> (envs s)) s) le.
Proof.
  intros Hcall Hcv Hu Hst. pose proof (lookup_lt_Some _ _ _ Hu) as Hlt. split.
  - step_with (cur_env_Ret s c cv (ca_cur _ _ _ Hcall) Hcv). cbn [snd].
    step_with (upd_env_Some s e u (fork_env e cv) Hu).
    set (s2 := set_envs _ s).
    by step_with (get_env_Some s2 e (fork_env e cv u)
      ltac:(simpl; by rewrite list_lookup_insert_eq)).
  - destruct (fork_env_fields e cv u) as (Hw1 & Hw2 & Hw3 & _).
    by apply (envs_wf_upd s le e u); [apply Hcall|..].
Qed.

(** [sys_exofork] with a free slot and a free page: the parent gets the
    positive number of the child; the child is not runnable, is owned by the
    parent, has the parent's registers except that its call returns 0 at the next
    instruction and its thread pointer is its own slot, has the parent's fault
    handler and an empty user address space; no other slot changes.  Without a
    free slot or page the kernel panics. *)
Theorem sys_exofork_correct (s : kstate) (l le : list nat) (k c : nat) (cv : Env)
  (Hwf : pages_wf s l) (Hcall : calling s le c) (Hcv : envs s !! c = Some cv) (Hcl : c ∉ le)
  (Hkp : kern_pgdir s = kva_of k) (Hk : is_Some (pages s !! k)) (Hkl : k ∉ l) :
  match le, l with
  | [], _ | _, [] => sys_exofork s = Panic s
  | e :: le', p :: l' => ∃ s' w, sys_exofork s = Ret (env_id w) s' ∧
      envs s' = <[e := w]> (envs s) ∧ 0 < env_id w < 2 ^ 31 ∧ ENVX (env_id w) = Z.of_nat e ∧
      env_status w = ENV_NOT_RUNNABLE ∧ env_parent_id w = env_id cv ∧
      env_tf w = set_tf_tp (env_addr e) (set_tf_sepc (u64 (tf_sepc (env_tf cv) + 4))
                   (set_tf_a0 0 (env_tf cv))) ∧
      env_pgfault_upcall w = env_pgfault_upcall cv ∧ env_ipc_recving w = false ∧
      env_pgdir w = kva_of p ∧ (∀ va, user_idx (PD0X va) → leaf (mem s') (kva_of p) va = 0) ∧
      pages_wf s' l' ∧ envs_wf s' le' ∧ pt_ok user_idx s' l' (kva_of p)
  end.
Proof.
  pose proof (cur_env_Ret s c cv (ca_cur _ _ _ Hcall) Hcv) as Ec.
  pose proof (ca_wf _ _ _ Hcall) as Hew. unfold sys_exofork. step_with Ec. cbn [snd].
  destruct le as [|e le]; [|destruct l as [|p l]].
  - pose proof (ew_chain _ _ Hew) as Hc. simpl in Hc. unfold env_alloc. rewrite bind_assoc.
    step_pure. by rewrite Hc.
  - pose proof (ew_chain _ _ Hew) as (Hfl & _). unfold env_alloc. rewrite bind_assoc. step_pure.
    rewrite Hfl. unfold env_setup_vm. rewrite !bind_assoc.
    by step_with (page_alloc_nil s ALLOC_ZERO Hwf).
  - destruct (env_alloc_run s l le e p k (env_parent_id cv) Hwf Hew Hkp Hk Hkl)
      as (s1 & v & E1 & Hwf1 & Hew1 & Hok1 & Hcr).
    apply not_elem_of_cons in Hcl as [Hce Hcl].
    destruct (created_calling _ _ _ _ _ _ _ _ Hcr Hew1 (ca_cur _ _ _ Hcall) Hce
      (ca_env _ _ _ Hcall)) as [Hcall1 Hc1]. rewrite Hcv in Hc1.
    step_with E1. cbn [Z.ltb Z.compare]. unfold deref. step_pure.
    pose proof (lookup_lt_Some _ _ _ (cr_slot _ _ _ _ _ _ Hcr)) as Hlt.
    pose proof (cr_envs _ _ _ _ _ _ Hcr) as Ees.
    pose proof (cr_id _ _ _ _ _ _ Hcr) as [Hid Hx].
    remember (new_env e (env_parent_id cv) (sstatus s) (set_env_pgdir (kva_of p) v)) as u eqn:Eu.
    assert (env_pgdir u = kva_of p ∧ env_status u ≠ ENV_FREE ∧
      env_id u = env_id (new_env e (env_parent_id cv) (sstatus s) v)) as (Hupg & Hust & Huid)
      by (by rewrite Eu).
    rewrite <-Huid in Hid, Hx. clear Eu Huid.
    assert (envs s1 !! e = Some u) as Hu by (rewrite Ees; by rewrite list_lookup_insert_eq).
    destruct (fork_tail s1 le c cv e u Hcall1 Hc1 Hu Hust) as [E2 Hew2]. rewrite E2.
    pose proof (fork_env_fields e cv u) as Hw. rewrite Hupg in Hw.
    remember (fork_env e cv u) as w eqn:Ew. clear Ew. destruct Hw as (_ & Hwid & Hw).
    eexists _, w. rewrite Hwid. split; [done|].
    split; [simpl; rewrite Ees; by rewrite list_insert_insert_eq|].
    split_and!; try apply Hw; try apply Hid; [done|apply Hcr|..|done|].
    + by apply (pages_wf_ext s1).
    + exact (pt_ok_pages _ s1 l (set_envs _ s1) _ Hok1 eq_refl (λ j Hj, Hj)).
Qed.
End fork.

Lemma sys_exofork_witness : ∃ s cv e le s' w,
  sys_exofork s = Ret (env_id w) s' ∧
  envs s' = <[e := w]> (envs s) ∧ 0 < env_id w < 2 ^ 31 ∧ ENVX (env_id w) = Z.of_nat e ∧
  env_status w = ENV_NOT_RUNNABLE ∧ env_parent_id w = env_id cv ∧
  env_tf w = set_tf_tp (env_addr e) (set_tf_sepc (u64 (tf_sepc (env_tf cv) + 4))
               (set_tf_a0 0 (env_tf cv))) ∧
  env_pgfault_upcall w = env_pgfault_upcall cv ∧ env_ipc_recving w = false ∧
  env_pgdir w = kva_of 2 ∧ (∀ va, user_idx (PD0X va) → leaf (mem s') (kva_of 2) va = 0) ∧
  pages_wf s' [3; 4]%nat ∧ envs_wf s' le ∧ pt_ok user_idx s' [3; 4]%nat (kva_of 2).
Proof.
  destruct live_example as (s & e & le & cv & Hew & Hcur & Hwf & Hcv & Hcl & _ & _ & Hkp & _ & _ & Hk).
  assert (calling s (e :: le) 0) as Hcall by (split; [done|done|by eexists]).
  destruct (sys_exofork_correct s [2; 3; 4]%nat (e :: le) 0 0 cv Hwf Hcall Hcv Hcl Hkp Hk
    ltac:(set_solver)) as (s' & w & Hc).
  by exists s, cv, e, le, s', w.
Defined.

(** ** Divergences *)

(** [sys_env_set_status] sets the status of a runnable or blocked target and
    nothing else, but it takes every status from [ENV_FREE] to
    [ENV_NOT_RUNNABLE], not only the two its comment allows: a target set to
    [ENV_FREE] is marked free without being on the free list, and no free list
    describes the array any more. *)
Theorem sys_env_set_status_accepts_free (s : kstate) (le : list nat) (c e : nat) (id : Z) (v : Env)
  (Hcall : calling s le c) (Htgt : targets s c true id e) (Hv : envs s !! e = Some v)
  (Hst : env_status v = ENV_RUNNABLE ∨ env_status v = ENV_NOT_RUNNABLE) :
  (∀ st, 0 ≤ st ≤ ENV_NOT_RUNNABLE → sys_env_set_status id st s =
     Ret 0 (set_envs (<[e := set_env_status st v]> (envs s)) s)) ∧
  (∀ st, st < 0 ∨ ENV_NOT_RUNNABLE < st → sys_env_set_status id st s = Ret (- E_INVAL) s) ∧
  (∀ le', ¬ envs_wf (set_envs (<[e := set_env_status ENV_FREE v]> (envs s)) s) le').
Proof.
  split_and!.
  - intros st Hs. unfold sys_env_set_status.
    destruct (Z.ltb_spec st 0), (Z.ltb_spec ENV_NOT_RUNNABLE st); try lia. cbn [orb].
    step_with (envid2env_target s le c true id e Hcall Htgt). cbn [Z.ltb Z.compare].
    unfold deref. step_pure. step_with (get_env_Some s e v Hv).
    assert ((env_status v =? ENV_RUNNABLE) || (env_status v =? ENV_NOT_RUNNABLE) = true) as ->
      by (by destruct Hst as [->| ->]).
    by step_with (upd_env_Some s e v (set_env_status st) Hv).
  - intros st Hs. unfold sys_env_set_status.
    destruct (Z.ltb_spec st 0), (Z.ltb_spec ENV_NOT_RUNNABLE st); try lia; done.
  - intros le' Hwf'. pose proof (ca_wf _ _ _ Hcall) as Hwf.
    assert (e ∉ le) as Hel.
    { rewrite (ew_free _ _ Hwf e v Hv). destruct Hst as [->| ->]; done. }
    assert (le' = le) as ->.
    { eapply chain_inj; [apply Hwf'|]. simpl. apply chain_insert_notin; [done|apply Hwf]. }
    apply Hel, (ew_free _ _ Hwf' e (set_env_status ENV_FREE v)); [|done].
    simpl. apply list_lookup_insert_eq. by eapply lookup_lt_Some.
Qed.

Lemma sys_env_set_status_witness : ∃ s v,
  (∀ st, 0 ≤ st ≤ ENV_NOT_RUNNABLE → sys_env_set_status 0x1001 st s =
     Ret 0 (set_envs (<[1%nat := set_env_status st v]> (envs s)) s)) ∧
  (∀ st, st < 0 ∨ ENV_NOT_RUNNABLE < st → sys_env_set_status 0x1001 st s = Ret (- E_INVAL) s) ∧
  (∀ le', ¬ envs_wf (set_envs (<[1%nat := set_env_status ENV_FREE v]> (envs s)) s) le').
Proof.
  destruct pair_example as (s & le & v0 & v1 & Hew & Hw & H0 & H1 & Hr & _ & Hid1 & Hp1 & Hid0 & Hs1).
  exists s, v1. apply (sys_env_set_status_accepts_free s le 0 1 0x1001 v1).
  - split; [done|apply Hw|by eexists].
  - right. split; [done|]. exists v1, v0. rewrite Hs1, Hid1, Hp1, Hid0. split_and!; try done. by right.
  - done.
  - by left.
Defined.

Section dispatch.
Context `{Hart}.

(** An unknown call number gives [-E_INVAL] and changes nothing.  The
    dispatcher drops the result of [sys_ipc_recv]: for an address that is not
    page-aligned the handler refuses with [-E_INVAL], but the caller sees 0, as if
    a message had arrived. *)
Theorem syscall_ipc_recv_error_lost (s : kstate) (c : nat) (cv : Env) (n dstva a1 a2 a3 a4 a5 : Z)
  (Hcur : curenv s = Some c) (Hcv : envs s !! c = Some cv) (Hidle : env_ipc_recving cv = false)
  (Hlt : dstva < UTOP) (Hal : dstva mod PGSIZE ≠ 0) (Hn : SYS_pack_recv < n) :
  syscall n a1 a2 a3 a4 a5 s = Ret (- E_INVAL) s ∧
  sys_ipc_recv dstva s = Ret (- E_INVAL) s ∧
  syscall SYS_ipc_recv dstva a2 a3 a4 a5 s = Ret 0 s.
Proof.
  assert (sys_ipc_recv dstva s = Ret (- E_INVAL) s) as E.
  { unfold sys_ipc_recv. step_with (cur_env_Ret s c cv Hcur Hcv). cbn [fst snd]. rewrite Hidle.
    step_pure. destruct (Z.ltb_spec dstva UTOP); [|lia].
    destruct (Z.eqb_spec (dstva mod PGSIZE) 0); done. }
  split_and!; [|done|].
  - unfold syscall, SYS_pack_recv in *.
    repeat match goal with |- context [n =? ?k] => rewrite (proj2 (Z.eqb_neq n k)) by
      (first [unfold k; lia|lia]) end. done.
  - change (syscall SYS_ipc_recv dstva a2 a3 a4 a5) with (sys_ipc_recv dstva ;;; @ret kstate Z 0).
    by step_with E.
Qed.

(** [sys_page_alloc] does not look at the result of [page_alloc]: with no free
    page it works on a null page, although its comment promises [-E_NO_MEM]. *)
Theorem sys_page_alloc_null_page (s : kstate) (le : list nat) (c e : nat) (id va perm : Z)
  (Hcall : calling s le c) (Htgt : targets s c true id e) (Hwf : pages_wf s [])
  (Hva : bad_va va = false) (Hperm : Z.land perm (Z.lnot PTE_SYSCALL) = 0) :
  sys_page_alloc id va perm s = Undef.
Proof.
  unfold sys_page_alloc. step_with (envid2env_target s le c true id e Hcall Htgt).
  cbn [Z.ltb Z.compare]. rewrite Hva, Hperm. cbn [Z.eqb negb].
  step_with (page_alloc_nil s ALLOC_ZERO Hwf). change (deref (Some e)) with (@ret kstate nat e).
  step_pure. destruct (targets_lookup _ _ _ _ _ (ca_env _ _ _ Hcall) Htgt) as [v Hv].
  by step_with (get_env_Some s e v Hv).
Qed.

(** The page directory of a new environment does not map itself at [UVPT].
    The entry written there is the physical address of the directory without the
    shift of a page-table entry, so a walk continues at [2^32 + 16384 * p] for
    directory page [p], an address below the kernel that no page has. *)
Theorem uvpt_entry_misdirected (parent : Z) (s s' : kstate) (e p : nat) (v : Env)
  (Hcr : env_created parent s s' e p v) (Hp : Z.of_nat p < MAXPAGES) :
  next_table (mem s') (kva_of p) (PD0X UVPT) = Some (2 ^ 32 + 16384 * Z.of_nat p) ∧
  2 ^ 32 + 16384 * Z.of_nat p < KERNBASE ∧
  ∀ q, Z.of_nat q < MAXPAGES → kva_of q ≠ 2 ^ 32 + 16384 * Z.of_nat p.
Proof.
  unfold MAXPAGES in *. split_and!.
  - unfold next_table. rewrite (cr_uvpt _ _ _ _ _ _ Hcr), kva_of_spec by done.
    replace (Z.lor (KERNBASE + 2 ^ 31 + Z.of_nat p * 4096 - KERNBASE) PTE_V)
      with (2 ^ 31 + Z.of_nat p * 4096 + 1).
    2:{ transitivity (Z.lor (Z.shiftl (2 ^ 30 + Z.of_nat p * 2048) 1) 1).
        - rewrite lor_shiftl_add; lia.
        - f_equal. rewrite Z.shiftl_mul_pow2 by lia. lia. }
    assert (pte_valid (2 ^ 31 + Z.of_nat p * 4096 + 1) = true) as ->.
    { unfold pte_valid. change PTE_V with (2 ^ 1 - 1). rewrite land_ones_mod by lia.
      replace ((2 ^ 31 + Z.of_nat p * 4096 + 1) mod 2 ^ 1) with 1; [done|].
      apply Z.mod_unique with (2 ^ 30 + Z.of_nat p * 2048); lia. }
    f_equal. unfold PDE_PHY. rewrite Z.shiftr_div_pow2, Z.shiftl_mul_pow2 by lia.
    replace ((2 ^ 31 + Z.of_nat p * 4096 + 1) / 2 ^ 10) with (2 ^ 21 + Z.of_nat p * 4).
    2:{ apply Z.div_unique with 1; lia. }
    rewrite (u64_small ((2 ^ 21 + Z.of_nat p * 4) * 2 ^ 12)) by (unfold is_u64; lia).
    unfold u64, KERNBASE. symmetry. apply Z.mod_unique with 1; lia.
  - unfold KERNBASE. lia.
  - intros q Hq. rewrite kva_of_spec by done. unfold KERNBASE. lia.
Qed.
End dispatch.

Lemma syscall_ipc_recv_witness : ∃ s,
  syscall 100 0 0 0 0 0 s = Ret (- E_INVAL) s ∧
  sys_ipc_recv 1 s = Ret (- E_INVAL) s ∧
  syscall SYS_ipc_recv 1 0 0 0 0 s = Ret 0 s.
Proof.
  destruct pair_example as (s & le & v0 & v1 & _ & Hw & H0 & _ & _ & Hi & _). exists s.
  exact (syscall_ipc_recv_error_lost s 0 v0 100 1 0 0 0 0 0 (wt_cur _ _ _ Hw) H0 Hi
    eq_refl ltac:(done) eq_refl).
Defined.

(** The state with every page in use. *)
Definition exhausted (s : kstate) : kstate :=
  set_pages ((λ _, mkPageInfo None 0) <$> pages s) (set_page_free_list None s).

Lemma exhausted_wf s l : pages_wf s l → pages_wf (exhausted s) [].
Proof.
  intros Hwf. split; simpl.
  - rewrite length_fmap. apply Hwf.
  - apply Hwf.
  - done.
  - constructor.
  - by intros i p ?%elem_of_nil.
  - intros i p _ Hp. rewrite list_lookup_fmap in Hp. by apply fmap_Some in Hp as (? & _ & ->).
  - intros i p Hp. rewrite list_lookup_fmap in Hp. apply fmap_Some in Hp as (? & _ & ->). simpl. lia.
Qed.

Lemma sys_page_alloc_null_witness : ∃ s,
  sys_page_alloc 0 UTEXT (Z.lor PTE_U PTE_W) (exhausted s) = Undef.
Proof.
  destruct live_example as (s & e & le & v & Hew & Hcur & Hwf & Hv & _). exists s.
  apply (sys_page_alloc_null_page (exhausted s) (e :: le) 0 0).
  - split; [by apply (envs_wf_ext s)|done|by eexists].
  - by left.
  - by eapply exhausted_wf.
  - done.
  - done.
Defined.

Lemma uvpt_entry_witness : ∃ s',
  next_table (mem s') (kva_of 1) (PD0X UVPT) = Some (2 ^ 32 + 16384 * 1) ∧
  2 ^ 32 + 16384 * 1 < KERNBASE ∧
  ∀ q, Z.of_nat q < MAXPAGES → kva_of q ≠ 2 ^ 32 + 16384 * 1.
Proof.
  destruct env_example as (s & Hwf & Hew & Hkp & Hpg & _).
  destruct (Z.to_nat NENV) as [|n] eqn:HN; [done|]. cbn [seq] in Hew.
  destruct (env_alloc_run s [2; 3; 4]%nat (seq 1 n) 0 1 0 0 Hwf Hew Hkp)
    as (s' & v & _ & _ & _ & _ & Hcr); [by rewrite Hpg|set_solver|].
  exists s'. exact (uvpt_entry_misdirected 0 s s' 0 1 v Hcr eq_refl).
Defined.
