(* ===== verification/Trap.v ===== *)
(** * Traps of kern/riscv/trap.c

    [trap], [trap_dispatch] and [page_fault_handler], with [lock_kernel] of
    kern/riscv/spinlock.h and [reset_timer] of kern/riscv/clint.c.  The trap frame
    is the one on the kernel stack for a trap from supervisor mode, and
    [curenv->env_tf] for a trap from user mode.  The theorems give the frame that
    a user-level page fault leaves on the exception stack, and what each kind of
    trap does to the environment that caused it. *)

From S2P Require Import Prelude Mmu Kstate Pages Pgtable PgtableInv PgtableMap PgtableBoot Env EnvInv Sched Devices Syscall SyscallInv.

(** ** inc/riscv/trap.h and inc/riscv/csr.h *)

Definition T_BRKPT : Z := 3.
Definition T_SYSCALL : Z := 8.
Definition T_IPGFLT : Z := 12.
Definition T_LPGFLT : Z := 13.
Definition T_SAMOPGFLT : Z := 15.
Definition IRQ_TIMER : Z := 5.
Definition SSTATUS_SIE : Z := 0x2.
Definition SSTATUS_SPP : Z := 0x100.
Definition SPP_SHIFT : Z := 8.

(** [1] for a trap from supervisor mode, [0] for one from user mode. *)
Definition from_kernel (tf : Trapframe) : Z := Z.shiftr (Z.land (tf_status tf) SSTATUS_SPP) SPP_SHIFT.

(** ** kern/riscv/spinlock.h *)

(** The swap that finds the lock free takes it; a state in which no other
    processor will release it makes the loop spin for good. *)
Definition lock_kernel : K unit :=
  held <- gets kernel_locked ;;
  if (held : bool) then noret else modify (set_kernel_locked true).

(** ** kern/riscv/clint.c *)

Definition reset_timer : K unit := modify (λ s, set_sie (Z.lor (sie s) MIP_STIP) s).

Section with_hart.
Context `{Hart}.

(** ** Per-processor set-up *)

Definition trap_init_percpu : K unit :=
  modify (set_kern_sp (u64 (KSTACKTOP - cpunum * (KSTKSIZE + KSTKGAP)))).
Definition trap_init : K unit := trap_init_percpu.

(** ** User page faults *)

(** [*(--sp) = w] for each word in turn; the result is the final [sp]. *)
Fixpoint push_words (sp : Z) (ws : list Z) : K Z :=
  match ws with
  | [] => ret sp
  | w :: ws' => vm_store64 (u64 (sp - 8)) w ;;; push_words (u64 (sp - 8)) ws'
  end.

(** The words of the fault record in the order they are pushed. *)
Definition fault_words (tf : Trapframe) (fault_va : Z) : list Z :=
  [tf_sp tf; tf_sepc tf; tf_scause tf;
   tf_t6 tf; tf_t5 tf; tf_t4 tf; tf_t3 tf;
   tf_s11 tf; tf_s10 tf; tf_s9 tf; tf_s8 tf; tf_s7 tf; tf_s6 tf; tf_s5 tf; tf_s4 tf;
   tf_s3 tf; tf_s2 tf;
   tf_a7 tf; tf_a6 tf; tf_a5 tf; tf_a4 tf; tf_a3 tf; tf_a2 tf; tf_a1 tf; tf_a0 tf;
   tf_s1 tf; tf_s0 tf; tf_t2 tf; tf_t1 tf; tf_t0 tf;
   tf_tp tf; tf_gp tf; tf_sp tf; tf_ra tf; fault_va].

Definition on_exception_stack (sp : Z) : bool := (UXSTACKTOP - PGSIZE <=? sp) && (sp <? UXSTACKTOP).

(** [tf] is [curenv->env_tf] when the fault comes from user mode. *)
Definition page_fault_handler (tf : Trapframe) : K unit :=
  let fault_va := tf_stval tf in
  if from_kernel tf =? 1 then panic else
  c <- cur_env ;;
  let '(e, v) := c in
  if env_pgfault_upcall v =? 0 then env_destroy e else
  user_mem_assert e (UXSTACKTOP - 4) 4 PTE_W ;;;
  sp <- (if on_exception_stack (tf_sp tf) then push_words (tf_sp tf) [0] else ret UXSTACKTOP) ;;
  sp <- push_words sp (fault_words tf fault_va) ;;
  c <- cur_env ;;
  let entry := env_pgfault_upcall (snd c) in
  user_mem_assert e entry 4 (Z.lor (Z.lor (Z.lor PTE_U PTE_W) PTE_X) PTE_R) ;;;
  upd_env e (λ v, set_env_tf
    (set_tf_orig_a0 0 (set_tf_sepc entry (set_tf_sp sp (env_tf v)))) v) ;;;
  env_run e.

(** ** Dispatch *)

(** A write through [tf].  The frame on the kernel stack is never used again. *)
Definition upd_tf (at_env : option nat) (f : Trapframe → Trapframe) : K unit :=
  match at_env with
  | Some e => upd_env e (λ v, set_env_tf (f (env_tf v)) v)
  | None => ret tt
  end.

(** [tf] is the frame on entry, [at_env] the environment that holds it for a
    trap from user mode.  A breakpoint enters the monitor, which returns without
    changing the state. *)
Definition trap_dispatch (at_env : option nat) (tf : Trapframe) : K unit :=
  if Z.testbit (tf_scause tf) 63 then
    let cause := Z.land (tf_scause tf) (Z.lnot (Z.shiftl 1 63)) in
    upd_tf at_env (set_tf_scause cause) ;;;
    if cause =? IRQ_TIMER then
      upd_tf at_env (set_tf_orig_a0 0) ;;;
      modify (λ s, set_sie (Z.land (sie s) (Z.lnot MIP_STIP)) s) ;;;
      reset_timer ;;;
      time_tick ;;;
      sched_yield
    else ret tt
  else if (tf_scause tf =? T_IPGFLT) || (tf_scause tf =? T_LPGFLT) || (tf_scause tf =? T_SAMOPGFLT)
  then page_fault_handler tf
  else if tf_scause tf =? T_BRKPT then ret tt
  else if tf_scause tf =? T_SYSCALL then
    r <- syscall (tf_a0 tf) (tf_a1 tf) (tf_a2 tf) (tf_a3 tf) (tf_a4 tf) (tf_a5 tf) ;;
    upd_tf at_env (set_tf_a0 (u64 r)) ;;;
    upd_tf at_env (λ t, set_tf_sepc (u64 (tf_sepc t + 4)) t)
  else
    c <- cur_env ;;
    if from_kernel tf =? 1 then panic else env_destroy (fst c).

Definition trap (tf : Trapframe) : K unit :=
  p <- gets panicstr ;;
  if (p : bool) then noret else
  halted <- gets cpu_halted ;;
  modify (set_cpu_halted false) ;;;
  (if (halted : bool) then lock_kernel else ret tt) ;;;
  st <- gets sstatus ;;
  if negb (Z.land st SSTATUS_SIE =? 0) then panic else
  at_env <- (if from_kernel tf =? 0 then
    cur <- gets curenv ;;
    match cur with
    | None => panic
    | Some c =>
        lock_kernel ;;;
        v <- get_env c ;;
        (if env_status v =? ENV_DYING then
           env_free c ;;; modify (set_curenv None) ;;; sched_yield
         else ret tt) ;;;
        upd_env c (set_env_tf tf) ;;;
        ret (Some c)
    end
  else ret None) ;;
  trap_dispatch at_env tf ;;;
  cur <- gets curenv ;;
  match cur with
  | Some c =>
      v <- get_env c ;;
      if env_status v =? ENV_RUNNING then env_run c else sched_yield
  | None => sched_yield
  end.
End with_hart.

(** ** Pushing words on the exception stack *)

(** Memory after [ws] is pushed from word [k] of page [q] downwards. *)
Fixpoint push_mem (q : nat) (k : Z) (ws : list Z) (m : gmap Z Z) : gmap Z Z :=
  match ws with
  | [] => m
  | w :: ws' => push_mem q (k - 1) ws' (<[slot (kva_of q) (k - 1) := w]> m)
  end.

(** What memory holds afterwards: the last word pushed is lowest. *)
Lemma rd_push_mem q k ws m j i :
  Z.of_nat q < MAXPAGES → Z.of_nat j < MAXPAGES → 0 ≤ i < 512 →
  Z.of_nat (length ws) ≤ k ≤ 512 →
  rd (push_mem q k ws m) (slot (kva_of j) i) =
  if decide (j = q ∧ k - Z.of_nat (length ws) ≤ i < k)
  then default 0 (ws !! Z.to_nat (k - 1 - i)) else rd m (slot (kva_of j) i).
Proof.
  intros Hq Hj Hi. revert k m. induction ws as [|w ws IH]; intros k m Hk; simpl in Hk |- *.
  { by rewrite decide_False by lia. }
  rewrite IH by lia. destruct (decide (j = q ∧ i = k - 1)) as [[-> ->]|Hne].
  - rewrite decide_False, decide_True by lia. rewrite rd_insert_eq.
    by replace (Z.to_nat _) with 0%nat by lia.
  - rewrite rd_insert_ne.
    2: { intros E. apply slot_inj in E as [? ?]; [by apply Hne|done|done|lia|done]. }
    repeat case_decide; try lia; try done.
    by replace (Z.to_nat (k - 1 - i)) with (S (Z.to_nat (k - 1 - 1 - i))) by lia.
Qed.

Lemma leaf_same_page m pgdir va va' : same_page va va' = true → leaf m pgdir va = leaf m pgdir va'.
Proof.
  intros Hs. unfold leaf. rewrite (table_pfx m pgdir va va' 3) by (by apply (pfx_le 3 4); [lia|]).
  by rewrite (pfx_idx 4 3 va va' ltac:(lia) Hs : PTX va = PTX va').
Qed.

(** The bottom of the one-page exception stack. *)
Definition UXSTACK : Z := UXSTACKTOP - PGSIZE.

(** The running environment's exception stack is page [q], writable by the user
    and no page table, and the kernel may access it. *)
Record uxstack_ok (D : Z → Prop) (s : kstate) (l : list nat) (pgdir : Z) (q : nat) : Prop := {
  ux_wf : pages_wf s l;
  ux_pt : pt_ok D s l pgdir;
  ux_satp : u64 (fst (satp s) + KERNBASE) = pgdir;
  ux_sum : Z.testbit (sstatus s) 18 = true;
  ux_D : D (PD0X UXSTACK);
  ux_valid : pte_valid (leaf (mem s) pgdir UXSTACK) = true;
  ux_write : Z.land (leaf (mem s) pgdir UXSTACK) PTE_W ≠ 0;
  ux_phy : PTE_PHY (leaf (mem s) pgdir UXSTACK) = page2pa q;
  ux_page : is_Some (pages s !! q);
  ux_table : ¬ is_table D (mem s) pgdir q
}.

(** The tables, and with them the view, ignore what happens to page [q]. *)
Lemma uxstack_leaf D s l pgdir q m' va :
  uxstack_ok D s l pgdir q → D (PD0X va) →
  (∀ j i, Z.of_nat j < MAXPAGES → j ≠ q → 0 ≤ i < 512 →
     rd m' (slot (kva_of j) i) = rd (mem s) (slot (kva_of j) i)) →
  leaf m' pgdir va = leaf (mem s) pgdir va.
Proof.
  intros Hux HD Hag.
  apply (table_outside D s l pgdir m' va 3 (ux_wf _ _ _ _ _ Hux) (ux_pt _ _ _ _ _ Hux)); [lia|done|].
  intros j i Hj Ht Hi. apply Hag; [done| |done]. intros ->. by apply (ux_table _ _ _ _ _ Hux).
Qed.

Lemma uxstack_addr k :
  0 ≤ k < 512 → u64 (UXSTACK + 8 * k) = UXSTACK + 8 * k ∧ same_page UXSTACK (UXSTACK + 8 * k) = true ∧
    PGOFF (UXSTACK + 8 * k) = 8 * k ∧ (UXSTACK + 8 * k) mod 8 = 0.
Proof.
  intros Hk. split_and!.
  - apply u64_small. unfold is_u64, UXSTACK, UXSTACKTOP, PGSIZE. lia.
  - apply same_page_spec. f_equal. unfold UXSTACK, UXSTACKTOP, PGSIZE. Z.div_mod_to_equations. lia.
  - unfold PGOFF. change 0xFFF with (Z.ones 12). rewrite Z.land_ones by lia.
    unfold UXSTACK, UXSTACKTOP, PGSIZE. change (2 ^ 12) with 4096. Z.div_mod_to_equations. lia.
  - unfold UXSTACK, UXSTACKTOP, PGSIZE. Z.div_mod_to_equations. lia.
Qed.

(** One store through the page tables, from a state whose memory may already
    differ inside page [q]. *)
Lemma uxstack_store D s l pgdir q m' k w :
  uxstack_ok D s l pgdir q → 0 ≤ k < 512 →
  (∀ j i, Z.of_nat j < MAXPAGES → j ≠ q → 0 ≤ i < 512 →
     rd m' (slot (kva_of j) i) = rd (mem s) (slot (kva_of j) i)) →
  vm_store64 (UXSTACK + 8 * k) w (set_mem m' s)
  = Ret tt (set_mem (<[slot (kva_of q) k := w]> m') s).
Proof.
  intros Hux Hk Hag. destruct (uxstack_addr k Hk) as (Hu & Hs & Ho & Hm).
  pose proof (wf_max _ _ _ (ux_wf _ _ _ _ _ Hux) (ux_page _ _ _ _ _ Hux)) as Hq.
  assert (vm_store_addr (UXSTACK + 8 * k) (set_mem m' s)
    = Ret (slot (kva_of q) k) (set_mem m' s)) as E.
  { unfold vm_store_addr. cbn [satp set_mem mem sstatus]. rewrite (ux_satp _ _ _ _ _ Hux).
    rewrite <-(leaf_same_page m' pgdir _ _ Hs).
    rewrite (uxstack_leaf D s l pgdir q m' _ Hux (ux_D _ _ _ _ _ Hux) Hag).
    rewrite (ux_valid _ _ _ _ _ Hux), (ux_sum _ _ _ _ _ Hux), orb_true_r.
    destruct (Z.eqb_spec (Z.land (leaf (mem s) pgdir UXSTACK) PTE_W) 0) as [E|_];
      [by apply (ux_write _ _ _ _ _ Hux) in E|]. cbn [negb andb].
    rewrite (ux_phy _ _ _ _ _ Hux), Ho. do 2 f_equal. unfold slot, kva_of.
    unfold u64. rewrite Zplus_mod_idemp_l. f_equal. lia. }
  unfold vm_store64. rewrite Hm. cbn [negb Z.eqb]. by step_with E.
Qed.

(** Pushing from word [k] of the stack page, as long as there is room. *)
Lemma push_words_run D s l pgdir q ws : ∀ k m',
  uxstack_ok D s l pgdir q → Z.of_nat (length ws) ≤ k ≤ 512 →
  (∀ j i, Z.of_nat j < MAXPAGES → j ≠ q → 0 ≤ i < 512 →
     rd m' (slot (kva_of j) i) = rd (mem s) (slot (kva_of j) i)) →
  push_words (UXSTACK + 8 * k) ws (set_mem m' s)
  = Ret (UXSTACK + 8 * (k - Z.of_nat (length ws))) (set_mem (push_mem q k ws m') s).
Proof.
  induction ws as [|w ws IH]; intros k m' Hux Hk Hag; simpl in Hk |- *.
  { by replace (k - Z.of_nat 0) with k by lia. }
  destruct (uxstack_addr (k - 1) ltac:(lia)) as (Hu & _).
  replace (UXSTACK + 8 * k - 8) with (UXSTACK + 8 * (k - 1)) by lia. rewrite Hu.
  step_with (uxstack_store D s l pgdir q m' (k - 1) w Hux ltac:(lia) Hag).
  rewrite IH; [by do 2 f_equal; lia|done|lia|].
  intros j i Hj Hne Hi. rewrite rd_insert_ne; [by apply Hag|].
  pose proof (wf_max _ _ _ (ux_wf _ _ _ _ _ Hux) (ux_page _ _ _ _ _ Hux)) as Hq.
  intros E. apply slot_inj in E as [? ?]; [congruence|done|done|lia|done].
Qed.

(** ** The page-fault handler *)

(** A check of less than a page: a valid entry is enough, and nothing changes. *)
Lemma user_mem_check_valid D s l e v va len perm q :
  pages_wf s l → curenv s = Some e → envs s !! e = Some v → pt_ok D s l (env_pgdir v) →
  D (PD0X va) → ROUNDUP (u64 (va + len)) PGSIZE ≤ ULIM → 0 ≤ len < PGSIZE →
  pte_valid (leaf (mem s) (env_pgdir v) va) = true →
  PTE_PHY (leaf (mem s) (env_pgdir v) va) = page2pa q → is_Some (pages s !! q) →
  user_mem_check va len perm s = Ret 0 s.
Proof.
  intros Hwf Hcur He Hok HD Hulim Hlen Hv Hphy [p Hp]. unfold user_mem_check.
  destruct (Z.ltb_spec ULIM (ROUNDUP (u64 (va + len)) PGSIZE)); [lia|].
  rewrite Z.div_small by done. change (Z.to_nat (0 + 1)) with 1%nat.
  step_pure. rewrite Hcur. unfold deref. step_pure. step_with (get_env_Some s e v He).
  assert (leaf (mem s) (env_pgdir v) va ≠ 0) as Hnz by (intros E; by rewrite E in Hv).
  destruct (page_lookup_some D s l _ va q p Hwf Hok HD Hnz Hphy Hp) as (t & Ht & E).
  cbn [user_mem_check_loop]. step_with E. unfold load. step_pure.
  assert (rd (mem s) (slot t (PTX va)) = leaf (mem s) (env_pgdir v) va) as ->
    by (unfold leaf; by rewrite Ht).
  pose proof (valid_lor_V _ perm Hv).
  by destruct (Z.eqb_spec (Z.land (leaf (mem s) (env_pgdir v) va) (u64 (Z.lor perm PTE_V))) 0).
Qed.

Section handler.
Context `{Hart}.

(** The running environment [c] has a fault handler whose code is mapped. *)
Record upcall_ok (D : Z → Prop) (s : kstate) (l : list nat) (c : nat) (v : Env) (q q' : nat) : Prop := {
  up_stack : uxstack_ok D s l (env_pgdir v) q;
  up_cur : curenv s = Some c;
  up_env : envs s !! c = Some v;
  up_kern : KERNBASE ≤ env_pgdir v;
  up_entry : env_pgfault_upcall v ≠ 0;
  up_D : D (PD0X (env_pgfault_upcall v));
  up_lim : ROUNDUP (u64 (env_pgfault_upcall v + 4)) PGSIZE ≤ ULIM;
  up_valid : pte_valid (leaf (mem s) (env_pgdir v) (env_pgfault_upcall v)) = true;
  up_phy : PTE_PHY (leaf (mem s) (env_pgdir v) (env_pgfault_upcall v)) = page2pa q';
  up_page : is_Some (pages s !! q')
}.

(** inc/riscv/trap.h: the words of a [struct UTrapframe] for the frame [tf], in
    the order of its declaration. *)
Definition SavedRegs (tf : Trapframe) : list Z :=
  [tf_ra tf; tf_sp tf; tf_gp tf; tf_tp tf; tf_t0 tf; tf_t1 tf; tf_t2 tf; tf_s0 tf; tf_s1 tf;
   tf_a0 tf; tf_a1 tf; tf_a2 tf; tf_a3 tf; tf_a4 tf; tf_a5 tf; tf_a6 tf; tf_a7 tf;
   tf_s2 tf; tf_s3 tf; tf_s4 tf; tf_s5 tf; tf_s6 tf; tf_s7 tf; tf_s8 tf; tf_s9 tf; tf_s10 tf;
   tf_s11 tf; tf_t3 tf; tf_t4 tf; tf_t5 tf; tf_t6 tf].
Definition UTrapframe (tf : Trapframe) : list Z :=
  tf_stval tf :: SavedRegs tf ++ [tf_scause tf; tf_sepc tf; tf_sp tf].

(** The word of the stack page from which the handler pushes, and everything it
    pushes: for a fault on the exception stack itself one spare word comes first. *)
Definition fault_base (sp : Z) : Z := if on_exception_stack sp then (sp - UXSTACK) / 8 else 512.
Definition fault_record (tf : Trapframe) : list Z :=
  (if on_exception_stack (tf_sp tf) then [0] else []) ++ fault_words tf (tf_stval tf).

Lemma push_words_app sp ws ws' s :
  push_words sp (ws ++ ws') s = (sp' <- push_words sp ws ;; push_words sp' ws') s.
Proof.
  revert sp s. induction ws as [|w ws IH]; intros sp s; simpl; [by step_pure|].
  rewrite bind_assoc. unfold bind at 1 2. by destruct (vm_store64 _ _ _).
Qed.

(** The pushes of the handler are one sequence. *)
Lemma handler_pushes tf s {A} (k : Z → K A) :
  (on_exception_stack (tf_sp tf) = true → tf_sp tf mod 8 = 0) →
  (sp <- (if on_exception_stack (tf_sp tf) then push_words (tf_sp tf) [0] else ret UXSTACKTOP) ;;
   sp <- push_words sp (fault_words tf (tf_stval tf)) ;; k sp) s
  = (sp <- push_words (UXSTACK + 8 * fault_base (tf_sp tf)) (fault_record tf) ;; k sp) s.
Proof.
  intros Hal. unfold fault_base, fault_record.
  destruct (on_exception_stack (tf_sp tf)) eqn:Hon.
  - assert (UXSTACK + 8 * ((tf_sp tf - UXSTACK) / 8) = tf_sp tf) as ->.
    { specialize (Hal eq_refl). unfold UXSTACK, UXSTACKTOP, PGSIZE. Z.div_mod_to_equations. lia. }
    rewrite <-bind_assoc. unfold bind at 1 3. by rewrite push_words_app.
  - step_pure. by change (UXSTACK + 8 * 512) with UXSTACKTOP.
Qed.

(** The checks and the state after the pushes. *)
Section fault.
Context (D : Z → Prop) (s : kstate) (l : list nat) (c : nat) (v : Env) (q q' : nat).
Context (Hup : upcall_ok D s l c v q q').

Lemma fault_stack_check : user_mem_assert c (UXSTACKTOP - 4) 4 PTE_W s = Ret tt s.
Proof.
  destruct Hup as [Hux Hcur Hv _ _ _ _ _ _ _]. unfold user_mem_assert.
  assert (leaf (mem s) (env_pgdir v) (UXSTACKTOP - 4) = leaf (mem s) (env_pgdir v) UXSTACK) as Hl
    by (apply leaf_same_page; by vm_compute).
  assert (user_mem_check (UXSTACKTOP - 4) 4 (Z.lor PTE_W PTE_U) s = Ret 0 s) as E.
  { destruct Hux. apply (user_mem_check_valid D s l c v _ _ _ q); rewrite ?Hl; try assumption.
    - by vm_compute.
    - by vm_compute. }
  by step_with E.
Qed.

Context (ws : list Z) (k : Z).
Context (Hk : Z.of_nat (length ws) ≤ k ≤ 512).
Notation s1 := (set_mem (push_mem q k ws (mem s)) s).

Lemma pushed_outside j i :
  Z.of_nat j < MAXPAGES → j ≠ q → 0 ≤ i < 512 →
  rd (mem s1) (slot (kva_of j) i) = rd (mem s) (slot (kva_of j) i).
Proof.
  intros Hj Hne Hi. destruct Hup as [Hux _ _ _ _ _ _ _ _ _]. simpl.
  rewrite rd_push_mem; [|by apply (wf_max s l); apply Hux|done|done|done].
  by rewrite decide_False by naive_solver.
Qed.

Lemma fault_push : push_words (UXSTACK + 8 * k) ws s
  = Ret (UXSTACK + 8 * (k - Z.of_nat (length ws))) s1.
Proof.
  pose proof (push_words_run D s l _ q ws k (mem s) (up_stack _ _ _ _ _ _ _ Hup) Hk) as E.
  replace (set_mem (mem s) s) with s in E by (by destruct s). by apply E.
Qed.

Lemma fault_entry_check perm : user_mem_assert c (env_pgfault_upcall v) 4 perm s1 = Ret tt s1.
Proof.
  destruct Hup as [Hux Hcur Hv _ Hent HD Hlim Hval Hphy Hpg]. unfold user_mem_assert.
  pose proof (ux_wf _ _ _ _ _ Hux) as Hwf. pose proof pushed_outside as Hag.
  assert (leaf (mem s1) (env_pgdir v) (env_pgfault_upcall v)
    = leaf (mem s) (env_pgdir v) (env_pgfault_upcall v)) as Hl by (by apply (uxstack_leaf D s l _ q)).
  assert (pt_ok D s1 l (env_pgdir v)) as Hok.
  { apply (pt_ok_outside D s l s1 l (env_pgdir v) Hwf (ux_pt _ _ _ _ _ Hux)); [|done].
    intros j i Hj Ht Hi. apply Hag; [done| |done]. intros ->. by apply (ux_table _ _ _ _ _ Hux). }
  assert (user_mem_check (env_pgfault_upcall v) 4 (Z.lor perm PTE_U) s1 = Ret 0 s1) as E.
  { apply (user_mem_check_valid D s1 l c v _ _ _ q'); try done.
    - by apply (pages_wf_ext s).
    - by rewrite Hl.
    - by rewrite Hl. }
  by step_with E.
Qed.
End fault.

Lemma fault_record_bounds tf :
  (on_exception_stack (tf_sp tf) = true → 36 ≤ (tf_sp tf - UXSTACK) / 8) →
  Z.of_nat (length (fault_record tf)) ≤ fault_base (tf_sp tf) ≤ 512.
Proof.
  unfold fault_record, fault_base. rewrite length_app. change (length (fault_words _ _)) with 35%nat.
  destruct (on_exception_stack (tf_sp tf)) eqn:Hon; [|simpl; lia]. intros Hr.
  specialize (Hr eq_refl). apply andb_true_iff in Hon as [_ Hlt%Z.ltb_lt]. simpl length.
  split; [lia|]. unfold UXSTACK, UXSTACKTOP, PGSIZE in *. Z.div_mod_to_equations. lia.
Qed.

(** The frame of a handler that has room for the record. *)
Lemma page_fault_run D s l c v q q' :
  upcall_ok D s l c v q q' → from_kernel (env_tf v) = 0 →
  let tf := env_tf v in let k := fault_base (tf_sp tf) in let ws := fault_record tf in
  (on_exception_stack (tf_sp tf) = true → tf_sp tf mod 8 = 0 ∧ 36 ≤ (tf_sp tf - UXSTACK) / 8) →
  let v' := set_env_tf (set_tf_orig_a0 0 (set_tf_sepc (env_pgfault_upcall v)
              (set_tf_sp (UXSTACK + 8 * (k - Z.of_nat (length ws))) tf))) v in
  page_fault_handler tf s
  = NoRet (run_state c v' (set_envs (<[c := v']> (envs s)) (set_mem (push_mem q k ws (mem s)) s))).
Proof.
  intros Hup Hus tf k ws Hon v'. unfold page_fault_handler. unfold tf in *. rewrite Hus.
  change (0 =? 1) with false. cbv iota.
  pose proof (up_cur _ _ _ _ _ _ _ Hup) as Hcur. pose proof (up_env _ _ _ _ _ _ _ Hup) as Hv.
  step_with (cur_env_Ret s c v Hcur Hv).
  destruct (Z.eqb_spec (env_pgfault_upcall v) 0) as [E|_]; [by apply (up_entry _ _ _ _ _ _ _ Hup) in E|].
  step_with (fault_stack_check D s l c v q q' Hup).
  rewrite handler_pushes by (intros Ho; apply (Hon Ho)).
  pose proof (fault_record_bounds (env_tf v) ltac:(intros Ho; apply (Hon Ho))) as Hb.
  step_with (fault_push D s l c v q q' Hup ws k Hb).
  set (s1 := set_mem (push_mem q k ws (mem s)) s).
  step_with (cur_env_Ret s1 c v Hcur Hv). cbn [snd].
  step_with (fault_entry_check D s l c v q q' Hup ws k Hb
    (Z.lor (Z.lor (Z.lor PTE_U PTE_W) PTE_X) PTE_R)).
  fold s1. rewrite (bind_Ret_l (upd_env _ _) _ _ _ _ (upd_env_Some s1 c v _ Hv)). cbv beta.
  apply (env_run_run (set_envs (<[c := v']> (envs s1)) s1) c v').
  - intros e He. assert (e = c) as -> by (simpl in He; congruence). simpl.
    rewrite list_lookup_insert_eq by (by eapply lookup_lt_Some). by exists v'.
  - simpl. by rewrite list_lookup_insert_eq by (by eapply lookup_lt_Some).
  - apply (up_kern _ _ _ _ _ _ _ Hup).
Qed.

Lemma fault_words_reverse tf : fault_words tf (tf_stval tf) = reverse (UTrapframe tf).
Proof. by destruct tf. Qed.

(** The words above the new stack pointer are the structure the handler expects. *)
Lemma rd_fault_record q tf m n w :
  let k := fault_base (tf_sp tf) in let ws := fault_record tf in
  Z.of_nat q < MAXPAGES → Z.of_nat (length ws) ≤ k ≤ 512 → UTrapframe tf !! n = Some w →
  rd (push_mem q k ws m) (slot (kva_of q) (k - Z.of_nat (length ws) + Z.of_nat n)) = w.
Proof.
  intros k ws Hq Hb Hn. pose proof (lookup_lt_Some _ _ _ Hn) as Hlt.
  change (length (UTrapframe tf)) with 35%nat in Hlt.
  assert (∃ pre, ws = pre ++ reverse (UTrapframe tf)) as [pre Hws].
  { unfold ws, fault_record. rewrite fault_words_reverse. by eexists. }
  assert (length ws = length pre + 35)%nat as Hlen by (by rewrite Hws, length_app, length_reverse).
  rewrite rd_push_mem by lia. rewrite decide_True by (split; [done|lia]).
  replace (Z.to_nat _) with (length pre + (34 - n))%nat by lia.
  rewrite Hws, lookup_app_r, Nat.add_comm, Nat.add_sub by lia.
  rewrite reverse_lookup by (change (length (UTrapframe tf)) with 35%nat; lia).
  change (length (UTrapframe tf)) with 35%nat.
  replace (35 - S (34 - n))%nat with n by lia. by rewrite Hn.
Qed.

(** C35  User page faults.  When the running environment has a mapped fault
    handler and a writable exception stack with room, a page fault starts the
    handler in that environment: its stack pointer points to a [struct UTrapframe]
    with the fault address and the registers at the fault, below the stack of an
    interrupted handler if there is one.  Of the environment change only the frame,
    in its stack pointer, program counter and [orig_a0], the status, now running, the
    count of runs and the processor number.  Of the kernel's state change only the
    words of that structure in memory, this environment, [satp], now for its page
    directory, and the kernel lock, which is released. *)
Theorem page_fault_upcall (D : Z → Prop) (s : kstate) (l : list nat) (c : nat) (v : Env) (q q' : nat)
    (Hup : upcall_ok D s l c v q q') (Huser : from_kernel (env_tf v) = 0)
    (Hroom : on_exception_stack (tf_sp (env_tf v)) = true →
       tf_sp (env_tf v) mod 8 = 0 ∧ 36 ≤ (tf_sp (env_tf v) - UXSTACK) / 8) :
  let tf := env_tf v in
  let top := fault_base (tf_sp tf) - Z.of_nat (length (fault_record tf)) in
  ∃ s' v', page_fault_handler tf s = NoRet s' ∧ curenv s' = Some c ∧ kernel_locked s' = false ∧
    envs s' !! c = Some v' ∧
    v' = set_env_cpunum cpunum (set_env_runs (u32 (env_runs v + 1)) (set_env_status ENV_RUNNING (set_env_tf
           (set_tf_orig_a0 0 (set_tf_sepc (env_pgfault_upcall v) (set_tf_sp (UXSTACK + 8 * top) tf))) v))) ∧
    s' = set_kernel_locked false (set_envs (<[c := v']> (envs s))
           (set_satp (env_pgdir v - KERNBASE, Z.land (env_id v) 0x3ff) (set_mem (mem s') s))) ∧
    (∀ n w, UTrapframe tf !! n = Some w → rd (mem s') (slot (kva_of q) (top + Z.of_nat n)) = w) ∧
    (∀ j i, Z.of_nat j < MAXPAGES → 0 ≤ i < 512 → ¬ (j = q ∧ top ≤ i < fault_base (tf_sp tf)) →
       rd (mem s') (slot (kva_of j) i) = rd (mem s) (slot (kva_of j) i)) ∧
    (∀ e, e ≠ c → envs s' !! e = envs s !! e).
Proof.
  intros tf top. pose proof (page_fault_run D s l c v q q' Hup Huser Hroom) as E. cbv zeta in E.
  pose proof (fault_record_bounds tf ltac:(intros Ho; apply (Hroom Ho))) as Hb.
  pose proof (wf_max _ _ _ (ux_wf _ _ _ _ _ (up_stack _ _ _ _ _ _ _ Hup))
    (ux_page _ _ _ _ _ (up_stack _ _ _ _ _ _ _ Hup))) as Hq.
  pose proof (up_cur _ _ _ _ _ _ _ Hup) as Hcur.
  pose proof (lookup_lt_Some _ _ _ (up_env _ _ _ _ _ _ _ Hup)) as Hlt.
  match type of E with _ = NoRet (run_state _ ?w _) => set (v' := w) in E end.
  set (s1 := set_envs (<[c := v']> (envs s)) (set_mem (push_mem q (fault_base (tf_sp tf)) (fault_record tf) (mem s)) s)) in E.
  assert (run_envs c s1 = <[c := promote (demote v')]> (envs s)) as Hes.
  { unfold run_envs, demoted. cbn [curenv s1 set_envs set_mem envs]. rewrite Hcur. apply list_eq. intros e.
    destruct (decide (e = c)) as [->|He].
    - by rewrite !list_lookup_alter_eq, !list_lookup_insert_eq by done.
    - by rewrite !list_lookup_alter_ne, !list_lookup_insert_ne by done. }
  exists (run_state c v' s1), (promote (demote v')). split; [exact E|]. clear E. unfold run_state. rewrite Hes.
  cbn [curenv kernel_locked envs mem s1 set_kernel_locked set_envs set_curenv set_satp set_mem].
  split_and!; [done|done| | | | | |].
  - by rewrite list_lookup_insert_eq.
  - unfold promote, demote. by case_match.
  - unfold s1. rewrite <-Hcur. by destruct s.
  - intros n w Hn. by apply rd_fault_record.
  - intros j i Hj Hi Hout. rewrite rd_push_mem by done. by rewrite decide_False.
  - intros e He. by rewrite list_lookup_insert_ne.
Qed.

(** The handler does not check that the record fits, although its comment
    promises to destroy the environment on overflow: a fault on an exception stack
    with fewer than 36 words left, whose lower neighbour page is not mapped, makes
    the kernel fault itself and panic. *)
Theorem page_fault_overflow_panics (D : Z → Prop) (s : kstate) (l : list nat) (c : nat) (v : Env)
    (q q' : nat) (Hup : upcall_ok D s l c v q q') (Huser : from_kernel (env_tf v) = 0)
    (Hon : on_exception_stack (tf_sp (env_tf v)) = true) (Hal : tf_sp (env_tf v) mod 8 = 0)
    (Hfull : (tf_sp (env_tf v) - UXSTACK) / 8 < 36)
    (Hguard : leaf (mem s) (env_pgdir v) (UXSTACK - 8) = 0) :
  ∃ s', page_fault_handler (env_tf v) s = Panic s'.
Proof.
  unfold page_fault_handler. rewrite Huser. change (0 =? 1) with false. cbv iota.
  pose proof (up_cur _ _ _ _ _ _ _ Hup) as Hcur. pose proof (up_env _ _ _ _ _ _ _ Hup) as Hv.
  pose proof (up_stack _ _ _ _ _ _ _ Hup) as Hux.
  step_with (cur_env_Ret s c v Hcur Hv).
  destruct (Z.eqb_spec (env_pgfault_upcall v) 0) as [E|_]; [by apply (up_entry _ _ _ _ _ _ _ Hup) in E|].
  step_with (fault_stack_check D s l c v q q' Hup). rewrite handler_pushes by done.
  assert (0 ≤ fault_base (tf_sp (env_tf v)) < 36 ∧ length (fault_record (env_tf v)) = 36%nat) as [Hk Hlen].
  { unfold fault_base, fault_record. rewrite Hon. split; [|done]. split; [|done].
    apply andb_true_iff in Hon as [Hge%Z.leb_le _]. unfold UXSTACK in *. apply Z.div_pos; lia. }
  set (k := fault_base (tf_sp (env_tf v))) in *. set (ws := fault_record (env_tf v)) in *.
  destruct (drop (Z.to_nat k) ws) as [|w rest] eqn:Hd.
  { apply (f_equal length) in Hd. rewrite length_drop in Hd. simpl in Hd. lia. }
  assert (length (take (Z.to_nat k) ws) = Z.to_nat k) as Ht by (rewrite length_take; lia).
  rewrite <-(take_drop (Z.to_nat k) ws), Hd. unfold bind at 1. rewrite push_words_app.
  pose proof (fault_push D s l c v q q' Hup (take (Z.to_nat k) ws) k ltac:(lia)) as E.
  unfold bind at 1. rewrite E, Ht, Z2Nat.id, Z.sub_diag by lia.
  cbn [push_words]. change (u64 (UXSTACK + 8 * 0 - 8)) with (UXSTACK - 8).
  unfold vm_store64 at 1. change (negb ((UXSTACK - 8) mod 8 =? 0)) with false. cbv iota.
  set (s1 := set_mem _ s).
  assert (vm_store_addr (UXSTACK - 8) s1 = Panic s1) as Ep.
  { unfold vm_store_addr. change (satp s1) with (satp s). rewrite (ux_satp _ _ _ _ _ Hux).
    rewrite (uxstack_leaf D s l (env_pgdir v) q (mem s1) (UXSTACK - 8) Hux (ux_D _ _ _ _ _ Hux)
      (pushed_outside D s l c v q q' Hup (take (Z.to_nat k) ws) k ltac:(lia))). by rewrite Hguard. }
  exists s1. unfold bind. by rewrite Ep.
Qed.
End handler.

(** An environment whose exception stack is page 5, which also holds its handler,
    with the stack pointer [sp]. *)
Lemma upcall_example (sp : Z) : ∃ s l v,
  upcall_ok (λ _, True) s l 0 v 5 5 ∧ env_tf v = set_tf_sp sp zero_tf ∧
  leaf (mem s) (env_pgdir v) (UXSTACK - 8) = 0.
Proof.
  set (perm := Z.lor PTE_R (Z.lor PTE_U PTE_W)).
  destruct (page_insert_run (λ _, True) (kva_of 0) map_example [1; 2; 3; 4]%nat 5
    (mkPageInfo None 0) UXSTACK perm map_example_wf (map_example_pt _))
    as [(? & ? & _ & Hlen & _)|(s & l & _ & H)];
    [done|done|set_solver|done|done|done|by left|simpl in Hlen; lia|].
  set (v := set_env_pgfault_upcall UXSTACK (set_env_pgdir (kva_of 0)
              (set_env_tf (set_tf_sp sp zero_tf) zero_env))).
  pose proof (in_leaf _ _ _ _ _ _ _ _ _ H UXSTACK I) as Hl.
  change (same_page UXSTACK UXSTACK) with true in Hl. cbv iota in Hl.
  assert (leaf (mem s) (kva_of 0) (UXSTACK - 8) = 0) as Hg
    by (by rewrite (in_leaf _ _ _ _ _ _ _ _ _ H) by done).
  destruct (in_refs _ _ _ _ _ _ _ _ _ H 5%nat (mkPageInfo None 0)) as (p & Hp & _); [set_solver|done|].
  exists (set_satp (page2pa 0, 0) (set_sstatus (2 ^ 18) (set_curenv (Some 0%nat) (set_envs [v] s)))), l, v.
  assert (is_Some (pages s !! 5%nat)) as Hp5 by (by exists p).
  set (s0 := set_satp _ _).
  assert (uxstack_ok (λ _, True) s0 l (kva_of 0) 5) as Hux.
  { split; [| |by vm_compute|by vm_compute|exact I| | | |exact Hp5|].
    - by apply (pages_wf_ext s); [apply H|..].
    - by apply (pt_ok_pages _ s l _ _ (in_ok _ _ _ _ _ _ _ _ _ H)).
    - change (mem s0) with (mem s). rewrite Hl. by vm_compute.
    - change (mem s0) with (mem s). rewrite Hl. by vm_compute.
    - change (mem s0) with (mem s). rewrite Hl. by vm_compute.
    - intros [Ht|Hj]%(in_tables _ _ _ _ _ _ _ _ _ H); [|set_solver]. by apply map_example_tables in Ht. }
  split_and!; [|reflexivity|exact Hg].
  split; [exact Hux|reflexivity|reflexivity|by vm_compute|by vm_compute|exact I|by vm_compute| | |exact Hp5].
  - exact (ux_valid _ _ _ _ _ Hux).
  - exact (ux_phy _ _ _ _ _ Hux).
Qed.

Lemma page_fault_upcall_witness : ∃ s v s' v',
  tf_sp (env_tf v) = UXSTACKTOP - 512 ∧ page_fault_handler (env_tf v) s = NoRet s' ∧
  curenv s' = Some 0%nat ∧ envs s' !! 0%nat = Some v' ∧
  tf_sp (env_tf v') = UXSTACKTOP - 512 - 8 * 36 ∧
  rd (mem s') (slot (kva_of 5) (512 - 64 - 36 + 34)) = UXSTACKTOP - 512.
Proof.
  destruct (upcall_example (UXSTACKTOP - 512)) as (s & l & v & Hup & Htf & _).
  destruct (page_fault_upcall (λ _, True) s l 0 v 5 5 Hup) as (s' & v' & E & Hc & _ & Hv & Ht & _ & Hw & _).
  - by rewrite Htf.
  - intros _. rewrite Htf. by vm_compute.
  - exists s, v, s', v'. split_and!; [by rewrite Htf|exact E|exact Hc|exact Hv|rewrite Ht, Htf; by vm_compute|].
    pose proof (Hw 34%nat (tf_sp (env_tf v)) eq_refl) as E34. rewrite Htf in E34. exact E34.
Defined.

Lemma page_fault_overflow_witness : ∃ s v s',
  tf_sp (env_tf v) = UXSTACK + 64 ∧ page_fault_handler (env_tf v) s = Panic s'.
Proof.
  destruct (upcall_example (UXSTACK + 64)) as (s & l & v & Hup & Htf & Hg).
  destruct (page_fault_overflow_panics (λ _, True) s l 0 v 5 5 Hup) as [s' E];
    try (rewrite Htf; by vm_compute); [exact Hg|].
  exists s, v, s'. split; [by rewrite Htf|exact E].
Defined.

(** ** A trap never returns to the entry code *)

Section no_return.
Context `{Hart}.

Definition never {A} (m : K A) : Prop := ∀ s a s', m s ≠ Ret a s'.

Lemma never_bind_l {A B} (m : K A) (f : A → K B) : never m → never (bind m f).
Proof. intros Hm s b s' (a & s1 & E & _)%bind_Ret. by apply Hm in E. Qed.
Lemma never_bind_r {A B} (m : K A) (f : A → K B) : (∀ a, never (f a)) → never (bind m f).
Proof. intros Hf s b s' (a & s1 & _ & E)%bind_Ret. by apply Hf in E. Qed.
Lemma never_noret {A} : never (A:=A) noret.
Proof. by intros s a s'. Qed.
Lemma never_panic {A} : never (A:=A) panic.
Proof. by intros s a s'. Qed.
Lemma never_if {A} (b : bool) (m n : K A) : never m → never n → never (if b then m else n).
Proof. by destruct b. Qed.

Create HintDb never.
Hint Resolve never_noret never_panic never_if : never.
Hint Extern 5 (never (bind _ _)) => apply never_bind_r; intros : never.

Lemma env_run_never e : never (env_run e).
Proof. unfold env_run, env_pop_tf. auto 12 with never. Qed.
Lemma sched_halt_never : never sched_halt.
Proof. unfold sched_halt. auto 14 with never. Qed.
Hint Resolve env_run_never sched_halt_never : never.

Lemma sched_yield_never : never sched_yield.
Proof.
  unfold sched_yield. apply never_bind_r. intros [c|]; auto 8 with never.
Qed.
Hint Resolve sched_yield_never : never.

(** [trap] never comes back to the assembly that called it: whatever the trap
    frame and the state, it resumes some environment, halts the processor or
    stops in the monitor, and so does every call of the scheduler. *)
Theorem trap_never_returns (tf : Trapframe) (s s' : kstate) :
  trap tf s ≠ Ret tt s' ∧ sched_yield s ≠ Ret tt s'.
Proof.
  split; [|apply sched_yield_never].
  assert (never (trap tf)) as Hn; [|apply Hn]. unfold trap.
  repeat first [apply never_if | apply never_bind_r; intros]; auto with never.
  case_match; auto 8 with never.
Qed.
End no_return.
