(* ===== verification/Spinlock.v ===== *)
(** * The spin lock of kern/riscv/spinlock.c

    Several processors run [spin_lock] and [spin_unlock] on one lock word.  Each
    [atomic_raw_xchg] is one step of the machine; between steps the processors
    interleave in any order.  The theorems give mutual exclusion, the meaning of
    the lock word, and that the lock never gets stuck. *)

From S2P Require Import Prelude.

(** ** inc/riscv/riscv.h: the swap returns the old word and leaves the new one *)

Definition atomic_raw_xchg (newval word : Z) : Z * Z := (word, u32 newval).

(** ** Where a processor is in the code *)

Inductive pc :=
  | Outside        (* neither acquiring nor holding *)
  | Acquiring      (* at the test of the loop of [spin_lock] *)
  | Inside.        (* past [spin_lock], before the swap of [spin_unlock] *)

#[global] Instance pc_eq_dec : EqDecision pc.
Proof. solve_decision. Defined.

Record machine := mkMachine { locked : Z; pcs : list pc }.

(** [__spin_initlock] *)
Definition spin_initlock (ncpu : nat) : machine := mkMachine 0 (replicate ncpu Outside).

(** One round of [while (atomic_raw_xchg(&lk->locked, 1) != 0)]. *)
Definition spin_lock_round (word : Z) : pc * Z :=
  let '(old, new) := atomic_raw_xchg 1 word in
  (if negb (old =? 0) then Acquiring else Inside, new).

(** [spin_unlock] *)
Definition spin_unlock (word : Z) : Z := snd (atomic_raw_xchg 0 word).

Definition at_pc (m : machine) (i : nat) (p : pc) (word : Z) : machine :=
  mkMachine word (<[i := p]> (pcs m)).

(** A step of processor [i]. *)
Inductive step (i : nat) (m : machine) : machine → Prop :=
  | step_call : pcs m !! i = Some Outside → step i m (at_pc m i Acquiring (locked m))
  | step_round : pcs m !! i = Some Acquiring →
      step i m (let '(p, w) := spin_lock_round (locked m) in at_pc m i p w)
  | step_release : pcs m !! i = Some Inside → step i m (at_pc m i Outside (spin_unlock (locked m))).

Inductive reachable (ncpu : nat) : machine → Prop :=
  | reach_init : reachable ncpu (spin_initlock ncpu)
  | reach_step i m m' : reachable ncpu m → step i m m' → reachable ncpu m'.

(** ** The invariant *)

(** The lock is free and nobody is inside, or it is taken by exactly one. *)
Definition lock_inv (m : machine) : Prop :=
  (locked m = 0 ∧ ∀ i, pcs m !! i ≠ Some Inside) ∨
  (locked m = 1 ∧ ∃ i, pcs m !! i = Some Inside ∧ ∀ j, pcs m !! j = Some Inside → j = i).

Lemma at_pc_lookup m i p w j :
  is_Some (pcs m !! i) → pcs (at_pc m i p w) !! j = if decide (i = j) then Some p else pcs m !! j.
Proof.
  intros Hi%lookup_lt_is_Some. simpl. case_decide as Hd; [subst j|].
  - by apply list_lookup_insert_eq.
  - by apply list_lookup_insert_ne.
Qed.

Lemma step_inv i m m' : lock_inv m → step i m m' → lock_inv m'.
Proof.
  intros Hinv Hst. unfold lock_inv. destruct Hst as [Hi|Hi|Hi];
    pose proof (at_pc_lookup m i) as Hl;
    destruct Hinv as [[E Hno]|(E & k & Hk & Huniq)]; rewrite ?E;
    cbn [spin_lock_round atomic_raw_xchg Z.eqb negb spin_unlock snd locked at_pc];
    try (left; split; [done|]; intros j; rewrite Hl by eauto; case_decide; naive_solver).
  - right. split; [done|]. exists k. rewrite Hl by eauto. case_decide; [naive_solver|].
    split; [done|]. intros j. rewrite Hl by eauto. case_decide; naive_solver.
  - right. split; [done|]. exists i. rewrite Hl by eauto. rewrite decide_True by done.
    split; [done|]. intros j. rewrite Hl by eauto. case_decide; naive_solver.
  - right. split; [done|]. exists k. rewrite Hl by eauto. case_decide; [naive_solver|].
    split; [done|]. intros j. rewrite Hl by eauto. case_decide; naive_solver.
  - left. split; [done|]. intros j. rewrite Hl by eauto. case_decide as Hd; [done|].
    intros Hj. apply Hd. rewrite (Huniq j Hj). by apply Huniq.
Qed.

Lemma reachable_inv ncpu m : reachable ncpu m → lock_inv m.
Proof.
  induction 1 as [|i m m' _ IH Hst]; [|by eapply step_inv].
  left. split; [done|]. intros i [E _]%lookup_replicate. done.
Qed.

Lemma reachable_length ncpu m : reachable ncpu m → length (pcs m) = ncpu.
Proof.
  induction 1 as [|i m m' _ IH Hst]; [apply length_replicate|].
  destruct Hst; simpl; try by rewrite length_insert.
Qed.

(** ** The abstract lock *)

(** An abstract lock has at most one owner; the owner is the processor inside. *)
Definition owner (m : machine) (o : option nat) : Prop :=
  ∀ i, pcs m !! i = Some Inside ↔ o = Some i.

Inductive lock_step : nat → option nat → option nat → Prop :=
  | lock_wait i o : lock_step i o o
  | lock_take i : lock_step i None (Some i)
  | lock_give i : lock_step i (Some i) None.

Lemma inv_owner m : lock_inv m → ∃ o, owner m o ∧ (locked m = 0 ↔ o = None).
Proof.
  intros [[E Hno]|(E & k & Hk & Hu)]; [exists None|exists (Some k)];
    (split; [intros i; split|by rewrite E]); try done.
  - by intros ?%Hno.
  - by intros ->%Hu.
  - by intros [= ->].
Qed.

Lemma owner_unique m o o' : owner m o → owner m o' → o = o'.
Proof.
  intros Ho Ho'. destruct o as [i|].
  - symmetry. by apply Ho', Ho.
  - destruct o' as [j|]; [|done]. assert (None = Some j) as [=] by by apply Ho, Ho'.
Qed.

Lemma owner_step ncpu i m m' o o' :
  reachable ncpu m → step i m m' → owner m o → owner m' o' → lock_step i o o'.
Proof.
  intros Hr Hst Ho Ho'. pose proof (reachable_inv _ _ Hr) as Hinv.
  destruct (inv_owner m Hinv) as (o1 & Ho1 & Hz). rewrite (owner_unique _ _ _ Ho1 Ho) in Hz. clear o1 Ho1.
  assert (∀ p w, is_Some (pcs m !! i) → m' = at_pc m i p w → ∀ j,
    o' = Some j ↔ if decide (i = j) then p = Inside else o = Some j) as Hj.
  { intros p w Hi -> j. rewrite <-(Ho' j), (at_pc_lookup m i p w j Hi). case_decide; [naive_solver|apply Ho]. }
  destruct Hst as [Hi|Hi|Hi].
  - specialize (Hj _ _ ltac:(eauto) eq_refl). assert (o' = o) as ->; [|constructor].
    apply option_eq. intros j. rewrite Hj. case_decide; [subst j|done]. rewrite <-(Ho i), Hi. naive_solver.
  - unfold spin_lock_round, atomic_raw_xchg in Hj. destruct (Z.eqb_spec (locked m) 0) as [E|E].
    + specialize (Hj Inside _ ltac:(eauto) eq_refl). apply Hz in E as ->.
      assert (o' = Some i) as ->; [|constructor]. apply Hj. by rewrite decide_True.
    + specialize (Hj Acquiring _ ltac:(eauto) eq_refl). assert (o' = o) as ->; [|constructor].
      apply option_eq. intros j. rewrite Hj. case_decide; [subst j|done]. rewrite <-(Ho i), Hi. naive_solver.
  - specialize (Hj Outside _ ltac:(eauto) eq_refl). apply Ho in Hi as ->.
    assert (o' = None) as ->; [|constructor]. destruct o' as [j|]; [|done].
    assert (if decide (i = j) then Outside = Inside else Some i = Some j) as H by by apply Hj.
    case_decide; naive_solver.
Qed.

(** C4  However the processors interleave, the lock word implements an abstract
    lock: at most one processor is between [spin_lock] and [spin_unlock]; the word
    is zero exactly when there is none; every step waits, takes the free lock or
    gives it back; and an acquiring processor enters at its next swap unless
    another one holds the lock, whose [spin_unlock] then frees it. *)
Theorem spin_lock_refines (ncpu : nat) (m : machine) (Hr : reachable ncpu m) :
  (∀ i j, pcs m !! i = Some Inside → pcs m !! j = Some Inside → i = j) ∧
  (∃ o, owner m o ∧ (locked m = 0 ↔ o = None) ∧
     ∀ i m', step i m m' → ∃ o', owner m' o' ∧ lock_step i o o') ∧
  (∀ i, pcs m !! i = Some Acquiring →
     (∃ m', step i m m' ∧ pcs m' !! i = Some Inside) ∨
     (∃ k m', pcs m !! k = Some Inside ∧ step k m m' ∧ locked m' = 0)).
Proof.
  pose proof (reachable_inv _ _ Hr) as Hinv. destruct (inv_owner m Hinv) as (o & Ho & Hz).
  split_and!.
  - intros i j Hi%Ho Hj%Ho. congruence.
  - exists o. split_and!; [done|exact Hz|]. intros i m' Hst.
    destruct (inv_owner m' (step_inv _ _ _ Hinv Hst)) as (o' & Ho' & _).
    exists o'. split; [done|by eapply owner_step].
  - intros i Hi. destruct o as [k|].
    + right. assert (pcs m !! k = Some Inside) as Hk by by apply Ho.
      exists k. eexists. split; [done|]. split; [by constructor|done].
    + left. eexists. split; [by apply step_round|]. rewrite (proj2 Hz eq_refl). simpl.
      rewrite list_lookup_insert_eq; [done|by eapply lookup_lt_Some].
Qed.

(** Two processors; the first is inside, the second acquiring. *)
Definition lock_example : machine := mkMachine 1 [Inside; Acquiring].

Lemma lock_example_reachable : reachable 2 lock_example.
Proof.
  apply (reach_step 2 1 (mkMachine 1 [Inside; Outside])); [|by apply (step_call 1)].
  apply (reach_step 2 0 (mkMachine 0 [Acquiring; Outside])); [|by apply (step_round 0)].
  apply (reach_step 2 0 (spin_initlock 2)); [constructor|by apply (step_call 0)].
Qed.

Lemma spin_lock_witness :
  (∀ i j, pcs lock_example !! i = Some Inside → pcs lock_example !! j = Some Inside → i = j) ∧
  (∃ o, owner lock_example o ∧ (locked lock_example = 0 ↔ o = None) ∧
     ∀ i m', step i lock_example m' → ∃ o', owner m' o' ∧ lock_step i o o').
Proof.
  destruct (spin_lock_refines 2 lock_example lock_example_reachable) as (H1 & H2 & _).
  exact (conj H1 H2).
Defined.
