(* ===== verification/Strings.v ===== *)
(** * The string routines of lib/riscv/string.c

    Memory is a map from byte addresses to bytes ([char] is unsigned on this
    platform); an address that was never written reads zero.  A routine that only
    stops at a NUL takes a bound on its number of iterations and gives [None] when
    the bound is used up; the theorems give the bound that is enough.  The [ASM]
    variants are disabled in the source. *)

From S2P Require Import Prelude.

Notation bytes := (gmap Z Z).
Definition rdb (m : bytes) (a : Z) : Z := default 0 (m !! a).
Definition wrb (m : bytes) (a c : Z) : bytes := <[a := u8 c]> m.

(** ** Lengths *)

Fixpoint strlen_loop (fuel : nat) (m : bytes) (s n : Z) : option Z :=
  match fuel with
  | O => None
  | S fuel' => if negb (rdb m s =? 0) then strlen_loop fuel' m (s + 1) (i32 (n + 1)) else Some n
  end.
Definition strlen (fuel : nat) (m : bytes) (s : Z) : option Z := strlen_loop fuel m s 0.

Fixpoint strnlen_loop (size : nat) (m : bytes) (s n : Z) : Z :=
  match size with
  | O => n
  | S size' => if negb (rdb m s =? 0) then strnlen_loop size' m (s + 1) (i32 (n + 1)) else n
  end.
Definition strnlen (m : bytes) (s size : Z) : Z := strnlen_loop (Z.to_nat size) m s 0.

(** ** Copies *)

Fixpoint strcpy (fuel : nat) (m : bytes) (dst src : Z) : option bytes :=
  match fuel with
  | O => None
  | S fuel' =>
      let c := rdb m src in
      let m' := wrb m dst c in
      if negb (c =? 0) then strcpy fuel' m' (dst + 1) (src + 1) else Some m'
  end.

Definition strcat (fuel : nat) (m : bytes) (dst src : Z) : option bytes :=
  len ← strlen fuel m dst; strcpy fuel m (dst + len) src.

Fixpoint strncpy_loop (size : nat) (m : bytes) (dst src : Z) : bytes :=
  match size with
  | O => m
  | S size' =>
      let m' := wrb m dst (rdb m src) in
      strncpy_loop size' m' (dst + 1) (if negb (rdb m' src =? 0) then src + 1 else src)
  end.
Definition strncpy (m : bytes) (dst src size : Z) : bytes := strncpy_loop (Z.to_nat size) m dst src.

(** [while (--size > 0 && *src != '\0') *dst++ = *src++;] *)
Fixpoint strlcpy_loop (room : nat) (m : bytes) (dst src : Z) : bytes * Z :=
  match room with
  | O => (m, dst)
  | S room' =>
      if negb (rdb m src =? 0) then strlcpy_loop room' (wrb m dst (rdb m src)) (dst + 1) (src + 1)
      else (m, dst)
  end.
Definition strlcpy (m : bytes) (dst src size : Z) : bytes * Z :=
  if 0 <? size then
    let '(m', d) := strlcpy_loop (Z.to_nat (size - 1)) m dst src in (wrb m' d 0, d - dst)
  else (m, 0).

(** ** Comparison and search *)

Fixpoint strcmp (fuel : nat) (m : bytes) (p q : Z) : option Z :=
  match fuel with
  | O => None
  | S fuel' =>
      if negb (rdb m p =? 0) && (rdb m p =? rdb m q) then strcmp fuel' m (p + 1) (q + 1)
      else Some (u8 (rdb m p) - u8 (rdb m q))
  end.

Fixpoint strncmp_loop (n : nat) (m : bytes) (p q : Z) : Z :=
  match n with
  | O => 0
  | S n' =>
      if negb (rdb m p =? 0) && (rdb m p =? rdb m q) then strncmp_loop n' m (p + 1) (q + 1)
      else u8 (rdb m p) - u8 (rdb m q)
  end.
Definition strncmp (m : bytes) (p q n : Z) : Z := strncmp_loop (Z.to_nat n) m p q.

Fixpoint strchr (fuel : nat) (m : bytes) (s c : Z) : option Z :=
  match fuel with
  | O => None
  | S fuel' =>
      if negb (rdb m s =? 0) then if rdb m s =? u8 c then Some s else strchr fuel' m (s + 1) c
      else Some 0
  end.

Fixpoint strfind (fuel : nat) (m : bytes) (s c : Z) : option Z :=
  match fuel with
  | O => None
  | S fuel' =>
      if negb (rdb m s =? 0) then if rdb m s =? u8 c then Some s else strfind fuel' m (s + 1) c
      else Some s
  end.

(** ** Memory blocks *)

Fixpoint memset_loop (n : nat) (m : bytes) (p c : Z) : bytes :=
  match n with O => m | S n' => memset_loop n' (wrb m p c) (p + 1) c end.
(** The count is an [int]: a size of [2^31] or more is taken as negative. *)
Definition memset (m : bytes) (v c n : Z) : bytes := memset_loop (Z.to_nat (i32 n)) m v c.

Fixpoint copy_down (n : nat) (m : bytes) (d s : Z) : bytes :=
  match n with O => m | S n' => copy_down n' (wrb m (d - 1) (rdb m (s - 1))) (d - 1) (s - 1) end.
Fixpoint copy_up (n : nat) (m : bytes) (d s : Z) : bytes :=
  match n with O => m | S n' => copy_up n' (wrb m d (rdb m s)) (d + 1) (s + 1) end.
Definition memmove (m : bytes) (dst src n : Z) : bytes :=
  if (src <? dst) && (dst <? src + n) then copy_down (Z.to_nat n) m (dst + n) (src + n)
  else copy_up (Z.to_nat n) m dst src.
Definition memcpy (m : bytes) (dst src n : Z) : bytes := memmove m dst src n.

Fixpoint memcmp_loop (n : nat) (m : bytes) (s1 s2 : Z) : Z :=
  match n with
  | O => 0
  | S n' => if negb (rdb m s1 =? rdb m s2) then rdb m s1 - rdb m s2 else memcmp_loop n' m (s1 + 1) (s2 + 1)
  end.
Definition memcmp (m : bytes) (v1 v2 n : Z) : Z := memcmp_loop (Z.to_nat n) m v1 v2.

Fixpoint memfind_loop (n : nat) (m : bytes) (s c : Z) : Z :=
  match n with O => s | S n' => if rdb m s =? u8 c then s else memfind_loop n' m (s + 1) c end.
Definition memfind (m : bytes) (s c n : Z) : Z := memfind_loop (Z.to_nat n) m s c.

(** ** Numbers *)

Fixpoint skip_blanks (fuel : nat) (m : bytes) (s : Z) : option Z :=
  match fuel with
  | O => None
  | S fuel' => if (rdb m s =? 32) || (rdb m s =? 9) then skip_blanks fuel' m (s + 1) else Some s
  end.

(** The value of a digit, letters counting from 10. *)
Definition digit_of (c : Z) : option Z :=
  if (48 <=? c) && (c <=? 57) then Some (c - 48)
  else if (97 <=? c) && (c <=? 122) then Some (c - 97 + 10)
  else if (65 <=? c) && (c <=? 90) then Some (c - 65 + 10)
  else None.

(** [long] arithmetic wraps. *)
Definition i64 (x : Z) : Z := let y := x mod 2 ^ 64 in if y <? 2 ^ 63 then y else y - 2 ^ 64.

Fixpoint strtol_digits (fuel : nat) (m : bytes) (s base val : Z) : option (Z * Z) :=
  match fuel with
  | O => None
  | S fuel' =>
      match digit_of (rdb m s) with
      | None => Some (val, s)
      | Some dig =>
          if base <=? dig then Some (val, s)
          else strtol_digits fuel' m (s + 1) base (i64 (val * base + dig))
      end
  end.

(** The value and the final [s], which goes to [*endptr]. *)
Definition strtol (fuel : nat) (m : bytes) (s base : Z) : option (Z * Z) :=
  s ← skip_blanks fuel m s;
  let '(s, neg) := if rdb m s =? 43 then (s + 1, false)
                   else if rdb m s =? 45 then (s + 1, true) else (s, false) in
  let '(s, base) :=
    if ((base =? 0) || (base =? 16)) && ((rdb m s =? 48) && (rdb m (s + 1) =? 120)) then (s + 2, 16)
    else if (base =? 0) && (rdb m s =? 48) then (s + 1, 8)
    else if base =? 0 then (s, 10) else (s, base) in
  '(val, e) ← strtol_digits fuel m s base 0;
  Some (if neg : bool then i64 (- val) else val, e).

(** ** Reading back what was written *)

Definition bytes_ok (m : bytes) : Prop := ∀ a, 0 ≤ rdb m a < 256.

Lemma u8_small c : 0 ≤ c < 256 → u8 c = c.
Proof. intros H. by apply Z.mod_small. Qed.

Lemma rdb_wrb m a c b : rdb (wrb m a c) b = if decide (a = b) then u8 c else rdb m b.
Proof.
  unfold rdb, wrb. case_decide as H; [subst; by rewrite lookup_insert_eq|by rewrite lookup_insert_ne].
Qed.

Lemma bytes_ok_wrb m a c : bytes_ok m → bytes_ok (wrb m a c).
Proof.
  intros H b. rewrite rdb_wrb. case_decide; [|apply H]. unfold u8. apply Z.mod_pos_bound. lia.
Qed.

(** The C string at [p] has the characters [l]. *)
Fixpoint cstr (m : bytes) (p : Z) (l : list Z) : Prop :=
  match l with
  | [] => rdb m p = 0
  | c :: l' => rdb m p = c ∧ 0 < c < 256 ∧ cstr m (p + 1) l'
  end.

Lemma cstr_frame m m' p l :
  (∀ a, p ≤ a ≤ p + Z.of_nat (length l) → rdb m' a = rdb m a) → cstr m p l → cstr m' p l.
Proof.
  revert p. induction l as [|c l IH]; intros p Hf; cbn [cstr length] in *.
  - rewrite Hf by lia. done.
  - intros (Hc & Hb & Hl). rewrite Hf by lia. split_and!; [done|lia|lia|].
    apply IH; [|done]. intros a Ha. apply Hf. lia.
Qed.

(** ** Blocks *)

Lemma copy_down_spec n m d s a :
  bytes_ok m → s < d →
  rdb (copy_down n m d s) a =
  if decide (d - Z.of_nat n ≤ a < d) then rdb m (s - (d - a)) else rdb m a.
Proof.
  revert m d s. induction n as [|n IH]; intros m d s Hm Hsd; cbn [copy_down].
  { by rewrite decide_False by lia. }
  rewrite IH by (try apply bytes_ok_wrb; done || lia). rewrite !rdb_wrb, u8_small by apply Hm.
  repeat case_decide; try lia; f_equal; lia.
Qed.

Lemma copy_up_spec n m d s a :
  bytes_ok m → d ≤ s ∨ s + Z.of_nat n ≤ d →
  rdb (copy_up n m d s) a =
  if decide (d ≤ a < d + Z.of_nat n) then rdb m (s + (a - d)) else rdb m a.
Proof.
  revert m d s. induction n as [|n IH]; intros m d s Hm Hsd; cbn [copy_up].
  { by rewrite decide_False by lia. }
  rewrite IH by (try apply bytes_ok_wrb; done || lia). rewrite !rdb_wrb, u8_small by apply Hm.
  repeat case_decide; try lia; f_equal; lia.
Qed.

Lemma memset_loop_spec n m p c a :
  rdb (memset_loop n m p c) a = if decide (p ≤ a < p + Z.of_nat n) then u8 c else rdb m a.
Proof.
  revert m p. induction n as [|n IH]; intros m p; cbn [memset_loop]; [by rewrite decide_False by lia|].
  rewrite IH, rdb_wrb. repeat case_decide; try lia; done.
Qed.

(** [memset] fills exactly [n] bytes when [n] fits an [int]. *)
Lemma memset_spec m p c n a :
  0 ≤ n < 2 ^ 31 → rdb (memset m p c n) a = if decide (p ≤ a < p + n) then u8 c else rdb m a.
Proof.
  intros Hn. unfold memset. rewrite i32_small, memset_loop_spec, Z2Nat.id by lia. done.
Qed.

Lemma bytes_ok_memset m p c n : bytes_ok m → bytes_ok (memset m p c n).
Proof.
  unfold memset. generalize (Z.to_nat (i32 n)). intros k Hm. revert m p Hm.
  induction k as [|k IH]; intros m p Hm; cbn [memset_loop]; [done|]. by apply IH, bytes_ok_wrb.
Qed.

Lemma memmove_spec (m : bytes) (dst src n a : Z) (Hm : bytes_ok m) (Hn : 0 ≤ n) :
  rdb (memmove m dst src n) a =
  if decide (dst ≤ a < dst + n) then rdb m (src + (a - dst)) else rdb m a.
Proof.
  unfold memmove. destruct (Z.ltb_spec src dst), (Z.ltb_spec dst (src + n)); cbn [andb].
  1: rewrite copy_down_spec by (done || lia).
  2-4: rewrite copy_up_spec by (done || lia).
  all: rewrite Z2Nat.id by done; repeat case_decide; try lia; f_equal; lia.
Qed.

Lemma bytes_ok_memmove m dst src n : bytes_ok m → 0 ≤ n → bytes_ok (memmove m dst src n).
Proof. intros Hm Hn a. rewrite memmove_spec by done. case_decide; apply Hm. Qed.

(** [memmove] is a simultaneous copy: however the blocks overlap, the
    destination ends up with what the source held before the call, and no other
    byte changes. *)
Theorem memmove_correct (m : bytes) (dst src n a : Z) (Hm : bytes_ok m) (Hn : 0 ≤ n) :
  rdb (memmove m dst src n) a =
  if decide (dst ≤ a < dst + n) then rdb m (src + (a - dst)) else rdb m a.
Proof. by apply memmove_spec. Qed.

(** The bytes 1, 2, 3, 4 moved up by one over themselves. *)
Definition block_example : bytes := {[10 := 1; 11 := 2; 12 := 3; 13 := 4]}.

Lemma bytes_ok_sound m : map_Forall (λ _ c, 0 ≤ c < 256) m → bytes_ok m.
Proof.
  intros H a. unfold rdb. destruct (m !! a) as [c|] eqn:E; simpl; [by apply (H a)|lia].
Qed.

Lemma memmove_witness :
  rdb (memmove block_example 11 10 4) 14
  = if decide (11 ≤ 14 < 11 + 4) then rdb block_example (10 + (14 - 11)) else rdb block_example 14.
Proof.
  apply (memmove_correct block_example 11 10 4 14); [|lia].
  apply bytes_ok_sound. apply (bool_decide_unpack _). by vm_compute.
Defined.

(** ** Strings *)

Lemma strlen_run m p l fuel :
  cstr m p l → (length l < fuel)%nat → Z.of_nat (length l) < 2 ^ 31 →
  strlen fuel m p = Some (Z.of_nat (length l)).
Proof.
  intros Hs Hf Hb. unfold strlen.
  assert (∀ n, 0 ≤ n → n + Z.of_nat (length l) < 2 ^ 31 →
    strlen_loop fuel m p n = Some (n + Z.of_nat (length l))) as H; [|by apply (H 0)].
  clear Hb. revert p fuel Hs Hf. induction l as [|c l IH]; intros p [|fuel] Hs Hf n Hn Hb;
    cbn [cstr length strlen_loop] in *; try lia.
  - rewrite Hs. simpl. f_equal. lia.
  - destruct Hs as (-> & Hc & Hs). destruct (Z.eqb_spec c 0); [lia|]. cbn [negb].
    rewrite i32_small by lia. rewrite (IH (p + 1)) by (done || lia). f_equal. lia.
Qed.

(** The loop of [strlcpy] copies characters until the string or the room ends. *)
Lemma strlcpy_loop_run room m dst src l :
  cstr m src l →
  (∀ a, dst ≤ a ≤ dst + Z.of_nat room → ¬ (src ≤ a ≤ src + Z.of_nat (length l))) →
  let k := Nat.min room (length l) in
  ∃ m', strlcpy_loop room m dst src = (m', dst + Z.of_nat k) ∧
    (∀ a, ¬ (dst ≤ a < dst + Z.of_nat k) → rdb m' a = rdb m a) ∧
    (∀ i c, (i < k)%nat → l !! i = Some c → rdb m' (dst + Z.of_nat i) = c).
Proof.
  revert m dst src l. induction room as [|room IH]; intros m dst src l Hs Hd k.
  - exists m. split_and!; [by rewrite Z.add_0_r|done|lia].
  - destruct l as [|c l]; cbn [cstr strlcpy_loop] in *.
    { rewrite Hs. exists m. split_and!; [by rewrite Z.add_0_r|done|intros i ?; simpl in *; lia]. }
    destruct Hs as (-> & Hc & Hs). destruct (Z.eqb_spec c 0); [lia|]. cbn [negb].
    destruct (IH (wrb m dst c) (dst + 1) (src + 1) l) as (m' & E & Ho & Hi).
    + apply (cstr_frame m); [|done]. intros a Ha. rewrite rdb_wrb, decide_False; [done|].
      intros ->. apply (Hd a); cbn [length]; lia.
    + intros a Ha Hb. apply (Hd a); cbn [length]; lia.
    + exists m'. unfold k. cbn [length Nat.min]. split_and!.
      * rewrite E. f_equal. lia.
      * intros a Ha. rewrite Ho by lia. rewrite rdb_wrb, decide_False by lia. done.
      * intros [|i] d Hlt Hl; simpl in Hl.
        -- injection Hl as <-. rewrite Ho by lia. rewrite rdb_wrb, decide_True by lia. by apply u8_small; lia.
        -- replace (dst + Z.of_nat (S i)) with (dst + 1 + Z.of_nat i) by lia. apply Hi; [lia|done].
Qed.

Lemma cstr_intro m p l :
  (∀ i c, l !! i = Some c → rdb m (p + Z.of_nat i) = c ∧ 0 < c < 256) →
  rdb m (p + Z.of_nat (length l)) = 0 → cstr m p l.
Proof.
  revert p. induction l as [|c l IH]; intros p Hi H0; cbn [cstr length] in *.
  - by rewrite Z.add_0_r in H0.
  - destruct (Hi 0%nat c eq_refl) as [Hc Hb]. rewrite Z.add_0_r in Hc. split_and!; [done|lia|lia|].
    apply IH.
    + intros i d Hd. replace (p + 1 + Z.of_nat i) with (p + Z.of_nat (S i)) by lia. by apply Hi.
    + by replace (p + 1 + Z.of_nat (length l)) with (p + Z.of_nat (S (length l))) by lia.
Qed.

Lemma cstr_chars m p l i c : cstr m p l → l !! i = Some c → 0 < c < 256.
Proof.
  revert p i. induction l as [|d l IH]; intros p [|i]; cbn [cstr]; try done.
  - intros (_ & Hb & _) [= <-]. done.
  - intros (_ & _ & Hs) Hi. by eapply IH.
Qed.

(** [strlcpy] into a buffer of [size] bytes that does not overlap the source:
    the buffer then holds the source cut to [size - 1] characters and a NUL, the
    result is the number of characters copied, and no byte outside the buffer
    changes; a size of zero writes nothing. *)
Theorem strlcpy_correct (m : bytes) (dst src size : Z) (l : list Z)
    (Hs : cstr m src l) (Hsize : 0 ≤ size)
    (Hdisj : ∀ a, dst ≤ a < dst + size → ¬ (src ≤ a ≤ src + Z.of_nat (length l))) :
  let k := Nat.min (Z.to_nat (size - 1)) (length l) in
  (size = 0 → strlcpy m dst src size = (m, 0)) ∧
  (0 < size → ∃ m', strlcpy m dst src size = (m', Z.of_nat k) ∧ cstr m' dst (take k l) ∧
     (∀ a, ¬ (dst ≤ a < dst + size) → rdb m' a = rdb m a)).
Proof.
  intros k. unfold strlcpy. split; [by intros ->|]. intros Hp.
  destruct (Z.ltb_spec 0 size); [|lia].
  destruct (strlcpy_loop_run (Z.to_nat (size - 1)) m dst src l Hs) as (m' & E & Ho & Hi).
  { intros a Ha. apply Hdisj. lia. }
  fold k in E, Ho, Hi. rewrite E. exists (wrb m' (dst + Z.of_nat k) 0).
  split_and!; [f_equal; lia| |].
  - apply cstr_intro.
    + intros i c [Hc Hlt]%lookup_take_Some. split; [|by eapply cstr_chars].
      rewrite rdb_wrb, decide_False by lia. by apply Hi.
    + rewrite rdb_wrb, decide_True; [done|]. rewrite length_take. lia.
  - intros a Ha. rewrite rdb_wrb, decide_False by lia. apply Ho. lia.
Qed.

(** The string at 10 copied to a buffer of three bytes at 20. *)
Lemma strlcpy_witness :
  let m := block_example in let k := Nat.min (Z.to_nat (3 - 1)) (length [1; 2; 3; 4]) in
  (3 = 0 → strlcpy m 20 10 3 = (m, 0)) ∧
  (0 < 3 → ∃ m', strlcpy m 20 10 3 = (m', Z.of_nat k) ∧ cstr m' 20 (take k [1; 2; 3; 4]) ∧
     (∀ a, ¬ (20 ≤ a < 20 + 3) → rdb m' a = rdb m a)).
Proof.
  apply (strlcpy_correct block_example 20 10 3 [1; 2; 3; 4]); [by vm_compute|lia|].
  intros a Ha. simpl. lia.
Defined.

(** [strcmp] tells equal strings apart from different ones. *)
Lemma strcmp_run m p q l l' fuel :
  cstr m p l → cstr m q l' → (length l < fuel)%nat →
  ∃ r, strcmp fuel m p q = Some r ∧ (r = 0 ↔ l = l').
Proof.
  revert p q l' fuel. induction l as [|c l IH]; intros p q l' [|fuel] Hs Hs' Hf;
    cbn [length cstr strcmp] in *; try lia.
  - rewrite Hs. simpl. eexists. split; [done|]. destruct l' as [|d l']; cbn [cstr] in Hs'.
    + by rewrite Hs'.
    + destruct Hs' as (-> & Hd & _). rewrite !u8_small by lia. split; [lia|done].
  - destruct Hs as (-> & Hc & Hs). destruct (Z.eqb_spec c 0); [lia|]. cbn [negb andb].
    destruct l' as [|d l']; cbn [cstr] in Hs'.
    + rewrite Hs'. destruct (Z.eqb_spec c 0); [lia|]. eexists. split; [done|].
      rewrite !u8_small by lia. split; [lia|done].
    + destruct Hs' as (-> & Hd & Hs'). destruct (Z.eqb_spec c d) as [->|Hne].
      * destruct (IH (p + 1) (q + 1) l' fuel Hs Hs' ltac:(lia)) as (r & E & Hr).
        exists r. split; [done|]. rewrite Hr. split; congruence.
      * eexists. split; [done|]. rewrite !u8_small by lia. split; [lia|congruence].
Qed.

(** ** Numbers *)

Lemma i64_small x : - 2 ^ 63 ≤ x < 2 ^ 63 → i64 x = x.
Proof.
  intros H. unfold i64. destruct (decide (0 ≤ x)).
  - rewrite (Z.mod_small x) by lia. case_match; lia.
  - replace (x mod 2 ^ 64) with (x + 2 ^ 64).
    2:{ apply Z.mod_unique with (-1); lia. }
    case_match; lia.
Qed.

(** The value that digits add to [val]. *)
Fixpoint digits_value (base val : Z) (ds : list Z) : Z :=
  match ds with [] => val | d :: ds' => digits_value base (val * base + d) ds' end.

Lemma digits_value_ge base val ds :
  1 ≤ base → 0 ≤ val → Forall (λ d, 0 ≤ d) ds → val ≤ digits_value base val ds.
Proof.
  intros Hb. revert val. induction ds as [|d ds IH]; intros val Hv Hd; simpl; [lia|].
  apply Forall_cons in Hd as [Hd Hds]. etrans; [|apply IH; [nia|done]]. nia.
Qed.

Lemma strtol_digits_run fuel m s base cs ds val :
  cstr m s cs → Forall2 (λ c d, digit_of c = Some d ∧ 0 ≤ d < base) cs ds →
  (length cs < fuel)%nat → 0 ≤ val → digits_value base val ds < 2 ^ 63 →
  strtol_digits fuel m s base val = Some (digits_value base val ds, s + Z.of_nat (length cs)).
Proof.
  intros Hs Hd. revert fuel s val Hs.
  induction Hd as [|c d cs ds [Hc Hd] Hds IH]; intros [|fuel] s val Hs Hf Hv Hb;
    cbn [length cstr strtol_digits digits_value] in *; try lia.
  - rewrite Hs. simpl. do 2 f_equal. lia.
  - destruct Hs as (-> & _ & Hs). rewrite Hc. destruct (Z.leb_spec base d); [lia|].
    assert (val * base + d < 2 ^ 63).
    { eapply Z.le_lt_trans; [apply (digits_value_ge base _ ds); [lia|nia|]|done].
      apply Forall_forall. intros x Hx. apply list_elem_of_lookup in Hx as [i Hi].
      destruct (Forall2_lookup_r _ _ _ _ _ Hds Hi) as (y & _ & _ & Hy). lia. }
    rewrite i64_small by nia. rewrite IH by (done || nia || lia). do 2 f_equal. lia.
Qed.
