(* ===== verification/Printfmt.v ===== *)
(** * Formatted output: lib/riscv/printfmt.c and its clients

    [vprintfmt] calls [putch] for each character of its output and never reads
    what [putch] stores, so it is modelled by the list of those characters.  The
    clients are [vsnprintf], [vcprintf] of the kernel and of user programs, and
    [vfprintf]; [readline] is here too. *)

From stdpp Require Import strings.
From S2P Require Import Prelude Mmu Strings.

(** The characters of a literal. *)
Definition str (s : string) : list Z := (Z.of_N ∘ Ascii.N_of_ascii) <$> String.list_ascii_of_string s.

(** ** Arguments *)

(** A variable argument: an integer register, or a pointer to a string. *)
Inductive va := VInt (n : Z) | VStr (s : option (list Z)).

Definition getuint (n lflag : Z) : Z := if 1 <=? lflag then u64 n else u32 n.
Definition getint (n lflag : Z) : Z := if 1 <=? lflag then i64 n else i32 n.

(** ** Numbers *)

Definition digit_char (d : Z) : Z := if d <? 10 then 48 + d else 97 + (d - 10).

(** [base] is at least 2 and [num] a 64-bit number, so 64 calls are enough. *)
Fixpoint printnum_loop (fuel : nat) (num base width padc : Z) : list Z :=
  match fuel with
  | O => []
  | S fuel' =>
      (if base <=? num then printnum_loop fuel' (num / base) base (width - 1) padc
       else replicate (Z.to_nat (width - 1)) padc) ++ [digit_char (num mod base)]
  end.
Definition printnum (num base width padc : Z) : list Z := printnum_loop 64 num base width padc.

(** ** Strings and errors *)

(** The loop over the characters; gives also the remaining width. *)
Fixpoint put_str (s : list Z) (precision width : Z) (altflag : bool) : list Z * Z :=
  match s with
  | [] => ([], width)
  | ch :: s' =>
      if (precision <? 0) || (0 <=? precision - 1) then
        let '(o, w) := put_str s' (if precision <? 0 then precision else precision - 1) (width - 1) altflag in
        ((if altflag && ((ch <? 32) || (126 <? ch)) then 63 else ch) :: o, w)
      else ([], width)
  end.

(** [strnlen(p, precision)]; a negative precision is a huge size. *)
Definition strnlen_of (s : list Z) (precision : Z) : Z :=
  if precision <? 0 then Z.of_nat (length s) else Z.min (Z.of_nat (length s)) precision.

Definition print_string (s : list Z) (padc width precision : Z) (altflag : bool) : list Z :=
  let left := width - strnlen_of s precision in
  let pad := (0 <? width) && negb (padc =? 45) in
  let '(o, w) := put_str s precision (if pad then Z.min left 0 else width) altflag in
  (if pad then replicate (Z.to_nat left) padc else []) ++ o ++ replicate (Z.to_nat w) 32.

Definition MAXERROR : Z := 17.
Definition error_string (err : Z) : option (list Z) :=
  if err =? E_UNSPECIFIED then Some (str "unspecified error")
  else if err =? E_BAD_ENV then Some (str "bad environment")
  else if err =? E_INVAL then Some (str "invalid parameter")
  else if err =? E_NO_MEM then Some (str "out of memory")
  else if err =? E_NO_FREE_ENV then Some (str "out of environments")
  else if err =? E_FAULT then Some (str "segmentation fault")
  else if err =? E_IPC_NOT_RECV then Some (str "env is not recving")
  else if err =? E_EOF then Some (str "unexpected end of file")
  else if err =? E_NO_DISK then Some (str "no free space on disk")
  else if err =? E_MAX_OPEN then Some (str "too many files are open")
  else if err =? E_NOT_FOUND then Some (str "file or block not found")
  else if err =? E_BAD_PATH then Some (str "invalid path")
  else if err =? E_FILE_EXISTS then Some (str "file already exists")
  else if err =? E_NOT_EXEC then Some (str "file is not a valid executable")
  else if err =? E_NOT_SUPP then Some (str "operation not supported")
  else None.

(** What [printfmt(putch, putdat, "error %d", err)] and [printfmt(.., "%s", p)] print.
    The one [int] whose negation is itself indexes the table out of range. *)
Definition print_error (n : Z) : option (list Z) :=
  let err := if i32 n <? 0 then - i32 n else i32 n in
  if err =? 2 ^ 31 then None else
  match (if MAXERROR <=? err then None else error_string err) with
  | None => Some (str "error " ++ printnum err 10 (-1) 32)
  | Some p => Some (print_string p 32 (-1) (-1) false)
  end.

(** ** The format *)

Definition char_at (fmt : list Z) (i : nat) : Z := default 0 (fmt !! i).

(** [padc], [width], [precision], [lflag] and [altflag] of an escape. *)
Record flags := mkFlags { padc : Z; width : Z; precision : Z; lflag : Z; altflag : bool }.
Definition flags0 : flags := mkFlags 32 (-1) (-1) 0 false.

Definition is_digit (ch : Z) : bool := (48 <=? ch) && (ch <=? 57).

(** The width field from its second digit on: its value and the position of the
    character after it. *)
Fixpoint read_number (fuel : nat) (fmt : list Z) (i : nat) (n : Z) : Z * nat :=
  match fuel with
  | O => (n, i)
  | S fuel' =>
      let ch := char_at fmt i in
      if is_digit ch then read_number fuel' fmt (S i) (i32 (n * 10 + ch - 48)) else (n, i)
  end.

(** [process_precision] *)
Definition process_precision (p : Z) (f : flags) : flags :=
  if width f <? 0 then mkFlags (padc f) p (-1) (lflag f) (altflag f)
  else mkFlags (padc f) (width f) p (lflag f) (altflag f).

(** [for (fmt--; fmt\[-1\] != '%'; fmt--)], from the position after [fmt--]. *)
Fixpoint back_to_percent (fmt : list Z) (i : nat) : nat :=
  match i with
  | O => O
  | S j => if char_at fmt j =? 37 then i else back_to_percent fmt j
  end.

(** The result of an escape: its output, the position after it and the arguments
    left; an argument that is missing or of the wrong type; no fuel. *)
Inductive esc := EOut (o : list Z) (i : nat) (ap : list va) | EBad | EFuel.

Definition with_int (ap : list va) (k : Z → list va → esc) : esc :=
  match ap with VInt n :: ap' => k n ap' | _ => EBad end.

Definition print_signed (n : Z) (f : flags) : list Z :=
  if n <? 0 then 45 :: printnum (u64 (- n)) 10 (width f) (padc f) else printnum n 10 (width f) (padc f).

(** The switch at [reswitch], with [fmt] at position [i]. *)
Fixpoint escape (fuel : nat) (fmt : list Z) (i : nat) (ap : list va) (f : flags) : esc :=
  match fuel with
  | O => EFuel
  | S fuel' =>
      let ch := char_at fmt i in
      let again := escape fuel' fmt (S i) ap in
      if ch =? 45 then again (mkFlags 45 (width f) (precision f) (lflag f) (altflag f))
      else if ch =? 48 then again (mkFlags 48 (width f) (precision f) (lflag f) (altflag f))
      else if (49 <=? ch) && (ch <=? 57) then
        let '(n, j) := read_number (length fmt) fmt (S i) (ch - 48) in
        escape fuel' fmt j ap (process_precision n f)
      else if ch =? 42 then
        with_int ap (λ n ap', escape fuel' fmt (S i) ap' (process_precision (i32 n) f))
      else if ch =? 46 then
        again (if width f <? 0 then mkFlags (padc f) 0 (precision f) (lflag f) (altflag f) else f)
      else if ch =? 35 then again (mkFlags (padc f) (width f) (precision f) (lflag f) true)
      else if ch =? 108 then again (mkFlags (padc f) (width f) (precision f) (lflag f + 1) (altflag f))
      else if ch =? 99 then with_int ap (λ n, EOut [i32 n] (S i))
      else if ch =? 101 then
        with_int ap (λ n ap', match print_error n with Some o => EOut o (S i) ap' | None => EBad end)
      else if ch =? 115 then
        match ap with
        | VStr p :: ap' =>
            EOut (print_string (default (str "(null)") p) (padc f) (width f) (precision f) (altflag f)) (S i) ap'
        | _ => EBad
        end
      else if ch =? 100 then with_int ap (λ n, EOut (print_signed (getint n (lflag f)) f) (S i))
      else if ch =? 117 then
        with_int ap (λ n, EOut (printnum (getuint n (lflag f)) 10 (width f) (padc f)) (S i))
      else if ch =? 111 then
        with_int ap (λ n, EOut (printnum (getuint n (lflag f)) 8 (width f) (padc f)) (S i))
      else if ch =? 112 then
        with_int ap (λ n, EOut (48 :: 120 :: printnum (u64 n) 16 (width f) (padc f)) (S i))
      else if ch =? 120 then
        with_int ap (λ n, EOut (printnum (getuint n (lflag f)) 16 (width f) (padc f)) (S i))
      else if ch =? 37 then EOut [37] (S i) ap
      else EOut [37] (back_to_percent fmt i) ap
  end.

Inductive fres := Printed (o : list Z) | BadArg | NoFuel.
Definition prepend (o : list Z) (r : fres) : fres :=
  match r with Printed o' => Printed (o ++ o') | _ => r end.

Fixpoint vprintfmt_loop (fuel : nat) (fmt : list Z) (i : nat) (ap : list va) : fres :=
  match fuel with
  | O => NoFuel
  | S fuel' =>
      let ch := char_at fmt i in
      if ch =? 0 then Printed []
      else if negb (ch =? 37) then prepend [ch] (vprintfmt_loop fuel' fmt (S i) ap)
      else match escape (S (length fmt)) fmt (S i) ap flags0 with
           | EOut o j ap' => prepend o (vprintfmt_loop fuel' fmt j ap')
           | EBad => BadArg
           | EFuel => NoFuel
           end
  end.

(** Each round of either loop passes a character of [fmt]. *)
Definition vprintfmt (fmt : list Z) (ap : list va) : fres := vprintfmt_loop (S (length fmt)) fmt 0 ap.

(** ** Printing to a buffer *)

Record sprintbuf := mkSprintbuf { buf : Z; ebuf : Z; cnt : Z }.

Definition sprintputch (st : bytes * sprintbuf) (ch : Z) : bytes * sprintbuf :=
  let '(m, b) := st in
  let n := i32 (cnt b + 1) in
  if buf b <? ebuf b then (wrb m (buf b) ch, mkSprintbuf (buf b + 1) (ebuf b) n)
  else (m, mkSprintbuf (buf b) (ebuf b) n).

Definition vsnprintf (m : bytes) (p n : Z) (fmt : list Z) (ap : list va) : option (Z * bytes) :=
  if (p =? 0) || (n <? 1) then Some (- E_INVAL, m) else
  match vprintfmt fmt ap with
  | Printed o =>
      let '(m', b) := foldl sprintputch (m, mkSprintbuf p (p + n - 1) 0) o in
      Some (cnt b, wrb m' (buf b) 0)
  | _ => None
  end.
Definition snprintf := vsnprintf.

(** ** lib/riscv/printf.c: user output in chunks *)

(** The characters in [buf], the count, and the system calls made. *)
Record printbuf := mkPrintbuf { pb_buf : list Z; pb_cnt : Z; pb_calls : list (list Z) }.

Definition putch (b : printbuf) (ch : Z) : printbuf :=
  let l := pb_buf b ++ [u8 ch] in
  if Z.of_nat (length l) =? 256 - 1 then mkPrintbuf [] (i32 (pb_cnt b + 1)) (pb_calls b ++ [l])
  else mkPrintbuf l (i32 (pb_cnt b + 1)) (pb_calls b).

(** The result and the arguments of the [sys_cputs] calls. *)
Definition vcprintf (fmt : list Z) (ap : list va) : option (Z * list (list Z)) :=
  match vprintfmt fmt ap with
  | Printed o => let b := foldl putch (mkPrintbuf [] 0 []) o in Some (pb_cnt b, pb_calls b ++ [pb_buf b])
  | _ => None
  end.

(** ** kern/riscv/printf.c: kernel output *)

Module Kern.
(** [*cnt++] moves the parameter [cnt] and leaves the count alone. *)
Definition putch (st : Z * list Z) (ch : Z) : Z * list Z := (fst st, snd st ++ [ch]).
Definition vcprintf (fmt : list Z) (ap : list va) : option (Z * list Z) :=
  match vprintfmt fmt ap with Printed o => Some (foldl putch (0, []) o) | _ => None end.
End Kern.

(** ** lib/riscv/fprintf.c: output through a file descriptor *)

Module File.
Section with_write.
(** The result of the [n]-th call of [write], given what it is asked to write. *)
Context (write : nat → list Z → Z).

Record fprintbuf := mkFprintbuf
  { fb_buf : list Z; fb_result : Z; fb_error : Z; fb_calls : list (list Z) }.

Definition writebuf (b : fprintbuf) : fprintbuf :=
  if 0 <? fb_error b then
    let result := write (length (fb_calls b)) (fb_buf b) in
    mkFprintbuf (fb_buf b)
      (if 0 <? result then fb_result b + result else fb_result b)
      (if negb (result =? Z.of_nat (length (fb_buf b)))
       then (if result <? 0 then i32 result else 0) else fb_error b)
      (fb_calls b ++ [fb_buf b])
  else b.

Definition fputch (b : fprintbuf) (ch : Z) : fprintbuf :=
  let b' := mkFprintbuf (fb_buf b ++ [u8 ch]) (fb_result b) (fb_error b) (fb_calls b) in
  if Z.of_nat (length (fb_buf b')) =? 256 then
    let b'' := writebuf b' in mkFprintbuf [] (fb_result b'') (fb_error b'') (fb_calls b'')
  else b'.

(** The result and what was passed to [write]. *)
Definition vfprintf (fmt : list Z) (ap : list va) : option (Z * list (list Z)) :=
  match vprintfmt fmt ap with
  | Printed o =>
      let b := foldl fputch (mkFprintbuf [] 0 1 []) o in
      let b := if 0 <? Z.of_nat (length (fb_buf b)) then writebuf b else b in
      Some (i32 (if negb (fb_result b =? 0) then fb_result b else fb_error b), fb_calls b)
  | _ => None
  end.
End with_write.
End File.

(** ** lib/riscv/readline.c *)

Definition BUFLEN : Z := 1024.

(** The loop on the characters [getchar] delivers: [line] holds [buf\[0..i)].  The
    result is [None] while more input is awaited, [Some None] after an error, and
    the line otherwise; the second component is the echo. *)
Fixpoint readline_loop (input line : list Z) (echoing : bool) : option (option (list Z)) * list Z :=
  match input with
  | [] => (None, [])
  | c :: input' =>
      let echo ch r := (fst r, if echoing then ch :: snd r else snd r) in
      if c <? 0 then (Some None, [])
      else if ((c =? 8) || (c =? 127)) && (0 <? Z.of_nat (length line)) then
        echo 8 (readline_loop input' (take (length line - 1) line) echoing)
      else if (32 <=? c) && (Z.of_nat (length line) <? BUFLEN - 1) then
        echo c (readline_loop input' (line ++ [u8 c]) echoing)
      else if (c =? 10) || (c =? 13) then echo 10 (Some (Some line), [])
      else readline_loop input' line echoing
  end.
Definition readline (input : list Z) (echoing : bool) : option (option (list Z)) * list Z :=
  readline_loop input [] echoing.

(** ** Termination *)

Lemma char_at_lt fmt i : char_at fmt i ≠ 0 → (i < length fmt)%nat.
Proof.
  unfold char_at. intros H. apply lookup_lt_is_Some. destruct (fmt !! i); [eauto|done].
Qed.

Lemma read_number_bounds fuel fmt i n :
  (i ≤ length fmt)%nat → (i ≤ snd (read_number fuel fmt i n) ≤ length fmt)%nat.
Proof.
  revert i n. induction fuel as [|fuel IH]; intros i n Hi; cbn [read_number]; [simpl; lia|].
  unfold is_digit. destruct (Z.leb_spec 48 (char_at fmt i)), (Z.leb_spec (char_at fmt i) 57); simpl; try lia.
  assert (i < length fmt)%nat by (apply char_at_lt; lia).
  specialize (IH (S i) (i32 (n * 10 + char_at fmt i - 48)) ltac:(lia)). lia.
Qed.

Lemma back_to_percent_ge fmt k i :
  char_at fmt k = 37 → (k < i)%nat → (k < back_to_percent fmt i ≤ i)%nat.
Proof.
  intros Hk. induction i as [|j IH]; intros Hi; [lia|]. cbn [back_to_percent].
  destruct (Z.eqb_spec (char_at fmt j) 37) as [E|E]; [lia|].
  assert (k ≠ j) by (intros ->; done). specialize (IH ltac:(lia)). lia.
Qed.

(** An escape that starts after the ['%'] at [k] ends after it, inside the format. *)
Definition esc_ok (fmt : list Z) (k : nat) (r : esc) : Prop :=
  match r with EOut _ j _ => (k < j ≤ length fmt)%nat | EBad => True | EFuel => False end.

Lemma with_int_ok fmt k ap g : (∀ n ap', esc_ok fmt k (g n ap')) → esc_ok fmt k (with_int ap g).
Proof. intros H. destruct ap as [|[n|p] ap]; simpl; auto. Qed.

Lemma escape_ok fuel fmt k i ap f :
  char_at fmt k = 37 → (k < i ≤ length fmt)%nat → (length fmt - i < fuel)%nat →
  esc_ok fmt k (escape fuel fmt i ap f).
Proof.
  intros Hk. revert i ap f. induction fuel as [|fuel IH]; intros i ap f Hi Hf; [lia|].
  cbn [escape]. set (ch := char_at fmt i).
  assert (ch ≠ 0 → (i < length fmt)%nat) as Hch by apply char_at_lt.
  destruct (Z.eq_dec ch 0) as [E|E].
  { rewrite E. simpl. pose proof (back_to_percent_ge fmt k i Hk ltac:(lia)). lia. }
  specialize (Hch E).
  assert (∀ ap f, esc_ok fmt k (escape fuel fmt (S i) ap f)) as Hagain by (intros; apply IH; lia).
  pose proof (read_number_bounds (length fmt) fmt (S i) (ch - 48) ltac:(lia)) as Hrn.
  pose proof (back_to_percent_ge fmt k i Hk ltac:(lia)).
  destruct (read_number _ _ _ _) as [n j]. simpl in Hrn.
  repeat match goal with
  | |- esc_ok _ _ (if ?b then _ else _) => destruct b
  | |- esc_ok _ _ (with_int _ _) => apply with_int_ok; intros
  | |- esc_ok _ _ (match ?x with _ => _ end) => destruct x
  end; first [apply Hagain | exact I | (apply IH; lia) | simpl; lia].
Qed.

Lemma vprintfmt_loop_fuel fuel fmt i ap :
  (i ≤ length fmt)%nat → (length fmt - i < fuel)%nat → vprintfmt_loop fuel fmt i ap ≠ NoFuel.
Proof.
  revert i ap. induction fuel as [|fuel IH]; intros i ap Hi Hf; [lia|]. cbn [vprintfmt_loop].
  destruct (Z.eqb_spec (char_at fmt i) 0) as [E|E]; [done|]. apply char_at_lt in E.
  assert (∀ o j ap', (i < j ≤ length fmt)%nat → prepend o (vprintfmt_loop fuel fmt j ap') ≠ NoFuel) as Hp.
  { intros o j ap' Hj. specialize (IH j ap' ltac:(lia) ltac:(lia)). by destruct (vprintfmt_loop _ _ _ _). }
  destruct (Z.eqb_spec (char_at fmt i) 37) as [E'|E']; cbn [negb]; [|apply Hp; lia].
  pose proof (escape_ok (S (length fmt)) fmt i (S i) ap flags0 E' ltac:(lia) ltac:(lia)) as Hesc.
  destruct (escape _ _ _ _ _); [by apply Hp|done|by simpl in Hesc].
Qed.

(** C28  [vprintfmt] terminates on every format, well-formed or not: the loop over
    the format and the rescans of an unknown escape together make at most one
    round per character. *)
Theorem vprintfmt_terminates (fmt : list Z) (ap : list va) : vprintfmt fmt ap ≠ NoFuel.
Proof. apply vprintfmt_loop_fuel; lia. Qed.

(** ** Bounded printing *)

Lemma sprint_run o : ∀ m p e c,
  p ≤ e → 0 ≤ c → c + Z.of_nat (length o) < 2 ^ 31 →
  let k := Nat.min (length o) (Z.to_nat (e - p)) in
  ∃ m', foldl sprintputch (m, mkSprintbuf p e c) o
        = (m', mkSprintbuf (p + Z.of_nat k) e (c + Z.of_nat (length o))) ∧
    (∀ a, ¬ (p ≤ a < p + Z.of_nat k) → rdb m' a = rdb m a) ∧
    (∀ i x, (i < k)%nat → o !! i = Some x → rdb m' (p + Z.of_nat i) = u8 x).
Proof.
  induction o as [|x o IH]; intros m p e c Hpe Hc Hb k; cbn [foldl length] in *.
  { exists m. unfold k. simpl. rewrite !Z.add_0_r. split_and!; [done|done|lia]. }
  cbn [sprintputch buf ebuf cnt]. rewrite i32_small by lia.
  destruct (Z.ltb_spec p e) as [Hlt|Hge].
  - destruct (IH (wrb m p x) (p + 1) e (c + 1)) as (m' & E & Ho & Hi); [lia..|].
    exists m'. unfold k. split_and!.
    + rewrite E. do 2 f_equal; lia.
    + intros a Ha. rewrite Ho by lia. rewrite rdb_wrb, decide_False by lia. done.
    + intros [|i] y Hik Hy; simpl in Hy.
      * injection Hy as <-. rewrite Ho by lia. by rewrite rdb_wrb, decide_True by lia.
      * replace (p + Z.of_nat (S i)) with (p + 1 + Z.of_nat i) by lia. apply Hi; [lia|done].
  - destruct (IH m p e (c + 1)) as (m' & E & Ho & Hi); [lia..|].
    exists m'. unfold k. replace (Z.to_nat (e - p)) with 0%nat in * by lia. rewrite Nat.min_0_r in *.
    split_and!; [rewrite E; do 2 f_equal; lia|done|lia].
Qed.

(** C40  [vsnprintf] into a buffer of [n] bytes writes inside the buffer only, ends
    the text with a NUL there, cuts it to [n - 1] characters, and returns the
    length of the whole text; a null buffer or a size below one is refused without
    a write. *)
Theorem vsnprintf_bounded (m : bytes) (p n : Z) (fmt : list Z) (ap : list va) (o : list Z)
    (Hp : p ≠ 0) (Ho : vprintfmt fmt ap = Printed o) (Hlen : Z.of_nat (length o) < 2 ^ 31) :
  let k := Nat.min (length o) (Z.to_nat (n - 1)) in
  (n < 1 → vsnprintf m p n fmt ap = Some (- E_INVAL, m)) ∧
  (1 ≤ n → ∃ m', vsnprintf m p n fmt ap = Some (Z.of_nat (length o), m') ∧
     (∀ i x, (i < k)%nat → o !! i = Some x → rdb m' (p + Z.of_nat i) = u8 x) ∧
     rdb m' (p + Z.of_nat k) = 0 ∧
     (∀ a, ¬ (p ≤ a < p + n) → rdb m' a = rdb m a)).
Proof.
  intros k. unfold vsnprintf. destruct (Z.eqb_spec p 0); [done|]. cbn [orb]. rewrite Ho.
  split; intros Hn; destruct (Z.ltb_spec n 1); try lia; [done|].
  destruct (sprint_run o m p (p + n - 1) 0) as (m' & E & Hout & Hin); [lia..|]. rewrite E.
  replace (Z.to_nat (p + n - 1 - p)) with (Z.to_nat (n - 1)) in * by lia. fold k in Hout, Hin |- *.
  cbn [cnt buf]. eexists. split; [done|]. split_and!.
  - intros i x Hi Hx. rewrite rdb_wrb, decide_False by lia. by apply Hin.
  - by rewrite rdb_wrb, decide_True.
  - intros a Ha. rewrite rdb_wrb, decide_False by lia. apply Hout. lia.
Qed.

Lemma vsnprintf_witness :
  let m := ∅ in let fmt := str "%d-%s" in let ap := [VInt 42; VStr (Some (str "abc"))] in
  let k := Nat.min 6 (Z.to_nat (5 - 1)) in
  (5 < 1 → vsnprintf m 100 5 fmt ap = Some (- E_INVAL, m)) ∧
  (1 ≤ 5 → ∃ m', vsnprintf m 100 5 fmt ap = Some (Z.of_nat 6, m') ∧
     (∀ i x, (i < k)%nat → str "42-abc" !! i = Some x → rdb m' (100 + Z.of_nat i) = u8 x) ∧
     rdb m' (100 + Z.of_nat k) = 0 ∧
     (∀ a, ¬ (100 ≤ a < 100 + 5) → rdb m' a = rdb m a)).
Proof.
  apply (vsnprintf_bounded ∅ 100 5 (str "%d-%s") [VInt 42; VStr (Some (str "abc"))] (str "42-abc"));
    [lia|by vm_compute|by vm_compute].
Defined.

(** ** Numbers print and parse *)

Lemma digit_char_value d : 0 ≤ d < 36 → digit_of (digit_char d) = Some d ∧ 0 < digit_char d < 256.
Proof.
  intros Hd. unfold digit_of, digit_char. destruct (Z.ltb_spec d 10); zcases; simpl; split; try lia; f_equal; lia.
Qed.

(** The digits of [num], most significant first. *)
Lemma printnum_digits fuel num base width padc :
  2 ≤ base ≤ 36 → 0 ≤ num < base ^ Z.of_nat fuel → (0 < fuel)%nat →
  ∃ ds, printnum_loop fuel num base width padc
        = replicate (Z.to_nat (width - Z.of_nat (length ds))) padc ++ (digit_char <$> ds) ∧
    Forall (λ d, 0 ≤ d < base) ds ∧ digits_value base 0 ds = num ∧ ds ≠ [].
Proof.
  intros Hb. revert num width. induction fuel as [|fuel IH]; intros num width Hn Hf; [lia|].
  cbn [printnum_loop]. pose proof (Z.mod_pos_bound num base ltac:(lia)) as Hm.
  destruct (Z.leb_spec base num) as [Hge|Hlt].
  - assert (0 < fuel)%nat as Hf'.
    { destruct fuel; [|lia]. change (base ^ Z.of_nat 1) with (base ^ 1) in Hn. rewrite Z.pow_1_r in Hn. lia. }
    destruct (IH (num / base) (width - 1)) as (ds & E & Hds & Hv & Hne); [|done|].
    { rewrite Nat2Z.inj_succ, Z.pow_succ_r in Hn by lia. split; [apply Z.div_pos; lia|].
      apply Z.div_lt_upper_bound; lia. }
    exists (ds ++ [num mod base]). rewrite E, fmap_app, length_app. split_and!.
    + rewrite <-app_assoc. do 2 f_equal. simpl. lia.
    + apply Forall_app. split; [done|by apply Forall_singleton].
    + assert (∀ l v d, digits_value base v (l ++ [d]) = digits_value base v l * base + d) as Happ.
      { induction l as [|x l IHl]; intros; simpl; [done|apply IHl]. }
      rewrite Happ, Hv. rewrite Z.mul_comm. symmetry. apply Z.div_mod. lia.
    + by destruct ds.
  - exists [num]. rewrite Z.mod_small by lia. split_and!; [|apply Forall_singleton; lia|simpl; lia|done].
    simpl. by do 2 f_equal.
Qed.

(** The digits after the optional sign are parsed by the digit loop. *)
Lemma strtol_signed fuel m p base (neg : bool) cs ds :
  2 ≤ base ≤ 36 → base ≠ 16 ∨ (∃ c, cs = [c]) ∨ (∃ c d r, cs = c :: d :: r ∧ d ≠ 120) → cs ≠ [] →
  cstr m p ((if neg then [45] else []) ++ cs) →
  Forall2 (λ c d, digit_of c = Some d ∧ 0 ≤ d < base) cs ds →
  (length cs < fuel)%nat → digits_value base 0 ds < 2 ^ 63 →
  strtol fuel m p base =
  Some (if neg then i64 (- digits_value base 0 ds) else digits_value base 0 ds,
        p + (if neg then 1 else 0) + Z.of_nat (length cs)).
Proof.
  intros Hb Hx Hne Hs Hd Hf Hv. destruct cs as [|c cs]; [done|]. destruct fuel as [|fuel]; [lia|].
  set (q := p + (if neg then 1 else 0)).
  assert (cstr m q (c :: cs)) as Hq.
  { unfold q. destruct neg; [by destruct Hs as (_ & _ & Hs)|]. by rewrite Z.add_0_r. }
  pose proof Hq as (Hc & _ & Hs'). destruct ds as [|d ds]; [by apply Forall2_cons_nil_inv in Hd|].
  apply Forall2_cons in Hd as Hd'. destruct Hd' as [[Hdc _] _].
  assert (rdb m p ≠ 32 ∧ rdb m p ≠ 9 ∧ rdb m p ≠ 43 ∧ (rdb m p = 45 ↔ neg = true)) as (H1 & H2 & H3 & H4).
  { destruct neg; [by destruct Hs as (-> & _)|]. unfold q in Hc. rewrite Z.add_0_r in Hc. rewrite Hc.
    split_and!; try (intros ->; done). split; [intros ->; done|done]. }
  unfold strtol. cbn [skip_blanks].
  destruct (Z.eqb_spec (rdb m p) 32), (Z.eqb_spec (rdb m p) 9); try done. cbn [orb mbind option_bind].
  destruct (Z.eqb_spec (rdb m p) 43); [done|].
  assert ((if rdb m p =? 45 then (p + 1, true) else (p, false)) = (q, neg)) as ->.
  { unfold q. destruct (Z.eqb_spec (rdb m p) 45) as [E|E].
    - by rewrite (proj1 H4 E).
    - destruct neg; [by destruct E; apply H4|]. by rewrite Z.add_0_r. }
  destruct (Z.eqb_spec base 0); [lia|]. cbn [orb andb].
  assert (((base =? 16) && ((rdb m q =? 48) && (rdb m (q + 1) =? 120))) = false) as ->.
  { destruct (Z.eqb_spec base 16) as [->|]; [|done]. apply andb_false_iff. right.
    apply andb_false_iff. right. apply Z.eqb_neq. destruct Hx as [?|[[? [= -> ->]]|(? & ? & ? & [= -> ->] & Hd2)]].
    - done.
    - cbn [cstr] in Hs'. by rewrite Hs'.
    - destruct Hs' as (-> & _). done. }
  by rewrite (strtol_digits_run (S fuel) m q base (c :: cs) (d :: ds) 0 Hq Hd Hf ltac:(lia) Hv).
Qed.

Lemma digit_char_not_x d : 0 ≤ d < 16 → digit_char d ≠ 120.
Proof. unfold digit_char. intros Hd. zcases; lia. Qed.

(** What [printnum] prints without padding parses back. *)
Lemma strtol_printnum fuel m p n base (neg : bool) :
  let o := printnum n base (-1) 32 in
  2 ≤ base ≤ 16 → 0 ≤ n < 2 ^ 63 → cstr m p ((if neg then [45] else []) ++ o) → (length o < fuel)%nat →
  strtol fuel m p base
  = Some (if neg then - n else n, p + Z.of_nat (length ((if neg then [45] else []) ++ o))).
Proof.
  intros o Hb Hn. unfold o, printnum.
  destruct (printnum_digits 64 n base (-1) 32) as (ds & E & Hds & Hv & Hne); [lia| |lia|].
  { split; [lia|]. eapply Z.lt_le_trans; [apply Hn|]. etrans; [|apply (Z.pow_le_mono_l 2); lia]. lia. }
  rewrite E. replace (Z.to_nat _) with 0%nat by lia. cbn [replicate app]. intros Hs Hf.
  rewrite (strtol_signed fuel m p base neg (digit_char <$> ds) ds); try done; try lia.
  - rewrite Hv. destruct neg; [rewrite i64_small by lia|]; do 2 f_equal; rewrite ?length_app; simpl; lia.
  - right. destruct ds as [|d [|d' ds]]; [done|left; by eexists|right].
    exists (digit_char d), (digit_char d'), (digit_char <$> ds). split; [done|].
    apply Forall_cons in Hds as [_ [Hd' _]%Forall_cons]. apply digit_char_not_x. lia.
  - by destruct ds.
  - clear -Hds Hb. induction Hds as [|d ds Hd _ IH]; [constructor|]. cbn [fmap list_fmap].
    constructor; [|done]. split; [apply digit_char_value; lia|done].
Qed.

(** The prefix of [%p] is passed over in base 16 and in base 0. *)
Lemma strtol_prefix fuel m p n base :
  base = 16 ∨ base = 0 → 0 ≤ n < 2 ^ 63 →
  let o := printnum n 16 (-1) 32 in
  cstr m p (48 :: 120 :: o) → (length o < fuel)%nat →
  strtol fuel m p base = Some (n, p + Z.of_nat (length (48 :: 120 :: o))).
Proof.
  intros Hb Hn o (E1 & _ & E2 & _ & Hs) Hf. unfold o, printnum in *.
  destruct (printnum_digits 64 n 16 (-1) 32) as (ds & E & Hds & Hv & Hne); [lia| |lia|].
  { split; [lia|]. eapply Z.lt_le_trans; [apply Hn|]. etrans; [|apply (Z.pow_le_mono_l 2); lia]. lia. }
  rewrite E in *. clear E. replace (Z.to_nat _) with 0%nat in * by lia. cbn [replicate app] in *.
  destruct fuel as [|fuel]; [lia|]. unfold strtol. cbn [skip_blanks]. rewrite E1.
  change (48 =? 32) with false. change (48 =? 9) with false. cbn [orb mbind option_bind]. rewrite E1.
  change (48 =? 43) with false. change (48 =? 45) with false. cbv iota beta. rewrite E1, E2.
  change (48 =? 48) with true. change (120 =? 120) with true. cbn [andb].
  replace (((base =? 0) || (base =? 16)) && true) with true by (destruct Hb; by subst).
  replace (p + 2) with (p + 1 + 1) by lia.
  rewrite (strtol_digits_run (S fuel) m (p + 1 + 1) 16 (digit_char <$> ds) ds 0 Hs); try lia.
  - cbn. rewrite Hv. do 2 f_equal. lia.
  - clear -Hds. induction Hds as [|d ds Hd _ IH]; [constructor|]. cbn [fmap list_fmap].
    constructor; [|done]. split; [apply digit_char_value; lia|done].
Qed.

Lemma strtol_print_signed fuel m p n :
  - 2 ^ 63 < n < 2 ^ 63 → let o := print_signed n flags0 in
  cstr m p o → (length o < fuel)%nat → strtol fuel m p 10 = Some (n, p + Z.of_nat (length o)).
Proof.
  intros Hn o. unfold o, print_signed. cbn [width padc flags0]. intros Hs Hf. destruct (Z.ltb_spec n 0).
  - rewrite u64_small in * by (unfold is_u64; lia).
    rewrite (strtol_printnum fuel m p (- n) 10 true); [|lia|lia|done|simpl in Hf; lia].
    by rewrite Z.opp_involutive.
  - by apply (strtol_printnum fuel m p n 10 false); [lia|lia|..].
Qed.

Lemma print_exists fmt ap (P : list Z → Prop) o :
  vprintfmt fmt ap = Printed (o ++ []) → P o → ∃ o, vprintfmt fmt ap = Printed o ∧ P o.
Proof. rewrite app_nil_r. eauto. Qed.

Ltac unsigned :=
  intros;
  match goal with
  | |- strtol ?fuel ?m ?p ?b = Some (?n, _) => by apply (strtol_printnum fuel m p n b false); [lia|lia|..]
  end.

(** The integer conversions: the format, the base that reads it back, and the bounds
    of the values, those of [int] and [unsigned int], or, with [l], those of which
    [strtol] can hold the magnitude in a [long]. *)
Definition conversions : list (list Z * Z * Z * Z) :=
  [(str "%d", 10, - 2 ^ 31, 2 ^ 31); (str "%u", 10, 0, 2 ^ 32); (str "%x", 16, 0, 2 ^ 32);
   (str "%o", 8, 0, 2 ^ 32); (str "%ld", 10, 1 - 2 ^ 63, 2 ^ 63); (str "%lu", 10, 0, 2 ^ 63);
   (str "%lx", 16, 0, 2 ^ 63); (str "%lo", 8, 0, 2 ^ 63); (str "%p", 16, 0, 2 ^ 63);
   (str "%p", 0, 0, 2 ^ 63)].

(** C39  Printing and parsing numbers are inverse: for [%d], [%u], [%x] and [%o] on every
    32-bit value, for the same conversions with [l] and for [%p] on every value whose
    magnitude is below 2^63, [vprintfmt] prints a text that [strtol], in the base of the
    conversion (for [%p] also in base 0), reads back as the same number, up to the end of
    the text. *)
Theorem strtol_vprintfmt (fmt : list Z) (base lo hi n : Z) :
  (fmt, base, lo, hi) ∈ conversions → lo ≤ n < hi →
  ∃ o, vprintfmt fmt [VInt n] = Printed o ∧
    ∀ (m : bytes) (p : Z) (fuel : nat), cstr m p o → (length o < fuel)%nat →
      strtol fuel m p base = Some (n, p + Z.of_nat (length o)).
Proof.
  intros Hc Hn. unfold conversions in Hc. rewrite !elem_of_cons, elem_of_nil in Hc.
  destruct_or! Hc; injection Hc as -> -> -> ->.
  - apply (print_exists _ _ _ (print_signed (i32 n) flags0)); [done|]. rewrite i32_small by lia.
    intros. by apply strtol_print_signed; [lia|..].
  - apply (print_exists _ _ _ (printnum (u32 n) 10 (-1) 32)); [done|]. rewrite u32_small by lia. unsigned.
  - apply (print_exists _ _ _ (printnum (u32 n) 16 (-1) 32)); [done|]. rewrite u32_small by lia. unsigned.
  - apply (print_exists _ _ _ (printnum (u32 n) 8 (-1) 32)); [done|]. rewrite u32_small by lia. unsigned.
  - apply (print_exists _ _ _ (print_signed (i64 n) flags0)); [done|]. rewrite i64_small by lia.
    intros. by apply strtol_print_signed; [lia|..].
  - apply (print_exists _ _ _ (printnum (u64 n) 10 (-1) 32)); [done|]. rewrite u64_small by (unfold is_u64; lia). unsigned.
  - apply (print_exists _ _ _ (printnum (u64 n) 16 (-1) 32)); [done|]. rewrite u64_small by (unfold is_u64; lia). unsigned.
  - apply (print_exists _ _ _ (printnum (u64 n) 8 (-1) 32)); [done|]. rewrite u64_small by (unfold is_u64; lia). unsigned.
  - apply (print_exists _ _ _ (48 :: 120 :: printnum (u64 n) 16 (-1) 32)); [done|]. rewrite u64_small by (unfold is_u64; lia).
    intros. apply strtol_prefix; [by left|done|done|simpl in *; lia].
  - apply (print_exists _ _ _ (48 :: 120 :: printnum (u64 n) 16 (-1) 32)); [done|]. rewrite u64_small by (unfold is_u64; lia).
    intros. apply strtol_prefix; [by right|done|done|simpl in *; lia].
Qed.

(** The text of -42 at address 10. *)
Definition number_example : bytes := {[10 := 45; 11 := 52; 12 := 50]}.

Lemma strtol_vprintfmt_witness : strtol 4 number_example 10 10 = Some (-42, 10 + Z.of_nat 3).
Proof.
  destruct (strtol_vprintfmt (str "%d") 10 (- 2 ^ 31) (2 ^ 31) (-42)) as (o & E & H); [left|lia|].
  replace o with (str "-42") in H by (vm_compute in E; by injection E as <-).
  apply (H number_example 10 4%nat); [by vm_compute|simpl; lia].
Defined.

(** ** Buffered output *)

Lemma putch_run o : ∀ b, (length (pb_buf b) < 255)%nat → Forall (λ l, (length l ≤ 255)%nat) (pb_calls b) →
  0 ≤ pb_cnt b → pb_cnt b + Z.of_nat (length o) < 2 ^ 31 →
  let b' := foldl putch b o in
  concat (pb_calls b') ++ pb_buf b' = concat (pb_calls b) ++ pb_buf b ++ (u8 <$> o) ∧
  pb_cnt b' = pb_cnt b + Z.of_nat (length o) ∧ (length (pb_buf b') < 255)%nat ∧
  Forall (λ l, (length l ≤ 255)%nat) (pb_calls b').
Proof.
  induction o as [|x o IH]; intros b Hb Hc Hn Hl b'; cbn [foldl length fmap list_fmap] in *.
  { unfold b'. by rewrite app_nil_r, Z.add_0_r. }
  unfold b'. clear b'. set (b1 := putch b x).
  assert (concat (pb_calls b1) ++ pb_buf b1 = concat (pb_calls b) ++ pb_buf b ++ [u8 x] ∧
    pb_cnt b1 = pb_cnt b + 1 ∧ (length (pb_buf b1) < 255)%nat ∧
    Forall (λ l, (length l ≤ 255)%nat) (pb_calls b1)) as (E1 & E2 & E3 & E4).
  { unfold b1, putch. rewrite i32_small by lia.
    destruct (Z.eqb_spec (Z.of_nat (length (pb_buf b ++ [u8 x]))) (256 - 1)) as [E|E];
      cbn [pb_calls pb_buf pb_cnt]; rewrite length_app in *; simpl in *; split_and!; try done; try lia.
    - rewrite concat_app. cbn [concat]. by rewrite !app_nil_r.
    - apply Forall_app. split; [done|]. apply Forall_singleton. rewrite length_app. simpl. lia. }
  destruct (IH b1 E3 E4 ltac:(lia) ltac:(lia)) as (F1 & F2 & F3 & F4). split_and!; try done; [|lia].
  rewrite F1, app_assoc, E1, <-!app_assoc. done.
Qed.

(** User-level [vcprintf] passes its whole output to [sys_cputs] in order, in pieces
    of at most 255 characters, and returns its length. *)
Theorem vcprintf_output (fmt : list Z) (ap : list va) (o : list Z) :
  vprintfmt fmt ap = Printed o → Z.of_nat (length o) < 2 ^ 31 →
  ∃ calls, vcprintf fmt ap = Some (Z.of_nat (length o), calls) ∧ concat calls = u8 <$> o ∧
    Forall (λ l, (length l ≤ 255)%nat) calls.
Proof.
  intros Ho Hl. unfold vcprintf. rewrite Ho.
  destruct (putch_run o (mkPrintbuf [] 0 [])) as (E1 & E2 & E3 & E4); [simpl; lia|done|simpl; lia|simpl; lia|].
  eexists. split; [by rewrite E2|]. split.
  - rewrite concat_app. cbn [concat]. by rewrite app_nil_r, E1.
  - apply Forall_app. split; [done|]. apply Forall_singleton. lia.
Qed.

(** The kernel's [vcprintf] returns 0 whatever it prints. *)
Theorem kern_vcprintf_count (fmt : list Z) (ap : list va) (o : list Z) :
  vprintfmt fmt ap = Printed o → Kern.vcprintf fmt ap = Some (0, o).
Proof.
  intros Ho. unfold Kern.vcprintf. rewrite Ho. f_equal.
  assert (∀ st, foldl Kern.putch st o = (fst st, snd st ++ o)) as E; [|by rewrite E].
  clear Ho. induction o as [|x o IH]; intros [c l]; cbn [foldl Kern.putch fst snd].
  - by rewrite app_nil_r.
  - rewrite IH. simpl. by rewrite <-app_assoc.
Qed.

(** The flag [-] pads a number with dashes on the left, not with blanks on the right. *)
Theorem minus_flag_pads_with_dashes : vprintfmt (str "%-5d") [VInt 42] = Printed (str "---42").
Proof. by vm_compute. Qed.

(** [readline] keeps the line inside the 1024-byte buffer. *)
Theorem readline_bounded (input : list Z) (echoing : bool) (l o : list Z) :
  readline input echoing = (Some (Some l), o) → Z.of_nat (length l) < BUFLEN.
Proof.
  unfold readline. assert (Z.of_nat (length (@nil Z)) < BUFLEN) as H0 by done. revert H0.
  generalize (@nil Z) as line. revert o. induction input as [|c input IH]; intros o line Hl; cbn [readline_loop]; [done|].
  destruct (c <? 0); [done|]. destruct (_ && (0 <? _)).
  { destruct (readline_loop input _ echoing) as [r e] eqn:E. simpl. intros [= -> _].
    apply (IH _ _) in E; [done|]. rewrite length_take. lia. }
  destruct (32 <=? c), (Z.ltb_spec (Z.of_nat (length line)) (BUFLEN - 1)); cbn [andb].
  { destruct (readline_loop input _ echoing) as [r e] eqn:E. simpl. intros [= -> _].
    apply (IH _ _) in E; [done|]. rewrite length_app. simpl. lia. }
  all: destruct ((c =? 10) || (c =? 13)); [by intros [= <- _]|by apply IH].
Qed.
