(* ===== verification/Words.v ===== *)
(** * Little-endian words in byte memory

    32-bit loads and stores on the memory of [Strings], as the user-level code
    compiled for RISC-V makes them. *)

From S2P Require Import Prelude Strings.

Definition ld32 (m : bytes) (a : Z) : Z :=
  rdb m a + 2 ^ 8 * rdb m (a + 1) + 2 ^ 16 * rdb m (a + 2) + 2 ^ 24 * rdb m (a + 3).
Definition st32 (m : bytes) (a v : Z) : bytes :=
  wrb (wrb (wrb (wrb m a v) (a + 1) (v / 2 ^ 8)) (a + 2) (v / 2 ^ 16)) (a + 3) (v / 2 ^ 24).

Lemma rdb_st32_out m a v b : ¬ (a ≤ b < a + 4) → rdb (st32 m a v) b = rdb m b.
Proof. intros H. unfold st32. rewrite !rdb_wrb, !decide_False by lia. done. Qed.

Lemma ld32_ext m m' a : (∀ b, a ≤ b < a + 4 → rdb m' b = rdb m b) → ld32 m' a = ld32 m a.
Proof. intros H. unfold ld32. rewrite !H by lia. done. Qed.

Lemma ld32_st32_ne m a v b : a + 4 ≤ b ∨ b + 4 ≤ a → ld32 (st32 m a v) b = ld32 m b.
Proof. intros H. apply ld32_ext. intros c Hc. apply rdb_st32_out. lia. Qed.

Lemma ld32_st32_eq m a v : ld32 (st32 m a v) a = u32 v.
Proof.
  unfold ld32, st32. rewrite !rdb_wrb. repeat case_decide; try lia. unfold u8, u32.
  Z.div_mod_to_equations. lia.
Qed.

Lemma ld32_bound m a : bytes_ok m → 0 ≤ ld32 m a < 2 ^ 32.
Proof.
  intros H. unfold ld32. pose proof (H a). pose proof (H (a + 1)). pose proof (H (a + 2)).
  pose proof (H (a + 3)). lia.
Qed.

Lemma bytes_ok_st32 m a v : bytes_ok m → bytes_ok (st32 m a v).
Proof. intros H. unfold st32. by repeat apply bytes_ok_wrb. Qed.

(** Clearing one bit, setting one bit. *)
Lemma testbit_clearbit w i j :
  0 ≤ i → 0 ≤ j → Z.testbit (Z.land w (Z.lnot (2 ^ i))) j = if decide (i = j) then false else Z.testbit w j.
Proof.
  intros Hi Hj. rewrite Z.land_spec, Z.lnot_spec by done. case_decide as H.
  - subst. by rewrite Z.pow2_bits_true, andb_false_r.
  - by rewrite Z.pow2_bits_false, andb_true_r by done.
Qed.
Lemma testbit_setbit w i j :
  0 ≤ i → 0 ≤ j → Z.testbit (Z.lor w (2 ^ i)) j = if decide (i = j) then true else Z.testbit w j.
Proof.
  intros Hi Hj. rewrite Z.lor_spec. case_decide as H.
  - subst. by rewrite Z.pow2_bits_true, orb_true_r.
  - by rewrite Z.pow2_bits_false, orb_false_r by done.
Qed.

Lemma land_pow2_nonzero w i : 0 ≤ i → (Z.land w (2 ^ i) =? 0) = negb (Z.testbit w i).
Proof.
  intros Hi. destruct (Z.testbit w i) eqn:E; simpl.
  - apply Z.eqb_neq. intros H. apply land_pow2_testbit in H; [congruence|done].
  - apply Z.eqb_eq. by apply land_pow2_testbit.
Qed.

Lemma land_bound w k n : 0 ≤ n → 0 ≤ w < 2 ^ n → 0 ≤ Z.land w k < 2 ^ n.
Proof.
  intros Hn Hw. rewrite <-(Z.mod_small w (2 ^ n)), <-Z.land_ones by done.
  rewrite <-Z.land_assoc, (Z.land_comm (Z.ones n)), Z.land_assoc, Z.land_ones by done.
  apply Z.mod_pos_bound. lia.
Qed.

(** The bytes of a word. *)
Lemma four_cases k : 0 ≤ k < 4 → k = 0 ∨ k = 1 ∨ k = 2 ∨ k = 3.
Proof. lia. Qed.

Lemma rdb_st32_in m a v k : 0 ≤ k < 4 → rdb (st32 m a v) (a + k) = u8 (v / 2 ^ (8 * k)).
Proof.
  intros Hk. unfold st32. rewrite !rdb_wrb.
  destruct (four_cases k Hk) as [-> | [-> | [-> | ->]]]; repeat case_decide; try lia; simpl; by rewrite ?Z.div_1_r.
Qed.

Lemma ld32_byte m a k : bytes_ok m → 0 ≤ k < 4 → u8 (ld32 m a / 2 ^ (8 * k)) = rdb m (a + k).
Proof.
  intros Hm Hk. unfold ld32, u8.
  pose proof (Hm a). pose proof (Hm (a + 1)). pose proof (Hm (a + 2)). pose proof (Hm (a + 3)).
  destruct (four_cases k Hk) as [-> | [-> | [-> | ->]]]; simpl; rewrite ?Z.add_0_r; Z.div_mod_to_equations; lia.
Qed.
