(* ===== verification/Fs.v ===== *)
(** * The file system of fs/fs.c

    Block bitmap, block map of a file, directories, paths, and reading, writing
    and truncating files.  The server sees the disk through its block cache at
    [DISKMAP]; this file works on that view, [fmem], in which block [b] is the 4096
    bytes at [DISKMAP + 4096 b], together with the server's other memory.  [flash]
    is what the device holds.  [Bc] shows that the page-fault driven cache of
    fs/bc.c gives this view. *)

From S2P Require Import Prelude Mmu Strings Words.

(** ** inc/riscv/fs.h and fs/fs.h *)

Definition BLKSIZE : Z := PGSIZE.
Definition BLKBITSIZE : Z := BLKSIZE * 8.
Definition MAXNAMELEN : Z := 128.
Definition MAXPATHLEN : Z := 1024.
Definition NDIRECT : Z := 10.
Definition NINDIRECT : Z := BLKSIZE / 4.
Definition MAXFILESIZE : Z := (NDIRECT + NINDIRECT) * BLKSIZE.
Definition BLKFILES : Z := BLKSIZE / 256.
Definition FTYPE_REG : Z := 0.
Definition FTYPE_DIR : Z := 1.
Definition FS_MAGIC : Z := 0x4A0530AE.
Definition DISKMAP : Z := 0x10000000.
Definition DISKSIZE : Z := 0xC0000000.

(** Offsets in the packed [struct File] and in [struct Super]. *)
Definition f_size : Z := 128.
Definition f_type : Z := 132.
Definition f_direct (i : Z) : Z := 136 + 4 * i.
Definition f_indirect : Z := 176.
Definition s_nblocks : Z := 4.
Definition s_root : Z := 8.

Record fsstate := mkFs { fmem : bytes; flash : bytes; super : Z; bitmap : Z }.
Definition set_fmem (m : bytes) (s : fsstate) : fsstate := mkFs m (flash s) (super s) (bitmap s).
Definition set_flash (d : bytes) (s : fsstate) : fsstate := mkFs (fmem s) d (super s) (bitmap s).
Definition set_super (a : Z) (s : fsstate) : fsstate := mkFs (fmem s) (flash s) a (bitmap s).
Definition set_bitmap (a : Z) (s : fsstate) : fsstate := mkFs (fmem s) (flash s) (super s) a.

Definition F (A : Type) : Type := M fsstate A.

Definition load32 (a : Z) : F Z := gets (λ s, ld32 (fmem s) a).
Definition store32 (a v : Z) : F unit := modify (λ s, set_fmem (st32 (fmem s) a v) s).
Definition load8 (a : Z) : F Z := gets (λ s, rdb (fmem s) a).

(** [super->s_nblocks] *)
Definition nblocks : F Z := sb <- gets super ;; load32 (sb + s_nblocks).

(** ** fs/bc.c, on the view *)

Definition diskaddr (blockno : Z) : F Z :=
  sb <- gets super ;;
  n <- nblocks ;;
  if (blockno =? 0) || (negb (sb =? 0) && (n <=? blockno)) then panic
  else ret (u32 (DISKMAP + blockno * BLKSIZE)).

(** [n] bytes of [src] from [a] on become those of [dst] from [b] on. *)
Fixpoint copy_bytes (n : nat) (src : bytes) (a : Z) (dst : bytes) (b : Z) : bytes :=
  match n with O => dst | S n' => copy_bytes n' src (a + 1) (wrb dst b (rdb src a)) (b + 1) end.

(** The device gets the block of [addr] as the view has it. *)
Definition flush_block (addr : Z) : F unit :=
  if (addr <? DISKMAP) || (DISKMAP + DISKSIZE <=? addr) then panic else
  let a := ROUNDDOWN addr BLKSIZE in
  modify (λ s, set_flash (copy_bytes (Z.to_nat BLKSIZE) (fmem s) a (flash s) (a - DISKMAP)) s).

(** ** Super block and bitmap *)

Definition check_super : F unit :=
  sb <- gets super ;;
  magic <- load32 sb ;;
  if negb (magic =? FS_MAGIC) then panic else
  n <- nblocks ;;
  if DISKSIZE / BLKSIZE <? n then panic else ret tt.

(** [bitmap\[i / 32\] & (1 << (i % 32))] *)
Definition bit_word (blockno : Z) : F (Z * Z) :=
  bm <- gets bitmap ;; w <- load32 (bm + 4 * (blockno / 32)) ;; ret (bm + 4 * (blockno / 32), w).

Definition block_is_free (blockno : Z) : F bool :=
  sb <- gets super ;;
  n <- nblocks ;;
  if (sb =? 0) || (n <=? blockno) then ret false else
  w <- bit_word blockno ;;
  ret (negb (Z.land (snd w) (2 ^ (blockno mod 32)) =? 0)).

Definition free_block (blockno : Z) : F unit :=
  if blockno =? 0 then panic else
  w <- bit_word blockno ;;
  store32 (fst w) (Z.lor (snd w) (2 ^ (blockno mod 32))).

Fixpoint alloc_block_loop (fuel : nat) (i : Z) : F Z :=
  match fuel with
  | O => ret (- E_NO_DISK)
  | S fuel' =>
      w <- bit_word i ;;
      if negb (Z.land (snd w) (2 ^ (i mod 32)) =? 0) then
        store32 (fst w) (Z.land (snd w) (Z.lnot (2 ^ (i mod 32)))) ;;;
        flush_block (fst w) ;;;
        ret i
      else alloc_block_loop fuel' (i + 1)
  end.
Definition alloc_block : F Z := n <- nblocks ;; alloc_block_loop (Z.to_nat n) 0.

Definition check_bitmap : F unit :=
  n <- nblocks ;;
  for_loop (Z.to_nat ((n + BLKBITSIZE - 1) / BLKBITSIZE)) 0
    (λ i, b <- block_is_free (2 + i) ;; assert_ (negb b)) ;;;
  b <- block_is_free 0 ;; assert_ (negb b) ;;;
  b <- block_is_free 1 ;; assert_ (negb b).

(** Without the self test of the cache. *)
Definition fs_init : F unit :=
  a <- diskaddr 1 ;; modify (set_super a) ;;; check_super ;;;
  b <- diskaddr 2 ;; modify (set_bitmap b) ;;; check_bitmap.

(** ** The block map of a file *)

(** The missing indirect block, cleared; the result code. *)
Definition alloc_indirect (f : Z) : F Z :=
  r <- alloc_block ;;
  store32 (f + f_indirect) r ;;;
  if r <? 0 then ret (- E_NO_DISK) else
  ind <- load32 (f + f_indirect) ;;
  a <- diskaddr ind ;;
  modify (λ s, set_fmem (memset (fmem s) a 0 BLKSIZE) s) ;;;
  ret 0.

(** The result code and [*ppdiskbno], the address of the slot. *)
Definition file_block_walk (f filebno : Z) (alloc : bool) : F (Z * Z) :=
  if filebno <? NDIRECT then ret (0, f + f_direct filebno) else
  let filebno := filebno - NDIRECT in
  if filebno <? NINDIRECT then
    ind <- load32 (f + f_indirect) ;;
    r <- (if ind =? 0 then
            if negb alloc then ret (- E_NOT_FOUND) else alloc_indirect f
          else ret 0) ;;
    if r <? 0 then ret (r, 0) else
    ind <- load32 (f + f_indirect) ;;
    blk <- diskaddr ind ;;
    ret (0, blk + 4 * filebno)
  else ret (- E_INVAL, 0).

(** The result code and [*blk]. *)
Definition file_get_block (f filebno : Z) : F (Z * Z) :=
  n <- nblocks ;;
  if n <? filebno then ret (- E_INVAL, 0) else
  w <- file_block_walk f filebno true ;;
  if fst w <? 0 then ret (fst w, 0) else
  b <- load32 (snd w) ;;
  r <- (if b =? 0 then
          r <- alloc_block ;;
          store32 (snd w) r ;;;
          ret (if r <? 0 then - E_NO_DISK else 0)
        else ret 0) ;;
  if r <? 0 then ret (r, 0) else
  b <- load32 (snd w) ;;
  blk <- diskaddr b ;;
  ret (0, blk).

(** ** Directories *)

(** [strcmp(p, name) == 0] for a name without NUL. *)
Fixpoint streq (m : bytes) (p : Z) (name : list Z) : bool :=
  match name with
  | [] => rdb m p =? 0
  | c :: name' => (rdb m p =? c) && streq m (p + 1) name'
  end.

(** The first of [n] entries from [f] on that satisfies [P]. *)
Fixpoint find_entry (n : nat) (f : Z) (P : bytes → Z → bool) : F (option Z) :=
  match n with
  | O => ret None
  | S n' => m <- gets fmem ;; if P m f then ret (Some f) else find_entry n' (f + 256) P
  end.

(** The scan of the first [n] blocks of a directory from block [i] on: an error, an
    entry, or none. *)
Fixpoint dir_scan (n : nat) (dir i : Z) (P : bytes → Z → bool) : F (Z * option Z) :=
  match n with
  | O => ret (0, None)
  | S n' =>
      r <- file_get_block dir i ;;
      if fst r <? 0 then ret (fst r, None) else
      e <- find_entry (Z.to_nat BLKFILES) (snd r) P ;;
      match e with Some f => ret (0, Some f) | None => dir_scan n' dir (i + 1) P end
  end.

(** [dir->f_size], an [off_t] of 32 bits. *)
Definition file_size (f : Z) : F Z := v <- load32 (f + f_size) ;; ret (i32 v).

(** [f_size % BLKSIZE] is on [int]s, [nblock] is a [uint32_t]. *)
Definition dir_lookup (dir : Z) (name : list Z) : F (Z * Z) :=
  size <- file_size dir ;;
  assert_ (Z.rem size BLKSIZE =? 0) ;;;
  r <- dir_scan (Z.to_nat (u32 (Z.quot size BLKSIZE))) dir 0 (λ m p, streq m p name) ;;
  if fst r <? 0 then ret (fst r, 0) else
  match snd r with Some f => ret (0, f) | None => ret (- E_NOT_FOUND, 0) end.

Definition dir_alloc_file (dir : Z) : F (Z * Z) :=
  size <- file_size dir ;;
  assert_ (Z.rem size BLKSIZE =? 0) ;;;
  let nblock := u32 (Z.quot size BLKSIZE) in
  r <- dir_scan (Z.to_nat nblock) dir 0 (λ m p, rdb m p =? 0) ;;
  if fst r <? 0 then ret (fst r, 0) else
  match snd r with
  | Some f => ret (0, f)
  | None =>
      store32 (dir + f_size) (size + BLKSIZE) ;;;
      r <- file_get_block dir nblock ;;
      if fst r <? 0 then ret (fst r, 0) else ret (0, snd r)
  end.

(** ** Paths *)

(** A path is given by its characters; what is left of it is a suffix. *)
Fixpoint skip_slash (path : list Z) : list Z :=
  match path with c :: path' => if c =? 47 then skip_slash path' else path | [] => [] end.

(** The characters up to the next slash, and the rest. *)
Fixpoint path_elem (path : list Z) : list Z * list Z :=
  match path with
  | c :: path' => if c =? 47 then ([], path) else let '(e, r) := path_elem path' in (c :: e, r)
  | [] => ([], [])
  end.

(** The result code, [*pdir], [*pf] and, where it is set, [lastelem]. *)
Definition walked : Type := Z * Z * Z * list Z.

(** The loop of [walk_path] at file [f], with the directory of [f] in [dir]. *)
Fixpoint walk_loop (fuel : nat) (path : list Z) (dir f : Z) : F walked :=
  match path, fuel with
  | [], _ => ret (0, dir, f, [])
  | _, O => noret
  | _, S fuel' =>
      let '(name, rest) := path_elem path in
      if MAXNAMELEN <=? Z.of_nat (length name) then ret (- E_BAD_PATH, 0, 0, []) else
      let path := skip_slash rest in
      ty <- load32 (f + f_type) ;;
      if negb (ty =? FTYPE_DIR) then ret (- E_NOT_FOUND, 0, 0, []) else
      r <- dir_lookup f name ;;
      if fst r <? 0 then
        ret (if (fst r =? - E_NOT_FOUND) && bool_decide (path = [])
             then (fst r, f, 0, name) else (fst r, 0, 0, []))
      else walk_loop fuel' path f (snd r)
  end.

Definition walk_path (path : list Z) : F walked :=
  sb <- gets super ;;
  let path := skip_slash path in
  walk_loop (length path) path 0 (sb + s_root).

(** ** Size and flushing *)

Definition file_free_block (f filebno : Z) : F Z :=
  w <- file_block_walk f filebno false ;;
  if fst w <? 0 then ret (fst w) else
  b <- load32 (snd w) ;;
  (if negb (b =? 0) then free_block b ;;; store32 (snd w) 0 else ret tt) ;;;
  ret 0.

(** [(size + BLKSIZE - 1) / BLKSIZE] on [int]s, as a [uint32_t]. *)
Definition size_blocks (size : Z) : Z := u32 (Z.quot (i32 (size + BLKSIZE - 1)) BLKSIZE).

Definition file_truncate_blocks (f newsize : Z) : F unit :=
  size <- file_size f ;;
  let old_nblocks := size_blocks size in
  let new_nblocks := size_blocks newsize in
  for_loop (Z.to_nat (old_nblocks - new_nblocks)) new_nblocks
    (λ bno, r <- file_free_block f bno ;; ret tt) ;;;
  ind <- load32 (f + f_indirect) ;;
  if (new_nblocks <=? NDIRECT) && negb (ind =? 0)
  then free_block ind ;;; store32 (f + f_indirect) 0
  else ret tt.

Definition file_set_size (f newsize : Z) : F Z :=
  size <- file_size f ;;
  (if newsize <? size then file_truncate_blocks f newsize else ret tt) ;;;
  store32 (f + f_size) newsize ;;;
  flush_block f ;;;
  ret 0.

Definition file_flush (f : Z) : F unit :=
  size <- file_size f ;;
  for_loop (Z.to_nat (Z.quot (i32 (size + BLKSIZE - 1)) BLKSIZE)) 0 (λ i,
    w <- file_block_walk f (u32 i) false ;;
    if (fst w <? 0) || (snd w =? 0) then ret tt else
    b <- load32 (snd w) ;;
    if b =? 0 then ret tt else a <- diskaddr b ;; flush_block a) ;;;
  flush_block f ;;;
  ind <- load32 (f + f_indirect) ;;
  if negb (ind =? 0) then a <- diskaddr ind ;; flush_block a else ret tt.

Definition fs_sync : F unit :=
  n <- nblocks ;;
  for_loop (Z.to_nat (n - 1)) 1 (λ i, a <- diskaddr i ;; flush_block a).

(** ** Reading and writing *)

(** The loop from [pos] to [lim = offset + count], an unsigned 64-bit sum; [copy]
    moves [bn] bytes between the block and the buffer.  A round moves at least one
    byte when [pos] is not negative. *)
Fixpoint rw_loop (fuel : nat) (f buf pos lim : Z) (copy : Z → Z → Z → F unit) : F Z :=
  if negb (u64 pos <? lim) then ret 0 else
  match fuel with
  | O => noret
  | S fuel' =>
      r <- file_get_block f (u32 (Z.quot pos BLKSIZE)) ;;
      if fst r <? 0 then ret (fst r) else
      let bn := i32 (Z.min (u64 (BLKSIZE - Z.rem pos BLKSIZE)) (u64 (lim - pos))) in
      copy (snd r + Z.rem pos BLKSIZE) buf bn ;;;
      rw_loop fuel' f (buf + bn) (i32 (pos + bn)) lim copy
  end.

(** The [memmove] of a round of [file_read] and of [file_write]. *)
Definition copy_out (blk buf bn : Z) : F unit := modify (λ s, set_fmem (memmove (fmem s) buf blk (u64 bn)) s).
Definition copy_in (blk buf bn : Z) : F unit := modify (λ s, set_fmem (memmove (fmem s) blk buf (u64 bn)) s).

Definition file_read (f buf count offset : Z) : F Z :=
  size <- file_size f ;;
  if size <=? offset then ret 0 else
  let count := Z.min count (u64 (i32 (size - offset))) in
  r <- rw_loop (Z.to_nat count) f buf offset (u64 (offset + count)) copy_out ;;
  if r <? 0 then ret r else ret count.

(** The result is an [int]. *)
Definition file_write (f buf count offset : Z) : F Z :=
  size <- file_size f ;;
  r <- (if u64 size <? u64 (offset + count) then file_set_size f (i32 (offset + count)) else ret 0) ;;
  if r <? 0 then ret r else
  r <- rw_loop (Z.to_nat count) f buf offset (u64 (offset + count)) copy_in ;;
  if r <? 0 then ret r else ret (i32 count).

(** ** Creating and opening *)

(** [strcpy(p, name)] *)
Fixpoint put_name (m : bytes) (p : Z) (name : list Z) : bytes :=
  match name with [] => wrb m p 0 | c :: name' => put_name (wrb m p c) (p + 1) name' end.

(** The result code and [*pf]. *)
Definition file_create (path : list Z) : F (Z * Z) :=
  w <- walk_path path ;;
  let '(r, dir, f, name) := w in
  if r =? 0 then ret (- E_FILE_EXISTS, 0) else
  if negb (r =? - E_NOT_FOUND) || (dir =? 0) then ret (r, 0) else
  e <- dir_alloc_file dir ;;
  if fst e <? 0 then ret (fst e, 0) else
  modify (λ s, set_fmem (put_name (fmem s) (snd e) name) s) ;;;
  file_flush dir ;;;
  ret (0, snd e).

Definition file_open (path : list Z) : F (Z * Z) :=
  w <- walk_path path ;;
  let '(r, dir, f, name) := w in ret (r, f).
