(* ===== verification/FsInv.v ===== *)
(** * Invariants of the file system and the block allocator

    What a well-formed view of the disk is ([fs_wf]), what the blocks of a file are
    ([file_ok]), and how [alloc_block] and [file_get_block] change them. *)

From S2P Require Import Prelude Mmu Strings Words Fs.

(** ** Layout *)

Definition baddr (b : Z) : Z := DISKMAP + b * BLKSIZE.
Definition SUPER : Z := baddr 1.
Definition BITMAP : Z := baddr 2.

(** Number of blocks a file can have. *)
Definition MAXBLOCKS : Z := NDIRECT + NINDIRECT.

Definition bno (m : bytes) : Z := ld32 m (SUPER + s_nblocks).
Definition data_start (n : Z) : Z := 2 + (n + BLKBITSIZE - 1) / BLKBITSIZE.
Definition bit_addr (b : Z) : Z := BITMAP + 4 * (b / 32).
Definition free (m : bytes) (b : Z) : bool := Z.testbit (ld32 m (bit_addr b)) (b mod 32).

Record fs_wf (s : fsstate) : Prop := {
  fw_super : super s = SUPER;
  fw_bitmap : bitmap s = BITMAP;
  fw_bytes : bytes_ok (fmem s);
  fw_size : data_start (bno (fmem s)) ≤ bno (fmem s) ≤ DISKSIZE / BLKSIZE;
  fw_reserved b : 0 ≤ b < data_start (bno (fmem s)) → free (fmem s) b = false
}.

Ltac layout := unfold bit_addr, SUPER, BITMAP, baddr, data_start, MAXBLOCKS, NINDIRECT, NDIRECT,
  BLKBITSIZE, DISKMAP, DISKSIZE, BLKSIZE, PGSIZE, s_nblocks, s_root, f_size, f_type, f_direct, f_indirect in *;
  change (4096 * 8) with 32768 in *; change (0xC0000000 / 4096) with 786432 in *;
  change (4096 / 4) with 1024 in *.

(** Copying between two memories. *)
Lemma copy_bytes_rdb n src a dst b i :
  rdb (copy_bytes n src a dst b) i = if decide (b ≤ i < b + Z.of_nat n) then u8 (rdb src (a + (i - b))) else rdb dst i.
Proof.
  revert a b dst. induction n as [|n IH]; intros a b dst; cbn [copy_bytes]; [by rewrite decide_False by lia|].
  rewrite IH, rdb_wrb. repeat case_decide; try lia; do 2 f_equal; lia.
Qed.
Lemma bytes_ok_copy n src a dst b : bytes_ok dst → bytes_ok (copy_bytes n src a dst b).
Proof. revert a b dst. induction n as [|n IH]; intros a b dst Hd; cbn [copy_bytes]; [done|]. by apply IH, bytes_ok_wrb. Qed.

Lemma data_start_ge n : data_start n ≤ n → 3 ≤ data_start n.
Proof.
  intros H. layout. destruct (decide (1 ≤ n)).
  - pose proof (Z.div_le_lower_bound (n + 32768 - 1) 32768 1). lia.
  - pose proof (Z.div_le_lower_bound (n + 32768 - 1) 32768 n). lia.
Qed.

(** A bitmap word lies in the bitmap blocks. *)
Lemma bit_addr_bounds n b :
  0 ≤ b < n → n ≤ DISKSIZE / BLKSIZE → BITMAP ≤ bit_addr b ∧ bit_addr b + 4 ≤ baddr (data_start n).
Proof. intros Hb Hn. layout. Z.div_mod_to_equations. lia. Qed.

Lemma nblocks_Ret s : fs_wf s → nblocks s = Ret (bno (fmem s)) s.
Proof.
  intros Hw. unfold nblocks. step_pure. rewrite (fw_super _ Hw). done.
Qed.

Lemma diskaddr_Ret s b :
  fs_wf s → 0 < b < bno (fmem s) → diskaddr b s = Ret (baddr b) s.
Proof.
  intros Hw Hb. unfold diskaddr. step_pure. step_with (nblocks_Ret s Hw). rewrite (fw_super _ Hw).
  pose proof (fw_size _ Hw). destruct (Z.eqb_spec b 0); [lia|].
  destruct (Z.leb_spec (bno (fmem s)) b); [lia|]. rewrite andb_false_r. cbn [orb].
  unfold ret. f_equal. apply u32_small. layout. lia.
Qed.

Lemma diskaddr_bad s b :
  fs_wf s → b = 0 ∨ bno (fmem s) ≤ b → diskaddr b s = Panic s.
Proof.
  intros Hw Hb. unfold diskaddr. step_pure. step_with (nblocks_Ret s Hw). rewrite (fw_super _ Hw).
  change (SUPER =? 0) with false. cbn [negb andb].
  destruct (Z.eqb_spec b 0); [done|]. destruct (Z.leb_spec (bno (fmem s)) b); [done|lia].
Qed.

Lemma flush_block_Ret s a :
  DISKMAP ≤ a < DISKMAP + DISKSIZE → ∃ d, flush_block a s = Ret tt (set_flash d s).
Proof.
  intros Ha. unfold flush_block. zcases; try lia. cbn [orb]. by eexists.
Qed.

(** ** The bitmap *)

Lemma bit_word_Ret s b : fs_wf s → bit_word b s = Ret (bit_addr b, ld32 (fmem s) (bit_addr b)) s.
Proof. intros Hw. unfold bit_word. step_pure. rewrite (fw_bitmap _ Hw). done. Qed.

(** What a change of the bit of [b] to [v] leaves. *)
Record bit_set (s s' : fsstate) (b : Z) (v : bool) : Prop := {
  bs_super : super s' = super s;
  bs_bitmap : bitmap s' = bitmap s;
  bs_bytes : bytes_ok (fmem s');
  bs_out a : ¬ (BITMAP ≤ a < baddr (data_start (bno (fmem s)))) → rdb (fmem s') a = rdb (fmem s) a;
  bs_free b' : 0 ≤ b' → free (fmem s') b' = if decide (b' = b) then v else free (fmem s) b'
}.

Lemma bno_out m m' :
  (∀ a, ¬ (BITMAP ≤ a) → rdb m' a = rdb m a) → bno m' = bno m.
Proof. intros H. unfold bno. apply ld32_ext. intros a Ha. apply H. layout. lia. Qed.

Lemma bit_set_bno s s' b v : bit_set s s' b v → bno (fmem s') = bno (fmem s).
Proof. intros H. apply bno_out. intros a Ha. apply (bs_out _ _ _ _ H). tauto. Qed.

Lemma bit_set_wf s s' b : fs_wf s → bit_set s s' b false → fs_wf s'.
Proof.
  intros Hw H. pose proof (bit_set_bno _ _ _ _ H) as En. destruct Hw as [H1 H2 H3 H4 H5]. split.
  - by rewrite (bs_super _ _ _ _ H).
  - by rewrite (bs_bitmap _ _ _ _ H).
  - apply H.
  - by rewrite En.
  - rewrite En. intros b' Hb. rewrite (bs_free _ _ _ _ H) by lia. case_decide; [done|by apply H5].
Qed.

(** Storing a changed word. *)
Lemma bit_store s b w d (v : bool) :
  fs_wf s → 0 ≤ b < bno (fmem s) → 0 ≤ w < 2 ^ 32 →
  (∀ j, 0 ≤ j → Z.testbit w j = if decide (b mod 32 = j) then v else Z.testbit (ld32 (fmem s) (bit_addr b)) j) →
  bit_set s (set_flash d (set_fmem (st32 (fmem s) (bit_addr b) w) s)) b v.
Proof.
  intros Hw Hb Hw32 Hbits. pose proof (fw_size _ Hw) as Hn.
  pose proof (bit_addr_bounds _ b Hb (proj2 Hn)) as Hba. split; simpl; try done.
  - by apply bytes_ok_st32, Hw.
  - intros a Ha. apply rdb_st32_out. lia.
  - intros b' Hb'. unfold free. pose proof (Z.mod_pos_bound b' 32 ltac:(lia)).
    destruct (decide (b' / 32 = b / 32)) as [E|E].
    + assert (bit_addr b' = bit_addr b) as -> by (unfold bit_addr; by rewrite E).
      rewrite ld32_st32_eq, u32_small, Hbits by lia.
      pose proof (Z.div_mod b 32). pose proof (Z.div_mod b' 32). repeat case_decide; try done; lia.
    + rewrite ld32_st32_ne; [|unfold bit_addr; lia]. case_decide as Hd; [by subst|done].
Qed.

Lemma free_block_run s b :
  fs_wf s → data_start (bno (fmem s)) ≤ b < bno (fmem s) →
  ∃ s', free_block b s = Ret tt s' ∧ bit_set s s' b true ∧ flash s' = flash s.
Proof.
  intros Hw Hb. unfold free_block. pose proof (data_start_ge (bno (fmem s))).
  destruct (Z.eqb_spec b 0); [lia|]. step_with (bit_word_Ret s b Hw). cbn [fst snd].
  unfold store32, modify. eexists. split; [done|]. split; [|done].
  pose proof (Z.mod_pos_bound b 32 ltac:(lia)) as Hm.
  pose proof (ld32_bound (fmem s) (bit_addr b) (fw_bytes _ Hw)) as Hl.
  replace (set_fmem _ s) with (set_flash (flash s) (set_fmem (st32 (fmem s) (bit_addr b)
    (Z.lor (ld32 (fmem s) (bit_addr b)) (2 ^ (b mod 32)))) s)) by by destruct s.
  apply bit_store; [done|lia| |].
  - apply lor_bound; [lia|done|]. split; [lia|]. apply Z.pow_lt_mono_r; lia.
  - intros j Hj. apply testbit_setbit; lia.
Qed.

(** The loop of [alloc_block] from block [i] on. *)
Lemma alloc_block_loop_run s n i :
  fs_wf s → 0 ≤ i → i + Z.of_nat n = bno (fmem s) →
  (∃ b, i ≤ b < bno (fmem s) ∧ free (fmem s) b = true ∧
     (∀ b', i ≤ b' < b → free (fmem s) b' = false) ∧
     ∃ s', alloc_block_loop n i s = Ret b s' ∧ bit_set s s' b false) ∨
  ((∀ b, i ≤ b < bno (fmem s) → free (fmem s) b = false) ∧
   alloc_block_loop n i s = Ret (- E_NO_DISK) s).
Proof.
  intros Hw. revert i. induction n as [|n IH]; intros i Hi Hn; cbn [alloc_block_loop].
  { right. split; [lia|done]. }
  pose proof (Z.mod_pos_bound i 32 ltac:(lia)) as Hm. step_with (bit_word_Ret s i Hw). cbn [fst snd].
  rewrite land_pow2_nonzero, negb_involutive by lia. fold (free (fmem s) i).
  destruct (free (fmem s) i) eqn:Hf.
  - left. exists i. split_and!; [lia|lia|done|lia|].
    set (w := Z.land (ld32 (fmem s) (bit_addr i)) (Z.lnot (2 ^ (i mod 32)))).
    pose proof (bit_addr_bounds (bno (fmem s)) i ltac:(lia) (proj2 (fw_size _ Hw))) as Hba.
    unfold store32. step_pure. set (s1 := set_fmem _ s).
    destruct (flush_block_Ret s1 (bit_addr i)) as [d E].
    { pose proof (fw_size _ Hw). layout. lia. }
    step_with E. eexists. split; [done|]. apply bit_store; [done|lia| |].
    + by apply land_bound; [lia|apply ld32_bound, Hw].
    + intros j Hj. apply testbit_clearbit; lia.
  - destruct (IH (i + 1)) as [(b & Hb & Hfb & Hmin & Hs')|[Hno E]]; [lia|lia| |].
    + left. exists b. split_and!; [lia|lia|done| |done].
      intros b' Hb'. destruct (decide (b' = i)) as [->|]; [done|]. apply Hmin. lia.
    + right. split; [|done]. intros b Hb. destruct (decide (b = i)) as [->|]; [done|]. apply Hno. lia.
Qed.

(** [alloc_block] takes the lowest free block, or reports that there is none. *)
Lemma alloc_block_run s :
  fs_wf s →
  (∃ b s', alloc_block s = Ret b s' ∧ data_start (bno (fmem s)) ≤ b < bno (fmem s) ∧
     free (fmem s) b = true ∧ (∀ b', 0 ≤ b' < b → free (fmem s) b' = false) ∧
     bit_set s s' b false ∧ fs_wf s') ∨
  ((∀ b, 0 ≤ b < bno (fmem s) → free (fmem s) b = false) ∧ alloc_block s = Ret (- E_NO_DISK) s).
Proof.
  intros Hw. unfold alloc_block. step_with (nblocks_Ret s Hw).
  pose proof (ld32_bound (fmem s) (SUPER + s_nblocks) (fw_bytes _ Hw)) as Hn. fold (bno (fmem s)) in Hn.
  destruct (alloc_block_loop_run s (Z.to_nat (bno (fmem s))) 0 Hw)
    as [(b & Hb & Hf & Hmin & s' & E & Hbs)|H]; [lia|lia| |by right].
  left. exists b, s'. split_and!; try done; try lia; [|by eapply bit_set_wf].
  destruct (decide (b < data_start (bno (fmem s)))); [|lia].
  rewrite (fw_reserved _ Hw) in Hf by lia. done.
Qed.

(** ** Blocks of a file *)

Definition ind (m : bytes) (f : Z) : Z := ld32 m (f + f_indirect).
Definition slot (m : bytes) (f n : Z) : Z :=
  if n <? NDIRECT then f + f_direct n else baddr (ind m f) + 4 * (n - NDIRECT).
Definition no_slot (m : bytes) (f n : Z) : bool := (NDIRECT <=? n) && (ind m f =? 0).

(** The disk block of block [n] of the file, 0 if there is none. *)
Definition ptr (m : bytes) (f n : Z) : Z := if no_slot m f n then 0 else ld32 m (slot m f n).

Definition good (m : bytes) (b : Z) : Prop := data_start (bno m) ≤ b < bno m ∧ free m b = false.

(** The [struct File] at [f] lies in the block [fb] or is the root in the super
    block, and its blocks are in use, pairwise different and not [fb]. *)
Record file_ok (m : bytes) (f fb : Z) : Prop := {
  fo_in : baddr fb ≤ f ∧ f + 256 ≤ baddr fb + BLKSIZE;
  fo_fb : good m fb ∨ fb = 1 ∧ f = SUPER + s_root;
  fo_ind : ind m f ≠ 0 → good m (ind m f) ∧ ind m f ≠ fb;
  fo_ptr n : 0 ≤ n < MAXBLOCKS → ptr m f n ≠ 0 →
    good m (ptr m f n) ∧ ptr m f n ≠ fb ∧ ptr m f n ≠ ind m f;
  fo_inj n n' : 0 ≤ n < MAXBLOCKS → 0 ≤ n' < MAXBLOCKS →
    ptr m f n ≠ 0 → ptr m f n = ptr m f n' → n = n'
}.

Definition in_block (b a : Z) : Prop := baddr b ≤ a < baddr b + BLKSIZE.

Lemma in_block_inj b b' a : in_block b a → in_block b' a → b = b'.
Proof. unfold in_block. layout. lia. Qed.

(** Where the pointers of a file are. *)
Definition meta (m : bytes) (f a : Z) : Prop :=
  f + f_direct 0 ≤ a < f + f_indirect + 4 ∨ ind m f ≠ 0 ∧ in_block (ind m f) a.

(** Memory that keeps the super block's size, the file's pointers and the indirect
    block keeps the map. *)
Definition map_kept (m m' : bytes) (f : Z) : Prop :=
  ind m' f = ind m f ∧ ∀ n, 0 ≤ n < MAXBLOCKS → ptr m' f n = ptr m f n.

Lemma map_kept_intro m m' f :
  (∀ a, meta m f a → rdb m' a = rdb m a) → map_kept m m' f.
Proof.
  intros Hm. assert (ind m' f = ind m f) as E.
  { unfold ind. apply ld32_ext. intros a Ha. apply Hm. left. layout. lia. }
  split; [done|]. intros n Hn. unfold ptr, no_slot, slot. rewrite E.
  destruct (Z.leb_spec NDIRECT n), (Z.eqb_spec (ind m f) 0) as [|Hs]; try done; cbn [andb];
    apply ld32_ext; intros a; destruct (Z.ltb_spec n NDIRECT); intros Ha; try lia.
  2, 3: apply Hm; left; layout; lia.
  apply Hm. right. split; [done|]. unfold in_block. layout. lia.
Qed.

Lemma good_pos m b : good m b → 3 ≤ b.
Proof. intros [[H1 H2] _]. pose proof (data_start_ge (bno m)). lia. Qed.

Lemma file_ok_kept m m' f fb :
  bno m' = bno m → (∀ b, 0 ≤ b < bno m → free m b = false → free m' b = false) → map_kept m m' f →
  file_ok m f fb → file_ok m' f fb.
Proof.
  intros En Hfree [Ei Ep] [H1 H2 H3 H4 H5].
  assert (∀ b, good m b → good m' b) as Hg.
  { intros b Hb. pose proof (good_pos m b Hb). destruct Hb as [Hb Hfb]. unfold good. rewrite En.
    split; [done|]. apply Hfree; [lia|done]. }
  split; [done| | | |].
  - destruct H2; [left; auto|by right].
  - rewrite Ei. intros Hi. destruct (H3 Hi). split; auto.
  - intros n Hn. rewrite Ep, Ei by done. intros Hp. destruct (H4 n Hn Hp). split; [auto|done].
  - intros n n' Hn Hn'. rewrite !Ep by done. auto.
Qed.

Lemma meta_outside m f fb a :
  data_start (bno m) ≤ bno m → file_ok m f fb → meta m f a →
  ¬ (SUPER ≤ a < SUPER + s_root) ∧ ¬ (BITMAP ≤ a < baddr (data_start (bno m))) ∧
  DISKMAP ≤ a < baddr (bno m) ∧ ¬ (f ≤ a < f + f_direct 0) ∧
  ∀ d, d ≠ fb → d ≠ ind m f → ¬ in_block d a.
Proof.
  intros Hn Hok Ha. pose proof (fo_in _ _ _ Hok) as Hin. pose proof (data_start_ge _ Hn) as Hs.
  assert (∃ d, in_block d a ∧ (d = fb ∨ d = ind m f) ∧
    (data_start (bno m) ≤ d < bno m ∨ d = 1 ∧ SUPER + s_root ≤ a) ∧
    ¬ (f ≤ a < f + f_direct 0)) as (d & Hd & Hdd & Hg & Hh).
  { destruct Ha as [Ha|[Hi Ha]].
    - exists fb. split_and!; [unfold in_block; layout; lia|by left| |layout; lia].
      destruct (fo_fb _ _ _ Hok) as [[? _]|[-> ->]]; [by left|right]. layout. lia.
    - destruct (fo_ind _ _ _ Hok Hi) as [[Hg _] Hne]. exists (ind m f). split_and!; [done|by right|by left|].
      intros Hfa. apply Hne. eapply in_block_inj; [done|]. unfold in_block. layout. lia. }
  generalize dependent (data_start (bno m)). generalize dependent (bno m). intros n ds Hn Hs Hg.
  split_and!; try done.
  - unfold in_block in Hd. layout. lia.
  - unfold in_block in Hd. layout. lia.
  - unfold in_block in Hd. layout. lia.
  - unfold in_block in Hd. layout. lia.
  - intros d' H1 H2 H3. pose proof (in_block_inj _ _ _ Hd H3). subst. by destruct Hdd.
Qed.

(** A store into the pointers of a file touches neither the super block's size nor
    the bitmap. *)
Lemma meta_store m m' f fb :
  data_start (bno m) ≤ bno m ≤ DISKSIZE / BLKSIZE → file_ok m f fb →
  (∀ a, ¬ meta m f a → rdb m' a = rdb m a) →
  bno m' = bno m ∧ ∀ b, 0 ≤ b < bno m → free m' b = free m b.
Proof.
  intros Hn Hok Hm. pose proof (λ a, meta_outside m f fb a (proj1 Hn) Hok) as Hout. split.
  - unfold bno. apply ld32_ext. intros a Ha. apply Hm. intros Hma. apply Hout in Hma as [Hma _].
    apply Hma. layout. lia.
  - intros b Hb. unfold free. f_equal. apply ld32_ext. intros a Ha. apply Hm. intros Hma.
    apply Hout in Hma as (_ & Hma & _). apply Hma.
    pose proof (bit_addr_bounds (bno m) b Hb (proj2 Hn)). lia.
Qed.

(** Slots are disjoint words of the metadata. *)
Lemma slot_meta m f fb n a :
  file_ok m f fb → 0 ≤ n < MAXBLOCKS → no_slot m f n = false →
  slot m f n ≤ a < slot m f n + 4 → meta m f a ∧ ¬ (f + f_indirect ≤ a < f + f_indirect + 4).
Proof.
  intros Hok Hn Hs Ha. unfold no_slot, slot in *. pose proof (fo_in _ _ _ Hok) as Hin.
  destruct (Z.ltb_spec n NDIRECT).
  - split; [left|]; layout; lia.
  - destruct (Z.leb_spec NDIRECT n); [|lia]. destruct (Z.eqb_spec (ind m f) 0) as [|Hi]; [done|].
    destruct (fo_ind _ _ _ Hok Hi) as [_ Hne]. assert (in_block (ind m f) a) by (unfold in_block; layout; lia).
    split; [by right|]. intros Hx. apply Hne. apply (in_block_inj _ _ a); [done|]. unfold in_block. layout. lia.
Qed.

Lemma slot_disjoint m f fb n n' :
  file_ok m f fb → 0 ≤ n < MAXBLOCKS → 0 ≤ n' < MAXBLOCKS →
  no_slot m f n = false → no_slot m f n' = false → n ≠ n' →
  slot m f n + 4 ≤ slot m f n' ∨ slot m f n' + 4 ≤ slot m f n.
Proof.
  intros Hok Hn Hn' Hs Hs' Hne. unfold no_slot, slot in *. pose proof (fo_in _ _ _ Hok) as Hin.
  destruct (Z.eqb_spec (ind m f) 0) as [Hi|Hi].
  - rewrite !andb_true_r in *. destruct (Z.leb_spec NDIRECT n), (Z.leb_spec NDIRECT n'); try done.
    destruct (Z.ltb_spec n NDIRECT), (Z.ltb_spec n' NDIRECT); layout; lia.
  - destruct (fo_ind _ _ _ Hok Hi) as [_ Hfb].
    destruct (Z.ltb_spec n NDIRECT), (Z.ltb_spec n' NDIRECT); layout; lia.
Qed.

(** Entering block [b] into an empty slot. *)
Lemma slot_store m f fb n b :
  data_start (bno m) ≤ bno m ≤ DISKSIZE / BLKSIZE →
  file_ok m f fb → 0 ≤ n < MAXBLOCKS → no_slot m f n = false → ptr m f n = 0 →
  good m b → b ≠ fb → b ≠ ind m f → (∀ n', 0 ≤ n' < MAXBLOCKS → ptr m f n' ≠ b) →
  let m' := st32 m (slot m f n) b in
  file_ok m' f fb ∧ ind m' f = ind m f ∧
  ∀ n', 0 ≤ n' < MAXBLOCKS → ptr m' f n' = if decide (n' = n) then b else ptr m f n'.
Proof.
  intros Hb Hok Hn Hs Hz Hg Hfb Hib Hnew m'.
  assert (∀ a, ¬ meta m f a → rdb m' a = rdb m a) as Hm.
  { intros a Ha. apply rdb_st32_out. intros Hx. by apply Ha, (slot_meta m f fb n). }
  destruct (meta_store m m' f fb Hb Hok Hm) as [En Hfree].
  assert (ind m' f = ind m f) as Ei.
  { unfold ind. apply ld32_ext. intros a Ha. apply rdb_st32_out. intros Hx.
    by apply (slot_meta m f fb n a Hok Hn Hs Hx). }
  assert (∀ n', 0 ≤ n' < MAXBLOCKS → ptr m' f n' = if decide (n' = n) then b else ptr m f n') as Hp.
  { intros n' Hn'. unfold ptr. assert (no_slot m' f n' = no_slot m f n') as -> by (unfold no_slot; by rewrite Ei).
    assert (slot m' f n' = slot m f n') as -> by (unfold slot; by rewrite Ei).
    case_decide as Hd; [subst n'|].
    - rewrite Hs. unfold m'. rewrite ld32_st32_eq, u32_small; [done|].
      pose proof (good_pos _ _ Hg). destruct Hg as [Hg _]. layout. lia.
    - destruct (no_slot m f n') eqn:Hs'; [done|]. apply ld32_st32_ne. by apply (slot_disjoint m f fb). }
  assert (∀ d, good m d → good m' d) as Hgk.
  { intros d Hd. pose proof (good_pos _ _ Hd). destruct Hd as [Hd Hf]. unfold good. rewrite En.
    split; [done|]. by rewrite Hfree by lia. }
  split_and!; [|done|done]. split.
  - apply Hok.
  - destruct (fo_fb _ _ _ Hok); [left; auto|by right].
  - rewrite Ei. intros Hi. destruct (fo_ind _ _ _ Hok Hi). split; auto.
  - intros n' Hn'. rewrite Hp, Ei by done. case_decide as Hd; [auto|]. intros Hp0.
    destruct (fo_ptr _ _ _ Hok n' Hn' Hp0). split; auto.
  - intros n1 n2 H1 H2. rewrite !Hp by done. repeat case_decide; try congruence.
    + intros _ E. by destruct (Hnew n2 H2).
    + intros _ E. by destruct (Hnew n1 H1).
    + intros Hne E. by apply (fo_inj _ _ _ Hok).
Qed.

(** Making the zeroed block [b] the indirect block. *)
Lemma indirect_store m m' f fb b :
  data_start (bno m) ≤ bno m ≤ DISKSIZE / BLKSIZE →
  file_ok m f fb → ind m f = 0 → good m b → b ≠ fb →
  (∀ n', 0 ≤ n' < MAXBLOCKS → ptr m f n' ≠ b) →
  (∀ a, ¬ (f + f_indirect ≤ a < f + f_indirect + 4) → ¬ in_block b a → rdb m' a = rdb m a) →
  ind m' f = b → (∀ a, in_block b a → rdb m' a = 0) →
  file_ok m' f fb ∧ bno m' = bno m ∧ (∀ d, 0 ≤ d < bno m → free m' d = free m d) ∧
  ∀ n', 0 ≤ n' < MAXBLOCKS → ptr m' f n' = ptr m f n'.
Proof.
  intros Hb Hok Hi0 Hg Hfb Hnew Hout Ei Hzero. pose proof (good_pos _ _ Hg) as Hb3.
  pose proof (fo_in _ _ _ Hok) as Hin. pose proof (data_start_ge _ (proj1 Hb)) as Hds.
  assert (∀ a, SUPER ≤ a < SUPER + s_root ∨ BITMAP ≤ a < baddr (data_start (bno m)) →
    rdb m' a = rdb m a) as Hsys.
  { intros a Ha. apply Hout.
    - intros Hx. destruct (meta_outside m f fb a (proj1 Hb) Hok) as (H1 & H2 & _); [left; layout; lia|].
      by destruct Ha.
    - unfold in_block. destruct Hg as [Hg _]. layout. lia. }
  assert (bno m' = bno m) as En.
  { unfold bno. apply ld32_ext. intros a Ha. apply Hsys. left. layout. lia. }
  assert (∀ d, 0 ≤ d < bno m → free m' d = free m d) as Hfree.
  { intros d Hd. unfold free. f_equal. apply ld32_ext. intros a Ha. apply Hsys. right.
    pose proof (bit_addr_bounds (bno m) d Hd (proj2 Hb)). lia. }
  assert (∀ n', 0 ≤ n' < MAXBLOCKS → ptr m' f n' = ptr m f n') as Hp.
  { intros n' Hn'. unfold ptr, no_slot, slot. rewrite Ei, Hi0. destruct (Z.eqb_spec b 0); [lia|].
    rewrite andb_false_r. change (0 =? 0) with true. rewrite andb_true_r.
    destruct (Z.leb_spec NDIRECT n'), (Z.ltb_spec n' NDIRECT); try lia.
    - unfold ld32. rewrite !Hzero by (unfold in_block; layout; lia). done.
    - apply ld32_ext. intros a Ha. apply Hout; [layout; lia|]. unfold in_block. intros Hx. apply Hfb.
      layout. lia. }
  assert (∀ d, good m d → good m' d) as Hgk.
  { intros d Hd. pose proof (good_pos _ _ Hd). destruct Hd as [Hd Hf]. unfold good. rewrite En.
    split; [done|]. by rewrite Hfree by lia. }
  split_and!; try done. split.
  - apply Hok.
  - destruct (fo_fb _ _ _ Hok); [left; auto|by right].
  - rewrite Ei. auto.
  - intros n' Hn'. rewrite Hp, Ei by done. intros Hp0.
    destruct (fo_ptr _ _ _ Hok n' Hn' Hp0) as (? & ? & _). split_and!; auto.
  - intros n1 n2 H1 H2. rewrite !Hp by done. by apply (fo_inj _ _ _ Hok).
Qed.

(** ** Growing a file *)

Record grown (s s' : fsstate) (f fb : Z) : Prop := {
  gr_wf : fs_wf s';
  gr_file : file_ok (fmem s') f fb;
  gr_bno : bno (fmem s') = bno (fmem s);
  gr_used b : 0 ≤ b < bno (fmem s) → free (fmem s) b = false → free (fmem s') b = false;
  gr_ind : ind (fmem s') f = ind (fmem s) f ∨ free (fmem s) (ind (fmem s') f) = true;
  gr_data d a : good (fmem s) d → d ≠ fb → d ≠ ind (fmem s) f → in_block d a →
    rdb (fmem s') a = rdb (fmem s) a;
  gr_head a : f ≤ a < f + f_direct 0 → rdb (fmem s') a = rdb (fmem s) a;
  gr_out a : a < DISKMAP ∨ baddr (bno (fmem s)) ≤ a → rdb (fmem s') a = rdb (fmem s) a
}.

Lemma grown_refl s f fb : fs_wf s → file_ok (fmem s) f fb → grown s s f fb.
Proof. intros Hw Hok. split; auto. Qed.

Lemma grown_good s s' f fb d : grown s s' f fb → good (fmem s) d → good (fmem s') d.
Proof.
  intros G Hd. pose proof (good_pos _ _ Hd). destruct Hd as [Hd Hf]. unfold good. rewrite (gr_bno _ _ _ _ G).
  split; [done|]. apply (gr_used _ _ _ _ G); [lia|done].
Qed.

Lemma grown_trans s s1 s2 f fb : grown s s1 f fb → grown s1 s2 f fb → grown s s2 f fb.
Proof.
  intros G H. pose proof (gr_bno _ _ _ _ G) as En. split.
  - apply H.
  - apply H.
  - rewrite (gr_bno _ _ _ _ H). done.
  - intros b Hb Hf. apply (gr_used _ _ _ _ H); [by rewrite En|]. by apply (gr_used _ _ _ _ G).
  - destruct (free (fmem s) (ind (fmem s2) f)) eqn:Hf; [by right|left].
    destruct (gr_ind _ _ _ _ H) as [E|E].
    + destruct (gr_ind _ _ _ _ G) as [E'|E']; congruence.
    + destruct (decide (ind (fmem s2) f = 0)) as [E0|Hi].
      * rewrite E0 in E. rewrite (fw_reserved _ (gr_wf _ _ _ _ G)) in E; [done|].
        pose proof (data_start_ge _ (proj1 (fw_size _ (gr_wf _ _ _ _ G)))). lia.
      * exfalso. destruct (fo_ind _ _ _ (gr_file _ _ _ _ H) Hi) as [Hg _]. pose proof (good_pos _ _ Hg).
        destruct Hg as [Hg _]. rewrite (gr_bno _ _ _ _ H), En in Hg.
        rewrite (gr_used _ _ _ _ G) in E; [done|lia|done].
  - intros d a Hd Hfb Hi Ha. rewrite (gr_data _ _ _ _ H d a), (gr_data _ _ _ _ G d a); try done.
    + by eapply grown_good.
    + destruct (gr_ind _ _ _ _ G) as [E|E]; [by rewrite E|]. intros ->. destruct Hd as [_ Hd]. congruence.
  - intros a Ha. rewrite (gr_head _ _ _ _ H), (gr_head _ _ _ _ G) by done. done.
  - intros a Ha. rewrite (gr_out _ _ _ _ H), (gr_out _ _ _ _ G); [done|done|by rewrite En].
Qed.

(** Taking a block from the bitmap. *)
Lemma bit_set_grown s s' b f fb :
  fs_wf s → file_ok (fmem s) f fb → bit_set s s' b false →
  grown s s' f fb ∧ map_kept (fmem s) (fmem s') f.
Proof.
  intros Hw Hok H. pose proof (bit_set_bno _ _ _ _ H) as En. pose proof (fw_size _ Hw) as Hn.
  pose proof (data_start_ge _ (proj1 Hn)) as Hds. pose proof (fo_in _ _ _ Hok) as Hin.
  assert (map_kept (fmem s) (fmem s') f) as Hk.
  { apply map_kept_intro. intros a Ha. apply (bs_out _ _ _ _ H).
    by apply (meta_outside _ f fb a (proj1 Hn) Hok). }
  split; [|done]. split.
  - by eapply bit_set_wf.
  - apply (file_ok_kept (fmem s)); try done. intros d Hd Hf. rewrite (bs_free _ _ _ _ H) by lia. by case_decide.
  - done.
  - intros d Hd Hf. rewrite (bs_free _ _ _ _ H) by lia. by case_decide.
  - left. apply Hk.
  - intros d a [Hd _] _ _ Ha. apply (bs_out _ _ _ _ H). unfold in_block in Ha.
    generalize dependent (data_start (bno (fmem s))). intros ds. intros. layout. lia.
  - intros a Ha. apply (bs_out _ _ _ _ H). destruct (fo_fb _ _ _ Hok) as [[Hg _]|[-> ->]].
    + generalize dependent (data_start (bno (fmem s))). intros ds. intros. layout. lia.
    + generalize dependent (data_start (bno (fmem s))). intros ds. intros. layout. lia.
  - intros a Ha. apply (bs_out _ _ _ _ H). generalize dependent (data_start (bno (fmem s))). intros ds. intros.
    layout. lia.
Qed.

(** A write to the pointers of the file that leaves it well-formed. *)
Lemma meta_grown s m' f fb :
  fs_wf s → bytes_ok m' → file_ok m' f fb → bno m' = bno (fmem s) →
  (∀ b, 0 ≤ b < bno (fmem s) → free m' b = free (fmem s) b) → ind m' f = ind (fmem s) f →
  file_ok (fmem s) f fb → (∀ a, ¬ meta (fmem s) f a → rdb m' a = rdb (fmem s) a) →
  grown s (set_fmem m' s) f fb.
Proof.
  intros Hw Hb Hok' En Hf Ei Hok Hm. pose proof (fw_size _ Hw) as Hn.
  pose proof (λ a, meta_outside _ f fb a (proj1 Hn) Hok) as Hout. split; simpl.
  - destruct Hw as [H1 H2 H3 H4 H5]. split; simpl; try done; rewrite En; [done|].
    intros b Hb'. rewrite Hf by lia. by apply H5.
  - done.
  - done.
  - intros b Hb'. by rewrite Hf.
  - by left.
  - intros d a _ Hfb Hi Ha. apply Hm. intros Hma. apply Hout in Hma as (_ & _ & _ & _ & Hma). by apply (Hma d).
  - intros a Ha. apply Hm. intros Hma. apply Hout in Hma as (_ & _ & _ & Hma & _). by apply Hma.
  - intros a Ha. apply Hm. intros Hma. apply Hout in Hma as (_ & _ & Hma & _). lia.
Qed.

(** A block that was free is none of the file's. *)
Lemma free_not_used m f fb b :
  (∀ b, 0 ≤ b < 3 → free m b = false) → file_ok m f fb → free m b = true →
  b ≠ fb ∧ b ≠ ind m f ∧ ∀ n, 0 ≤ n < MAXBLOCKS → ptr m f n ≠ b.
Proof.
  intros H0 Hok Hf. split_and!.
  - intros ->. destruct (fo_fb _ _ _ Hok) as [[_ E]|[-> _]]; [congruence|]. rewrite H0 in Hf by lia. done.
  - intros ->. destruct (decide (ind m f = 0)) as [E|E].
    + rewrite E, H0 in Hf by lia. done.
    + destruct (fo_ind _ _ _ Hok E) as [[_ Hg] _]. congruence.
  - intros n Hn <-. destruct (decide (ptr m f n = 0)) as [E|E].
    + rewrite E, H0 in Hf by lia. done.
    + destruct (fo_ptr _ _ _ Hok n Hn E) as [[_ Hg] _]. congruence.
Qed.

Lemma fs_wf_low s b : fs_wf s → 0 ≤ b < 3 → free (fmem s) b = false.
Proof.
  intros Hw Hb. apply (fw_reserved _ Hw). pose proof (data_start_ge _ (proj1 (fw_size _ Hw))). lia.
Qed.

Definition full (m : bytes) : Prop := ∀ b, 0 ≤ b < bno m → free m b = false.

(** What [alloc_block] and the file it is for look like after a success. *)
Record taken (s s1 : fsstate) (f fb b : Z) : Prop := {
  tk_grown : grown s s1 f fb;
  tk_map : map_kept (fmem s) (fmem s1) f;
  tk_good : good (fmem s1) b;
  tk_free : free (fmem s) b = true;
  tk_fb : b ≠ fb;
  tk_ind : b ≠ ind (fmem s1) f;
  tk_new n : 0 ≤ n < MAXBLOCKS → ptr (fmem s1) f n ≠ b
}.

Lemma alloc_block_taken s f fb :
  fs_wf s → file_ok (fmem s) f fb →
  (∃ b s1, alloc_block s = Ret b s1 ∧ taken s s1 f fb b) ∨ (full (fmem s) ∧ alloc_block s = Ret (- E_NO_DISK) s).
Proof.
  intros Hw Hok. destruct (alloc_block_run s Hw) as [(b & s1 & E & Hb & Hf & _ & Hbs & Hw1)|[? E]]; [left|by right].
  exists b, s1. split; [done|]. destruct (bit_set_grown s s1 b f fb Hw Hok Hbs) as [G Hk].
  destruct (free_not_used (fmem s) f fb b (λ b Hb, fs_wf_low s b Hw Hb) Hok Hf) as (H1 & H2 & H3).
  split; try done.
  - split; [by rewrite (gr_bno _ _ _ _ G)|]. pose proof (data_start_ge _ (proj1 (fw_size _ Hw))).
    rewrite (bs_free _ _ _ _ Hbs) by lia. by rewrite decide_True.
  - by rewrite (proj1 Hk).
  - intros n Hn. rewrite (proj2 Hk) by done. by apply H3.
Qed.

Lemma new_indirect_grown s s1 f fb b :
  taken s s1 f fb b → ind (fmem s) f = 0 →
  let m' := memset (st32 (fmem s1) (f + f_indirect) b) (baddr b) 0 BLKSIZE in
  grown s (set_fmem m' s1) f fb ∧ ind m' f = b ∧
  ∀ n, 0 ≤ n < MAXBLOCKS → ptr m' f n = ptr (fmem s) f n.
Proof.
  intros [G Hk Hg Hfr Hfb Hib Hnew] Hi0 m'. pose proof (gr_wf _ _ _ _ G) as Hw1.
  pose proof (gr_file _ _ _ _ G) as Hok. pose proof (fw_size _ Hw1) as Hn. pose proof (fo_in _ _ _ Hok) as Hin.
  assert (∀ a, rdb m' a = if decide (in_block b a) then 0 else rdb (st32 (fmem s1) (f + f_indirect) b) a) as Hm.
  { intros a. unfold m'. rewrite memset_spec by (unfold BLKSIZE, PGSIZE; lia). unfold in_block.
    repeat case_decide; done. }
  assert (bytes_ok m') as Hbm by apply bytes_ok_memset, bytes_ok_st32, Hw1. clearbody m'.
  assert (∀ a, ¬ (f + f_indirect ≤ a < f + f_indirect + 4) → ¬ in_block b a → rdb m' a = rdb (fmem s1) a) as Hout.
  { intros a H1 H2. rewrite Hm, decide_False by done. by apply rdb_st32_out. }
  assert (ind m' f = b) as Ei.
  { unfold ind. rewrite (ld32_ext (st32 (fmem s1) (f + f_indirect) b)).
    - rewrite ld32_st32_eq, u32_small; [done|]. pose proof (good_pos _ _ Hg). destruct Hg as [Hg _]. layout. lia.
    - intros a Ha. rewrite Hm, decide_False; [done|]. unfold in_block. intros Hx. apply Hfb. layout. lia. }
  rewrite <-(proj1 Hk) in Hi0.
  destruct (indirect_store (fmem s1) m' f fb b Hn Hok Hi0 Hg Hfb Hnew Hout Ei) as (Hok' & En & Hfree & Hp).
  { intros a Ha. by rewrite Hm, decide_True. }
  split_and!; [|done|intros n Hn'; rewrite Hp by done; by apply Hk].
  assert (∀ d, d ≠ fb → d ≠ b → ∀ a, in_block d a → rdb m' a = rdb (fmem s1) a) as Hdata.
  { intros d Hd Hdb a Ha. apply Hout.
    - intros Hx. apply Hd. apply (in_block_inj _ _ a); [done|]. unfold in_block. layout. lia.
    - intros Hx. apply Hdb. by apply (in_block_inj _ _ a). }
  split; cbn [fmem set_fmem].
  - destruct Hw1 as [H1 H2 H3 H4 H5]. split; cbn [super bitmap fmem set_fmem]; [done|done|done|by rewrite En|].
    rewrite En. intros d Hd. rewrite Hfree by lia. by apply H5.
  - done.
  - by rewrite En, (gr_bno _ _ _ _ G).
  - intros d Hd Hf. rewrite Hfree; [by apply (gr_used _ _ _ _ G)|by rewrite (gr_bno _ _ _ _ G)].
  - rewrite Ei. by right.
  - intros d a Hd Hdf Hdi Ha. rewrite (Hdata d), (gr_data _ _ _ _ G d); try done.
    intros ->. destruct Hd as [_ Hd]. congruence.
  - intros a Ha. rewrite Hout, (gr_head _ _ _ _ G); try done; [layout; lia|].
    unfold in_block. intros Hx. apply Hfb. layout. lia.
  - intros a Ha. rewrite Hout, (gr_out _ _ _ _ G); try done; rewrite <-(gr_bno _ _ _ _ G) in Ha.
    + destruct (meta_outside _ f fb (f + f_indirect) (proj1 Hn) Hok) as (_ & _ & H1 & _); [left; layout; lia|].
      destruct (meta_outside _ f fb (f + f_indirect + 3) (proj1 Hn) Hok) as (_ & _ & H2 & _); [left; layout; lia|].
      lia.
    + pose proof (good_pos _ _ Hg). destruct Hg as [Hg _]. unfold in_block. layout. lia.
Qed.

(** Any change of the pointers keeps the disk well-formed. *)
Lemma meta_wf s m' f fb :
  fs_wf s → file_ok (fmem s) f fb → bytes_ok m' → (∀ a, ¬ meta (fmem s) f a → rdb m' a = rdb (fmem s) a) →
  fs_wf (set_fmem m' s) ∧ bno m' = bno (fmem s) ∧ ∀ b, 0 ≤ b < bno (fmem s) → free m' b = free (fmem s) b.
Proof.
  intros Hw Hok Hb Hm. destruct (meta_store _ m' f fb (fw_size _ Hw) Hok Hm) as [En Hf]. split; [|done].
  destruct Hw as [H1 H2 H3 H4 H5].
  split; cbn [super bitmap fmem set_fmem]; [done|done|done|by rewrite En|]. rewrite En.
  intros d Hd. rewrite Hf by lia. by apply H5.
Qed.

Lemma full_kept s m' f fb :
  fs_wf s → file_ok (fmem s) f fb → full (fmem s) → bytes_ok m' →
  (∀ a, ¬ meta (fmem s) f a → rdb m' a = rdb (fmem s) a) → full m'.
Proof.
  intros Hw Hok Hf Hb Hm. destruct (meta_wf s m' f fb Hw Hok Hb Hm) as (_ & En & Hfr).
  intros b Hlt. rewrite En in Hlt. rewrite Hfr by done. by apply Hf.
Qed.

Lemma indirect_meta m f a b : ¬ meta m f a → rdb (st32 m (f + f_indirect) b) a = rdb m a.
Proof. intros Ha. apply rdb_st32_out. intros Hx. apply Ha. left. layout. lia. Qed.

Lemma alloc_indirect_run s f fb :
  fs_wf s → file_ok (fmem s) f fb → ind (fmem s) f = 0 →
  (∃ s', alloc_indirect f s = Ret 0 s' ∧ grown s s' f fb ∧ ind (fmem s') f ≠ 0 ∧
     ∀ n', 0 ≤ n' < MAXBLOCKS → ptr (fmem s') f n' = ptr (fmem s) f n') ∨
  (full (fmem s) ∧
   alloc_indirect f s = Ret (- E_NO_DISK) (set_fmem (st32 (fmem s) (f + f_indirect) (- E_NO_DISK)) s)).
Proof.
  intros Hw Hok Hi. unfold alloc_indirect.
  destruct (alloc_block_taken s f fb Hw Hok) as [(b & s1 & E & T)|[Hfull E]]; [left|right; split; [done|by step_with E]].
  pose proof (new_indirect_grown s s1 f fb b T Hi) as (G & Ei & Hp).
  pose proof (good_pos _ _ (tk_good _ _ _ _ _ T)) as Hb3. pose proof (tk_good _ _ _ _ _ T) as [Hbb _].
  pose proof (gr_wf _ _ _ _ (tk_grown _ _ _ _ _ T)) as Hw1.
  pose proof (gr_file _ _ _ _ (tk_grown _ _ _ _ _ T)) as Hok1.
  set (m' := memset _ _ _ _) in *. exists (set_fmem m' s1). split_and!; [|done| |done].
  2: { cbn [fmem set_fmem]. rewrite Ei. lia. }
  step_with E. unfold store32. step_pure. destruct (Z.ltb_spec b 0); [lia|]. unfold load32. step_pure.
  cbn [fmem set_fmem]. set (m1 := st32 (fmem s1) (f + f_indirect) b) in *.
  assert (ld32 m1 (f + f_indirect) = b) as Hl.
  { unfold m1. rewrite ld32_st32_eq. apply u32_small. pose proof (fw_size _ Hw1). layout. lia. }
  destruct (meta_wf s1 m1 f fb Hw1 Hok1 ltac:(apply bytes_ok_st32, Hw1)
    ltac:(intros a Ha; by apply indirect_meta)) as (Hwm & En & _).
  rewrite Hl. rewrite (bind_Ret_l (diskaddr b) _ _ _ _ (diskaddr_Ret (set_fmem m1 s1) b Hwm ltac:(cbn [fmem set_fmem]; lia))).
  by step_pure.
Qed.

Lemma file_block_walk_run s f fb n :
  fs_wf s → file_ok (fmem s) f fb → 0 ≤ n < MAXBLOCKS →
  (∃ s', file_block_walk f n true s = Ret (0, slot (fmem s') f n) s' ∧ grown s s' f fb ∧
     no_slot (fmem s') f n = false ∧ (no_slot (fmem s) f n = false → s' = s) ∧
     ∀ n', 0 ≤ n' < MAXBLOCKS → ptr (fmem s') f n' = ptr (fmem s) f n') ∨
  (no_slot (fmem s) f n = true ∧ full (fmem s) ∧
   file_block_walk f n true s
   = Ret (- E_NO_DISK, 0) (set_fmem (st32 (fmem s) (f + f_indirect) (- E_NO_DISK)) s)).
Proof.
  intros Hw Hok Hn. unfold file_block_walk, no_slot, slot.
  destruct (Z.ltb_spec n NDIRECT) as [Hd|Hd], (Z.leb_spec NDIRECT n) as [Hd'|Hd']; try lia.
  { left. exists s. split_and!; try done. by apply grown_refl. }
  destruct (Z.ltb_spec (n - NDIRECT) NINDIRECT); [|unfold MAXBLOCKS in Hn; lia].
  step_with (eq_refl : load32 (f + f_indirect) s = Ret (ind (fmem s) f) s). cbn [andb].
  assert (∀ s', fs_wf s' → file_ok (fmem s') f fb → ind (fmem s') f ≠ 0 →
    (ind <- load32 (f + f_indirect) ;; blk <- diskaddr ind ;; ret (0, blk + 4 * (n - NDIRECT))) s'
    = Ret (0, baddr (ind (fmem s') f) + 4 * (n - NDIRECT)) s') as Htail.
  { intros s' Hw' Hok' Hi'. unfold load32. step_pure. fold (ind (fmem s') f).
    destruct (fo_ind _ _ _ Hok' Hi') as [Hg _]. pose proof (good_pos _ _ Hg). destruct Hg as [Hg _].
    by step_with (diskaddr_Ret s' (ind (fmem s') f) Hw' ltac:(lia)). }
  destruct (Z.eqb_spec (ind (fmem s) f) 0) as [Hi|Hi].
  - cbn [negb]. destruct (alloc_indirect_run s f fb Hw Hok Hi) as [(s' & E & G & Hi' & Hp)|[Ea E]].
    + left. exists s'. step_with E. change (0 <? 0) with false. cbv iota.
      rewrite (Htail s' (gr_wf _ _ _ _ G) (gr_file _ _ _ _ G) Hi').
      destruct (Z.eqb_spec (ind (fmem s') f) 0); [done|]. split_and!; done.
    + right. split_and!; [done|done|]. by step_with E.
  - left. exists s. step_pure. change (0 <? 0) with false. cbv iota. rewrite (Htail s Hw Hok Hi).
    destruct (Z.eqb_spec (ind (fmem s) f) 0); [done|]. split_and!; try done. by apply grown_refl.
Qed.

(** The block of an empty slot: allocated and entered. *)
Definition fill_slot (p : Z) : F Z :=
  r <- alloc_block ;; store32 p r ;;; ret (if r <? 0 then - E_NO_DISK else 0).

Lemma fill_slot_run s f fb n :
  fs_wf s → file_ok (fmem s) f fb → 0 ≤ n < MAXBLOCKS → no_slot (fmem s) f n = false → ptr (fmem s) f n = 0 →
  (∃ s', fill_slot (slot (fmem s) f n) s = Ret 0 s' ∧ grown s s' f fb ∧ ptr (fmem s') f n ≠ 0 ∧
     ind (fmem s') f = ind (fmem s) f ∧
     ∀ n', 0 ≤ n' < MAXBLOCKS → n' ≠ n → ptr (fmem s') f n' = ptr (fmem s) f n') ∨
  (full (fmem s) ∧
   fill_slot (slot (fmem s) f n) s
   = Ret (- E_NO_DISK) (set_fmem (st32 (fmem s) (slot (fmem s) f n) (- E_NO_DISK)) s)).
Proof.
  intros Hw Hok Hn Hs Hp. unfold fill_slot.
  destruct (alloc_block_taken s f fb Hw Hok) as [(b & s1 & E & T)|[Hfull E]]; [left|right; split; [done|by step_with E]].
  destruct T as [G [Ei Ep] Hg Hf Hfb Hib Hnew]. pose proof (good_pos _ _ Hg) as Hb3.
  pose proof (gr_wf _ _ _ _ G) as Hw1. pose proof (gr_file _ _ _ _ G) as Hok1.
  assert (slot (fmem s1) f n = slot (fmem s) f n) as Es by (unfold slot; by rewrite Ei).
  assert (no_slot (fmem s1) f n = false) as Hs1 by (unfold no_slot in *; by rewrite Ei).
  destruct (slot_store (fmem s1) f fb n b (fw_size _ Hw1) Hok1 Hn Hs1 ltac:(by rewrite Ep) Hg Hfb Hib Hnew)
    as (Hok2 & Ei2 & Ep2).
  rewrite <-Es. set (m2 := st32 (fmem s1) (slot (fmem s1) f n) b) in *.
  assert (∀ a, ¬ meta (fmem s1) f a → rdb m2 a = rdb (fmem s1) a) as Hm.
  { intros a Ha. apply rdb_st32_out. intros Hx. by apply Ha, (slot_meta _ f fb n). }
  assert (bytes_ok m2) as Hb2 by apply bytes_ok_st32, Hw1.
  destruct (meta_wf s1 m2 f fb Hw1 Hok1 Hb2 Hm) as (_ & En & Hfr).
  exists (set_fmem m2 s1). split_and!.
  - step_with E. unfold store32. step_pure. destruct (Z.ltb_spec b 0); [lia|done].
  - eapply grown_trans; [done|]. by apply meta_grown.
  - cbn [fmem set_fmem]. rewrite Ep2, decide_True by done. lia.
  - cbn [fmem set_fmem]. by rewrite Ei2.
  - intros n' Hn' Hne. cbn [fmem set_fmem]. rewrite Ep2, decide_False by done. by apply Ep.
Qed.

(** The block is there already, or it is allocated, or the disk is full. *)
Lemma file_get_block_run s f fb n :
  fs_wf s → file_ok (fmem s) f fb → 0 ≤ n < MAXBLOCKS → n ≤ bno (fmem s) →
  (∃ s', file_get_block f n s = Ret (0, baddr (ptr (fmem s') f n)) s' ∧ grown s s' f fb ∧
     ptr (fmem s') f n ≠ 0 ∧ (ptr (fmem s) f n ≠ 0 → s' = s) ∧
     ∀ n', 0 ≤ n' < MAXBLOCKS → n' ≠ n → ptr (fmem s') f n' = ptr (fmem s) f n') ∨
  (ptr (fmem s) f n = 0 ∧ ∃ s', file_get_block f n s = Ret (- E_NO_DISK, 0) s' ∧ full (fmem s')).
Proof.
  intros Hw Hok Hn Hnb. unfold file_get_block. step_with (nblocks_Ret s Hw).
  destruct (Z.ltb_spec (bno (fmem s)) n); [lia|].
  destruct (file_block_walk_run s f fb n Hw Hok Hn) as [(s1 & E & G & Hs & Hsame & Hp)|(Hs & Hfull & E)].
  2: { right. split; [unfold ptr; by rewrite Hs|]. eexists. split; [by step_with E|].
    apply (full_kept s _ f fb Hw Hok Hfull); [apply bytes_ok_st32, Hw|].
    intros a Ha. by apply indirect_meta. }
  pose proof (gr_wf _ _ _ _ G) as Hw1. pose proof (gr_file _ _ _ _ G) as Hok1.
  assert (∀ s', fs_wf s' → file_ok (fmem s') f fb → ind (fmem s') f = ind (fmem s1) f → ptr (fmem s') f n ≠ 0 →
    (b <- load32 (slot (fmem s1) f n) ;; blk <- diskaddr b ;; ret (0, blk)) s'
    = Ret (0, baddr (ptr (fmem s') f n)) s') as Htail.
  { intros s' Hw' Hok' Ei Hp'. destruct (fo_ptr _ _ _ Hok' n Hn Hp') as [Hg _]. pose proof (good_pos _ _ Hg).
    assert (ld32 (fmem s') (slot (fmem s1) f n) = ptr (fmem s') f n) as El.
    { unfold ptr, no_slot, slot in *. by rewrite Ei, Hs. }
    unfold load32. step_pure. rewrite El.
    by step_with (diskaddr_Ret s' (ptr (fmem s') f n) Hw' ltac:(destruct Hg; lia)). }
  rewrite (bind_Ret_l _ _ _ _ _ E); cbn [fst snd]. change (0 <? 0) with false. cbv iota.
  rewrite (bind_Ret_l (load32 (slot (fmem s1) f n)) _ s1 (ptr (fmem s1) f n) s1)
    by (unfold ptr; by rewrite Hs).
  cbv beta. fold (fill_slot (slot (fmem s1) f n)).
  destruct (Z.eqb_spec (ptr (fmem s1) f n) 0) as [Hz|Hz].
  - destruct (fill_slot_run s1 f fb n Hw1 Hok1 Hn Hs Hz) as [(s' & E' & G' & Hp' & Ei' & Ho')|[Hfull E']].
    + left. exists s'. step_with E'. change (0 <? 0) with false. cbv iota.
      split_and!; [by apply Htail; [apply G'|apply G'| |]|by eapply grown_trans|done| |].
      * rewrite <-Hp by done. done.
      * intros n' Hn' Hne. by rewrite Ho', Hp.
    + right. split; [by rewrite <-Hp|]. eexists. split; [by step_with E'|].
      apply (full_kept s1 _ f fb Hw1 Hok1 Hfull); [apply bytes_ok_st32, Hw1|].
      intros a Ha. apply rdb_st32_out. intros Hx. by apply Ha, (slot_meta _ f fb n).
  - left. exists s1. step_pure. change (0 <? 0) with false. cbv iota.
    split_and!; [by apply Htail|done|done| |auto].
    intros Hps. apply Hsame. unfold ptr in Hps. by destruct (no_slot (fmem s) f n).
Qed.

(** ** A full disk *)

(** When the disk is full, [file_get_block] of a direct block that is not allocated
    reports it but leaves the error code in the block pointer: the next call for
    the same block panics in [diskaddr]. *)
Theorem disk_full_poisons_pointer (s : fsstate) (f fb n : Z) :
  fs_wf s → file_ok (fmem s) f fb → 0 ≤ n < NDIRECT → n ≤ bno (fmem s) → ptr (fmem s) f n = 0 →
  full (fmem s) →
  ∃ s', file_get_block f n s = Ret (- E_NO_DISK, 0) s' ∧ file_get_block f n s' = Panic s'.
Proof.
  intros Hw Hok Hn Hnb Hp Hfull. assert (0 ≤ n < MAXBLOCKS) as HnM by (layout; lia).
  assert (no_slot (fmem s) f n = false) as Hs by (unfold no_slot; by destruct (Z.leb_spec NDIRECT n); [lia|]).
  destruct (fill_slot_run s f fb n Hw Hok HnM Hs Hp) as [(s' & E & G & Hp' & _)|[_ E]].
  { exfalso. unfold fill_slot in E. destruct (alloc_block_taken s f fb Hw Hok) as [(b & s1 & E1 & T)|[_ E1]].
    - pose proof (tk_free _ _ _ _ _ T) as Hf. pose proof (tk_good _ _ _ _ _ T) as [Hg _].
      rewrite (gr_bno _ _ _ _ (tk_grown _ _ _ _ _ T)) in Hg. pose proof (data_start_ge _ (proj1 (fw_size _ Hw))).
      rewrite Hfull in Hf by lia. done.
    - erewrite bind_Ret_l in E by done. done. }
  assert (slot (fmem s) f n = f + f_direct n) as Es by (unfold slot; by destruct (Z.ltb_spec n NDIRECT); [|lia]).
  rewrite Es in *. set (m' := st32 (fmem s) (f + f_direct n) (- E_NO_DISK)) in *. exists (set_fmem m' s).
  assert (∀ s1 k, fs_wf s1 → n ≤ bno (fmem s1) → ld32 (fmem s1) (f + f_direct n) = k →
    file_get_block f n s1 = (r <- (if k =? 0 then fill_slot (f + f_direct n) else ret 0) ;;
      if r <? 0 then ret (r, 0) else b <- load32 (f + f_direct n) ;; blk <- diskaddr b ;; ret (0, blk)) s1) as Hget.
  { intros s1 k Hw1 Hn1 Hk. unfold file_get_block. step_with (nblocks_Ret s1 Hw1).
    destruct (Z.ltb_spec (bno (fmem s1)) n); [lia|]. unfold file_block_walk.
    destruct (Z.ltb_spec n NDIRECT); [|lia]. step_pure. cbn [fst snd]. change (0 <? 0) with false. cbv iota.
    unfold load32 at 1. step_pure. by rewrite Hk. }
  assert (∀ a, ¬ meta (fmem s) f a → rdb m' a = rdb (fmem s) a) as Hm.
  { intros a Ha. apply rdb_st32_out. intros Hx. apply Ha, (slot_meta _ f fb n); try done. by rewrite Es. }
  destruct (meta_wf s m' f fb Hw Hok ltac:(apply bytes_ok_st32, Hw) Hm) as (Hw' & En & _).
  assert (ld32 m' (f + f_direct n) = 2 ^ 32 - E_NO_DISK) as Hl by (unfold m'; by rewrite ld32_st32_eq).
  split.
  - rewrite (Hget s 0 Hw Hnb); [by step_with E|]. unfold ptr in Hp. by rewrite Hs, Es in Hp.
  - rewrite (Hget (set_fmem m' s) (2 ^ 32 - E_NO_DISK) Hw' ltac:(cbn [fmem set_fmem]; lia) Hl).
    change (2 ^ 32 - E_NO_DISK =? 0) with false. cbv iota. step_pure. change (0 <? 0) with false. cbv iota.
    unfold load32. step_pure. cbn [fmem set_fmem]. rewrite Hl. unfold bind at 1.
    rewrite diskaddr_bad; [done|done|]. right. cbn [fmem set_fmem]. rewrite En.
    pose proof (fw_size _ Hw) as Hsz. unfold E_NO_DISK. layout. lia.
Qed.
