(* ===== verification/FsRw.v ===== *)
(** * Reading and writing files

    The loops of [file_read] and [file_write] over the block map, on top of
    [FsInv]: what they do to the contents of a file and to the rest of the disk. *)

From S2P Require Import Prelude Mmu Strings Words Fs FsInv.

(** Byte [i] of the file at [f]. *)
Definition fbyte (m : bytes) (f i : Z) : Z := rdb m (baddr (ptr m f (i / BLKSIZE)) + i mod BLKSIZE).

(** ** One round of the loop *)

Definition chunk (pos lim : Z) : Z := Z.min (BLKSIZE - pos mod BLKSIZE) (lim - pos).

Lemma chunk_bounds pos lim : pos < lim → 0 < chunk pos lim ≤ BLKSIZE ∧ pos + chunk pos lim ≤ lim.
Proof. intros H. unfold chunk. pose proof (Z.mod_pos_bound pos BLKSIZE). layout. lia. Qed.

Lemma chunk_block pos lim i :
  pos ≤ i < pos + chunk pos lim → i / BLKSIZE = pos / BLKSIZE ∧ i mod BLKSIZE = pos mod BLKSIZE + (i - pos).
Proof. unfold chunk. intros H. layout. Z.div_mod_to_equations. lia. Qed.

Lemma block_bounds i lim :
  0 ≤ i < lim → lim ≤ MAXFILESIZE → 0 ≤ i / BLKSIZE < MAXBLOCKS.
Proof. unfold MAXFILESIZE. intros H1 H2. layout. Z.div_mod_to_equations. lia. Qed.

Lemma rw_round fuel f buf pos lim copy s :
  0 ≤ pos < lim → lim ≤ MAXFILESIZE →
  rw_loop (S fuel) f buf pos lim copy s =
  (r <- file_get_block f (pos / BLKSIZE) ;;
   if fst r <? 0 then ret (fst r) else
   copy (snd r + pos mod BLKSIZE) buf (chunk pos lim) ;;;
   rw_loop fuel f (buf + chunk pos lim) (pos + chunk pos lim) lim copy) s.
Proof.
  intros Hp Hl. cbn [rw_loop]. pose proof (chunk_bounds pos lim (proj2 Hp)) as Hc.
  pose proof (block_bounds pos lim Hp Hl) as Hb.
  assert (lim < 2 ^ 31) as Hlim by (unfold MAXFILESIZE in Hl; layout; lia).
  rewrite (u64_small pos) by (unfold is_u64; lia). destruct (Z.ltb_spec pos lim); [|lia]. cbn [negb].
  rewrite Z.quot_div_nonneg, Z.rem_mod_nonneg by (layout; lia).
  rewrite (u32_small (pos / BLKSIZE)) by (layout; lia).
  pose proof (Z.mod_pos_bound pos BLKSIZE ltac:(layout; lia)).
  rewrite !u64_small by (unfold is_u64; layout; lia). fold (chunk pos lim). rewrite !i32_small by (layout; lia). done.
Qed.

Lemma rw_done fuel f buf pos lim copy s :
  0 ≤ lim ≤ pos → pos < 2 ^ 64 → rw_loop fuel f buf pos lim copy s = Ret 0 s.
Proof.
  intros H1 H2. destruct fuel; cbn [rw_loop]; rewrite u64_small by (unfold is_u64; lia); by destruct (Z.ltb_spec pos lim); [lia|].
Qed.

(** ** What is kept *)

(** From [s] to [s'] the mapped bytes of the file outside [lo, hi) are kept. *)
Record kept (s s' : fsstate) (f fb lo hi : Z) : Prop := {
  kp_wf : fs_wf s';
  kp_file : file_ok (fmem s') f fb;
  kp_bno : bno (fmem s') = bno (fmem s);
  kp_ptr n : 0 ≤ n < MAXBLOCKS → ptr (fmem s) f n ≠ 0 → ptr (fmem s') f n = ptr (fmem s) f n;
  kp_byte i : 0 ≤ i < MAXFILESIZE → ptr (fmem s) f (i / BLKSIZE) ≠ 0 → ¬ (lo ≤ i < hi) →
    fbyte (fmem s') f i = fbyte (fmem s) f i;
  kp_head a : f ≤ a < f + f_direct 0 → rdb (fmem s') a = rdb (fmem s) a;
  kp_out a : a < DISKMAP ∨ baddr (bno (fmem s)) ≤ a → rdb (fmem s') a = rdb (fmem s) a
}.

Lemma kept_trans s s1 s2 f fb lo mid hi :
  lo ≤ mid ≤ hi → kept s s1 f fb lo mid → kept s1 s2 f fb mid hi → kept s s2 f fb lo hi.
Proof.
  intros Hm A B. split; [apply B|apply B| | | | |].
  - by rewrite (kp_bno _ _ _ _ _ _ B), (kp_bno _ _ _ _ _ _ A).
  - intros n Hn Hp. pose proof (kp_ptr _ _ _ _ _ _ A n Hn Hp) as E.
    rewrite (kp_ptr _ _ _ _ _ _ B); [done|done|by rewrite E].
  - intros i Hi Hp Ho. pose proof (block_bounds i _ Hi ltac:(lia)) as Hb.
    pose proof (kp_ptr _ _ _ _ _ _ A _ Hb Hp) as E.
    rewrite (kp_byte _ _ _ _ _ _ B), (kp_byte _ _ _ _ _ _ A); try done; try lia; by rewrite E.
  - intros a Ha. by rewrite (kp_head _ _ _ _ _ _ B), (kp_head _ _ _ _ _ _ A).
  - intros a Ha. rewrite (kp_out _ _ _ _ _ _ B), (kp_out _ _ _ _ _ _ A); try done; by rewrite (kp_bno _ _ _ _ _ _ A).
Qed.

Lemma grown_kept s s' f fb n p :
  file_ok (fmem s) f fb → grown s s' f fb → (ptr (fmem s) f n ≠ 0 → s' = s) →
  (∀ n', 0 ≤ n' < MAXBLOCKS → n' ≠ n → ptr (fmem s') f n' = ptr (fmem s) f n') →
  kept s s' f fb p p.
Proof.
  intros Hok G Hsame Hoth.
  assert (∀ k, 0 ≤ k < MAXBLOCKS → ptr (fmem s) f k ≠ 0 → ptr (fmem s') f k = ptr (fmem s) f k) as Hp.
  { intros k Hk Hpk. destruct (decide (k = n)) as [->|]; [by rewrite Hsame|by apply Hoth]. }
  destruct G as [G1 G2 G3 _ _ G6 G7 G8]. split; [done|done|done|done| |done|done].
  intros i Hi Hpi _. pose proof (block_bounds i _ Hi ltac:(lia)) as Hb. unfold fbyte. rewrite Hp by done.
  destruct (fo_ptr _ _ _ Hok _ Hb Hpi) as (Hg & Hfb & Hind). apply (G6 _ _ Hg Hfb Hind).
  unfold in_block. pose proof (Z.mod_pos_bound i BLKSIZE). layout. lia.
Qed.

(** ** The disk as a whole *)

(** A file and its blocks are on the disk. *)
Lemma file_on_disk m f fb a :
  data_start (bno m) ≤ bno m → file_ok m f fb → f ≤ a < f + 256 → DISKMAP ≤ a < baddr (bno m).
Proof.
  intros Hn Hok Ha. pose proof (data_start_ge _ Hn). destruct (fo_in _ _ _ Hok).
  assert (1 ≤ fb < bno m) by (destruct (fo_fb _ _ _ Hok) as [[? _]|[-> _]]; lia).
  generalize dependent (bno m). intros nb ? ? ?. generalize dependent (data_start nb). layout. lia.
Qed.

Lemma byte_on_disk m f fb i :
  file_ok m f fb → 0 ≤ i < MAXFILESIZE → ptr m f (i / BLKSIZE) ≠ 0 →
  in_block (ptr m f (i / BLKSIZE)) (baddr (ptr m f (i / BLKSIZE)) + i mod BLKSIZE) ∧
  good m (ptr m f (i / BLKSIZE)).
Proof.
  intros Hok Hi Hp. pose proof (block_bounds i _ Hi ltac:(lia)) as Hb.
  split; [|by apply (fo_ptr _ _ _ Hok)]. unfold in_block. pose proof (Z.mod_pos_bound i BLKSIZE). layout. lia.
Qed.

Lemma good_on_disk m b a : good m b → in_block b a → DISKMAP ≤ a < baddr (bno m).
Proof. intros Hg Hi. pose proof (good_pos _ _ Hg). destruct Hg as [[_ ?] _]. unfold in_block in *. layout. lia. Qed.

(** Memory that agrees with [s] where the size, the bitmap and the pointers of the
    file are. *)
Lemma store_kept s m' d f fb :
  fs_wf s → file_ok (fmem s) f fb → bytes_ok m' →
  (∀ a, SUPER + s_nblocks ≤ a < SUPER + s_nblocks + 4 → rdb m' a = rdb (fmem s) a) →
  (∀ a, BITMAP ≤ a < baddr (data_start (bno (fmem s))) → rdb m' a = rdb (fmem s) a) →
  (∀ a, meta (fmem s) f a → rdb m' a = rdb (fmem s) a) →
  let s' := set_flash d (set_fmem m' s) in
  fs_wf s' ∧ file_ok (fmem s') f fb ∧ bno (fmem s') = bno (fmem s) ∧ map_kept (fmem s) (fmem s') f.
Proof.
  intros Hw Hok Hb Hs Hbm Hm s'. cbn [fmem set_fmem set_flash s'].
  assert (bno m' = bno (fmem s)) as En by (apply ld32_ext; auto).
  assert (map_kept (fmem s) m' f) as Hk by by apply map_kept_intro.
  assert (∀ b, 0 ≤ b < bno (fmem s) → free m' b = free (fmem s) b) as Hf.
  { intros b Hlt. unfold free. f_equal. apply ld32_ext. intros a Ha. apply Hbm.
    pose proof (bit_addr_bounds _ b Hlt (proj2 (fw_size _ Hw))). lia. }
  split_and!; try done.
  - destruct Hw as [H1 H2 H3 H4 H5].
    split; unfold s'; cbn [fmem set_fmem set_flash super bitmap]; rewrite ?En; try done.
    intros b Hlt. rewrite Hf by lia. auto.
  - apply (file_ok_kept (fmem s)); try done. intros b Hlt. by rewrite Hf.
Qed.

(** Data written into block [n] of the file. *)
Lemma data_store s m' f fb n lo hi :
  fs_wf s → file_ok (fmem s) f fb → 0 ≤ n < MAXBLOCKS → ptr (fmem s) f n ≠ 0 → bytes_ok m' →
  (∀ i, lo ≤ i < hi → i / BLKSIZE = n) →
  (∀ a, (∀ i, lo ≤ i < hi → a ≠ baddr (ptr (fmem s) f n) + i mod BLKSIZE) → rdb m' a = rdb (fmem s) a) →
  kept s (set_fmem m' s) f fb lo hi ∧ ptr m' f n = ptr (fmem s) f n.
Proof.
  intros Hw Hok Hn Hp Hb Hlo Hm. destruct (fo_ptr _ _ _ Hok n Hn Hp) as (Hg & Hfb & Hind).
  assert (∀ a, ¬ in_block (ptr (fmem s) f n) a → rdb m' a = rdb (fmem s) a) as Hout.
  { intros a Ha. apply Hm. intros i Hi ->. apply Ha. unfold in_block.
    pose proof (Z.mod_pos_bound i BLKSIZE). layout. lia. }
  pose proof (good_pos _ _ Hg) as Hg3. pose proof (fw_size _ Hw) as [Hn1 _].
  assert (∀ a, meta (fmem s) f a → rdb m' a = rdb (fmem s) a) as Hmeta.
  { intros a Ha. apply Hout. by apply (meta_outside _ _ _ _ Hn1 Hok Ha). }
  destruct (store_kept s m' (flash s) f fb Hw Hok Hb) as (Hw' & Hok' & En & [Ei Ep]); [| |done|].
  { intros a Ha. apply Hout. unfold in_block. layout. lia. }
  { intros a Ha. apply Hout. destruct Hg as [[Hg _] _]. unfold in_block.
    generalize dependent (data_start (bno (fmem s))). layout. lia. }
  assert (set_flash (flash s) (set_fmem m' s) = set_fmem m' s) as Es by done. rewrite Es in *. cbn [fmem set_fmem] in *.
  split; [|by apply Ep]. split; try done.
  - intros k Hk _. by apply Ep.
  - intros i Hi Hpi Ho. pose proof (block_bounds i _ Hi ltac:(lia)) as Hbi. unfold fbyte. cbn [fmem set_fmem].
    rewrite Ep by done. apply Hm. intros j Hj Heq.
    destruct (byte_on_disk _ f fb i Hok Hi Hpi) as [Hin _].
    assert (i / BLKSIZE = n) as Ein.
    { apply (fo_inj _ _ _ Hok); [done|done|done|]. eapply in_block_inj; [apply Hin|]. rewrite Heq.
      unfold in_block. pose proof (Z.mod_pos_bound j BLKSIZE). layout. lia. }
    rewrite Ein in Heq. specialize (Hlo j Hj). rewrite <-Ein in Hlo.
    pose proof (Z.div_mod i BLKSIZE). pose proof (Z.div_mod j BLKSIZE). layout. lia.
  - intros a Ha. apply Hout. intros Hia. apply Hfb. eapply in_block_inj; [done|]. unfold in_block.
    pose proof (fo_in _ _ _ Hok). layout. lia.
  - intros a Ha. apply Hout. intros Hia. pose proof (good_on_disk _ _ _ Hg Hia). lia.
Qed.

(** ** The loops *)

Lemma kept_refl s f fb p : fs_wf s → file_ok (fmem s) f fb → kept s s f fb p p.
Proof. intros Hw Hok. by split. Qed.

(** A round of the write loop on a mapped block. *)
Lemma copy_in_run s f fb pos lim buf :
  fs_wf s → file_ok (fmem s) f fb → 0 ≤ pos < lim → lim ≤ MAXFILESIZE → ptr (fmem s) f (pos / BLKSIZE) ≠ 0 →
  ∃ s', copy_in (baddr (ptr (fmem s) f (pos / BLKSIZE)) + pos mod BLKSIZE) buf (chunk pos lim) s = Ret tt s' ∧
    kept s s' f fb pos (pos + chunk pos lim) ∧
    ∀ i, pos ≤ i < pos + chunk pos lim →
      ptr (fmem s') f (i / BLKSIZE) ≠ 0 ∧ fbyte (fmem s') f i = rdb (fmem s) (buf + (i - pos)).
Proof.
  intros Hw Hok Hp Hl Hptr. pose proof (block_bounds pos lim Hp Hl) as Hn.
  pose proof (chunk_bounds pos lim (proj2 Hp)) as Hc. eexists. split; [done|].
  rewrite u64_small by (unfold is_u64; layout; lia). set (m' := memmove _ _ _ _).
  assert (∀ a, rdb m' a = _) as Hm by (intros a; apply memmove_spec; [apply Hw|lia]).
  assert (bytes_ok m') as Hb by (apply bytes_ok_memmove; [apply Hw|lia]). clearbody m'.
  destruct (data_store s m' f fb (pos / BLKSIZE) pos (pos + chunk pos lim)) as [Hk Ep]; try done.
  - intros i Hi. by apply (chunk_block pos lim).
  - intros a Ha. rewrite Hm, decide_False; [done|]. intros Hx.
    set (i := pos + (a - (baddr (ptr (fmem s) f (pos / BLKSIZE)) + pos mod BLKSIZE))).
    assert (pos ≤ i < pos + chunk pos lim) as Hi by lia. apply (Ha i Hi).
    rewrite (proj2 (chunk_block pos lim i Hi)). lia.
  - split; [done|]. intros i Hi. destruct (chunk_block pos lim i Hi) as [Ed Em]. unfold fbyte.
    cbn [fmem set_fmem]. rewrite Ed, Em, Ep, Hm, decide_True by lia. split; [done|]. f_equal. lia.
Qed.

(** [buf] to [buf + n] is outside the disk. *)
Definition outside (m : bytes) (buf n : Z) : Prop := buf + n ≤ DISKMAP ∨ baddr (bno m) ≤ buf.

Lemma write_loop_run fuel s f fb buf pos lim :
  fs_wf s → file_ok (fmem s) f fb → 0 ≤ pos ≤ lim → lim ≤ MAXFILESIZE → lim ≤ BLKSIZE * bno (fmem s) →
  lim - pos ≤ Z.of_nat fuel → outside (fmem s) buf (lim - pos) →
  (∃ s', rw_loop fuel f buf pos lim copy_in s = Ret 0 s' ∧ kept s s' f fb pos lim ∧
     ∀ i, pos ≤ i < lim →
       ptr (fmem s') f (i / BLKSIZE) ≠ 0 ∧ fbyte (fmem s') f i = rdb (fmem s) (buf + (i - pos))) ∨
  (∃ s', rw_loop fuel f buf pos lim copy_in s = Ret (- E_NO_DISK) s' ∧ full (fmem s') ∧
     ∃ i, pos ≤ i < lim ∧ ptr (fmem s) f (i / BLKSIZE) = 0).
Proof.
  revert s buf pos. induction fuel as [|fuel IH]; intros s buf pos Hw Hok Hp Hl Hnb Hf Hout.
  { left. exists s. rewrite rw_done by (unfold MAXFILESIZE in *; layout; lia). split_and!; [done| |lia].
    assert (pos = lim) as -> by lia. by apply kept_refl. }
  destruct (decide (pos = lim)) as [->|].
  { left. exists s. rewrite rw_done by (unfold MAXFILESIZE in *; layout; lia). split_and!; [done| |lia]. by apply kept_refl. }
  assert (0 ≤ pos < lim) as Hp' by lia. pose proof (block_bounds pos lim Hp' Hl) as Hn.
  pose proof (chunk_bounds pos lim (proj2 Hp')) as Hc. rewrite (rw_round _ _ _ _ _ _ _ Hp' Hl).
  assert (pos / BLKSIZE ≤ bno (fmem s)) as Hpb by (apply Z.div_le_upper_bound; layout; lia).
  destruct (file_get_block_run s f fb _ Hw Hok Hn Hpb) as [(s1 & E & G & Hptr & Hsame & Hoth)|(Hz & s' & E & Hfull)].
  2: { right. exists s'. split; [by step_with E|]. split; [done|]. exists pos. split; [lia|done]. }
  pose proof (grown_kept _ _ _ _ _ pos Hok G Hsame Hoth) as K1.
  destruct (copy_in_run s1 f fb pos lim buf (gr_wf _ _ _ _ G) (gr_file _ _ _ _ G) Hp' Hl Hptr) as (s2 & E2 & K2 & Hd2).
  pose proof (kept_trans s s1 s2 f fb pos pos (pos + chunk pos lim) ltac:(lia) K1 K2) as K. pose proof (kp_bno _ _ _ _ _ _ K) as En.
  rewrite (bind_Ret_l _ _ _ _ _ E). cbn [fst snd]. change (0 <? 0) with false. cbv iota. step_with E2.
  assert (∀ a, buf ≤ a < buf + (lim - pos) → a < DISKMAP ∨ baddr (bno (fmem s)) ≤ a) as Hbuf
    by (unfold outside in Hout; lia).
  destruct (IH s2 (buf + chunk pos lim) (pos + chunk pos lim) (kp_wf _ _ _ _ _ _ K) (kp_file _ _ _ _ _ _ K))
    as [(s' & E' & K' & Hd')|(s' & E' & Hfull & i & Hi & Hz)]; try lia.
  { unfold outside in *. rewrite En. lia. }
  - left. exists s'. split; [done|]. split; [apply (kept_trans s s2 s' f fb pos (pos + chunk pos lim) lim ltac:(lia) K K')|]. intros i Hi.
    destruct (decide (i < pos + chunk pos lim)) as [Hlt|Hge].
    + destruct (Hd2 i ltac:(lia)) as [Hp2 Hb2]. pose proof (block_bounds i lim ltac:(lia) Hl).
      rewrite (kp_ptr _ _ _ _ _ _ K'), (kp_byte _ _ _ _ _ _ K') by (done || lia). split; [done|].
      rewrite Hb2. apply (kp_out _ _ _ _ _ _ K1). apply Hbuf. lia.
    + destruct (Hd' i ltac:(lia)) as [Hp2 Hb2]. split; [done|]. rewrite Hb2.
      replace (buf + chunk pos lim + (i - (pos + chunk pos lim))) with (buf + (i - pos)) by lia.
      apply (kp_out _ _ _ _ _ _ K). apply Hbuf. lia.
  - right. exists s'. split_and!; [done|done|]. exists i. split; [lia|].
    destruct (decide (ptr (fmem s) f (i / BLKSIZE) = 0)) as [|Hnz]; [done|].
    rewrite <-Hz. symmetry. apply (kp_ptr _ _ _ _ _ _ K); [|done]. apply (block_bounds i lim); lia.
Qed.

(** A change outside the disk. *)
Lemma outside_kept s m' f fb :
  fs_wf s → file_ok (fmem s) f fb → bytes_ok m' →
  (∀ a, DISKMAP ≤ a < baddr (bno (fmem s)) → rdb m' a = rdb (fmem s) a) →
  fs_wf (set_fmem m' s) ∧ file_ok m' f fb ∧ bno m' = bno (fmem s) ∧ map_kept (fmem s) m' f ∧
  ∀ i, 0 ≤ i < MAXFILESIZE → ptr (fmem s) f (i / BLKSIZE) ≠ 0 → fbyte m' f i = fbyte (fmem s) f i.
Proof.
  intros Hw Hok Hb Hm. pose proof (fw_size _ Hw) as [Hn _]. pose proof (data_start_ge _ Hn) as Hds.
  destruct (store_kept s m' (flash s) f fb Hw Hok Hb) as (Hw' & Hok' & En & Hk).
  - intros a Ha. apply Hm. generalize dependent (data_start (bno (fmem s))). layout. lia.
  - intros a Ha. apply Hm. generalize dependent (data_start (bno (fmem s))). layout. lia.
  - intros a Ha. apply Hm. by apply (meta_outside _ _ _ _ Hn Hok Ha).
  - split_and!; try done. intros i Hi Hp. pose proof (block_bounds i _ Hi ltac:(lia)) as Hbi.
    unfold fbyte. rewrite (proj2 Hk) by done. apply Hm.
    destruct (byte_on_disk _ f fb i Hok Hi Hp) as [Hin Hg]. apply (good_on_disk _ _ _ Hg Hin).
Qed.

Lemma read_loop_run fuel s f fb buf pos lim :
  fs_wf s → file_ok (fmem s) f fb → 0 ≤ pos ≤ lim → lim ≤ MAXFILESIZE → lim ≤ BLKSIZE * bno (fmem s) →
  lim - pos ≤ Z.of_nat fuel → outside (fmem s) buf (lim - pos) →
  (∀ i, pos ≤ i < lim → ptr (fmem s) f (i / BLKSIZE) ≠ 0) →
  ∃ m', rw_loop fuel f buf pos lim copy_out s = Ret 0 (set_fmem m' s) ∧ bytes_ok m' ∧
    ∀ a, rdb m' a = if decide (buf ≤ a < buf + (lim - pos)) then fbyte (fmem s) f (pos + (a - buf))
                    else rdb (fmem s) a.
Proof.
  revert s buf pos. induction fuel as [|fuel IH]; intros s buf pos Hw Hok Hp Hl Hnb Hf Hout Hmap.
  { exists (fmem s). rewrite rw_done by (unfold MAXFILESIZE in *; layout; lia).
    split_and!; [by destruct s|apply Hw|]. intros a. by rewrite decide_False by lia. }
  destruct (decide (pos = lim)) as [->|].
  { exists (fmem s). rewrite rw_done by (unfold MAXFILESIZE in *; layout; lia).
    split_and!; [by destruct s|apply Hw|]. intros a. by rewrite decide_False by lia. }
  assert (0 ≤ pos < lim) as Hp' by lia. pose proof (block_bounds pos lim Hp' Hl) as Hn.
  pose proof (chunk_bounds pos lim (proj2 Hp')) as Hc. rewrite (rw_round _ _ _ _ _ _ _ Hp' Hl).
  assert (pos / BLKSIZE ≤ bno (fmem s)) as Hpb by (apply Z.div_le_upper_bound; layout; lia).
  destruct (file_get_block_run s f fb _ Hw Hok Hn Hpb) as [(s1 & E & _ & _ & Hsame & _)|(Hz & _)];
    [|by destruct (Hmap pos ltac:(lia))].
  rewrite (Hsame (Hmap pos ltac:(lia))) in E. rewrite (bind_Ret_l _ _ _ _ _ E).
  cbn [fst snd]. change (0 <? 0) with false. cbv iota. unfold copy_out at 1. step_pure.
  rewrite u64_small by (unfold is_u64; layout; lia). set (m1 := memmove _ _ _ _).
  assert (∀ a, rdb m1 a = _) as Hm by (intros a; apply memmove_spec; [apply Hw|lia]).
  assert (bytes_ok m1) as Hb1 by (apply bytes_ok_memmove; [apply Hw|lia]). clearbody m1.
  destruct (outside_kept s m1 f fb Hw Hok Hb1) as (Hw1 & Hok1 & En & [_ Ep] & Hby).
  { intros a Ha. rewrite Hm, decide_False; [done|]. unfold outside in Hout. lia. }
  destruct (IH (set_fmem m1 s) (buf + chunk pos lim) (pos + chunk pos lim) Hw1 Hok1)
    as (m' & E' & Hb' & Hd'); cbn [fmem set_fmem]; try lia.
  { unfold outside in *. rewrite En. lia. }
  { intros i Hi. rewrite Ep by (apply (block_bounds i lim); lia). apply Hmap. lia. }
  exists m'. split_and!; [done|done|]. intros a. rewrite Hd'. cbn [fmem set_fmem].
  assert (∀ a, buf ≤ a < buf + (lim - pos) → ptr (fmem s) f ((pos + (a - buf)) / BLKSIZE) ≠ 0) as Hpa.
  { intros x Hx. apply Hmap. lia. }
  case_decide as H1; case_decide as H2; try lia.
  - replace (pos + chunk pos lim + (a - (buf + chunk pos lim))) with (pos + (a - buf)) by lia.
    apply Hby; [lia|]. by apply Hpa.
  - rewrite Hm. rewrite decide_True by lia. unfold fbyte.
    destruct (chunk_block pos lim (pos + (a - buf)) ltac:(lia)) as [-> ->]. f_equal. lia.
  - rewrite Hm. by rewrite decide_False by lia.
Qed.

(** ** [file_write] and [file_read] *)

Definition fsize (m : bytes) (f : Z) : Z := i32 (ld32 m (f + f_size)).

(** What a step that only changes the size, or nothing, leaves. *)
Record resized (s s' : fsstate) (f fb : Z) : Prop := {
  rs_wf : fs_wf s';
  rs_file : file_ok (fmem s') f fb;
  rs_bno : bno (fmem s') = bno (fmem s);
  rs_map : map_kept (fmem s) (fmem s') f;
  rs_byte i : 0 ≤ i < MAXFILESIZE → ptr (fmem s) f (i / BLKSIZE) ≠ 0 → fbyte (fmem s') f i = fbyte (fmem s) f i;
  rs_out a : a < DISKMAP ∨ baddr (bno (fmem s)) ≤ a → rdb (fmem s') a = rdb (fmem s) a
}.

Lemma file_set_size_grow s f fb n :
  fs_wf s → file_ok (fmem s) f fb → fsize (fmem s) f ≤ n → 0 ≤ n < 2 ^ 31 →
  ∃ s', file_set_size f n s = Ret 0 s' ∧ resized s s' f fb ∧ fsize (fmem s') f = n.
Proof.
  intros Hw Hok Hn1 Hn. pose proof (fw_size _ Hw) as [Hs Hmax]. pose proof (data_start_ge _ Hs) as Hds.
  assert (∀ a, f ≤ a < f + 256 → DISKMAP ≤ a < baddr (bno (fmem s))) as Hin
    by (intros a Ha; by apply (file_on_disk _ f fb)).
  unfold file_set_size, file_size, load32. step_with (eq_refl : (v <- gets (λ s, ld32 (fmem s) (f + f_size)) ;; ret (i32 v)) s = Ret (fsize (fmem s) f) s).
  destruct (Z.ltb_spec n (fsize (fmem s) f)); [lia|]. step_pure. unfold store32. step_pure.
  set (m' := st32 _ _ _). destruct (flush_block_Ret (set_fmem m' s) f) as [d E].
  { specialize (Hin f ltac:(lia)). layout. lia. }
  eexists. split; [by step_with E|].
  assert (∀ a, ¬ (f ≤ a < f + f_direct 0) → rdb m' a = rdb (fmem s) a) as Hm.
  { intros a Ha. apply rdb_st32_out. layout. lia. }
  destruct (store_kept s m' d f fb Hw Hok) as (Hw' & Hok' & En & Hk).
  { apply bytes_ok_st32, Hw. }
  { intros a Ha. apply Hm. intros Hx. destruct (fo_in _ _ _ Hok), (fo_fb _ _ _ Hok) as [Hg|[-> ->]].
    - pose proof (good_pos _ _ Hg). layout. lia.
    - layout. lia. }
  { intros a Ha. apply Hm. intros Hx. destruct (fo_in _ _ _ Hok), (fo_fb _ _ _ Hok) as [[[Hg _] _]|[-> ->]].
    - generalize dependent (data_start (bno (fmem s))). layout. lia.
    - layout. lia. }
  { intros a Ha. apply Hm. intros Hx. by destruct (meta_outside _ _ _ _ Hs Hok Ha) as (_ & _ & _ & ? & _). }
  split; [split; [done|done|done|done| |]|].
  - intros i Hi Hp. pose proof (block_bounds i _ Hi ltac:(lia)) as Hb. unfold fbyte.
    rewrite (proj2 Hk) by done. apply Hm. intros Hx.
    destruct (byte_on_disk _ f fb i Hok Hi Hp) as [Hib _], (fo_ptr _ _ _ Hok _ Hb Hp) as (_ & Hne & _).
    apply Hne. eapply in_block_inj; [done|]. unfold in_block. pose proof (fo_in _ _ _ Hok). layout. lia.
  - intros a Ha. apply Hm. intros Hx. specialize (Hin a ltac:(layout; lia)). lia.
  - unfold fsize. cbn [fmem set_flash set_fmem]. unfold m'. rewrite ld32_st32_eq.
    rewrite (u32_small n) by lia. by apply i32_small; lia.
Qed.

Lemma resized_refl s f fb : fs_wf s → file_ok (fmem s) f fb → resized s s f fb.
Proof. intros Hw Hok. by split. Qed.

Lemma file_size_Ret s f : file_size f s = Ret (fsize (fmem s) f) s.
Proof. done. Qed.

(** The part of [file_write] before the loop. *)
Lemma extend_run s f fb lim :
  fs_wf s → file_ok (fmem s) f fb → 0 ≤ fsize (fmem s) f → 0 ≤ lim ≤ MAXFILESIZE →
  ∃ s', (if u64 (fsize (fmem s) f) <? u64 lim then file_set_size f (i32 lim) else ret 0) s = Ret 0 s' ∧
    resized s s' f fb ∧ fsize (fmem s') f = Z.max (fsize (fmem s) f) lim.
Proof.
  intros Hw Hok Hsz Hl.
  assert (lim < 2 ^ 31) as Hl31 by (unfold MAXFILESIZE in Hl; layout; lia).
  assert (fsize (fmem s) f < 2 ^ 31) by apply i32_bound.
  rewrite !u64_small, i32_small by (unfold is_u64; lia). destruct (Z.ltb_spec (fsize (fmem s) f) lim).
  - destruct (file_set_size_grow s f fb lim Hw Hok) as (s' & E & R & Es); [lia|lia|].
    exists s'. split_and!; [done|done|lia].
  - exists s. split_and!; [done|by apply resized_refl|lia].
Qed.

Definition in_range (lo n i : Z) : Prop := lo ≤ i < lo + n.

Lemma file_write_run s f fb buf count offset :
  fs_wf s → file_ok (fmem s) f fb → 0 ≤ fsize (fmem s) f → 0 ≤ offset → 0 ≤ count →
  offset + count ≤ MAXFILESIZE → offset + count ≤ BLKSIZE * bno (fmem s) → outside (fmem s) buf count →
  (∃ s', file_write f buf count offset s = Ret count s' ∧ fs_wf s' ∧ file_ok (fmem s') f fb ∧
     bno (fmem s') = bno (fmem s) ∧ fsize (fmem s') f = Z.max (fsize (fmem s) f) (offset + count) ∧
     (∀ i, in_range offset count i →
        ptr (fmem s') f (i / BLKSIZE) ≠ 0 ∧ fbyte (fmem s') f i = rdb (fmem s) (buf + (i - offset))) ∧
     (∀ i, 0 ≤ i < MAXFILESIZE → ptr (fmem s) f (i / BLKSIZE) ≠ 0 → ¬ in_range offset count i →
        fbyte (fmem s') f i = fbyte (fmem s) f i) ∧
     (∀ a, a < DISKMAP ∨ baddr (bno (fmem s)) ≤ a → rdb (fmem s') a = rdb (fmem s) a)) ∨
  (∃ s', file_write f buf count offset s = Ret (- E_NO_DISK) s' ∧ full (fmem s') ∧
     ∃ i, in_range offset count i ∧ ptr (fmem s) f (i / BLKSIZE) = 0).
Proof.
  intros Hw Hok Hsz Ho Hc Hmax Hnb Hout. unfold in_range. unfold file_write. step_with (file_size_Ret s f).
  destruct (extend_run s f fb (offset + count) Hw Hok Hsz ltac:(lia)) as (s1 & E1 & R & Es).
  rewrite !(bind_Ret_l _ _ _ _ _ E1). change (0 <? 0) with false. cbv iota.
  assert (offset + count < 2 ^ 31) as Hl31 by (unfold MAXFILESIZE in Hmax; layout; lia).
  rewrite !u64_small by (unfold is_u64; lia). rewrite !i32_small by lia.
  destruct R as [Rw Rf Rn [_ Rp] Rb Ro].
  assert (∀ i, 0 ≤ i < offset + count → 0 ≤ i / BLKSIZE < MAXBLOCKS) as Hblk by (intros i Hi; by apply (block_bounds i (offset + count))).
  destruct (write_loop_run (Z.to_nat count) s1 f fb buf offset (offset + count) Rw Rf)
    as [(s' & E & K & Hd)|(s' & E & Hfull & i & Hi & Hz)]; try lia.
  { unfold outside in *. rewrite Rn. replace (offset + count - offset) with count by lia. done. }
  - left. exists s'. split; [by step_with E|]. split_and!; [apply K|apply K| | | | |].
    + by rewrite (kp_bno _ _ _ _ _ _ K).
    + rewrite <-Es. unfold fsize. f_equal. apply ld32_ext. intros a Ha. apply (kp_head _ _ _ _ _ _ K). layout. lia.
    + intros i Hi. destruct (Hd i Hi) as [? ->]. split; [done|]. apply Ro. unfold outside in Hout. lia.
    + intros i Hi Hp Hni. pose proof (block_bounds i _ Hi ltac:(lia)) as Hb.
      rewrite (kp_byte _ _ _ _ _ _ K); [by apply Rb|done|by rewrite Rp|done].
    + intros a Ha. rewrite (kp_out _ _ _ _ _ _ K) by by rewrite Rn. by apply Ro.
  - right. exists s'. split; [by step_with E|]. split; [done|]. exists i. split; [done|].
    rewrite <-Rp; [done|]. apply Hblk. lia.
Qed.

(** C13  [file_write] puts the caller's bytes into the file and nothing else: the
    range written holds the buffer, every other byte the file had is kept, and so is
    all memory off the disk, the size is the larger of the old size and the end of the range, and the disk stays
    well-formed.  Otherwise the result is [-E_NO_DISK], which happens only when
    the range has a block that was not yet allocated and no block is free. *)
Theorem file_write_correct (s : fsstate) (f fb buf count offset : Z)
    (Hw : fs_wf s) (Hok : file_ok (fmem s) f fb) (Hsz : 0 ≤ fsize (fmem s) f)
    (Ho : 0 ≤ offset) (Hc : 0 ≤ count) (Hmax : offset + count ≤ MAXFILESIZE)
    (Hnb : offset + count ≤ BLKSIZE * bno (fmem s)) (Hout : outside (fmem s) buf count) :
  (∃ s', file_write f buf count offset s = Ret count s' ∧ fs_wf s' ∧ file_ok (fmem s') f fb ∧
     bno (fmem s') = bno (fmem s) ∧ fsize (fmem s') f = Z.max (fsize (fmem s) f) (offset + count) ∧
     (∀ i, in_range offset count i →
        ptr (fmem s') f (i / BLKSIZE) ≠ 0 ∧ fbyte (fmem s') f i = rdb (fmem s) (buf + (i - offset))) ∧
     (∀ i, 0 ≤ i < MAXFILESIZE → ptr (fmem s) f (i / BLKSIZE) ≠ 0 → ¬ in_range offset count i →
        fbyte (fmem s') f i = fbyte (fmem s) f i) ∧
     (∀ a, a < DISKMAP ∨ baddr (bno (fmem s)) ≤ a → rdb (fmem s') a = rdb (fmem s) a)) ∨
  (∃ s', file_write f buf count offset s = Ret (- E_NO_DISK) s' ∧ full (fmem s') ∧
     ∃ i, in_range offset count i ∧ ptr (fmem s) f (i / BLKSIZE) = 0).
Proof. by apply file_write_run. Qed.

Lemma file_read_run s f fb buf count offset :
  fs_wf s → file_ok (fmem s) f fb → 0 ≤ offset → 0 < count → offset + count ≤ fsize (fmem s) f →
  offset + count ≤ MAXFILESIZE → offset + count ≤ BLKSIZE * bno (fmem s) → outside (fmem s) buf count →
  (∀ i, in_range offset count i → ptr (fmem s) f (i / BLKSIZE) ≠ 0) →
  ∃ m', file_read f buf count offset s = Ret count (set_fmem m' s) ∧
    ∀ a, rdb m' a = if decide (buf ≤ a < buf + count) then fbyte (fmem s) f (offset + (a - buf))
                    else rdb (fmem s) a.
Proof.
  intros Hw Hok Ho Hc Hsz Hmax Hnb Hout Hmap. unfold file_read. step_with (file_size_Ret s f).
  destruct (Z.leb_spec (fsize (fmem s) f) offset); [lia|].
  assert (fsize (fmem s) f < 2 ^ 31) by apply i32_bound.
  rewrite (i32_small (fsize (fmem s) f - offset)) by lia.
  rewrite (u64_small (fsize (fmem s) f - offset)) by (unfold is_u64; lia).
  rewrite Z.min_l by lia. rewrite (u64_small (offset + count)) by (unfold is_u64; lia).
  destruct (read_loop_run (Z.to_nat count) s f fb buf offset (offset + count) Hw Hok)
    as (m' & E & _ & Hd); try lia; try done.
  { by replace (offset + count - offset) with count by lia. }
  exists m'. split; [by step_with E|]. intros a. rewrite Hd.
  by replace (offset + count - offset) with count by lia.
Qed.

(** C16  What [file_write] stores, [file_read] of the same range returns, byte for
    byte and in full, into any buffer off the disk. *)
Theorem file_write_read (s s' : fsstate) (f fb src dst count offset : Z)
    (Hw : fs_wf s) (Hok : file_ok (fmem s) f fb) (Hsz : 0 ≤ fsize (fmem s) f)
    (Ho : 0 ≤ offset) (Hc : 0 < count) (Hmax : offset + count ≤ MAXFILESIZE)
    (Hnb : offset + count ≤ BLKSIZE * bno (fmem s))
    (Hsrc : outside (fmem s) src count) (Hdst : outside (fmem s) dst count)
    (Hrun : file_write f src count offset s = Ret count s') :
  ∃ s2, file_read f dst count offset s' = Ret count s2 ∧
    ∀ k, 0 ≤ k < count → rdb (fmem s2) (dst + k) = rdb (fmem s) (src + k).
Proof.
  destruct (file_write_run s f fb src count offset) as [(s1 & E & Hw1 & Hok1 & En & Es & Hd & _)|(s1 & E & _)];
    try done; try lia; rewrite Hrun in E; simplify_eq; [|unfold E_NO_DISK in *; lia].
  destruct (file_read_run s1 f fb dst count offset) as (m2 & E2 & H2); try done; try lia.
  { unfold outside. by rewrite En. }
  { intros i Hi. by apply Hd. }
  exists (set_fmem m2 s1). split; [done|]. intros k Hk. cbn [fmem set_fmem]. rewrite H2, decide_True by lia.
  rewrite (proj2 (Hd (offset + (dst + k - dst)) ltac:(unfold in_range; lia))). f_equal. lia.
Qed.

(** ** An example: an empty disk of eight blocks, of which 3 to 7 are free, and two
    bytes written into the root file across a block boundary. *)
Definition ex_disk : fsstate :=
  mkFs {[ SUPER + s_nblocks := 8; BITMAP := 0xF8; 0x1000 := 72; 0x1001 := 105 ]} ∅ SUPER BITMAP.
Definition ex_root : Z := SUPER + s_root.
Definition ret_of {A} (o : outcome fsstate A) : option A := match o with Ret a _ => Some a | _ => None end.
Definition state_of {A} (o : outcome fsstate A) : fsstate :=
  match o with Ret _ s | Panic s | NoRet s => s | Undef => ex_disk end.
Lemma ret_state {A} (o : outcome fsstate A) a : ret_of o = Some a → o = Ret a (state_of o).
Proof. destruct o; simpl; congruence. Qed.
Definition ex_written : fsstate := state_of (file_write ex_root 0x1000 2 4095 ex_disk).

Lemma ex_disk_wf : fs_wf ex_disk.
Proof.
  split; [done|done| | |].
  - apply bytes_ok_sound. apply (bool_decide_unpack _). by vm_compute.
  - by vm_compute.
  - change (bno (fmem ex_disk)) with 8. change (data_start 8) with 3. intros b Hb.
    assert (b = 0 ∨ b = 1 ∨ b = 2) as [-> | [-> | ->]] by lia; by vm_compute.
Qed.

Lemma ex_root_ptr n : 0 ≤ n < MAXBLOCKS → ptr (fmem ex_disk) ex_root n = 0.
Proof.
  intros Hn. unfold ptr, no_slot. change (ind (fmem ex_disk) ex_root) with 0.
  destruct (Z.leb_spec NDIRECT n) as [|Hd]; [done|]. unfold NDIRECT in Hd. simpl andb. cbv iota.
  assert (n = 0 ∨ n = 1 ∨ n = 2 ∨ n = 3 ∨ n = 4 ∨ n = 5 ∨ n = 6 ∨ n = 7 ∨ n = 8 ∨ n = 9) as Hc by lia.
  repeat (destruct Hc as [->|Hc]; [by vm_compute|]). subst n. by vm_compute.
Qed.

Lemma ex_root_ok : file_ok (fmem ex_disk) ex_root 1.
Proof.
  split.
  - by vm_compute.
  - by right.
  - by change (ind (fmem ex_disk) ex_root) with 0.
  - intros n Hn. by rewrite ex_root_ptr.
  - intros n n' Hn Hn'. by rewrite ex_root_ptr.
Qed.

Lemma file_write_witness :
  ∃ s', file_write ex_root 0x1000 2 4095 ex_disk = Ret 2 s' ∧ fsize (fmem s') ex_root = 4097 ∧
    fbyte (fmem s') ex_root 4095 = 72 ∧ fbyte (fmem s') ex_root 4096 = 105.
Proof.
  destruct (file_write_correct ex_disk ex_root 1 0x1000 2 4095 ex_disk_wf ex_root_ok
    ltac:(by vm_compute) ltac:(lia) ltac:(lia) ltac:(by vm_compute) ltac:(by vm_compute) ltac:(by left))
    as [(s' & E & _ & _ & _ & Hs & Hd & _)|(s' & E & _)].
  - exists s'. split; [exact E|]. split; [rewrite Hs; by vm_compute|]. split.
    + rewrite (proj2 (Hd 4095 ltac:(unfold in_range; lia))). by vm_compute.
    + rewrite (proj2 (Hd 4096 ltac:(unfold in_range; lia))). by vm_compute.
  - exfalso. assert (ret_of (file_write ex_root 0x1000 2 4095 ex_disk) = Some 2) as Hr by by vm_compute.
    rewrite E in Hr. discriminate.
Defined.

Lemma file_write_read_witness :
  ∃ s2, file_read ex_root 0x2000 2 4095 ex_written = Ret 2 s2 ∧
    ∀ k, 0 ≤ k < 2 → rdb (fmem s2) (0x2000 + k) = rdb (fmem ex_disk) (0x1000 + k).
Proof.
  apply (file_write_read ex_disk ex_written ex_root 1 0x1000 0x2000 2 4095 ex_disk_wf ex_root_ok
    ltac:(by vm_compute) ltac:(lia) ltac:(lia) ltac:(by vm_compute) ltac:(by vm_compute)
    ltac:(by left) ltac:(by left)).
  apply ret_state. by vm_compute.
Defined.
