(* ===== verification/Flash.v ===== *)
(** * What the block cache relies on: a flash with sectors

    The interface between fs/bc.c and the driver fs/cfi_flash.c.  [Cfi] implements
    it, [Bc] uses it. *)

From S2P Require Import Prelude Strings Words Fs.

Definition SECTSIZE : Z := 512.
Definition BLKSECTS : Z := BLKSIZE / SECTSIZE.

(** Sectors the file system can use. *)
Definition NSECS : Z := 49152.

Class Flash (D : Type) := {
  cfi_read : Z → Z → Z → M (bytes * D) unit;
  cfi_write : Z → Z → Z → M (bytes * D) unit;
  fl_ok : D → Prop;
  fl_byte : D → Z → Z;
  fl_range d i : fl_ok d → 0 ≤ fl_byte d i < 256;
  cfi_read_ok m d secno dst nsecs :
    fl_ok d → bytes_ok m → 0 ≤ secno → 0 ≤ nsecs → secno + nsecs ≤ NSECS →
    ∃ m', cfi_read secno dst nsecs (m, d) = Ret tt (m', d) ∧ bytes_ok m' ∧
      ∀ a, rdb m' a = if decide (dst ≤ a < dst + SECTSIZE * nsecs)
                      then fl_byte d (SECTSIZE * secno + (a - dst)) else rdb m a;
  cfi_write_ok m d secno src nsecs :
    fl_ok d → bytes_ok m → 0 ≤ secno → 0 ≤ nsecs → secno + nsecs ≤ NSECS →
    ∃ d', cfi_write secno src nsecs (m, d) = Ret tt (m, d') ∧ fl_ok d' ∧
      ∀ i, fl_byte d' i = if decide (SECTSIZE * secno ≤ i < SECTSIZE * (secno + nsecs))
                          then rdb m (src + (i - SECTSIZE * secno)) else fl_byte d i
}.
