(* ===== verification/Cfi.v ===== *)
(** * The flash driver, fs/cfi_flash.c

    The driver talks to a NOR flash chip through memory-mapped words.  The chip is
    a parameter: [Chip] has its two bus operations, [ChipSpec] says what each
    command of the driver does to a chip with the Intel command set, which may only
    be able to clear bits without an erase and may go on showing its status after a
    program.  [QemuFlash] adds the two ways in which the flash of QEMU's virt machine,
    which GNUmakefile starts, does more: programming overwrites, and clearing the
    status returns to the array.  The driver never erases and never asks for the
    array, so the file system needs both.  The theorems show that the command
    sequences of the driver read and program exactly the words asked for, and that
    on such a chip the driver is the [Flash] of the block cache. *)

From S2P Require Import Prelude Strings Words Fs Flash.

Definition CFIFLASH_CAPACITY : Z := 32 * 1024 * 1024.
Definition CFIFLASH_ERASEBLK_SIZE : Z := 128 * 1024 * 2.
Definition CFIFLASH_ERASEBLK_WORDS : Z := CFIFLASH_ERASEBLK_SIZE / 4.
Definition CFIFLASH_ERASEBLK_WORDMASK : Z := Z.lnot (CFIFLASH_ERASEBLK_WORDS - 1).
Definition CFIFLASH_PAGE_SIZE : Z := 2048 * 2.
Definition CFIFLASH_PAGE_WORDS : Z := CFIFLASH_PAGE_SIZE / 4.
Definition CFIFLASH_PAGE_WORDS_MASK : Z := CFIFLASH_PAGE_WORDS - 1.
Definition CFIFLASH_QUERY_CMD : Z := 0x98.
Definition CFIFLASH_QUERY_BASE : Z := 0x55.
Definition CFIFLASH_QUERY_QRY : Z := 0x10.
Definition CFIFLASH_CMD_ERASE : Z := 0x20.
Definition CFIFLASH_CMD_CLEAR_STATUS : Z := 0x50.
Definition CFIFLASH_CMD_READ_STATUS : Z := 0x70.
Definition CFIFLASH_CMD_CONFIRM : Z := 0xD0.
Definition CFIFLASH_CMD_BUFWRITE : Z := 0xE8.
Definition CFIFLASH_CMD_RESET : Z := 0xFF.
Definition CFIFLASH_STATUS_READY_MASK : Z := 0x80.
Definition FLASH_ERROR : Z := -1.
Definition FLASH_OK : Z := 0.
Definition FS_NOR_OFFSET : Z := 0x800000.

Definition CfiFlashPageWordOffset (wordOffset : Z) : Z := Z.land wordOffset CFIFLASH_PAGE_WORDS_MASK.
Definition CfiFlashEraseBlkWordAddr (wordOffset : Z) : Z := Z.land wordOffset CFIFLASH_ERASEBLK_WORDMASK.
Definition W2B (words : Z) : Z := u32 (Z.shiftl words 2).
Definition B2W (bytes : Z) : Z := Z.shiftr bytes 2.

(** A 32-bit read or write of the word at an index from the base of the flash. *)
Class Chip (D : Type) := {
  dread : Z → D → Z * D;
  dwrite : Z → Z → D → D
}.

Section driver.
Context {D : Type} `{Chip D}.

(** How often a status is polled before the model gives up. *)
Context (polls : nat).

Definition C (A : Type) : Type := M (bytes * D) A.
Definition rd (w : Z) : C Z := λ s, let '(v, d) := dread w (snd s) in Ret v (fst s, d).
Definition wr (w v : Z) : C unit := modify (λ s, (fst s, dwrite w v (snd s))).
Definition ldm (a : Z) : C Z := gets (λ s, ld32 (fst s) a).
Definition stm (a v : Z) : C unit := modify (λ s, (st32 (fst s) a v, snd s)).

(** A byte of the flash, as [uint8_t *p] reads it. *)
Definition rd8 (i : Z) : C Z := w <- rd (i / 4) ;; ret (u8 (Z.shiftr w (8 * (i mod 4)))).

Definition CfiFlashQueryQRY : C Z :=
  q <- rd8 (W2B CFIFLASH_QUERY_QRY) ;;
  if negb (q =? 81) then ret FLASH_ERROR else
  r <- rd8 (W2B (CFIFLASH_QUERY_QRY + 1)) ;;
  if negb (r =? 82) then ret FLASH_ERROR else
  y <- rd8 (W2B (CFIFLASH_QUERY_QRY + 2)) ;;
  ret (if y =? 89 then FLASH_OK else FLASH_ERROR).

Definition CfiFlashQuery : C Z :=
  wr CFIFLASH_QUERY_BASE CFIFLASH_QUERY_CMD ;;;
  r <- CfiFlashQueryQRY ;;
  if negb (r =? 0) then ret FLASH_ERROR else
  wr 0 CFIFLASH_CMD_RESET ;;; ret FLASH_OK.

Definition CfiFlashIsReady (wordOffset : Z) : C Z :=
  wr wordOffset CFIFLASH_CMD_READ_STATUS ;;;
  v <- rd wordOffset ;;
  ret (Z.land v CFIFLASH_STATUS_READY_MASK).

Fixpoint wait_ready (n : nat) (wordOffset : Z) : C unit :=
  match n with
  | O => noret
  | S n' => r <- CfiFlashIsReady wordOffset ;; if r =? 0 then wait_ready n' wordOffset else ret tt
  end.

(** The inner [for] loop. *)
Fixpoint program_words (n : nat) (wordOffset buffer : Z) : C unit :=
  match n with
  | O => ret tt
  | S n' => v <- ldm buffer ;; wr wordOffset v ;;; program_words n' (wordOffset + 1) (buffer + 4)
  end.

Fixpoint write_pages (fuel : nat) (wordOffset buffer words wordCount : Z) : C unit :=
  if words =? 0 then ret tt else
  match fuel with
  | O => noret
  | S fuel' =>
      let blkAddr := CfiFlashEraseBlkWordAddr wordOffset in
      wr blkAddr CFIFLASH_CMD_BUFWRITE ;;;
      wr blkAddr (wordCount - 1) ;;;
      program_words (Z.to_nat wordCount) wordOffset buffer ;;;
      wr blkAddr CFIFLASH_CMD_CONFIRM ;;;
      wait_ready polls blkAddr ;;;
      let words := words - wordCount in
      write_pages fuel' (wordOffset + wordCount) (buffer + 4 * wordCount) words
        (if CFIFLASH_PAGE_WORDS <=? words then CFIFLASH_PAGE_WORDS else words)
  end.

(** A round writes at least one word. *)
Definition CfiFlashWriteBuf (wordOffset buffer words : Z) : C unit :=
  let i := CFIFLASH_PAGE_WORDS - CfiFlashPageWordOffset wordOffset in
  write_pages (Z.to_nat words) wordOffset buffer words (if words <? i then words else i) ;;;
  wr 0 CFIFLASH_CMD_CLEAR_STATUS.

(** Without the interrupt masking around the transfer. *)
Definition CfiFlashWrite (buffer offset nbytes : Z) : C Z :=
  if CFIFLASH_CAPACITY <? u32 (offset + nbytes) then ret FLASH_ERROR else
  CfiFlashWriteBuf (B2W offset) buffer (B2W nbytes) ;;; ret FLASH_OK.

Definition CfiFlashRead (buffer offset nbytes : Z) : C Z :=
  if CFIFLASH_CAPACITY <? u32 (offset + nbytes) then ret FLASH_ERROR else
  for_loop (Z.to_nat (B2W nbytes)) 0 (λ i, v <- rd (B2W offset + i) ;; stm (buffer + 4 * i) v) ;;;
  ret FLASH_OK.

Definition CfiFlashErase (offset : Z) : C Z :=
  if CFIFLASH_CAPACITY <? offset then ret FLASH_ERROR else
  let blkAddr := CfiFlashEraseBlkWordAddr (B2W offset) in
  wr blkAddr CFIFLASH_CMD_ERASE ;;;
  wr blkAddr CFIFLASH_CMD_CONFIRM ;;;
  wait_ready polls blkAddr ;;;
  wr 0 CFIFLASH_CMD_CLEAR_STATUS ;;;
  ret FLASH_OK.

Definition cfi_flash_read (secno dst nsecs : Z) : C unit :=
  for_loop (Z.to_nat nsecs) 0 (λ i,
    r <- CfiFlashRead (dst + SECTSIZE * i) (u32 (FS_NOR_OFFSET + (secno + i) * SECTSIZE)) SECTSIZE ;; ret tt).
Definition cfi_flash_write (secno src nsecs : Z) : C unit :=
  for_loop (Z.to_nat nsecs) 0 (λ i,
    r <- CfiFlashWrite (src + SECTSIZE * i) (u32 (FS_NOR_OFFSET + (secno + i) * SECTSIZE)) SECTSIZE ;; ret tt).
End driver.

(** ** The chip *)

(** Where a chip is in a command: reading the array, expecting a word count, loading
    [n] more words, expecting the confirmation of an erase, or busy for [k] more
    polls of the status. *)
Inductive mode :=
  | Idle
  | Count (b : Z)
  | Load (b : Z) (n : nat) (ws : list (Z * Z))
  | Erasing (b : Z)
  | Busy (k : nat).

Definition upd (g : Z → Z) (w v : Z) : Z → Z := λ x, if decide (x = w) then v else g x.
(** A buffer is programmed, [f] giving a word from the old and the new one. *)
Definition program (f : Z → Z → Z) (ws : list (Z * Z)) (g : Z → Z) : Z → Z :=
  foldl (λ g w, upd g (fst w) (f (g (fst w)) (snd w))) g ws.
Definition erase_block (w : Z) : Z := w / CFIFLASH_ERASEBLK_WORDS * CFIFLASH_ERASEBLK_WORDS.

(** The Intel command set as far as the driver uses it: buffered programming within
    one page, which gives the new word wherever only bits are cleared; erasing; the
    status register, which a cleared status may or may not take out of sight. *)
Class ChipSpec (D : Type) `{Chip D} (polls : nat) := {
  array : D → Z → Z;
  rep : D → mode → Prop;
  prog_word : Z → Z → Z;
  chip_prog old new : 0 ≤ new < 2 ^ 32 → Z.land old new = new → prog_word old new = new;
  chip_word d md w : rep d md → 0 ≤ array d w < 2 ^ 32;
  chip_read d w : rep d Idle → dread w d = (array d w, d);
  chip_bufwrite d b : rep d Idle ∨ rep d (Busy 0) →
    rep (dwrite b CFIFLASH_CMD_BUFWRITE d) (Count b) ∧ array (dwrite b CFIFLASH_CMD_BUFWRITE d) = array d;
  chip_count d b n : rep d (Count b) → 0 ≤ n < CFIFLASH_PAGE_WORDS →
    rep (dwrite b n d) (Load b (Z.to_nat (n + 1)) []) ∧ array (dwrite b n d) = array d;
  chip_load d b n ws w v : rep d (Load b (S n) ws) → 0 ≤ v < 2 ^ 32 → erase_block w = b →
    Forall (λ x, fst x / CFIFLASH_PAGE_WORDS = w / CFIFLASH_PAGE_WORDS) ws →
    rep (dwrite w v d) (Load b n (ws ++ [(w, v)])) ∧ array (dwrite w v d) = array d;
  chip_confirm d b ws : rep d (Load b 0 ws) →
    (∃ k, (k < polls)%nat ∧ rep (dwrite b CFIFLASH_CMD_CONFIRM d) (Busy k)) ∧
    array (dwrite b CFIFLASH_CMD_CONFIRM d) = program prog_word ws (array d);
  chip_erase d b : rep d Idle → rep (dwrite b CFIFLASH_CMD_ERASE d) (Erasing b) ∧
    array (dwrite b CFIFLASH_CMD_ERASE d) = array d;
  chip_erased d b : rep d (Erasing b) →
    (∃ k, (k < polls)%nat ∧ rep (dwrite b CFIFLASH_CMD_CONFIRM d) (Busy k)) ∧
    array (dwrite b CFIFLASH_CMD_CONFIRM d)
    = λ w, if decide (erase_block w = b) then 2 ^ 32 - 1 else array d w;
  chip_status d b k : rep d (Busy k) →
    rep (dwrite b CFIFLASH_CMD_READ_STATUS d) (Busy k) ∧
    array (dwrite b CFIFLASH_CMD_READ_STATUS d) = array d;
  chip_poll d b k v d' : rep d (Busy k) → dread b d = (v, d') →
    array d' = array d ∧
    match k with
    | O => Z.land v CFIFLASH_STATUS_READY_MASK ≠ 0 ∧ rep d' (Busy 0)
    | S k' => Z.land v CFIFLASH_STATUS_READY_MASK = 0 ∧ rep d' (Busy k')
    end;
  chip_clear d : rep d (Busy 0) →
    (rep (dwrite 0 CFIFLASH_CMD_CLEAR_STATUS d) Idle ∨ rep (dwrite 0 CFIFLASH_CMD_CLEAR_STATUS d) (Busy 0)) ∧
    array (dwrite 0 CFIFLASH_CMD_CLEAR_STATUS d) = array d
}.

(** Clearing the status returns to reading the array. *)
Definition clear_reads {D : Type} {polls : nat} `{ChipSpec D polls} : Prop :=
  ∀ d, rep d (Busy 0) → rep (dwrite 0 CFIFLASH_CMD_CLEAR_STATUS d) Idle.
(** The flash of QEMU's virt machine. *)
Class QemuFlash (D : Type) (polls : nat) `{ChipSpec D polls} : Prop := {
  qemu_program old new : prog_word old new = new;
  qemu_clear : clear_reads
}.

Lemma program_cons f ws w v g : program f ((w, v) :: ws) g = program f ws (upd g w (f (g w) v)).
Proof. done. Qed.

Lemma eraseblk_addr w : 0 ≤ w → CfiFlashEraseBlkWordAddr w = erase_block w.
Proof.
  intros Hw. unfold CfiFlashEraseBlkWordAddr, CFIFLASH_ERASEBLK_WORDMASK, erase_block.
  change CFIFLASH_ERASEBLK_WORDS with (2 ^ 16). change (2 ^ 16 - 1) with (Z.ones 16).
  rewrite <-Z.ldiff_land, Z.ldiff_ones_r, Z.shiftl_mul_pow2, Z.shiftr_div_pow2 by lia. done.
Qed.

Lemma pageword_offset w : CfiFlashPageWordOffset w = w mod CFIFLASH_PAGE_WORDS.
Proof.
  unfold CfiFlashPageWordOffset. change CFIFLASH_PAGE_WORDS_MASK with (Z.ones 10).
  by rewrite Z.land_ones by lia.
Qed.

Section spec.
Context {D : Type} {polls : nat} `{ChipSpec D polls}.
Implicit Types (m : bytes) (d : D).

Lemma wait_ready_run n m d k b :
  rep d (Busy k) → (k < n)%nat →
  ∃ d', wait_ready n b (m, d) = Ret tt (m, d') ∧ rep d' (Busy 0) ∧ array d' = array d.
Proof.
  revert d k. induction n as [|n IH]; intros d k Hr Hk; [lia|]. cbn [wait_ready].
  unfold CfiFlashIsReady, wr, rd. rewrite bind_assoc. step_pure. rewrite bind_assoc. cbn [fst snd].
  destruct (chip_status d b k Hr) as [Hs Ea]. destruct (dread b (dwrite b CFIFLASH_CMD_READ_STATUS d)) as [v d1] eqn:E.
  destruct (chip_poll _ b k v d1 Hs E) as [Ea1 Hk1].
  erewrite bind_Ret_l by (cbv beta; cbn [fst snd]; by rewrite E). step_pure. rewrite <-Ea, <-Ea1.
  destruct k as [|k']; destruct Hk1 as [Hv Hr1]; destruct (Z.eqb_spec (Z.land v CFIFLASH_STATUS_READY_MASK) 0); try done.
  - exists d1. done.
  - apply (IH d1 k'); [done|lia].
Qed.

(** The words of a buffer. *)
Definition buf_words (m : bytes) (off buffer : Z) (n : nat) : list (Z * Z) :=
  (λ i, (off + i, ld32 m (buffer + 4 * i))) <$> seqZ 0 (Z.of_nat n).

Lemma buf_words_S m off buffer n :
  buf_words m off buffer (S n) = (off, ld32 m buffer) :: buf_words m (off + 1) (buffer + 4) n.
Proof.
  unfold buf_words. rewrite seqZ_cons by lia. rewrite fmap_cons. f_equal; [repeat f_equal; lia|].
  replace (Z.pred (Z.of_nat (S n))) with (Z.of_nat n) by lia. change (Z.succ 0) with (1 + 0).
  rewrite <-(fmap_add_seqZ 1 0 (Z.of_nat n)), <-list_fmap_compose.
  apply list_fmap_ext. intros i x _. cbn. f_equal; [lia|]. f_equal. lia.
Qed.

Lemma program_words_run n m d b ws off buffer :
  bytes_ok m → rep d (Load b n ws) →
  (∀ i, 0 ≤ i < Z.of_nat n → erase_block (off + i) = b) →
  (∀ i, 0 ≤ i < Z.of_nat n → (off + i) / CFIFLASH_PAGE_WORDS = off / CFIFLASH_PAGE_WORDS) →
  Forall (λ x, fst x / CFIFLASH_PAGE_WORDS = off / CFIFLASH_PAGE_WORDS) ws →
  ∃ d', program_words n off buffer (m, d) = Ret tt (m, d') ∧
    rep d' (Load b 0 (ws ++ buf_words m off buffer n)) ∧ array d' = array d.
Proof.
  intros Hm. revert d ws off buffer. induction n as [|n IH]; intros d ws off buffer Hr Hb Hp Hws.
  { exists d. rewrite app_nil_r. done. }
  cbn [program_words]. unfold ldm, wr. step_pure. step_pure. cbn [fst snd].
  pose proof (Hb 0 ltac:(lia)) as Hb0. rewrite Z.add_0_r in Hb0.
  destruct (chip_load d b n ws off (ld32 m buffer) Hr (ld32_bound m buffer Hm) Hb0 Hws) as [Hr1 Ea1].
  assert (∀ i, 0 ≤ i < Z.of_nat n → (off + 1 + i) / CFIFLASH_PAGE_WORDS = off / CFIFLASH_PAGE_WORDS) as Hp1.
  { intros i Hi. rewrite <-(Hp (1 + i)) by lia. f_equal. lia. }
  destruct n as [|n'].
  { eexists. split; [done|]. rewrite buf_words_S. done. }
  assert ((off + 1) / CFIFLASH_PAGE_WORDS = off / CFIFLASH_PAGE_WORDS) as E1 by (apply (Hp 1); lia).
  destruct (IH (dwrite off (ld32 m buffer) d) (ws ++ [(off, ld32 m buffer)]) (off + 1) (buffer + 4) Hr1)
    as (d' & E & Hr' & Ea').
  - intros i Hi. rewrite <-(Hb (1 + i)) by lia. f_equal. lia.
  - intros i Hi. rewrite E1. by apply Hp1.
  - rewrite E1. apply Forall_app. split; [done|]. by apply Forall_singleton.
  - exists d'. split; [done|]. rewrite buf_words_S. rewrite <-app_assoc in Hr'. split; [done|]. by rewrite Ea'.
Qed.

Lemma program_buf_words f n m off buffer g w :
  program f (buf_words m off buffer n) g w =
  if decide (off ≤ w < off + Z.of_nat n) then f (g w) (ld32 m (buffer + 4 * (w - off))) else g w.
Proof.
  revert off buffer g. induction n as [|n IH]; intros off buffer g.
  { by rewrite decide_False by lia. }
  rewrite buf_words_S, program_cons, IH. unfold upd. repeat case_decide; try lia; try done; subst; do 2 f_equal; lia.
Qed.

(** One page of the write loop. *)
Lemma page_run m d off buffer wc :
  bytes_ok m → rep d Idle ∨ rep d (Busy 0) → 0 ≤ off → 0 < wc → off mod CFIFLASH_PAGE_WORDS + wc ≤ CFIFLASH_PAGE_WORDS →
  let b := CfiFlashEraseBlkWordAddr off in
  ∃ d', (wr b CFIFLASH_CMD_BUFWRITE ;;; wr b (wc - 1) ;;; program_words (Z.to_nat wc) off buffer ;;;
         wr b CFIFLASH_CMD_CONFIRM ;;; wait_ready polls b) (m, d) = Ret tt (m, d') ∧
    rep d' (Busy 0) ∧
    ∀ w, array d' w = if decide (off ≤ w < off + wc)
                      then prog_word (array d w) (ld32 m (buffer + 4 * (w - off))) else array d w.
Proof.
  intros Hm Hr Ho Hwc Hpage b. unfold wr. step_pure. step_pure. cbn [fst snd].
  destruct (chip_bufwrite d b Hr) as [Hr1 Ea1].
  pose proof (Z.mod_pos_bound off CFIFLASH_PAGE_WORDS ltac:(done)) as Hmod.
  destruct (chip_count _ b (wc - 1) Hr1 ltac:(lia)) as [Hr2 Ea2].
  replace (wc - 1 + 1) with wc in Hr2 by lia.
  assert (∀ i, 0 ≤ i < Z.of_nat (Z.to_nat wc) → (off + i) / CFIFLASH_PAGE_WORDS = off / CFIFLASH_PAGE_WORDS) as Hpg.
  { change CFIFLASH_PAGE_WORDS with 1024 in *. intros i Hi. Z.div_mod_to_equations. lia. }
  destruct (program_words_run (Z.to_nat wc) m _ b [] off buffer Hm Hr2) as (d3 & E3 & Hr3 & Ea3); [|done|done|].
  { intros i Hi. unfold b. rewrite eraseblk_addr by done. specialize (Hpg i Hi). unfold erase_block.
    change CFIFLASH_PAGE_WORDS with 1024 in *. change CFIFLASH_ERASEBLK_WORDS with 65536.
    Z.div_mod_to_equations. lia. }
  step_with E3. step_pure. cbn [fst snd]. destruct (chip_confirm _ b _ Hr3) as [(k & Hk & Hr4) Ea4].
  destruct (wait_ready_run polls m _ k b Hr4 Hk) as (d5 & E5 & Hr5 & Ea5).
  exists d5. split_and!; [done|done|]. intros w. rewrite Ea5, Ea4, Ea3, Ea2, Ea1. cbn [app].
  rewrite program_buf_words, Z2Nat.id by lia. done.
Qed.

Lemma write_pages_run fuel m d off buffer words wc :
  bytes_ok m → rep d Idle ∨ rep d (Busy 0) → 0 ≤ off → 0 < words ≤ Z.of_nat fuel → 0 < wc ≤ words →
  off mod CFIFLASH_PAGE_WORDS + wc ≤ CFIFLASH_PAGE_WORDS →
  wc = words ∨ off mod CFIFLASH_PAGE_WORDS + wc = CFIFLASH_PAGE_WORDS →
  ∃ d', write_pages polls fuel off buffer words wc (m, d) = Ret tt (m, d') ∧ rep d' (Busy 0) ∧
    ∀ w, array d' w = if decide (off ≤ w < off + words)
                      then prog_word (array d w) (ld32 m (buffer + 4 * (w - off))) else array d w.
Proof.
  intros Hm. revert d off buffer words wc.
  induction fuel as [|fuel IH]; intros d off buffer words wc Hr Ho Hw Hwc Hp He; [lia|].
  cbn [write_pages]. destruct (Z.eqb_spec words 0); [lia|].
  destruct (page_run m d off buffer wc Hm Hr Ho ltac:(lia) Hp) as (d1 & E1 & Hr1 & Ea1).
  unfold bind in E1 |- *. set (b := CfiFlashEraseBlkWordAddr off) in *.
  destruct (wr b CFIFLASH_CMD_BUFWRITE (m, d)) as [? s1| | |]; try done.
  destruct (wr b (wc - 1) s1) as [? s2| | |]; try done.
  destruct (program_words _ _ _ s2) as [? s3| | |]; try done.
  destruct (wr b CFIFLASH_CMD_CONFIRM s3) as [? s4| | |]; try done. rewrite E1.
  destruct (decide (words = wc)) as [->|Hne].
  { replace (wc - wc) with 0 by lia. exists d1. split; [|done]. by destruct fuel. }
  destruct He as [?|He]; [lia|]. set (wc' := if _ <=? _ then _ else _).
  assert ((off + wc) mod CFIFLASH_PAGE_WORDS = 0) as Hz.
  { change CFIFLASH_PAGE_WORDS with 1024 in *. Z.div_mod_to_equations. lia. }
  destruct (IH d1 (off + wc) (buffer + 4 * wc) (words - wc) wc') as (d' & E & Hr' & Ea'); auto; try lia;
    try (unfold wc'; change CFIFLASH_PAGE_WORDS with 1024 in *; rewrite ?Hz; zcases; lia).
  exists d'. split_and!; [done|done|]. intros w. rewrite Ea', Ea1.
  repeat case_decide; try lia; try done. do 2 f_equal. lia.
Qed.

(** ** The driver's promises *)

(** Between commands, showing the array or the status. *)
Definition settled (d : D) : Prop := rep d Idle ∨ rep d (Busy 0).

(** [CfiFlashWrite] programs exactly the words asked for. *)
Lemma CfiFlashWrite_run m d buffer offset nbytes :
  bytes_ok m → settled d → 0 ≤ offset → 0 < nbytes → offset mod 4 = 0 → nbytes mod 4 = 0 →
  offset + nbytes ≤ CFIFLASH_CAPACITY →
  ∃ d', CfiFlashWrite polls buffer offset nbytes (m, d) = Ret FLASH_OK (m, d') ∧ settled d' ∧ (clear_reads → rep d' Idle) ∧
    ∀ w, array d' w = if decide (offset / 4 ≤ w < (offset + nbytes) / 4)
                      then prog_word (array d w) (ld32 m (buffer + 4 * (w - offset / 4))) else array d w.
Proof.
  intros Hm Hr Ho Hn Ho4 Hn4 Hcap. unfold CfiFlashWrite, CfiFlashWriteBuf.
  rewrite u32_small by (unfold CFIFLASH_CAPACITY in *; lia).
  destruct (Z.ltb_spec CFIFLASH_CAPACITY (offset + nbytes)); [lia|].
  unfold B2W. rewrite !Z.shiftr_div_pow2 by lia. change (2 ^ 2) with 4. rewrite pageword_offset.
  set (off := offset / 4). set (words := nbytes / 4).
  assert (0 ≤ off ∧ 0 < words ∧ (offset + nbytes) / 4 = off + words) as (Hoff & Hwords & ->)
    by (unfold off, words; Z.div_mod_to_equations; lia).
  pose proof (Z.mod_pos_bound off CFIFLASH_PAGE_WORDS ltac:(done)) as Hmod.
  set (wc := if _ <? _ then _ else _).
  destruct (write_pages_run (Z.to_nat words) m d off buffer words wc Hm) as (d1 & E1 & Hr1 & Ea1); auto; try lia;
    try (unfold wc; zcases; lia).
  destruct (chip_clear d1 Hr1) as [Hr2 Ea2]. eexists. split.
  { rewrite bind_assoc. step_with E1. unfold wr. by step_pure. }
  split; [done|]. split; [intros Hcl; by apply Hcl|]. intros w. cbn [fst snd]. by rewrite Ea2, Ea1.
Qed.

(** Byte [i] of the array. *)
Definition abyte (d : D) (i : Z) : Z := u8 (array d (i / 4) / 2 ^ (8 * (i mod 4))).

Lemma CfiFlashRead_run m d buffer offset nbytes :
  bytes_ok m → rep d Idle → 0 ≤ offset → 0 < nbytes → offset mod 4 = 0 → nbytes mod 4 = 0 →
  offset + nbytes ≤ CFIFLASH_CAPACITY →
  ∃ m', CfiFlashRead buffer offset nbytes (m, d) = Ret FLASH_OK (m', d) ∧ bytes_ok m' ∧
    ∀ a, rdb m' a = if decide (buffer ≤ a < buffer + nbytes) then abyte d (offset + (a - buffer)) else rdb m a.
Proof.
  intros Hm Hr Ho Hn Ho4 Hn4 Hcap. unfold CfiFlashRead.
  rewrite u32_small by (unfold CFIFLASH_CAPACITY in *; lia).
  destruct (Z.ltb_spec CFIFLASH_CAPACITY (offset + nbytes)); [lia|].
  unfold B2W. rewrite !Z.shiftr_div_pow2 by lia. change (2 ^ 2) with 4.
  pose (P := λ (i : Z) (s : bytes * D), snd s = d ∧ bytes_ok (fst s) ∧ ∀ a, rdb (fst s) a =
    if decide (buffer ≤ a < buffer + 4 * i) then abyte d (offset + (a - buffer)) else rdb m a).
  destruct (for_loop_inv P (Z.to_nat (nbytes / 4)) 0
    (λ i, v <- rd (offset / 4 + i) ;; stm (buffer + 4 * i) v) (m, d)) as ([m' d'] & E & Ed & Hm' & Hd).
  - split_and!; [done|done|]. intros a. by rewrite decide_False by lia.
  - intros j [m1 d1] Hj (Ed & Hm1 & Hd1). cbn [fst snd] in *. subst d1.
    exists (st32 m1 (buffer + 4 * j) (array d (offset / 4 + j)), d). split.
    { erewrite bind_Ret_l; [|unfold rd; cbn [fst snd]; by rewrite (chip_read d _ Hr)]. done. }
    split_and!; [done|by apply bytes_ok_st32|]. intros a. cbn [fst].
    destruct (decide (buffer + 4 * j ≤ a < buffer + 4 * j + 4)) as [Hin|Hout].
    + rewrite decide_True by lia. replace a with (buffer + 4 * j + (a - (buffer + 4 * j))) at 1 by lia.
      rewrite rdb_st32_in by lia. unfold abyte.
      assert ((offset + (a - buffer)) / 4 = offset / 4 + j ∧ (offset + (a - buffer)) mod 4 = a - (buffer + 4 * j))
        as [-> ->] by (Z.div_mod_to_equations; lia). done.
    + rewrite rdb_st32_out by lia. rewrite Hd1. repeat case_decide; try lia; done.
  - cbn [fst snd] in *. subst d'. exists m'. split; [by step_with E|]. split; [done|]. intros a. rewrite Hd.
    replace (4 * (0 + Z.of_nat (Z.to_nat (nbytes / 4)))) with nbytes by (Z.div_mod_to_equations; lia). done.
Qed.

(** [CfiFlashErase] sets the words of one erase block to ones. *)
Lemma CfiFlashErase_run m d offset :
  rep d Idle → 0 ≤ offset ≤ CFIFLASH_CAPACITY →
  ∃ d', CfiFlashErase polls offset (m, d) = Ret FLASH_OK (m, d') ∧ settled d' ∧ (clear_reads → rep d' Idle) ∧
    ∀ w, array d' w = if decide (erase_block w = erase_block (offset / 4)) then 2 ^ 32 - 1 else array d w.
Proof.
  intros Hr Ho. unfold CfiFlashErase. destruct (Z.ltb_spec CFIFLASH_CAPACITY offset); [lia|].
  unfold B2W. rewrite Z.shiftr_div_pow2 by lia. change (2 ^ 2) with 4.
  rewrite eraseblk_addr by (apply Z.div_pos; lia). set (b := erase_block (offset / 4)).
  destruct (chip_erase d b Hr) as [Hr1 Ea1], (chip_erased _ b Hr1) as [(k & Hk & Hr2) Ea2].
  destruct (wait_ready_run polls m _ k b Hr2 Hk) as (d3 & E3 & Hr3 & Ea3).
  destruct (chip_clear d3 Hr3) as [Hr4 Ea4]. eexists. split.
  { unfold wr. step_pure. step_pure. cbn [fst snd]. step_with E3. by step_pure. }
  split; [done|]. split; [intros Hcl; by apply Hcl|]. intros w. cbn [fst snd]. by rewrite Ea4, Ea3, Ea2, Ea1.
Qed.

Lemma cfi_flash_read_run m d secno dst nsecs :
  bytes_ok m → rep d Idle → 0 ≤ secno → 0 ≤ nsecs → secno + nsecs ≤ NSECS →
  ∃ m', cfi_flash_read secno dst nsecs (m, d) = Ret tt (m', d) ∧ bytes_ok m' ∧
    ∀ a, rdb m' a = if decide (dst ≤ a < dst + SECTSIZE * nsecs)
                    then abyte d (FS_NOR_OFFSET + (SECTSIZE * secno + (a - dst))) else rdb m a.
Proof.
  intros Hm Hr Hs Hn Hmax. unfold NSECS in Hmax. unfold cfi_flash_read.
  pose (P := λ (i : Z) (s : bytes * D), snd s = d ∧ bytes_ok (fst s) ∧ ∀ a, rdb (fst s) a =
    if decide (dst ≤ a < dst + SECTSIZE * i)
    then abyte d (FS_NOR_OFFSET + (SECTSIZE * secno + (a - dst))) else rdb m a).
  edestruct (for_loop_inv P (Z.to_nat nsecs) 0) as ([m' d'] & E & Ed & Hm' & Hd).
  3: { cbn [fst snd] in *. subst d'. exists m'. split; [exact E|]. split; [done|]. intros a. rewrite Hd.
    by replace (0 + Z.of_nat (Z.to_nat nsecs)) with nsecs by lia. }
  - split_and!; [done|done|]. intros a. by rewrite decide_False by (unfold SECTSIZE; lia).
  - intros j [m1 d1] Hj (Ed & Hm1 & Hd1). cbn [fst snd] in *. subst d1. unfold SECTSIZE, FS_NOR_OFFSET in *.
    rewrite u32_small by lia.
    destruct (CfiFlashRead_run m1 d (dst + 512 * j) (0x800000 + (secno + j) * 512) 512) as (m2 & E2 & Hm2 & Hd2);
      try done; try lia; try (unfold CFIFLASH_CAPACITY; lia); try (Z.div_mod_to_equations; lia).
    exists (m2, d). split; [by step_with E2|]. split_and!; [done|done|]. intros a. cbn [fst]. rewrite Hd2, Hd1.
    repeat case_decide; try lia; try done. f_equal. lia.
Qed.

(** The first word of sector [secno], and the word of the buffer for word [w]. *)
Definition sector_word (secno : Z) : Z := (FS_NOR_OFFSET + SECTSIZE * secno) / 4.
Definition new_word (m : bytes) (secno src w : Z) : Z := ld32 m (src + 4 * (w - sector_word secno)).

Lemma cfi_flash_write_run m d secno src nsecs :
  bytes_ok m → settled d → 0 ≤ secno → 0 ≤ nsecs → secno + nsecs ≤ NSECS →
  ∃ d', cfi_flash_write polls secno src nsecs (m, d) = Ret tt (m, d') ∧ settled d' ∧ (clear_reads → rep d Idle → rep d' Idle) ∧
    ∀ w, array d' w = if decide (sector_word secno ≤ w < sector_word (secno + nsecs))
                      then prog_word (array d w) (new_word m secno src w) else array d w.
Proof.
  intros Hm Hr Hs Hn Hmax. unfold NSECS in Hmax. unfold cfi_flash_write.
  assert (∀ x, sector_word x = 0x200000 + 128 * x) as Hsw.
  { intros x. unfold sector_word, FS_NOR_OFFSET, SECTSIZE. Z.div_mod_to_equations. lia. }
  pose (P := λ (j : Z) (s : bytes * D), fst s = m ∧ settled (snd s) ∧ (clear_reads → rep d Idle → rep (snd s) Idle) ∧
    ∀ w, array (snd s) w = if decide (sector_word secno ≤ w < sector_word (secno + j))
      then prog_word (array d w) (new_word m secno src w) else array d w).
  edestruct (for_loop_inv P (Z.to_nat nsecs) 0) as ([m' d'] & E & Em & Hr' & Hcl' & Hd).
  3: { cbn [fst snd] in *. subst m'. exists d'. split; [exact E|]. split; [done|]. split; [done|]. intros w. rewrite Hd.
    by replace (0 + Z.of_nat (Z.to_nat nsecs)) with nsecs by lia. }
  - split_and!; [done|done|done|]. intros w. by rewrite decide_False by (rewrite Z.add_0_r; lia).
  - intros j [m1 d1] Hj (Em & Hr1 & Hcl1 & Hd1). cbn [fst snd] in *. subst m1.
    assert (u32 (FS_NOR_OFFSET + (secno + j) * SECTSIZE) = 0x800000 + (secno + j) * 512) as ->.
    { unfold FS_NOR_OFFSET, SECTSIZE. apply u32_small. lia. }
    destruct (CfiFlashWrite_run m d1 (src + SECTSIZE * j) (0x800000 + (secno + j) * 512) SECTSIZE) as (d2 & E2 & Hr2 & Hcl2 & Hd2);
      unfold SECTSIZE in *; try done; try lia; try (unfold CFIFLASH_CAPACITY; lia); try (Z.div_mod_to_equations; lia).
    exists (m, d2). split; [by step_with E2|]. split_and!; [done|done|auto|]. intros w. cbn [snd]. rewrite Hd2, Hd1.
    unfold new_word. rewrite !Hsw.
    replace ((0x800000 + (secno + j) * 512) / 4) with (0x200000 + 128 * (secno + j)) by (Z.div_mod_to_equations; lia).
    replace ((0x800000 + (secno + j) * 512 + 512) / 4) with (0x200000 + 128 * (secno + (j + 1))) by (Z.div_mod_to_equations; lia).
    repeat case_decide; try lia; try done. do 2 f_equal. lia.
Qed.

(** The bytes, where every word takes its new value. *)
Definition takes (m : bytes) (d : D) (secno src nsecs : Z) : Prop :=
  (∀ old new, prog_word old new = new) ∨
  ∀ w, sector_word secno ≤ w < sector_word (secno + nsecs) → Z.land (array d w) (new_word m secno src w) = new_word m secno src w.

Lemma write_bytes m d d' secno src nsecs :
  bytes_ok m → takes m d secno src nsecs →
  (∀ w, array d' w = if decide (sector_word secno ≤ w < sector_word (secno + nsecs))
                     then prog_word (array d w) (new_word m secno src w) else array d w) →
  ∀ i, abyte d' i = if decide (SECTSIZE * secno ≤ i - FS_NOR_OFFSET < SECTSIZE * (secno + nsecs))
                    then rdb m (src + (i - FS_NOR_OFFSET - SECTSIZE * secno)) else abyte d i.
Proof.
  intros Hm Ht Hd i. unfold abyte. rewrite Hd.
  assert (∀ x, sector_word x = 0x200000 + 128 * x) as Hsw.
  { intros x. unfold sector_word, FS_NOR_OFFSET, SECTSIZE. Z.div_mod_to_equations. lia. }
  assert (∀ w, sector_word secno ≤ w < sector_word (secno + nsecs) →
    prog_word (array d w) (new_word m secno src w) = new_word m secno src w) as Hp.
  { intros w Hw. destruct Ht as [Ht|Ht]; [apply Ht|]. apply chip_prog; [by apply ld32_bound|by apply Ht]. }
  destruct (decide (sector_word secno ≤ i / 4 < _)) as [Hw|Hw].
  - rewrite Hp by done. rewrite !Hsw in Hw. unfold FS_NOR_OFFSET, SECTSIZE in *.
    rewrite decide_True by (Z.div_mod_to_equations; lia).
    unfold new_word. rewrite Hsw, ld32_byte by (try apply Z.mod_pos_bound; done || lia). f_equal. Z.div_mod_to_equations. lia.
  - rewrite !Hsw in Hw. unfold FS_NOR_OFFSET, SECTSIZE in *. rewrite decide_False by (Z.div_mod_to_equations; lia). done.
Qed.
End spec.

(** The driver is the flash of the block cache. *)
#[export] Program Instance cfi_flash {D : Type} {polls : nat} `{QemuFlash D polls} : Flash D := {|
  cfi_read := cfi_flash_read;
  cfi_write := cfi_flash_write polls;
  fl_ok d := rep d Idle;
  fl_byte d i := abyte d (FS_NOR_OFFSET + i)
|}.
Next Obligation. intros. unfold abyte, u8. apply Z.mod_pos_bound. lia. Qed.
Next Obligation. intros. by apply cfi_flash_read_run. Qed.
Next Obligation.
  intros D polls ? ? ? m d secno src nsecs Hr Hm Hs Hn Hmax.
  destruct (cfi_flash_write_run m d secno src nsecs Hm ltac:(by left) Hs Hn Hmax) as (d' & E & _ & Hr' & Hd).
  exists d'. split_and!; [done|by apply Hr', Hr; apply qemu_clear|]. intros i.
  rewrite (write_bytes m d d' secno src nsecs Hm ltac:(left; apply qemu_program) Hd).
  replace (FS_NOR_OFFSET + i - FS_NOR_OFFSET) with i by lia. done.
Qed.

(** C22  On a chip with the Intel command set that shows the array again when its
    status is cleared, as the flash of QEMU's virt machine does, [cfi_flash_write]
    returns and [cfi_flash_read] of the same sectors gives the bytes back, if the
    chip overwrites words when it programs them, as that flash does, or the write
    only clears bits, as after an erase; no byte of the flash outside those sectors
    changes.  The driver itself never erases. *)
Theorem cfi_flash_roundtrip (D : Type) (polls : nat) (chip : Chip D) (spec : ChipSpec D polls)
    (m : bytes) (d : D) (secno src dst nsecs : Z)
    (Hm : bytes_ok m) (Hr : rep d Idle) (Hs : 0 ≤ secno) (Hn : 0 ≤ nsecs) (Hmax : secno + nsecs ≤ NSECS)
    (Hclear : ∀ d, rep d (Busy 0) → rep (dwrite 0 CFIFLASH_CMD_CLEAR_STATUS d) Idle)
    (Hbits : (∀ old new, prog_word old new = new) ∨
       ∀ w, sector_word secno ≤ w < sector_word (secno + nsecs) →
         Z.land (array d w) (new_word m secno src w) = new_word m secno src w) :
  ∃ d' m', cfi_flash_write polls secno src nsecs (m, d) = Ret tt (m, d') ∧
    cfi_flash_read secno dst nsecs (m, d') = Ret tt (m', d') ∧
    (∀ k, 0 ≤ k < SECTSIZE * nsecs → rdb m' (dst + k) = rdb m (src + k)) ∧
    (∀ i, ¬ (SECTSIZE * secno ≤ i - FS_NOR_OFFSET < SECTSIZE * (secno + nsecs)) → abyte d' i = abyte d i).
Proof.
  destruct (cfi_flash_write_run m d secno src nsecs Hm ltac:(by left) Hs Hn Hmax) as (d' & E & _ & Hr' & Hw).
  specialize (Hr' Hclear Hr). pose proof (write_bytes m d d' secno src nsecs Hm Hbits Hw) as Hd.
  destruct (cfi_flash_read_run m d' secno dst nsecs Hm Hr' Hs Hn Hmax) as (m' & E' & _ & Hm').
  exists d', m'. split_and!; [done|done| |].
  - intros k Hk. rewrite Hm', decide_True by lia. unfold SECTSIZE in *. rewrite Hd, decide_True by lia. f_equal. lia.
  - intros i Hi. by rewrite Hd, decide_False.
Qed.

(** ** Two chips *)

(** Chips that are busy for two polls after each command.  With [q] the chip behaves
    as QEMU's; without, programming only clears bits and a cleared status stays in
    sight, as the Intel command set has it. *)
Module Sim.
Section sim.
Context (q : bool).
Definition chip : Type := (Z → Z) * mode.

Definition prog (old new : Z) : Z := if q then new else Z.land old new.
Definition swrite (w v : Z) (c : chip) : chip :=
  let '(g, md) := c in
  match md with
  | Idle => if v =? CFIFLASH_CMD_BUFWRITE then (g, Count w)
            else if v =? CFIFLASH_CMD_ERASE then (g, Erasing w) else c
  | Count b => (g, Load b (Z.to_nat (v + 1)) [])
  | Load b (S n) ws => (g, Load b n (ws ++ [(w, v)]))
  | Load b O ws => if v =? CFIFLASH_CMD_CONFIRM then (program prog ws g, Busy 2) else c
  | Erasing b => if v =? CFIFLASH_CMD_CONFIRM
                 then ((λ w, if decide (erase_block w = b) then 2 ^ 32 - 1 else g w), Busy 2) else c
  | Busy O => if v =? CFIFLASH_CMD_BUFWRITE then (g, Count w)
              else if (v =? CFIFLASH_CMD_CLEAR_STATUS) && q then (g, Idle)
              else if v =? CFIFLASH_CMD_RESET then (g, Idle) else c
  | Busy (S _) => c
  end.
Definition sread (w : Z) (c : chip) : Z * chip :=
  let '(g, md) := c in
  match md with
  | Idle => (g w, c)
  | Busy O => (0x80, c)
  | Busy (S k) => (0, (g, Busy k))
  | _ => (0, c)
  end.
Definition sim_chip : Chip chip := {| dread := sread; dwrite := swrite |}.
#[local] Existing Instance sim_chip.

Definition word (v : Z) : Prop := 0 ≤ v < 2 ^ 32.
Definition srep (c : chip) (md : mode) : Prop :=
  snd c = md ∧ (∀ w, word (fst c w)) ∧
  match md with Load _ _ ws => Forall (λ x, word (snd x)) ws | _ => True end.

Lemma word_prog old new : word old → word new → word (prog old new).
Proof.
  unfold prog, word. intros Ho Hn. destruct q; [done|].
  rewrite <-(Z.mod_small new (2 ^ 32)), <-Z.land_ones, Z.land_assoc, Z.land_ones by lia. apply Z.mod_pos_bound. lia.
Qed.
Lemma word_program ws g w : (∀ w, word (g w)) → Forall (λ x, word (snd x)) ws → word (program prog ws g w).
Proof.
  intros Hg Hws. revert g Hg. induction Hws as [|[a v] ws Hv Hws IH]; intros g Hg; [apply Hg|].
  apply IH. intros x. unfold upd. case_decide; [by apply word_prog|done].
Qed.

Program Definition sim_spec : ChipSpec chip 3 := {| array := fst; rep := srep; prog_word := prog |}.
Next Obligation. intros old new _ E. unfold prog. by destruct q. Qed.
Next Obligation. intros c md w (_ & Hg & _). apply Hg. Qed.
Next Obligation. intros [g md] w (E & _). simpl in E. by subst. Qed.
Next Obligation. intros [g md] b [(E & ? & _)|(E & ? & _)]; simpl in E; subst; done. Qed.
Next Obligation. intros [g md] b n (E & Hg & _) _. simpl in E. subst. split; [|done]. split_and!; [done|done|]. by constructor. Qed.
Next Obligation.
  intros [g md] b n ws w v (E & Hg & Hws) Hv _ _. simpl in E. subst. split; [|done].
  split_and!; [done|done|]. apply Forall_app. split; [done|]. by apply Forall_singleton.
Qed.
Next Obligation.
  intros [g md] b ws (E & Hg & Hws). simpl in E. subst. split; [|done]. exists 2%nat. split; [lia|].
  split_and!; [done| |done]. intros w. by apply word_program.
Qed.
Next Obligation. intros [g md] b (E & Hg & _). simpl in E. by subst. Qed.
Next Obligation.
  intros [g md] b (E & Hg & _). simpl in E. subst. split; [|done]. exists 2%nat. split; [lia|].
  split_and!; [done| |done]. intros w. simpl. unfold word. case_decide; [lia|apply Hg].
Qed.
Next Obligation. intros [g md] b k (E & Hg & _). simpl in E. subst. by destruct k. Qed.
Next Obligation.
  intros [g md] b k v d' (E & Hg & _) Ed. simpl in E, Ed. subst. destruct k; simplify_eq; simpl; done.
Qed.
Next Obligation. intros [g md] (E & Hg & _). simpl in E. subst. simpl. destruct q; [by split; [left|]|by split; [right|]]. Qed.
End sim.

Definition qemu_chip : Chip chip := sim_chip true.
Definition qemu_spec : @ChipSpec chip qemu_chip 3 := sim_spec true.
Lemma qemu_flash : @QemuFlash chip 3 qemu_chip qemu_spec.
Proof. split; [done|]. intros [g md] (E & Hg & _). simpl in E. by subst. Qed.
End Sim.
Import Sim.

Lemma cfi_flash_roundtrip_witness :
  ∃ d' m', @cfi_flash_write chip qemu_chip 3 8 10 1 (block_example, ((λ _, 0), Idle)) = Ret tt (block_example, d') ∧
    @cfi_flash_read chip qemu_chip 8 5000 1 (block_example, d') = Ret tt (m', d') ∧
    (∀ k, 0 ≤ k < SECTSIZE * 1 → rdb m' (5000 + k) = rdb block_example (10 + k)) ∧
    (∀ i, ¬ (SECTSIZE * 8 ≤ i - FS_NOR_OFFSET < SECTSIZE * (8 + 1)) →
       @abyte chip 3 qemu_chip qemu_spec d' i = @abyte chip 3 qemu_chip qemu_spec ((λ _, 0), Idle) i).
Proof.
  apply (cfi_flash_roundtrip chip 3 qemu_chip qemu_spec block_example ((λ _, 0), Idle) 8 10 5000 1).
  - apply bytes_ok_sound. apply (bool_decide_unpack _). by vm_compute.
  - split_and!; [done| |done]. intros w. by vm_compute.
  - lia.
  - lia.
  - by vm_compute.
  - apply qemu_flash.
  - by left.
Defined.

(** On the other chip the driver would not do: after a write the status is still in
    sight, and a second write without an erase gives the bits that both words have. *)
Lemma intel_chip_unfit :
  let wr v s := end_state (@CfiFlashWrite chip (sim_chip false) 3 0 0x800000 4 (st32 ∅ 0 v, snd s)) s in
  let s1 := wr 6 ((∅, ((λ _, 2 ^ 32 - 1), Idle)) : bytes * chip) in
  fst (sread 0x200000 (snd s1)) = 0x80 ∧
  fst (sread 0x200000 (swrite false 0 CFIFLASH_CMD_RESET (snd s1))) = 6 ∧
  fst (sread 0x200000 (swrite false 0 CFIFLASH_CMD_RESET (snd (wr 3 s1)))) = 2.
Proof. by vm_compute. Qed.
