(* ===== verification/Bc.v ===== *)
(** * The block cache, fs/bc.c

    Disk blocks are mapped at [DISKMAP] on demand: an access to an unmapped block
    faults, and [bc_pgfault] allocates a page and reads the block from the flash.
    The state has the server's memory, the mapped and the dirty blocks, and the
    flash, which is any [Flash].  The theorem at the end shows that a program that
    reads, writes and flushes through this cache sees the memory of [Fs]. *)

From S2P Require Import Prelude Mmu Strings Words Fs FsInv Flash Cfi.

Section cache.
Context {D : Type} `{Flash D}.

(** [room] is how many pages the kernel can still give. *)
Record cstate := mkC {
  cmem : bytes; mapped : gset Z; dirty : gset Z; dev : D; csuper : Z; cbitmap : Z; room : nat
}.
Definition BC (A : Type) : Type := M cstate A.

Definition blk (a : Z) : Z := (a - DISKMAP) / BLKSIZE.
Definition in_cache (a : Z) : bool := (DISKMAP <=? a) && (a <? DISKMAP + DISKSIZE).

Definition upd_cmem (m : bytes) (c : cstate) : cstate :=
  mkC m (mapped c) (dirty c) (dev c) (csuper c) (cbitmap c) (room c).
Definition upd_dirty (x : gset Z) (c : cstate) : cstate :=
  mkC (cmem c) (mapped c) x (dev c) (csuper c) (cbitmap c) (room c).

(** The system calls. *)
Definition sys_page_alloc (va : Z) : BC Z := λ c,
  match room c with
  | O => Ret (- E_NO_MEM) c
  | S r => Ret 0 (mkC (memset (cmem c) va 0 PGSIZE) ({[blk va]} ∪ mapped c) (dirty c ∖ {[blk va]})
                      (dev c) (csuper c) (cbitmap c) r)
  end.
Definition sys_page_clear_dirty (va : Z) : BC Z := λ c,
  if bool_decide (blk va ∈ mapped c) then Ret 0 (upd_dirty (dirty c ∖ {[blk va]}) c) else Ret (- E_INVAL) c.
Definition va_is_mapped (va : Z) : BC bool := gets (λ c, bool_decide (blk va ∈ mapped c)).
Definition va_is_dirty (va : Z) : BC bool := gets (λ c, bool_decide (blk va ∈ dirty c)).

(** A driver call; what it stores through [va] makes the page dirty. *)
Definition driver (va : Z) (f : M (bytes * D) unit) (stores : bool) : BC unit := λ c,
  match f (cmem c, dev c) with
  | Ret _ (m, d) => Ret tt (mkC m (mapped c) (if stores then {[blk va]} ∪ dirty c else dirty c) d
                                (csuper c) (cbitmap c) (room c))
  | NoRet (m, d) => NoRet (mkC m (mapped c) (dirty c) d (csuper c) (cbitmap c) (room c))
  | Panic (m, d) => Panic (mkC m (mapped c) (dirty c) d (csuper c) (cbitmap c) (room c))
  | Undef => Undef
  end.

(** [block_is_free] of fs/fs.c, with the loads it makes. *)
Definition is_free (ld : Z → BC Z) (blockno : Z) : BC bool :=
  sb <- gets csuper ;;
  if sb =? 0 then ret false else
  n <- ld (sb + s_nblocks) ;;
  if n <=? blockno then ret false else
  bm <- gets cbitmap ;;
  w <- ld (bm + 4 * (blockno / 32)) ;;
  ret (negb (Z.land w (2 ^ (blockno mod 32)) =? 0)).

(** The handler; its own loads through [ld] can fault again. *)
Definition bc_pgfault (ld : Z → BC Z) (addr : Z) : BC unit :=
  let blockno := u32 ((addr - DISKMAP) / BLKSIZE) in
  if negb (in_cache addr) then panic else
  sb <- gets csuper ;;
  (if sb =? 0 then ret tt else n <- ld (sb + s_nblocks) ;; if n <=? blockno then panic else ret tt) ;;;
  let addr := ROUNDDOWN addr BLKSIZE in
  r <- sys_page_alloc addr ;;
  if r <? 0 then panic else
  driver addr (cfi_read (BLKSECTS * blockno) addr BLKSECTS) true ;;;
  r <- sys_page_clear_dirty addr ;;
  if r <? 0 then panic else
  bm <- gets cbitmap ;;
  if bm =? 0 then ret tt else
  b <- is_free ld blockno ;;
  if b then panic else ret tt.

(** An access to [a]: nothing, or a fault and its handler. *)
Fixpoint touch (fuel : nat) (a : Z) : BC unit :=
  m <- gets mapped ;;
  if negb (in_cache a) || bool_decide (blk a ∈ m) then ret tt else
  match fuel with
  | O => undef
  | S fuel' => bc_pgfault (λ x, touch fuel' x ;;; gets (λ c, ld32 (cmem c) x)) a
  end.

(** A load and a store.  A fault on a block can fault once more, on the bitmap. *)
Definition cread (a : Z) : BC Z := touch 2 a ;;; gets (λ c, rdb (cmem c) a).
Definition cwrite (a v : Z) : BC unit :=
  touch 2 a ;;;
  modify (λ c, upd_dirty (if in_cache a then {[blk a]} ∪ dirty c else dirty c) (upd_cmem (wrb (cmem c) a v) c)).

Definition flush_block (addr : Z) : BC unit :=
  let blockno := u32 ((addr - DISKMAP) / BLKSIZE) in
  if negb (in_cache addr) then panic else
  let addr := ROUNDDOWN addr BLKSIZE in
  b <- va_is_mapped addr ;;
  if negb b then ret tt else
  b <- va_is_dirty addr ;;
  if negb b then ret tt else
  driver addr (cfi_write (BLKSECTS * blockno) addr BLKSECTS) false ;;;
  r <- sys_page_clear_dirty addr ;;
  if r <? 0 then panic else ret tt.

(** ** The view *)

Definition view (c : cstate) (a : Z) : Z :=
  if in_cache a && negb (bool_decide (blk a ∈ mapped c)) then fl_byte (dev c) (a - DISKMAP) else rdb (cmem c) a.

(** The cache [c] presents the state [s] of [Fs]. *)
Record presents (c : cstate) (s : fsstate) : Prop := {
  pr_view a : rdb (fmem s) a = view c a;
  pr_flash i : 0 ≤ i < DISKSIZE → rdb (flash s) i = fl_byte (dev c) i;
  pr_super : csuper c = super s;
  pr_bitmap : cbitmap c = bitmap s;
  pr_dev : fl_ok (dev c);
  pr_bytes : bytes_ok (cmem c);
  pr_clean a : in_cache a = true → blk a ∈ mapped c → blk a ∉ dirty c → rdb (cmem c) a = fl_byte (dev c) (a - DISKMAP);
  pr_root : 1 ∈ mapped c
}.

(** The states of [Fs] after [fs_init], on a disk that fits the flash. *)
Definition ready (s : fsstate) : bool :=
  (super s =? SUPER) && (bitmap s =? BITMAP) && (2 <? bno (fmem s)) && (bno (fmem s) <=? NSECS / BLKSECTS) &&
  negb (free (fmem s) 2).
(** The accesses the file system may make. *)
Definition reachable (s : fsstate) (a : Z) : bool :=
  negb (in_cache a) || (blk a <? bno (fmem s)) && negb (free (fmem s) (blk a)).

Inductive op := Read (a : Z) | Write (a v : Z) | Flush (a : Z).

(** One operation on the view, if it is allowed, with the value it reads. *)
Definition astep (o : op) (s : fsstate) : option (Z * fsstate) :=
  if negb (ready s) then None else
  match o with
  | Read a => if reachable s a then Some (rdb (fmem s) a, s) else None
  | Write a v => if reachable s a then Some (0, set_fmem (wrb (fmem s) a v) s) else None
  | Flush a => if in_cache a && (blk a <? bno (fmem s)) then
      match Fs.flush_block a s with Ret _ s' => Some (0, s') | _ => None end else None
  end.
Fixpoint arun (os : list op) (s : fsstate) : option (list Z * fsstate) :=
  match os with
  | [] => Some ([], s)
  | o :: os' => '(v, s1) ← astep o s; '(vs, s2) ← arun os' s1; Some (v :: vs, s2)
  end.

Definition cstep (o : op) : BC Z :=
  match o with
  | Read a => cread a
  | Write a v => cwrite a v ;;; ret 0
  | Flush a => flush_block a ;;; ret 0
  end.
Fixpoint crun (os : list op) : BC (list Z) :=
  match os with [] => ret [] | o :: os' => v <- cstep o ;; vs <- crun os' ;; ret (v :: vs) end.

(** ** One access *)

Lemma in_cache_spec a : in_cache a = true ↔ DISKMAP ≤ a < DISKMAP + DISKSIZE.
Proof. unfold in_cache. rewrite andb_true_iff, Z.leb_le, Z.ltb_lt. done. Qed.

Lemma rounddown_blk a : in_cache a = true → ROUNDDOWN a BLKSIZE = DISKMAP + blk a * BLKSIZE.
Proof.
  rewrite in_cache_spec. intros Ha. unfold ROUNDDOWN, blk. rewrite u64_small by (unfold is_u64; layout; lia).
  layout. Z.div_mod_to_equations. lia.
Qed.

Lemma blk_rounddown a : in_cache a = true → blk (ROUNDDOWN a BLKSIZE) = blk a.
Proof. intros Ha. rewrite rounddown_blk by done. unfold blk. layout. Z.div_mod_to_equations. lia. Qed.

Lemma blk_block b a : blk a = b ↔ DISKMAP + b * BLKSIZE ≤ a < DISKMAP + b * BLKSIZE + BLKSIZE.
Proof. unfold blk. layout. Z.div_mod_to_equations. lia. Qed.

Lemma fl_sectors b i : 
  SECTSIZE * (BLKSECTS * b) ≤ i < SECTSIZE * (BLKSECTS * b + BLKSECTS) ↔ blk (DISKMAP + i) = b.
Proof. rewrite blk_block. change BLKSECTS with 8. change SECTSIZE with 512. layout. lia. Qed.

(** A mapped word is the word of the view. *)
Lemma presents_ld32 c s a :
  presents c s → (∀ x, a ≤ x < a + 4 → blk x ∈ mapped c) → ld32 (cmem c) a = ld32 (fmem s) a.
Proof.
  intros P Hm. apply ld32_ext. intros x Hx. rewrite (pr_view _ _ P). unfold view.
  rewrite bool_decide_true by auto. by rewrite andb_false_r.
Qed.

(** Reading block [b] into a fresh page. *)
Definition load_block (addr blockno : Z) : BC Z :=
  r <- sys_page_alloc addr ;;
  if r <? 0 then panic else
  driver addr (cfi_read (BLKSECTS * blockno) addr BLKSECTS) true ;;;
  sys_page_clear_dirty addr.

Lemma load_block_run c s b r :
  presents c s → 0 ≤ b < NSECS / BLKSECTS → b ∉ mapped c → room c = S r →
  ∃ c', load_block (DISKMAP + b * BLKSIZE) b c = Ret 0 c' ∧ presents c' s ∧
    mapped c' = {[b]} ∪ mapped c ∧ room c' = r.
Proof.
  intros P Hb Hm Hr. set (va := DISKMAP + b * BLKSIZE).
  assert (blk va = b) as Eb by (apply blk_block; unfold va; layout; lia).
  assert (∀ a, blk a = b → in_cache a = true) as Hin.
  { intros a Ha. apply in_cache_spec. apply blk_block in Ha. change (NSECS / BLKSECTS) with 6144 in Hb. layout. lia. }
  set (m0 := memset (cmem c) va 0 PGSIZE).
  destruct (cfi_read_ok m0 (dev c) (BLKSECTS * b) va BLKSECTS) as (m' & E & Hb' & Hm').
  { apply P. }
  { apply bytes_ok_memset, P. }
  1-3: change (NSECS / BLKSECTS) with 6144 in Hb; unfold NSECS; change BLKSECTS with 8 in *; lia.
  eexists. split.
  { unfold load_block, sys_page_alloc. erewrite bind_Ret_l by by rewrite Hr. cbv beta.
    change (0 <? 0) with false. cbv iota. unfold driver. cbn [cmem dev]; fold m0.
    erewrite bind_Ret_l by (cbn [cmem dev]; by rewrite E).
    unfold sys_page_clear_dirty. cbn [mapped]. rewrite bool_decide_true by (rewrite Eb; set_solver). done. }
  cbn [upd_dirty mapped room dirty]. rewrite Eb. split; [|done].
  assert (∀ a, rdb m' a = if decide (blk a = b) then fl_byte (dev c) (a - DISKMAP) else rdb (cmem c) a) as Hrd.
  { intros a. rewrite Hm'. change (SECTSIZE * BLKSECTS) with BLKSIZE. pose proof (blk_block b a) as Hba. fold va in Hba.
    destruct (decide (blk a = b)) as [Ha|Ha].
    - rewrite decide_True by by apply Hba. f_equal. unfold va. change (SECTSIZE * (BLKSECTS * b)) with (512 * (8 * b)). layout. lia.
    - rewrite decide_False by by rewrite <-Hba. unfold m0. rewrite memset_spec by (unfold PGSIZE; lia).
      rewrite decide_False; [done|]. unfold BLKSIZE in Hba. by rewrite <-Hba. }
  destruct P as [P1 P2 P3 P4 P5 P6 P7 P8]. split; cbn [upd_dirty cmem mapped dirty dev csuper cbitmap]; try done.
  - intros a. rewrite P1. unfold view. cbn [cmem mapped dev upd_dirty]. rewrite Hrd.
    destruct (decide (blk a = b)) as [Ha|Ha].
    + rewrite (Hin a Ha), Ha. rewrite bool_decide_false by done. rewrite bool_decide_true by set_solver. done.
    + rewrite (bool_decide_ext (blk a ∈ {[b]} ∪ mapped c) (blk a ∈ mapped c)) by set_solver. done.
  - intros a Ha Hma Hda. rewrite Hrd. case_decide as Hab; [done|]. apply P7; set_solver.
  - set_solver.
Qed.

Lemma ready_spec s :
  ready s = true → super s = SUPER ∧ bitmap s = BITMAP ∧ 2 < bno (fmem s) ≤ NSECS / BLKSECTS ∧ free (fmem s) 2 = false.
Proof.
  unfold ready. rewrite !andb_true_iff, !Z.eqb_eq, Z.ltb_lt, Z.leb_le, negb_true_iff. tauto.
Qed.

Lemma load_block_bind {A} (addr b : Z) (k : Z → BC A) c :
  (r <- sys_page_alloc addr ;; if r <? 0 then panic else
   driver addr (cfi_read (BLKSECTS * b) addr BLKSECTS) true ;;; r <- sys_page_clear_dirty addr ;; k r) c
  = (r <- load_block addr b ;; k r) c.
Proof.
  unfold load_block, bind. destruct (sys_page_alloc addr c) as [r c1| | |]; try done.
  destruct (r <? 0); [done|]. by destruct (driver _ _ _ c1).
Qed.

Lemma is_free_run ld c s b c' :
  presents c s → ready s = true → 0 ≤ b < bno (fmem s) →
  ld (SUPER + s_nblocks) c = Ret (bno (fmem s)) c →
  ld (bit_addr b) c = Ret (ld32 (fmem s) (bit_addr b)) c' →
  is_free ld b c = Ret (free (fmem s) b) c'.
Proof.
  intros P Hr Hb Hsup Hbit. destruct (ready_spec s Hr) as (Es & Eb & _ & _). unfold is_free. step_pure.
  rewrite (pr_super _ _ P), Es. change (SUPER =? 0) with false. cbv iota. step_with Hsup.
  destruct (Z.leb_spec (bno (fmem s)) b); [lia|]. step_pure. rewrite (pr_bitmap _ _ P), Eb.
  step_with Hbit. rewrite land_pow2_nonzero, negb_involutive by (apply Z.mod_pos_bound; lia). done.
Qed.

(** The handler brings the block in, given that its own loads work. *)
Lemma fault_run ld c s a r k :
  presents c s → ready s = true → in_cache a = true → blk a < bno (fmem s) → free (fmem s) (blk a) = false →
  blk a ∉ mapped c → room c = S r →
  (∀ c1, presents c1 s → ld (SUPER + s_nblocks) c1 = Ret (bno (fmem s)) c1) →
  (∀ c1, presents c1 s → mapped c1 = {[blk a]} ∪ mapped c → room c1 = r →
     ∃ c', ld (bit_addr (blk a)) c1 = Ret (ld32 (fmem s) (bit_addr (blk a))) c' ∧ presents c' s ∧
       mapped c1 ⊆ mapped c' ∧ (k ≤ room c')%nat) →
  ∃ c', bc_pgfault ld a c = Ret tt c' ∧ presents c' s ∧ {[blk a]} ∪ mapped c ⊆ mapped c' ∧ (k ≤ room c')%nat.
Proof.
  intros P Hr Ha Hb Hf Hm Hroom Hsup Hbit. destruct (ready_spec s Hr) as (Es & Eb & Hn & _).
  change (NSECS / BLKSECTS) with 6144 in Hn. assert (0 ≤ blk a) as Hb0.
  { apply in_cache_spec in Ha. unfold blk. layout. Z.div_mod_to_equations. lia. }
  unfold bc_pgfault. fold (blk a). rewrite u32_small by lia. rewrite Ha. cbn [negb]. step_pure.
  rewrite (pr_super _ _ P), Es. change (SUPER =? 0) with false. cbv iota. rewrite bind_assoc. step_with (Hsup c P).
  destruct (Z.leb_spec (bno (fmem s)) (blk a)); [lia|]. step_pure. rewrite rounddown_blk by done.
  rewrite load_block_bind.
  destruct (load_block_run c s (blk a) r P ltac:(change (NSECS / BLKSECTS) with 6144; lia) Hm Hroom)
    as (c1 & E1 & P1 & Em1 & Er1).
  step_with E1. change (0 <? 0) with false. cbv iota. step_pure. rewrite (pr_bitmap _ _ P1), Eb.
  change (BITMAP =? 0) with false. cbv iota.
  destruct (Hbit c1 P1 Em1 Er1) as (c' & E' & P' & Hsub & Hk).
  step_with (is_free_run ld c1 s (blk a) c' P1 Hr ltac:(lia) (Hsup c1 P1) E'). rewrite Hf.
  exists c'. split_and!; [done|done| |done]. by rewrite <-Em1.
Qed.

Lemma touch_there n a c : in_cache a = false ∨ blk a ∈ mapped c → touch n a c = Ret tt c.
Proof.
  intros Hc. destruct n; cbn [touch]; step_pure;
    (destruct Hc as [->|Hc]; [done|rewrite bool_decide_true by done; by rewrite orb_true_r]).
Qed.

(** A word load when its block is mapped. *)
Lemma load_there n x c s :
  presents c s → (∀ y, x ≤ y < x + 4 → blk y ∈ mapped c) →
  (touch n x ;;; gets (λ c, ld32 (cmem c) x)) c = Ret (ld32 (fmem s) x) c.
Proof.
  intros P Hx. step_with (touch_there n x c ltac:(right; apply Hx; lia)). unfold gets.
  by rewrite (presents_ld32 c s x P Hx).
Qed.

Lemma load_super n c s : presents c s →
  (touch n (SUPER + s_nblocks) ;;; gets (λ c, ld32 (cmem c) (SUPER + s_nblocks))) c = Ret (bno (fmem s)) c.
Proof.
  intros P. apply load_there; [done|]. intros y Hy. assert (blk y = 1) as ->; [|apply P].
  apply blk_block. layout. lia.
Qed.

Lemma bit_addr_blk b y : 0 ≤ b < NSECS / BLKSECTS → bit_addr b ≤ y < bit_addr b + 4 → blk y = 2.
Proof.
  intros Hb Hy. change (NSECS / BLKSECTS) with 6144 in Hb. apply blk_block.
  layout. Z.div_mod_to_equations. lia.
Qed.

(** A load from the bitmap, which may bring the bitmap block in. *)
Lemma load_bit c s b r :
  presents c s → ready s = true → 0 ≤ b < NSECS / BLKSECTS → (S r ≤ room c)%nat →
  ∃ c', (touch 1 (bit_addr b) ;;; gets (λ c, ld32 (cmem c) (bit_addr b))) c = Ret (ld32 (fmem s) (bit_addr b)) c' ∧
    presents c' s ∧ mapped c ⊆ mapped c' ∧ (r ≤ room c')%nat.
Proof.
  intros P Hr Hb Hroom. destruct (ready_spec s Hr) as (_ & _ & Hn & Hf2).
  assert (∀ y, bit_addr b ≤ y < bit_addr b + 4 → blk y = 2) as Hblk by (intros y; by apply bit_addr_blk).
  destruct (decide (2 ∈ mapped c)) as [Hm|Hm].
  { exists c. split_and!; [|done|done|lia]. apply load_there; [done|]. intros y Hy. by rewrite (Hblk y Hy). }
  destruct (room c) as [|r'] eqn:Er; [lia|]. pose proof (Hblk (bit_addr b) ltac:(lia)) as E2.
  assert (in_cache (bit_addr b) = true) as Hin.
  { apply in_cache_spec. apply blk_block in E2. layout. lia. }
  destruct (fault_run (λ x, touch 0 x ;;; gets (λ c, ld32 (cmem c) x)) c s (bit_addr b) r' r) as (c' & E & P' & Hsub & Hk);
    try done; rewrite ?E2; try done; try lia.
  { intros c1 P1. by apply load_super. }
  { intros c1 P1 Em1 Er1. exists c1. split_and!; [|done|done|lia]. apply load_there; [done|].
    intros y Hy. rewrite (bit_addr_blk 2 y); [set_solver|done|done]. }
  exists c'. rewrite E2 in Hsub. split_and!; [|done|set_solver|done].
  assert (touch 1 (bit_addr b) c = Ret tt c') as Et.
  { cbn [touch]. step_pure. rewrite Hin, E2, bool_decide_false by done. done. }
  unfold bind. rewrite Et. unfold gets. rewrite (presents_ld32 c' s _ P'); [done|].
  intros y Hy. rewrite (Hblk y Hy). set_solver.
Qed.

(** Every access the file system may make succeeds and leaves the view alone. *)
Lemma touch_run c s a r :
  presents c s → ready s = true → reachable s a = true → (2 + r ≤ room c)%nat →
  ∃ c', touch 2 a c = Ret tt c' ∧ presents c' s ∧ (in_cache a = true → blk a ∈ mapped c') ∧ (r ≤ room c')%nat.
Proof.
  intros P Hr Ha Hroom. destruct (ready_spec s Hr) as (_ & _ & Hn & _).
  destruct (in_cache a) eqn:Hin.
  2: { exists c. split_and!; [apply touch_there; by left|done|done|lia]. }
  destruct (decide (blk a ∈ mapped c)) as [Hm|Hm].
  { exists c. split_and!; [apply touch_there; by right|done|done|lia]. }
  unfold reachable in Ha. rewrite Hin in Ha. apply andb_true_iff in Ha as [Hb Hf].
  apply Z.ltb_lt in Hb. apply negb_true_iff in Hf.
  destruct (room c) as [|r'] eqn:Er; [lia|].
  destruct (fault_run (λ x, touch 1 x ;;; gets (λ c, ld32 (cmem c) x)) c s a r' r) as (c' & E & P' & Hsub & Hk); try done.
  { intros c1 P1. by apply load_super. }
  { intros c1 P1 Em1 Er1. apply load_bit; [done|done| |lia]. split; [|lia].
    apply in_cache_spec in Hin. unfold blk. layout. Z.div_mod_to_equations. lia. }
  exists c'. split_and!; [|done|set_solver|done].
  change (touch 2 a) with (m <- gets mapped ;; if negb (in_cache a) || bool_decide (blk a ∈ m) then ret tt
    else bc_pgfault (λ x, touch 1 x ;;; gets (λ c, ld32 (cmem c) x)) a).
  step_pure. rewrite Hin, bool_decide_false by done. done.
Qed.

(** ** The operations *)

Lemma cwrite_presents c s a v :
  presents c s → (in_cache a = true → blk a ∈ mapped c) →
  presents (upd_dirty (if in_cache a then {[blk a]} ∪ dirty c else dirty c) (upd_cmem (wrb (cmem c) a v) c))
           (set_fmem (wrb (fmem s) a v) s).
Proof.
  intros P Hm. destruct P as [P1 P2 P3 P4 P5 P6 P7 P8].
  split; cbn [upd_dirty upd_cmem cmem mapped dirty dev csuper cbitmap fmem flash super bitmap set_fmem]; try done.
  - intros x. unfold view. cbn [upd_dirty upd_cmem cmem mapped dev]. rewrite !rdb_wrb, P1. unfold view.
    case_decide as Hx; [|done]. subst x. destruct (in_cache a) eqn:Hin; [|done].
    by rewrite bool_decide_true by auto.
  - by apply bytes_ok_wrb.
  - intros x Hx Hmx Hdx. rewrite rdb_wrb. case_decide as E.
    + subst x. rewrite Hx in Hdx. set_solver.
    + apply P7; [done|done|]. destruct (in_cache a); set_solver.
Qed.

Lemma copy_bytes_spec n src a dst b i :
  bytes_ok src →
  rdb (copy_bytes n src a dst b) i = if decide (b ≤ i < b + Z.of_nat n) then rdb src (a + (i - b)) else rdb dst i.
Proof.
  intros Hs. rewrite copy_bytes_rdb. by rewrite u8_small by apply Hs.
Qed.

(** What the flush of a block means for the flash of the view. *)
Lemma flush_view s a :
  in_cache a = true → bytes_ok (fmem s) →
  ∃ d, Fs.flush_block a s = Ret tt (set_flash d s) ∧
    ∀ i, 0 ≤ i → rdb d i = if decide (blk (DISKMAP + i) = blk a) then rdb (fmem s) (DISKMAP + i) else rdb (flash s) i.
Proof.
  intros Ha Hb. unfold Fs.flush_block. pose proof Ha as Ha'. apply in_cache_spec in Ha'.
  destruct (Z.ltb_spec a DISKMAP), (Z.leb_spec (DISKMAP + DISKSIZE) a); try lia. cbn [orb].
  eexists. split; [done|]. intros i Hi. rewrite copy_bytes_spec by done. rewrite rounddown_blk by done.
  replace (DISKMAP + blk a * BLKSIZE - DISKMAP) with (blk a * BLKSIZE) by lia.
  pose proof (blk_block (blk a) (DISKMAP + i)) as Hbb. change (Z.of_nat (Z.to_nat BLKSIZE)) with BLKSIZE.
  destruct (decide (blk (DISKMAP + i) = blk a)) as [E|E].
  - rewrite decide_True by (apply Hbb in E; lia). f_equal. lia.
  - rewrite decide_False; [done|]. intros Hx. apply E, Hbb. lia.
Qed.

Lemma presents_bytes c s : presents c s → bytes_ok (fmem s).
Proof.
  intros P a. rewrite (pr_view _ _ P). unfold view. case_match; [apply fl_range, P|apply P].
Qed.

(** A block that is not both mapped and dirty is on the flash already. *)
Lemma flush_clean c s a d :
  presents c s → in_cache a = true → blk a ∉ mapped c ∨ blk a ∉ dirty c →
  (∀ i, 0 ≤ i → rdb d i = if decide (blk (DISKMAP + i) = blk a) then rdb (fmem s) (DISKMAP + i) else rdb (flash s) i) →
  presents c (set_flash d s).
Proof.
  intros [P1 P2 P3 P4 P5 P6 P7 P8] Ha Hc Hd. split; try done. cbn [set_flash flash]. intros i Hi.
  assert (in_cache (DISKMAP + i) = true) as Hin by (apply in_cache_spec; lia).
  rewrite Hd by lia. case_decide as E; [|by apply P2]. rewrite P1. unfold view. rewrite Hin, E.
  replace i with (DISKMAP + i - DISKMAP) at 3 by lia.
  destruct (decide (blk a ∈ mapped c)) as [Hm|Hm].
  - rewrite bool_decide_true by done. cbn [negb andb]. apply P7; [done|by rewrite E|]. rewrite E. by destruct Hc.
  - by rewrite bool_decide_false by done.
Qed.

(** Writing a mapped block to the flash. *)
Lemma flush_dirty c s a d d' :
  presents c s → in_cache a = true → blk a ∈ mapped c → fl_ok d' →
  (∀ i, 0 ≤ i → rdb d i = if decide (blk (DISKMAP + i) = blk a) then rdb (fmem s) (DISKMAP + i) else rdb (flash s) i) →
  (∀ i, fl_byte d' i = if decide (blk (DISKMAP + i) = blk a) then rdb (cmem c) (DISKMAP + i) else fl_byte (dev c) i) →
  presents (mkC (cmem c) (mapped c) (dirty c ∖ {[blk a]}) d' (csuper c) (cbitmap c) (room c)) (set_flash d s).
Proof.
  intros [P1 P2 P3 P4 P5 P6 P7 P8] Ha Hm Hok Hd Hfl.
  split; cbn [cmem mapped dirty dev csuper cbitmap fmem flash super bitmap set_flash]; try done.
  - intros x. rewrite P1. unfold view. cbn [cmem mapped dev]. rewrite Hfl.
    destruct (in_cache x), (decide (blk x ∈ mapped c)); rewrite ?bool_decide_true, ?bool_decide_false by done; try done.
    cbn [andb negb]. replace (DISKMAP + (x - DISKMAP)) with x by lia. rewrite decide_False; [done|]. congruence.
  - intros i Hi. rewrite Hd, Hfl by lia. case_decide as Ei; [|by apply P2]. rewrite P1. unfold view.
    rewrite Ei, bool_decide_true by done. by rewrite andb_false_r.
  - intros x Hx Hmx Hdx. rewrite Hfl. replace (DISKMAP + (x - DISKMAP)) with x by lia.
    case_decide as Ex; [done|]. apply P7; [done|done|]. set_solver.
Qed.

Lemma flush_block_run c s a :
  presents c s → in_cache a = true → blk a < NSECS / BLKSECTS →
  ∃ c' s', flush_block a c = Ret tt c' ∧ Fs.flush_block a s = Ret tt s' ∧ presents c' s' ∧ room c' = room c.
Proof.
  intros P Ha Hb. destruct (flush_view s a Ha (presents_bytes c s P)) as (d & Es & Hd).
  assert (0 ≤ blk a) as Hb0 by (apply in_cache_spec in Ha; unfold blk; layout; Z.div_mod_to_equations; lia).
  change (NSECS / BLKSECTS) with 6144 in Hb.
  unfold flush_block. fold (blk a). rewrite Ha. cbn [negb]. unfold va_is_mapped, va_is_dirty.
  rewrite u32_small by lia. step_pure. rewrite blk_rounddown by done.
  destruct (decide (blk a ∈ mapped c)) as [Hm|Hm].
  2: { rewrite bool_decide_false by done. exists c, (set_flash d s). split_and!; try done. apply (flush_clean c s a); auto. }
  rewrite bool_decide_true by done. cbn [negb]. step_pure.
  destruct (decide (blk a ∈ dirty c)) as [Hdi|Hdi].
  2: { rewrite bool_decide_false by done. exists c, (set_flash d s). split_and!; try done. apply (flush_clean c s a); auto. }
  rewrite bool_decide_true by done. cbn [negb].
  destruct (cfi_write_ok (cmem c) (dev c) (BLKSECTS * blk a) (ROUNDDOWN a BLKSIZE) BLKSECTS) as (d' & E & Hok & Hd').
  { apply P. }
  { apply P. }
  1-3: unfold NSECS; change BLKSECTS with 8; lia.
  assert (∀ i, fl_byte d' i = if decide (blk (DISKMAP + i) = blk a) then rdb (cmem c) (DISKMAP + i) else fl_byte (dev c) i) as Hfl.
  { intros i. rewrite Hd'. pose proof (fl_sectors (blk a) i) as Hs. destruct (decide (blk (DISKMAP + i) = blk a)) as [Ei|Ei].
    - rewrite decide_True by by apply Hs. f_equal. rewrite rounddown_blk by done.
      change SECTSIZE with 512. change BLKSECTS with 8. layout. lia.
    - by rewrite decide_False by by rewrite Hs. }
  eexists _, (set_flash d s). split; [|split_and!; [done|by apply (flush_dirty c s a d d')|done]].
  unfold driver. erewrite bind_Ret_l by by rewrite E. unfold sys_page_clear_dirty.
  erewrite bind_Ret_l; [|cbn [mapped]; rewrite blk_rounddown, bool_decide_true by done; done].
  change (0 <? 0) with false. cbv iota. unfold upd_dirty. cbn. done.
Qed.

Lemma cstep_sim o c s v s' r :
  presents c s → astep o s = Some (v, s') → (2 + r ≤ room c)%nat →
  ∃ c', cstep o c = Ret v c' ∧ presents c' s' ∧ (r ≤ room c')%nat.
Proof.
  intros P E Hroom. unfold astep in E. destruct (ready s) eqn:Hr; [|done]. cbn [negb] in E.
  destruct o as [a|a w|a]; cbn [cstep].
  - destruct (reachable s a) eqn:Ha; [|done]. simplify_eq.
    destruct (touch_run c s' a r P Hr Ha Hroom) as (c' & Et & P' & Hm & Hr'). exists c'. split; [|done].
    unfold cread. step_with Et. unfold gets. f_equal. rewrite (pr_view _ _ P'). unfold view.
    destruct (in_cache a); [|done]. by rewrite bool_decide_true by auto.
  - destruct (reachable s a) eqn:Ha; [|done]. simplify_eq.
    destruct (touch_run c s a r P Hr Ha Hroom) as (c' & Et & P' & Hm & Hr').
    eexists. split; [|split; [by apply (cwrite_presents c' s a w P' Hm)|done]].
    unfold cwrite. rewrite bind_assoc. step_with Et. by step_pure.
  - destruct (in_cache a) eqn:Ha; [|done]. cbn [andb] in E. destruct (Z.ltb_spec (blk a) (bno (fmem s))); [|done].
    destruct (ready_spec s Hr) as (_ & _ & Hn & _).
    destruct (flush_block_run c s a P Ha ltac:(lia)) as (c' & s1 & Ec & Es & P' & Hr').
    rewrite Es in E. simplify_eq. exists c'. split; [by step_with Ec|]. split; [done|lia].
Qed.
End cache.

(** C5  The block cache is transparent: a program that reads, writes and flushes
    through [bc_pgfault] and [flush_block] on any flash gets the values and the
    final state that the same operations give on the memory of [Fs], in which every
    block is always present; none of its accesses panics.  The operations are those
    allowed to the file system: in the disk's blocks that are in use.  The kernel
    has two pages for each operation, which [room] counts. *)
Theorem block_cache_refines (D : Type) (fl : Flash D) (os : list op) (c : cstate) (s s' : fsstate) (vs : list Z)
    (P : presents c s) (Hrun : arun os s = Some (vs, s')) (Hroom : (2 * length os ≤ room c)%nat) :
  ∃ c', crun os c = Ret vs c' ∧ presents c' s'.
Proof.
  revert c s vs P Hrun Hroom. induction os as [|o os IH]; intros c s vs P Hrun Hroom; cbn [arun crun length] in *.
  { simplify_eq. by exists c. }
  destruct (astep o s) as [[v s1]|] eqn:E1; [|done]. simpl in Hrun.
  destruct (arun os s1) as [[vs' s2]|] eqn:E2; [|done]. simpl in Hrun. simplify_eq.
  destruct (cstep_sim o c s v s1 (2 * length os) P E1 ltac:(lia)) as (c1 & Ec & P1 & Hr1).
  destruct (IH c1 s1 vs' P1 E2 Hr1) as (c' & Ec' & P'). exists c'. split; [|done]. step_with Ec. by step_with Ec'.
Qed.

(** ** An example: a disk of eight blocks, 4 to 7 free, of which only the super
    block is cached.  The bitmap is read, block 3 is written, flushed and read. *)
Definition ex_chip : Sim.chip :=
  ((λ w, if decide (w = (FS_NOR_OFFSET + 4100) / 4) then 8
         else if decide (w = (FS_NOR_OFFSET + 8192) / 4) then 0xF0 else 0), Idle).
Definition ex_cache : cstate (D:=Sim.chip) := mkC (wrb ∅ (SUPER + s_nblocks) 8) {[1]} ∅ ex_chip SUPER BITMAP 8.
Definition ex_view : fsstate :=
  mkFs (wrb (wrb ∅ (SUPER + s_nblocks) 8) BITMAP 0xF0) (wrb (wrb ∅ 4100 8) 8192 0xF0) SUPER BITMAP.
Definition ex_ops : list op :=
  [Read (DISKMAP + 8192); Write (DISKMAP + 12288) 7; Flush (DISKMAP + 12288); Read (DISKMAP + 12288)].
Definition ex_after : fsstate := match arun ex_ops ex_view with Some (_, s) => s | None => ex_view end.

#[local] Existing Instance Sim.qemu_chip.
#[local] Existing Instance Sim.qemu_spec.
#[local] Existing Instance Sim.qemu_flash.

Lemma ex_byte i : fl_byte ex_chip i = if decide (i = 4100) then 8 else if decide (i = 8192) then 0xF0 else 0.
Proof.
  change (fl_byte ex_chip i) with (u8 (fst ex_chip ((FS_NOR_OFFSET + i) / 4) / 2 ^ (8 * ((FS_NOR_OFFSET + i) mod 4)))).
  unfold ex_chip, FS_NOR_OFFSET. cbn [fst].
  change ((0x800000 + 4100) / 4) with 2098177. change ((0x800000 + 8192) / 4) with 2099200.
  pose proof (Z.mod_pos_bound (0x800000 + i) 4 ltac:(lia)) as Hm.
  assert (∀ x, 0 ≤ x < 256 → u8 (x / 2 ^ (8 * ((0x800000 + i) mod 4))) = if decide (i mod 4 = 0) then x else 0) as Hx.
  { intros x Hx. destruct (four_cases _ Hm) as [E | [E | [E | E]]]; rewrite E; unfold u8; simpl;
      case_decide; Z.div_mod_to_equations; lia. }
  repeat case_decide; rewrite ?Hx by lia; try case_decide; try done; Z.div_mod_to_equations; lia.
Qed.

Lemma ex_presents : presents ex_cache ex_view.
Proof.
  assert (∀ a, rdb ∅ a = 0) as H0 by done.
  split; cbn [ex_cache ex_view cmem mapped dirty dev fmem flash]; try done.
  - intros a. unfold view. cbn [ex_cache cmem mapped dev]. rewrite ex_byte, !rdb_wrb, !H0.
    change (u8 8) with 8. change (u8 0xF0) with 0xF0. pose proof (blk_block 1 a) as Hb.
    unfold in_cache. layout.
    destruct (Z.leb_spec 0x10000000 a), (Z.ltb_spec a (0x10000000 + 0xC0000000)), (decide (blk a ∈ ({[1]} : gset Z))) as [Hin|Hin];
      rewrite ?bool_decide_true, ?bool_decide_false by done; cbn [andb negb]; rewrite elem_of_singleton in Hin;
      repeat case_decide; try done; try lia.
  - intros i Hi. rewrite ex_byte, !rdb_wrb, !H0. change (u8 8) with 8. change (u8 0xF0) with 0xF0.
    repeat case_decide; try done; lia.
  - split_and!; [done| |done]. intros w. unfold ex_chip. cbn [fst]. unfold Sim.word. repeat case_decide; lia.
  - apply bytes_ok_wrb. intros a. rewrite H0. lia.
  - intros a _ Ha _. apply elem_of_singleton, blk_block in Ha. rewrite ex_byte, rdb_wrb, H0. change (u8 8) with 8. layout.
    repeat case_decide; try done; lia.
Qed.

Lemma block_cache_witness :
  ∃ c', crun ex_ops ex_cache = Ret [0xF0; 0; 0; 7] c' ∧ presents c' ex_after.
Proof.
  apply (block_cache_refines Sim.chip cfi_flash ex_ops ex_cache ex_view ex_after [0xF0; 0; 0; 7] ex_presents).
  - unfold ex_after. assert (fst <$> arun ex_ops ex_view = Some [0xF0; 0; 0; 7]) as E by by vm_compute.
    destruct (arun ex_ops ex_view) as [[vs s']|]; simplify_eq/=; done.
  - simpl. lia.
Defined.
