(* ===== verification/Pipe.v ===== *)
(** * Pipes, lib/riscv/pipe.c

    The reader and the writer of a pipe are two environments that share the page
    with [struct Pipe].  Each runs its loop one memory access at a time, in any
    interleaving; what [_pipeisclosed] answers is part of the schedule. *)

From S2P Require Import Prelude.

Definition PIPEBUFSIZ : Z := 32.

Record Pipe := mkPipe { p_rpos : Z; p_wpos : Z; p_buf : list Z }.

(** [devpipe_read(fd, buf, n)] with [i] bytes read: at the test of the inner loop,
    before the byte is taken, before [p_rpos++]. *)
Inductive rpc := RIdle | RCheck (n i : Z) | RTake (n i : Z) | RInc (n i : Z).
(** [devpipe_write] with the bytes still to be written. *)
Inductive wpc := WIdle | WCheck (todo : list Z) (i : Z) | WStore (todo : list Z) (i : Z) | WInc (todo : list Z) (i : Z).

(** [got] and [put] are the bytes taken from and stored into the buffer by all
    calls, [rets] what the calls returned. *)
Record sys := mkSys {
  pipe : Pipe; reader : rpc; writer : wpc; got : list Z; put : list Z; rets : list Z
}.

Definition read_next (n i : Z) (s : sys) : sys :=
  if i <? n then mkSys (pipe s) (RCheck n i) (writer s) (got s) (put s) (rets s)
  else mkSys (pipe s) RIdle (writer s) (got s) (put s) (rets s ++ [i]).
Definition write_next (todo : list Z) (i : Z) (s : sys) : sys :=
  match todo with
  | [] => mkSys (pipe s) (reader s) WIdle (got s) (put s) (rets s ++ [i])
  | _ => mkSys (pipe s) (reader s) (WCheck todo i) (got s) (put s) (rets s)
  end.

(** [p_buf\[pos % PIPEBUFSIZ\]]: outside the array for a negative [pos]. *)
Definition slot_of (pos : Z) : option nat :=
  if pos <? 0 then None else Some (Z.to_nat (Z.rem pos PIPEBUFSIZ)).

(** A step of the reader; [None] is undefined behaviour. *)
Definition devpipe_read (closed : bool) (s : sys) : option sys :=
  let p := pipe s in
  match reader s with
  | RIdle => Some s
  | RCheck n i =>
      if p_rpos p =? p_wpos p then
        if 0 <? i then Some (mkSys p RIdle (writer s) (got s) (put s) (rets s ++ [i]))
        else if closed then Some (mkSys p RIdle (writer s) (got s) (put s) (rets s ++ [0]))
        else Some s
      else Some (mkSys p (RTake n i) (writer s) (got s) (put s) (rets s))
  | RTake n i =>
      k ← slot_of (p_rpos p); b ← p_buf p !! k;
      Some (mkSys p (RInc n i) (writer s) (got s ++ [b]) (put s) (rets s))
  | RInc n i =>
      if p_rpos p + 1 =? 2 ^ 31 then None else
      Some (read_next n (i + 1)
        (mkSys (mkPipe (p_rpos p + 1) (p_wpos p) (p_buf p)) (reader s) (writer s) (got s) (put s) (rets s)))
  end.

(** A step of the writer; the test of the loop is on [size_t]. *)
Definition devpipe_write (closed : bool) (s : sys) : option sys :=
  let p := pipe s in
  match writer s with
  | WIdle => Some s
  | WCheck todo i =>
      if u64 (p_rpos p + PIPEBUFSIZ) <=? u64 (p_wpos p) then
        if closed then Some (mkSys p (reader s) WIdle (got s) (put s) (rets s ++ [0])) else Some s
      else Some (mkSys p (reader s) (WStore todo i) (got s) (put s) (rets s))
  | WStore todo i =>
      match todo with
      | [] => None
      | b :: _ =>
          k ← slot_of (p_wpos p);
          if bool_decide (k < length (p_buf p))%nat then
            Some (mkSys (mkPipe (p_rpos p) (p_wpos p) (<[k:=b]> (p_buf p))) (reader s) (WInc todo i) (got s)
                        (put s ++ [b]) (rets s))
          else None
      end
  | WInc todo i =>
      if p_wpos p + 1 =? 2 ^ 31 then None else
      Some (write_next (tail todo) (i + 1)
        (mkSys (mkPipe (p_rpos p) (p_wpos p + 1) (p_buf p)) (reader s) (writer s) (got s) (put s) (rets s)))
  end.

Definition devpipe_stat (s : sys) : Z := i32 (p_wpos (pipe s) - p_rpos (pipe s)).

(** What happens next: a call, which is possible when the environment is not in
    one, or a step of one of the two. *)
Inductive event := CallRead (n : Z) | CallWrite (data : list Z) | R (closed : bool) | W (closed : bool).

Definition step (e : event) (s : sys) : option sys :=
  match e with
  | CallRead n => Some (match reader s with RIdle => read_next n 0 s | _ => s end)
  | CallWrite data => Some (match writer s with WIdle => write_next data 0 s | _ => s end)
  | R closed => devpipe_read closed s
  | W closed => devpipe_write closed s
  end.
Fixpoint run (es : list event) (s : sys) : option sys :=
  match es with [] => Some s | e :: es' => s' ← step e s; run es' s' end.

(** A fresh pipe page is zeroed. *)
Definition pipe_init : sys := mkSys (mkPipe 0 0 (replicate 32 0)) RIdle WIdle [] [] [].

Definition offered (es : list event) : Z :=
  foldr (λ e n, match e with CallWrite data => Z.of_nat (length data) + n | _ => n end) 0 es.

(** ** The invariant *)

Definition rmid (s : sys) : Z := match reader s with RInc _ _ => 1 | _ => 0 end.
Definition wmid (s : sys) : Z := match writer s with WInc _ _ => 1 | _ => 0 end.
Definition todo_of (s : sys) : Z :=
  match writer s with WIdle => 0 | WCheck t _ | WStore t _ | WInc t _ => Z.of_nat (length t) end.

Record pipe_ok (s : sys) : Prop := {
  po_rpos : p_rpos (pipe s) = Z.of_nat (length (got s)) - rmid s;
  po_pos : 0 ≤ p_rpos (pipe s);
  po_wpos : p_wpos (pipe s) = Z.of_nat (length (put s)) - wmid s;
  po_order : Z.of_nat (length (got s)) ≤ p_wpos (pipe s);
  po_room : Z.of_nat (length (put s)) ≤ p_rpos (pipe s) + PIPEBUFSIZ;
  po_len : length (p_buf (pipe s)) = 32%nat;
  po_buf j : p_rpos (pipe s) ≤ j < Z.of_nat (length (put s)) →
    p_buf (pipe s) !! Z.to_nat (j mod 32) = put s !! Z.to_nat j;
  po_prefix : got s `prefix_of` put s;
  po_take n i : reader s = RTake n i → p_rpos (pipe s) < p_wpos (pipe s);
  po_store t i : writer s = WStore t i → t ≠ [] ∧ p_wpos (pipe s) < p_rpos (pipe s) + PIPEBUFSIZ;
  po_todo t i : writer s = WInc t i ∨ writer s = WCheck t i → t ≠ []
}.

(** Bytes stored and still to be stored. *)
Definition load (s : sys) : Z := Z.of_nat (length (put s)) + todo_of s - wmid s.

Lemma pipe_ok_init : pipe_ok pipe_init.
Proof. split; simpl; try done; try lia; naive_solver. Qed.

Lemma read_next_ok n i s :
  pipe_ok s → rmid s = 0 → pipe_ok (read_next n i s) ∧ load (read_next n i s) = load s.
Proof.
  intros [H1 H0 H2 H3 H4 H5 H6 H7 H8 H9 H10] Hr. unfold read_next. destruct (i <? n); (split; [|done]).
  all: split; unfold rmid, wmid in *; simpl in *; rewrite ?Hr in H1; try done; lia.
Qed.

Lemma write_next_ok todo i s :
  pipe_ok s → wmid s = 0 → pipe_ok (write_next todo i s) ∧
  load (write_next todo i s) = Z.of_nat (length (put s)) + Z.of_nat (length todo).
Proof.
  intros [H1 H0 H2 H3 H4 H5 H6 H7 H8 H9 H10] Hw. unfold write_next.
  destruct todo as [|b todo]; (split; [|unfold load, wmid, todo_of; simpl; lia]).
  all: split; unfold rmid, wmid in *; simpl in *; rewrite ?Hw in H2; try done; try lia; naive_solver.
Qed.

Lemma slot_of_pos pos : 0 ≤ pos → slot_of pos = Some (Z.to_nat (pos mod 32)).
Proof.
  intros Hp. unfold slot_of, PIPEBUFSIZ. destruct (Z.ltb_spec pos 0); [lia|]. by rewrite Z.rem_mod_nonneg by lia.
Qed.

Lemma devpipe_read_ok closed s :
  pipe_ok s → load s < 2 ^ 31 → ∃ s', devpipe_read closed s = Some s' ∧ pipe_ok s' ∧ load s' = load s.
Proof.
  intros Hok Hl. pose proof Hok as [H1 H0 H2 H3 H4 H5 H6 H7 H8 H9 H10]. unfold devpipe_read, rmid in *.
  destruct (reader s) as [|n i|n i|n i] eqn:Er.
  - by exists s.
  - destruct (Z.eqb_spec (p_rpos (pipe s)) (p_wpos (pipe s))) as [E|E].
    + destruct (0 <? i); [|destruct closed; [|by exists s]]; eexists; (split; [done|]); (split; [|done]);
        split; unfold rmid, wmid in *; simpl; try done; lia.
    + eexists. split; [done|]. split; [|done]. split; unfold rmid, wmid in *; simpl; try done; try lia.
  - specialize (H8 n i eq_refl). rewrite slot_of_pos by lia. simpl.
    assert (p_rpos (pipe s) < Z.of_nat (length (put s))) as Hlt by (unfold wmid in H2; destruct (writer s); lia).
    rewrite (H6 (p_rpos (pipe s))) by lia. rewrite H1. replace (Z.of_nat (length (got s)) - 0) with (Z.of_nat (length (got s))) in * by lia.
    rewrite Nat2Z.id. destruct (put s !! length (got s)) as [b|] eqn:Eb.
    2: { apply lookup_ge_None in Eb. lia. }
    simpl. eexists. split; [done|]. split; [|done].
    split; unfold rmid, wmid in *; simpl; rewrite ?length_app; simpl; try done; try lia.
    destruct H7 as [l Hl']. rewrite Hl' in Eb |- *. rewrite lookup_app_r, Nat.sub_diag in Eb by lia.
    destruct l as [|x l]; simplify_eq/=. exists l. by rewrite <-app_assoc.
  - assert (p_rpos (pipe s) + 1 < 2 ^ 31) as Hlt.
    { pose proof (prefix_length _ _ H7). unfold load, todo_of, wmid in Hl.
      destruct (writer s) as [|t j|t j|t j]; simpl in *; try lia.
      destruct t; simpl in *; [|lia]. destruct (H10 [] j); auto. }
    destruct (Z.eqb_spec (p_rpos (pipe s) + 1) (2 ^ 31)); [lia|]. set (s1 := mkSys _ _ _ _ _ _).
    assert (pipe_ok (mkSys (pipe s1) RIdle (writer s1) (got s1) (put s1) (rets s1))) as Hok1.
    { split; unfold rmid, wmid in *; simpl; try done; try lia.
      - intros j Hj. apply H6. lia.
      - intros t j Et. destruct (H9 t j Et). split; [done|lia]. }
    eexists. split; [done|].
    destruct (read_next_ok n (i + 1) _ Hok1 eq_refl) as [Hok2 Hload]. split; [|].
    + unfold read_next in *. by destruct (i + 1 <? n).
    + unfold read_next in *. by destruct (i + 1 <? n).
Qed.

Lemma devpipe_write_ok closed s :
  pipe_ok s → load s < 2 ^ 31 → ∃ s', devpipe_write closed s = Some s' ∧ pipe_ok s' ∧ load s' ≤ load s.
Proof.
  intros Hok Hl. pose proof Hok as [H1 H0 H2 H3 H4 H5 H6 H7 H8 H9 H10].
  assert (rmid s = 0 ∨ rmid s = 1) as Hrm by (unfold rmid; destruct (reader s); auto).
  pose proof (prefix_length _ _ H7) as Hpl. unfold devpipe_write, wmid, load, todo_of in *.
  destruct (writer s) as [|t i|t i|t i] eqn:Ew; unfold wmid in *; rewrite ?Ew in *.
  - exists s. rewrite Ew. split_and!; [done|done|lia].
  - assert (0 ≤ p_rpos (pipe s) ∧ p_wpos (pipe s) < 2 ^ 31) as Hb.
    { lia. }
    rewrite !u64_small by (unfold is_u64, PIPEBUFSIZ; lia).
    destruct (Z.leb_spec (p_rpos (pipe s) + PIPEBUFSIZ) (p_wpos (pipe s))).
    + destruct closed; eexists; (split; [done|]); [|by rewrite Ew].
      split; [|simpl; lia]. split; unfold rmid, wmid in *; simpl; try done; try lia; naive_solver.
    + eexists. split; [done|]. split; [|simpl; lia].
      split; unfold rmid, wmid in *; simpl; try done; try lia; [|naive_solver].
      intros t' i' [= <- <-]. split; [|lia]. apply (H10 t i). auto.
  - destruct (H9 t i eq_refl) as [Ht Hroom]. destruct t as [|b t]; [done|].
    assert (0 ≤ p_wpos (pipe s)) as Hw0 by lia. rewrite slot_of_pos by lia. simpl.
    pose proof (Z.mod_pos_bound (p_wpos (pipe s)) 32 ltac:(lia)) as Hmod.
    rewrite bool_decide_true by lia. eexists. split; [done|].
    split; [|simpl; rewrite length_app; simpl in *; lia].
    split; unfold rmid, wmid in *; simpl; rewrite ?length_app, ?length_insert; simpl; try done; try lia.
    + intros j Hj. destruct (decide (j = p_wpos (pipe s))) as [->|Hne].
      * rewrite list_lookup_insert_eq by lia. rewrite lookup_app_r by lia.
        replace (Z.to_nat (p_wpos (pipe s)) - length (put s))%nat with 0%nat by lia. done.
      * rewrite list_lookup_insert_ne; [|unfold PIPEBUFSIZ in *; Z.div_mod_to_equations; lia].
        rewrite lookup_app_l by lia. apply H6. lia.
    + by apply prefix_app_r.
    + intros t' i' [[= <- <-]|[=]]. done.
  - pose proof (H10 t i (or_introl eq_refl)) as Ht. destruct t as [|b t]; [done|]. cbn [length] in Hl.
    destruct (Z.eqb_spec (p_wpos (pipe s) + 1) (2 ^ 31)); [lia|]. set (s1 := mkSys _ _ _ _ _ _).
    assert (pipe_ok (mkSys (pipe s1) (reader s1) WIdle (got s1) (put s1) (rets s1))) as Hok1.
    { split; unfold rmid, wmid in *; simpl; try done; try lia; naive_solver. }
    eexists. split; [done|]. destruct (write_next_ok t (i + 1) _ Hok1 eq_refl) as [Hok2 Hload].
    split; unfold write_next, load, todo_of, wmid in *; destruct t; simpl in *; try done; lia.
Qed.

Definition cost (e : event) : Z := match e with CallWrite data => Z.of_nat (length data) | _ => 0 end.

Lemma step_ok e s :
  pipe_ok s → load s + cost e < 2 ^ 31 → ∃ s', step e s = Some s' ∧ pipe_ok s' ∧ load s' ≤ load s + cost e.
Proof.
  intros Hok Hl. destruct e as [n|data|c|c]; simpl in *.
  - eexists. split; [done|]. destruct (reader s) eqn:Er; try (split; [done|lia]).
    destruct (read_next_ok n 0 s Hok) as [? ->]; [unfold rmid; by rewrite Er|]. split; [done|lia].
  - eexists. split; [done|]. destruct (writer s) eqn:Ew; try (split; [done|lia]).
    destruct (write_next_ok data 0 s Hok) as [? ->]; [unfold wmid; by rewrite Ew|]. split; [done|].
    unfold load, todo_of, wmid. rewrite Ew. lia.
  - destruct (devpipe_read_ok c s Hok) as (s' & E & ? & ?); [lia|]. exists s'. split_and!; [done|done|lia].
  - destruct (devpipe_write_ok c s Hok) as (s' & E & ? & ?); [lia|]. exists s'. split_and!; [done|done|lia].
Qed.

Lemma run_ok es s :
  pipe_ok s → load s + offered es < 2 ^ 31 → ∃ s', run es s = Some s' ∧ pipe_ok s' ∧ load s' < 2 ^ 31.
Proof.
  assert (∀ es, 0 ≤ offered es) as Hpos by (intros l; induction l as [|[] l IH]; simpl; lia).
  revert s. induction es as [|e es IH]; intros s Hok Hl; simpl in *; [exists s; split_and!; [done|done|lia]|].
  assert (load s + cost e + offered es < 2 ^ 31) by (destruct e; simpl in *; lia).
  destruct (step_ok e s Hok) as (s1 & E1 & Hok1 & Hl1); [specialize (Hpos es); lia|].
  rewrite E1. simpl. apply IH; [done|lia].
Qed.

(** The next byte is taken in two steps of the reader. *)
Lemma take_ok s n i c c' :
  pipe_ok s → load s < 2 ^ 31 → reader s = RCheck n i → p_rpos (pipe s) ≠ p_wpos (pipe s) →
  ∃ s' b, run [R c; R c'] s = Some s' ∧ put s !! length (got s) = Some b ∧ got s' = got s ++ [b].
Proof.
  intros Hok Hl Er Hne. destruct (devpipe_read_ok c s Hok Hl) as (s1 & E1 & Hok1 & Hl1).
  assert (s1 = mkSys (pipe s) (RTake n i) (writer s) (got s) (put s) (rets s)) as Es1.
  { pose proof E1 as E. unfold devpipe_read in E. rewrite Er in E.
    destruct (Z.eqb_spec (p_rpos (pipe s)) (p_wpos (pipe s))); [done|]. by simplify_eq. }
  destruct (devpipe_read_ok c' s1 Hok1 ltac:(lia)) as (s' & E & [_ _ _ _ _ _ _ [l Hl'] _ _ _] & _).
  cbn [run step]. rewrite E1. simpl. rewrite E. simpl.
  unfold devpipe_read in E. rewrite Es1 in E. simpl in E. destruct (slot_of _) as [k|]; [|done]. simpl in E.
  destruct (p_buf (pipe s) !! k) as [b|]; simplify_eq/=. eexists _, b. split_and!; [done| |done].
  rewrite Hl', lookup_app_l, lookup_app_r, Nat.sub_diag by (rewrite ?length_app; simpl; lia). done.
Qed.

(** C17  A pipe is a queue.  In every interleaving of any calls of the reader and
    the writer, with fewer than 2^31 bytes offered in all, no access leaves the
    buffer and no counter overflows; what the reader has taken is the beginning of
    what the writer has stored, at most [PIPEBUFSIZ] bytes are in flight, and a
    reader that looks while a byte is there gets the next one in its next two steps,
    whatever [_pipeisclosed] would say. *)
Theorem pipe_fifo (es : list event) (H : offered es < 2 ^ 31) :
  ∃ s, run es pipe_init = Some s ∧ got s `prefix_of` put s ∧
    Z.of_nat (length (put s)) - Z.of_nat (length (got s)) ≤ PIPEBUFSIZ ∧
    ∀ n i c c', reader s = RCheck n i → p_rpos (pipe s) ≠ p_wpos (pipe s) →
      ∃ s' b, run [R c; R c'] s = Some s' ∧ put s !! length (got s) = Some b ∧ got s' = got s ++ [b].
Proof.
  destruct (run_ok es pipe_init pipe_ok_init) as (s & E & Hok & Hl); [done|]. exists s.
  pose proof Hok as [H1 H0 H2 H3 H4 _ _ H7 _ _ _]. split_and!; [done|done| |].
  - unfold rmid in H1. destruct (reader s); lia.
  - intros n i c c' Er Hne. by apply (take_ok s n i c c' Hok).
Qed.

(** Forty bytes written through the buffer of 32, with the reader catching up in
    the middle. *)
Lemma pipe_fifo_witness :
  let es := [CallWrite (seqZ 0 40); CallRead 3] ++ replicate 100 (W false) ++ replicate 9 (R false) ++
            replicate 8 (W false) in
  ∃ s, run es pipe_init = Some s ∧ got s `prefix_of` put s ∧
    Z.of_nat (length (put s)) - Z.of_nat (length (got s)) ≤ PIPEBUFSIZ ∧
    ∀ n i c c', reader s = RCheck n i → p_rpos (pipe s) ≠ p_wpos (pipe s) →
      ∃ s' b, run [R c; R c'] s = Some s' ∧ put s !! length (got s) = Some b ∧ got s' = got s ++ [b].
Proof.
  intros es. apply (pipe_fifo es). by vm_compute.
Defined.
