(* ===== verification/Serv.v ===== *)
(** * The file server, fs/serv.c

    The table of open files and the request handlers on top of [Fs].  A request
    arrives in the page at [fsreq]; the [struct Fd] of open file [i] is in the page
    at [FILEVA + 4096 i], which the clients map too: its reference count tells the
    server whether the file is still open. *)

From S2P Require Import Prelude Mmu Strings Words Fs FsInv FsRw.

Definition MAXOPEN : Z := 1024.
Definition FILEVA : Z := 0xD0000000.
Definition fsreq : Z := 0x0ffff000.

(** inc/riscv/fs.h, fd.h, lib.h: requests, [struct Fd], open modes. *)
Definition FSREQ_OPEN : Z := 1.
Definition FSREQ_SET_SIZE : Z := 2.
Definition FSREQ_READ : Z := 3.
Definition FSREQ_WRITE : Z := 4.
Definition FSREQ_STAT : Z := 5.
Definition FSREQ_FLUSH : Z := 6.
Definition FSREQ_SYNC : Z := 8.
Definition fd_dev_id : Z := 0.
Definition fd_offset : Z := 4.
Definition fd_omode : Z := 8.
Definition fd_file_id : Z := 12.
Definition O_ACCMODE : Z := 3.
Definition O_CREAT : Z := 0x100.
Definition O_TRUNC : Z := 0x200.
Definition O_EXCL : Z := 0x400.
Definition PTE_SHARE : Z := 0x200.
Definition devfile_dev_id : Z := 102.

Record OpenFile := mkOpen { o_fileid : Z; o_file : Z; o_mode : Z; o_fd : Z }.

(** [pageref] gives the reference count of a page, 0 if it is not mapped; [room] is
    how many pages the kernel can still give. *)
Record sstate := mkS { fs : fsstate; opentab : list OpenFile; pageref : gmap Z Z; room : nat }.
Definition SV (A : Type) : Type := M sstate A.
Definition set_fs (f : fsstate) (s : sstate) : sstate := mkS f (opentab s) (pageref s) (room s).
Definition set_opentab (t : list OpenFile) (s : sstate) : sstate := mkS (fs s) t (pageref s) (room s).

Definition ref_of (s : sstate) (va : Z) : Z := default 0 (pageref s !! va).

(** A call of [Fs]. *)
Definition lift {A} (m : F A) : SV A := λ s,
  match m (fs s) with
  | Ret a f => Ret a (set_fs f s)
  | NoRet f => NoRet (set_fs f s)
  | Panic f => Panic (set_fs f s)
  | Undef => Undef
  end.
Definition ld64 (m : bytes) (a : Z) : Z := ld32 m a + 2 ^ 32 * ld32 m (a + 4).
Definition load64 (a : Z) : F Z := gets (λ s, ld64 (fmem s) a).

Definition serve_init : SV unit :=
  modify (λ s, set_opentab (imap (λ i o, mkOpen (Z.of_nat i) (o_file o) (o_mode o) (FILEVA + PGSIZE * Z.of_nat i))
                                 (opentab s)) s).

Definition sys_page_alloc (va : Z) : SV Z := λ s,
  match room s with
  | O => Ret (- E_NO_MEM) s
  | S r => Ret 0 (mkS (set_fmem (memset (fmem (fs s)) va 0 PGSIZE) (fs s)) (opentab s) (<[va:=1]> (pageref s)) r)
  end.

(** The loop from entry [i] on; the result code and the entry. *)
Fixpoint openfile_alloc_loop (n : nat) (i : nat) : SV (Z * nat) :=
  match n with
  | O => ret (- E_MAX_OPEN, O)
  | S n' =>
      t <- gets opentab ;;
      o <- deref (t !! i) ;;
      ref <- gets (λ s, ref_of s (o_fd o)) ;;
      if (ref =? 0) || (ref =? 1) then
        r <- (if ref =? 0 then sys_page_alloc (o_fd o) else ret 0) ;;
        if r <? 0 then ret (r, O) else
        let id := u32 (o_fileid o + MAXOPEN) in
        modify (λ s, set_opentab (<[i:=mkOpen id (o_file o) (o_mode o) (o_fd o)]> (opentab s)) s) ;;;
        lift (modify (λ s, set_fmem (memset (fmem s) (o_fd o) 0 PGSIZE) s)) ;;;
        ret (i32 id, i)
      else openfile_alloc_loop n' (S i)
  end.
Definition openfile_alloc : SV (Z * nat) := openfile_alloc_loop (Z.to_nat MAXOPEN) 0.

(** The result code and the entry. *)
Definition openfile_lookup (fileid : Z) : SV (Z * nat) :=
  let i := Z.to_nat (fileid mod MAXOPEN) in
  t <- gets opentab ;;
  o <- deref (t !! i) ;;
  ref <- gets (λ s, ref_of s (o_fd o)) ;;
  if (ref <=? 1) || negb (o_fileid o =? fileid) then ret (- E_INVAL, O) else ret (0, i).

(** The string at [p], at most [n] characters. *)
Fixpoint str_at (n : nat) (m : bytes) (p : Z) : list Z :=
  match n with
  | O => []
  | S n' => if rdb m p =? 0 then [] else rdb m p :: str_at n' m (p + 1)
  end.

(** The result code, [*pg_store] and [*perm_store]. *)
Definition serve_open : SV (Z * Z * Z) :=
  path <- lift (gets (λ s, str_at (Z.to_nat (MAXPATHLEN - 1)) (fmem s) fsreq)) ;;
  a <- openfile_alloc ;;
  if fst a <? 0 then ret (fst a, 0, 0) else
  omode <- lift (load32 (fsreq + MAXPATHLEN)) ;;
  c <- (if negb (Z.land omode O_CREAT =? 0) then lift (file_create path) else ret (- E_FILE_EXISTS, 0)) ;;
  c <- (if (fst c <? 0) && ((Z.land omode O_CREAT =? 0) || (Z.land omode O_EXCL =? 0) && (fst c =? - E_FILE_EXISTS))
        then lift (file_open path) else ret c) ;;
  if fst c <? 0 then ret (fst c, 0, 0) else
  t <- (if negb (Z.land omode O_TRUNC =? 0) then lift (file_set_size (snd c) 0) else ret 0) ;;
  if t <? 0 then ret (t, 0, 0) else
  c <- lift (file_open path) ;;
  if fst c <? 0 then ret (fst c, 0, 0) else
  t <- gets opentab ;;
  o <- deref (t !! snd a) ;;
  modify (λ s, set_opentab (<[snd a:=mkOpen (o_fileid o) (snd c) (i32 omode) (o_fd o)]> (opentab s)) s) ;;;
  lift (store32 (o_fd o + fd_file_id) (o_fileid o)) ;;;
  lift (store32 (o_fd o + fd_omode) (Z.land omode O_ACCMODE)) ;;;
  lift (store32 (o_fd o + fd_dev_id) devfile_dev_id) ;;;
  ret (0, o_fd o, Z.lor (Z.lor (Z.lor (Z.lor PTE_V PTE_U) PTE_W) PTE_R) PTE_SHARE).

(** [openfile_lookup], then the rest on the open file. *)
Definition with_file (fileid : Z) (k : OpenFile → SV Z) : SV Z :=
  r <- openfile_lookup fileid ;;
  if fst r <? 0 then ret (fst r) else
  t <- gets opentab ;;
  o <- deref (t !! snd r) ;;
  k o.

Definition serve_set_size : SV Z :=
  id <- lift (load32 fsreq) ;;
  with_file id (λ o, size <- lift (load32 (fsreq + 4)) ;; lift (file_set_size (o_file o) (i32 size))).

Definition seek_pos (o : OpenFile) : SV Z := v <- lift (load32 (o_fd o + fd_offset)) ;; ret (i32 v).

(** The bytes go over the request; the offset moves even by an error code. *)
Definition serve_read : SV Z :=
  id <- lift (load32 fsreq) ;;
  with_file id (λ o,
    n <- lift (load64 (fsreq + 8)) ;;
    pos <- seek_pos o ;;
    r <- lift (file_read (o_file o) fsreq n pos) ;;
    pos <- seek_pos o ;;
    lift (store32 (o_fd o + fd_offset) (pos + i32 r)) ;;;
    ret (i32 r)).

(** [struct Fsreq_write] is packed. *)
Definition serve_write : SV Z :=
  id <- lift (load32 fsreq) ;;
  with_file id (λ o,
    n <- lift (load64 (fsreq + 4)) ;;
    pos <- seek_pos o ;;
    r <- lift (file_write (o_file o) (fsreq + 12) n pos) ;;
    if r <? 0 then ret r else
    pos <- seek_pos o ;;
    lift (store32 (o_fd o + fd_offset) (pos + r)) ;;;
    ret r).

Definition serve_stat : SV Z :=
  id <- lift (load32 fsreq) ;;
  with_file id (λ o,
    lift (modify (λ s, set_fmem (put_name (fmem s) fsreq (str_at (Z.to_nat PGSIZE) (fmem s) (o_file o))) s)) ;;;
    size <- lift (load32 (o_file o + f_size)) ;;
    lift (store32 (fsreq + 128) size) ;;;
    ty <- lift (load32 (o_file o + f_type)) ;;
    lift (store32 (fsreq + 132) (if ty =? FTYPE_DIR then 1 else 0)) ;;;
    ret 0).

Definition serve_flush : SV Z :=
  id <- lift (load32 fsreq) ;;
  with_file id (λ o, lift (file_flush (o_file o)) ;;; ret 0).

Definition serve_sync : SV Z := lift fs_sync ;;; ret 0.

(** The table of handlers. *)
Definition handlers (req : Z) : option (SV Z) :=
  if req =? FSREQ_SET_SIZE then Some serve_set_size
  else if req =? FSREQ_READ then Some serve_read
  else if req =? FSREQ_WRITE then Some serve_write
  else if req =? FSREQ_STAT then Some serve_stat
  else if req =? FSREQ_FLUSH then Some serve_flush
  else if req =? FSREQ_SYNC then Some serve_sync
  else None.

(** A round of [serve] for a request that arrived with [perm]: what is passed to
    [ipc_send], if there is a reply. *)
Definition serve_round (req perm : Z) : SV (option (Z * Z * Z)) :=
  if Z.land perm PTE_V =? 0 then ret None else
  if req =? FSREQ_OPEN then
    r <- serve_open ;;
    let '(r, pg, p) := r in ret (Some (r, pg, if pg =? 0 then perm else p))
  else match handlers req with
       | Some h => r <- h ;; ret (Some (r, 0, perm))
       | None => ret (Some (- E_INVAL, 0, perm))
       end.

(** ** The table of open files *)

Record opentab_ok (s : sstate) : Prop := {
  ot_len : length (opentab s) = 1024%nat;
  ot_entry i o : opentab s !! i = Some o →
    o_fd o = FILEVA + PGSIZE * Z.of_nat i ∧ o_fileid o mod MAXOPEN = Z.of_nat i ∧ 0 ≤ o_fileid o < 2 ^ 32
}.

Lemma serve_init_ok s :
  length (opentab s) = 1024%nat → ∃ s', serve_init s = Ret tt s' ∧ opentab_ok s'.
Proof.
  intros Hl. eexists. split; [done|]. split; cbn [opentab set_opentab]; [by rewrite length_imap|].
  intros i o. rewrite list_lookup_imap, fmap_Some. intros (o' & Ho' & ->). cbn [o_fd o_fileid].
  apply lookup_lt_Some in Ho'. unfold MAXOPEN. split_and!; [done| |lia|lia]. apply Z.mod_small. lia.
Qed.

(** Entry [i] can be given out. *)
Definition avail (s : sstate) (o : OpenFile) : bool := (ref_of s (o_fd o) =? 0) || (ref_of s (o_fd o) =? 1).

Lemma next_id id : 0 ≤ id < 2 ^ 32 →
  0 ≤ u32 (id + MAXOPEN) < 2 ^ 32 ∧ u32 (id + MAXOPEN) mod MAXOPEN = id mod MAXOPEN ∧ u32 (id + MAXOPEN) ≠ id.
Proof. intros H. unfold u32, MAXOPEN. Z.div_mod_to_equations. lia. Qed.

Definition given (s : sstate) (i : nat) (o : OpenFile) : sstate :=
  set_opentab (<[i:=mkOpen (u32 (o_fileid o + MAXOPEN)) (o_file o) (o_mode o) (o_fd o)]> (opentab s)) s.

Lemma given_ok s i o : opentab_ok s → opentab s !! i = Some o → opentab_ok (given s i o).
Proof.
  intros [Hl He] Hi. split; cbn [given opentab set_opentab]; [by rewrite length_insert|].
  intros j o'. destruct (decide (i = j)) as [->|Hne].
  - rewrite list_lookup_insert_eq by by eapply lookup_lt_Some. intros [= <-]. cbn [o_fd o_fileid].
    destruct (He j o Hi) as (? & ? & Hr). destruct (next_id _ Hr) as (? & -> & _). done.
  - rewrite list_lookup_insert_ne by done. apply He.
Qed.

Lemma openfile_alloc_loop_run n i s :
  opentab_ok s → (i + n = 1024)%nat →
  (∃ k o s', opentab s !! k = Some o ∧ (i ≤ k)%nat ∧ avail s o = true ∧
     (∀ j o', (i ≤ j < k)%nat → opentab s !! j = Some o' → avail s o' = false) ∧
     openfile_alloc_loop n i s = Ret (i32 (u32 (o_fileid o + MAXOPEN)), k) s' ∧
     opentab s' = opentab (given s k o)) ∨
  (room s = O ∧ openfile_alloc_loop n i s = Ret (- E_NO_MEM, O) s) ∨
  ((∀ j o', (i ≤ j)%nat → opentab s !! j = Some o' → avail s o' = false) ∧
   openfile_alloc_loop n i s = Ret (- E_MAX_OPEN, O) s).
Proof.
  intros Ht. revert i. induction n as [|n IH]; intros i Hn; cbn [openfile_alloc_loop].
  { right; right. split; [|done]. intros j o' Hj Ho. apply lookup_lt_Some in Ho. rewrite (ot_len _ Ht) in Ho. lia. }
  step_pure. destruct (lookup_lt_is_Some_2 (opentab s) i) as [o Ho]; [rewrite (ot_len _ Ht); lia|].
  rewrite Ho. cbn [deref]. step_pure. step_pure. fold (avail s o). destruct (avail s o) eqn:Ha.
  - pose proof Ha as Ha0. unfold avail in Ha0. destruct (Z.eqb_spec (ref_of s (o_fd o)) 0) as [E|E].
    + unfold sys_page_alloc. destruct (room s) as [|r] eqn:Er.
      * right; left. split; [done|]. erewrite bind_Ret_l by by rewrite Er. done.
      * left. eexists i, o, _. split_and!; [done|lia|done|intros; lia| |].
        { erewrite bind_Ret_l by by rewrite Er. change (0 <? 0) with false. cbv iota. step_pure. done. }
        done.
    + left. eexists i, o, _. split_and!; [done|lia|done|intros; lia| |].
      { step_pure. change (0 <? 0) with false. cbv iota. step_pure. done. }
      done.
  - destruct (IH (S i) ltac:(lia)) as [(k & o' & s' & Hk & Hik & Hak & Hmin & E & Es)|[[Hr E]|[Hno E]]].
    + left. exists k, o', s'. split_and!; try done; [lia|]. intros j oj Hj Hoj.
      destruct (decide (j = i)) as [->|]; [congruence|]. apply (Hmin j oj); [lia|done].
    + right; left. done.
    + right; right. split; [|done]. intros j oj Hj Hoj. destruct (decide (j = i)) as [->|]; [congruence|].
      apply (Hno j oj); [lia|done].
Qed.

Lemma openfile_lookup_run s i o id :
  opentab s !! i = Some o → Z.to_nat (id mod MAXOPEN) = i →
  openfile_lookup id s =
  Ret (if (ref_of s (o_fd o) <=? 1) || negb (o_fileid o =? id) then (- E_INVAL, O) else (0, i)) s.
Proof.
  intros Hi <-. unfold openfile_lookup. step_pure. rewrite Hi. cbn [deref]. step_pure. step_pure.
  by destruct (_ || _).
Qed.

Definition set_pageref (r : gmap Z Z) (s : sstate) : sstate := mkS (fs s) (opentab s) r (room s).

(** [openfile_alloc] gives out the first entry no client holds, under an id it
    did not have before: once a client maps the page, [openfile_lookup] of the new
    id finds the entry and the entry's previous id is refused.  It fails with
    [-E_MAX_OPEN] exactly when every entry is held, and otherwise only for lack of
    a page. *)
Theorem openfile_alloc_correct (s : sstate) (Ht : opentab_ok s) :
  (∃ i o s', opentab s !! i = Some o ∧ avail s o = true ∧
     (∀ j o', (j < i)%nat → opentab s !! j = Some o' → avail s o' = false) ∧
     openfile_alloc s = Ret (i32 (u32 (o_fileid o + MAXOPEN)), i) s' ∧ opentab_ok s' ∧
     (∀ j, j ≠ i → opentab s' !! j = opentab s !! j) ∧
     ∀ refs, 2 ≤ default 0 (refs !! o_fd o) →
       openfile_lookup (u32 (o_fileid o + MAXOPEN)) (set_pageref refs s') = Ret (0, i) (set_pageref refs s') ∧
       openfile_lookup (o_fileid o) (set_pageref refs s') = Ret (- E_INVAL, O) (set_pageref refs s')) ∨
  (room s = O ∧ openfile_alloc s = Ret (- E_NO_MEM, O) s) ∨
  ((∀ j o', opentab s !! j = Some o' → avail s o' = false) ∧ openfile_alloc s = Ret (- E_MAX_OPEN, O) s).
Proof.
  destruct (openfile_alloc_loop_run 1024 0 s Ht eq_refl)
    as [(i & o & s' & Hi & _ & Ha & Hmin & E & Es)|[?|[Hno E]]].
  2: by right; left.
  2: { right; right. split; [|done]. intros j o' Ho. apply (Hno j o'); [lia|done]. }
  left. exists i, o, s'. pose proof (given_ok s i o Ht Hi) as Hg.
  destruct (ot_entry _ Ht i o Hi) as (_ & Hmod & Hr). destruct (next_id _ Hr) as (_ & Hm2 & Hne).
  set (o2 := mkOpen (u32 (o_fileid o + MAXOPEN)) (o_file o) (o_mode o) (o_fd o)).
  assert (opentab s' !! i = Some o2) as Hi2.
  { rewrite Es. apply list_lookup_insert_eq. by eapply lookup_lt_Some. }
  split_and!; [done|done| |done| | |].
  - intros j o' Hj. apply Hmin. lia.
  - destruct Hg as [H1 H2]. split; by rewrite Es.
  - intros j Hj. rewrite Es. by apply list_lookup_insert_ne.
  - intros refs Hrefs. split.
    + rewrite (openfile_lookup_run (set_pageref refs s') i o2) by (done || (rewrite Hm2, Hmod; lia)).
      unfold ref_of. cbn [pageref set_pageref o_fd o2 o_fileid]. rewrite Z.eqb_refl.
      destruct (Z.leb_spec (default 0 (refs !! o_fd o)) 1); [lia|done].
    + rewrite (openfile_lookup_run (set_pageref refs s') i o2) by (done || (rewrite Hmod; lia)).
      cbn [o_fileid o2]. rewrite (proj2 (Z.eqb_neq _ _) Hne). by rewrite orb_true_r.
Qed.

Definition ex_tab : list OpenFile :=
  (λ i, mkOpen i 0 0 (FILEVA + PGSIZE * i)) <$> seqZ 0 1024.

(** A fresh table: the first entry is given out under the id 1024. *)
Lemma openfile_alloc_witness :
  let s := mkS ex_disk ex_tab ∅ 1 in
  opentab_ok s ∧ ∃ s', openfile_alloc s = Ret (1024, O) s' ∧ opentab_ok s'.
Proof.
  intros s. assert (opentab_ok s) as Ht.
  { split; [done|]. intros i o. cbn [opentab s]. unfold ex_tab. rewrite list_lookup_fmap, fmap_Some.
    intros (x & Hx & ->). apply lookup_seqZ in Hx as [-> Hi]. cbn [o_fd o_fileid]. unfold MAXOPEN.
    split_and!; [done| |lia|lia]. rewrite Z.mod_small; lia. }
  split; [done|]. destruct (openfile_alloc_correct s Ht) as [(i & o & s' & Hi & Ha & Hmin & E & Hok & _)|[[Hr _]|[Hno _]]].
  - exists s'. split; [|done]. destruct i as [|i].
    + injection Hi as <-. exact E.
    + specialize (Hmin O (mkOpen 0 0 0 (FILEVA + PGSIZE * 0)) ltac:(lia) eq_refl). discriminate Hmin.
  - discriminate Hr.
  - specialize (Hno O (mkOpen 0 0 0 (FILEVA + PGSIZE * 0)) eq_refl). discriminate Hno.
Defined.

(** ** Writing through the server *)

Lemma lift_Ret {A} (m : F A) s a f : m (fs s) = Ret a f → lift m s = Ret a (set_fs f s).
Proof. unfold lift. by intros ->. Qed.

Lemma with_file_run s i o id k :
  opentab s !! i = Some o → Z.to_nat (id mod MAXOPEN) = i → o_fileid o = id → 2 ≤ ref_of s (o_fd o) →
  with_file id k s = k o s.
Proof.
  intros Hi Hid Eid Href. unfold with_file. step_with (openfile_lookup_run s i o id Hi Hid).
  destruct (Z.leb_spec (ref_of s (o_fd o)) 1); [lia|]. rewrite Eid, Z.eqb_refl. cbn [negb orb fst snd].
  change (0 <? 0) with false. cbv iota. step_pure. rewrite Hi. cbn [deref]. by step_pure.
Qed.

Lemma load_Ret s a : lift (load32 a) s = Ret (ld32 (fmem (fs s)) a) s.
Proof. by destruct s. Qed.
Lemma load64_Ret s a : lift (load64 a) s = Ret (ld64 (fmem (fs s)) a) s.
Proof. by destruct s. Qed.
Lemma seek_pos_Ret s o : seek_pos o s = Ret (i32 (ld32 (fmem (fs s)) (o_fd o + fd_offset))) s.
Proof. unfold seek_pos. by step_with (load_Ret s (o_fd o + fd_offset)). Qed.

(** The request in the page at [fsreq] is for the open file [o], which is [f]. *)
Record request (s : sstate) (i : nat) (o : OpenFile) : Prop := {
  rq_tab : opentab_ok s;
  rq_open : opentab s !! i = Some o;
  rq_id : ld32 (fmem (fs s)) fsreq = o_fileid o;
  rq_ref : 2 ≤ ref_of s (o_fd o)
}.

Lemma request_file s i o k :
  request s i o → (id <- lift (load32 fsreq) ;; with_file id k) s = k o s.
Proof.
  intros [Ht Hi Hid Href]. step_with (load_Ret s fsreq). rewrite Hid.
  destruct (ot_entry _ Ht i o Hi) as (_ & Hmod & _). apply (with_file_run s i o); try done. rewrite Hmod. lia.
Qed.

(** The pages of open files are off the disk. *)
Lemma fd_page_off_disk s i o :
  opentab_ok s → opentab s !! i = Some o → fs_wf (fs s) → baddr (bno (fmem (fs s))) ≤ o_fd o.
Proof.
  intros Ht Hi Hw. destruct (ot_entry _ Ht i o Hi) as (-> & _). pose proof (fw_size _ Hw) as [_ Hn].
  unfold FILEVA. layout. lia.
Qed.

Definition fpos (s : sstate) (o : OpenFile) : Z := i32 (ld32 (fmem (fs s)) (o_fd o + fd_offset)).

(** A write request, with all it does to the server's memory. *)
Lemma serve_write_run s i o fb n pos :
  request s i o → fs_wf (fs s) → file_ok (fmem (fs s)) (o_file o) fb → 0 ≤ fsize (fmem (fs s)) (o_file o) →
  ld64 (fmem (fs s)) (fsreq + 4) = n → 0 ≤ n ≤ PGSIZE - 12 → fpos s o = pos → 0 ≤ pos → pos + n ≤ MAXFILESIZE →
  pos + n ≤ BLKSIZE * bno (fmem (fs s)) →
  (∃ s', serve_write s = Ret n s' ∧ fs_wf (fs s') ∧ file_ok (fmem (fs s')) (o_file o) fb ∧
     bno (fmem (fs s')) = bno (fmem (fs s)) ∧
     fsize (fmem (fs s')) (o_file o) = Z.max (fsize (fmem (fs s)) (o_file o)) (pos + n) ∧
     (∀ k, 0 ≤ k < n → ptr (fmem (fs s')) (o_file o) ((pos + k) / BLKSIZE) ≠ 0 ∧
        fbyte (fmem (fs s')) (o_file o) (pos + k) = rdb (fmem (fs s)) (fsreq + 12 + k)) ∧
     (opentab s' = opentab s ∧ pageref s' = pageref s) ∧
     ∀ a, a < DISKMAP ∨ baddr (bno (fmem (fs s))) ≤ a →
       rdb (fmem (fs s')) a = rdb (st32 (fmem (fs s)) (o_fd o + fd_offset) (pos + n)) a) ∨
  (∃ s', serve_write s = Ret (- E_NO_DISK) s' ∧ full (fmem (fs s'))).
Proof.
  intros Hrq Hw Hok Hsz En Hn Epos Hpos Hmax Hnb.
  unfold serve_write. rewrite (request_file s i o _ Hrq). step_with (load64_Ret s (fsreq + 4)). rewrite En.
  step_with (seek_pos_Ret s o). fold (fpos s o). rewrite Epos.
  destruct Hrq as [Ht Hi _ _]. pose proof (fd_page_off_disk s i o Ht Hi Hw) as Hfd.
  destruct (file_write_run (fs s) (o_file o) fb (fsreq + 12) n pos Hw Hok Hsz Hpos ltac:(lia) Hmax Hnb)
    as [(f' & E & Hw' & Hok' & Eb & Es & Hd & _ & Hout)|(f' & E & Hfull & _)].
  { left. unfold fsreq, PGSIZE in *. layout. lia. }
  2: { right. eexists. split; [step_with (lift_Ret _ s _ _ E); done|done]. }
  left. step_with (lift_Ret _ s _ _ E). destruct (Z.ltb_spec n 0); [lia|].
  step_with (seek_pos_Ret (set_fs f' s) o). cbn [fs set_fs].
  assert (i32 (ld32 (fmem f') (o_fd o + fd_offset)) = pos) as ->.
  { rewrite <-Epos. unfold fpos. f_equal. apply ld32_ext. intros a Ha. apply Hout. unfold fd_offset in Ha. lia. }
  set (m2 := st32 (fmem f') (o_fd o + fd_offset) (pos + n)).
  destruct (outside_kept f' m2 (o_file o) fb Hw' Hok') as (Hw2 & Hok2 & En2 & [_ Hp2] & Hb2).
  { apply bytes_ok_st32, Hw'. }
  { intros a Ha. apply rdb_st32_out. rewrite Eb in Ha. unfold fd_offset. lia. }
  exists (set_fs (set_fmem m2 f') s). split.
  { step_with (lift_Ret (store32 (o_fd o + fd_offset) (pos + n)) (set_fs f' s) tt (set_fmem m2 f') eq_refl). done. }
  cbn [fs set_fs fmem set_fmem]. split_and!; [done|done|by rewrite En2| | |done|done|].
  - rewrite <-Es. unfold fsize. f_equal. apply ld32_st32_ne.
    pose proof (file_on_disk _ _ _ (o_file o + f_size + 3) (proj1 (fw_size _ Hw')) Hok' ltac:(unfold f_size; lia)) as Hdisk.
    rewrite Eb in Hdisk. unfold fd_offset. lia.
  - intros k Hk. destruct (Hd (pos + k)) as [Hpk Hdk]; [unfold in_range; lia|].
    rewrite Hb2 by (done || lia). rewrite Hdk. split; [|f_equal; lia]. rewrite Hp2; [done|].
    by apply (block_bounds _ (pos + n)); [lia|].
  - intros a Ha. unfold m2. destruct (decide (o_fd o + fd_offset ≤ a < o_fd o + fd_offset + 4)) as [Hin|Hnin].
    + replace a with (o_fd o + fd_offset + (a - (o_fd o + fd_offset))) by lia. by rewrite !rdb_st32_in by lia.
    + rewrite !rdb_st32_out by done. by apply Hout.
Qed.

(** A write request for an open file stores the bytes of the request page at
    the file's seek position, moves the position by their number and returns it;
    the file system stays well-formed and no other open file's position changes.
    Otherwise the result is [-E_NO_DISK], and no block is free. *)
Theorem serve_write_correct (s : sstate) (i : nat) (o : OpenFile) (fb n pos : Z)
    (Hrq : request s i o) (Hw : fs_wf (fs s)) (Hok : file_ok (fmem (fs s)) (o_file o) fb)
    (Hsz : 0 ≤ fsize (fmem (fs s)) (o_file o))
    (En : ld64 (fmem (fs s)) (fsreq + 4) = n) (Hn : 0 ≤ n ≤ PGSIZE - 12)
    (Epos : fpos s o = pos) (Hpos : 0 ≤ pos) (Hmax : pos + n ≤ MAXFILESIZE)
    (Hnb : pos + n ≤ BLKSIZE * bno (fmem (fs s))) :
  (∃ s', serve_write s = Ret n s' ∧ fs_wf (fs s') ∧ file_ok (fmem (fs s')) (o_file o) fb ∧
     (∀ k, 0 ≤ k < n → fbyte (fmem (fs s')) (o_file o) (pos + k) = rdb (fmem (fs s)) (fsreq + 12 + k)) ∧
     fpos s' o = pos + n ∧
     ∀ j o', opentab s !! j = Some o' → j ≠ i → fpos s' o' = fpos s o') ∨
  (∃ s', serve_write s = Ret (- E_NO_DISK) s' ∧ full (fmem (fs s'))).
Proof.
  destruct (serve_write_run s i o fb n pos Hrq Hw Hok Hsz En Hn Epos Hpos Hmax Hnb)
    as [(s' & E & Hw' & Hok' & _ & _ & Hd & _ & Hout)|?]; [|by right].
  left. exists s'. destruct Hrq as [Ht Hi _ _].
  assert (∀ j o', opentab s !! j = Some o' →
    fpos s' o' = i32 (ld32 (st32 (fmem (fs s)) (o_fd o + fd_offset) (pos + n)) (o_fd o' + fd_offset))) as Hp.
  { intros j o' Hj. unfold fpos. f_equal. apply ld32_ext. intros a Ha. apply Hout.
    pose proof (fd_page_off_disk s j o' Ht Hj Hw). unfold fd_offset in Ha. lia. }
  assert (pos + n < 2 ^ 31) as H31 by (unfold MAXFILESIZE in Hmax; layout; lia).
  split_and!; [done|done|done| | |].
  - intros k Hk. by apply Hd.
  - rewrite (Hp i o Hi), ld32_st32_eq, u32_small by lia. by apply i32_small; lia.
  - intros j o' Hj Hne. rewrite (Hp j o' Hj). unfold fpos. f_equal. apply ld32_st32_ne.
    destruct (ot_entry _ Ht i o Hi) as (-> & _), (ot_entry _ Ht j o' Hj) as (-> & _). unfold fd_offset, PGSIZE. lia.
Qed.

(** A read request within the file. *)
Lemma serve_read_run s i o fb n pos :
  request s i o → fs_wf (fs s) → file_ok (fmem (fs s)) (o_file o) fb →
  ld64 (fmem (fs s)) (fsreq + 8) = n → 0 < n ≤ PGSIZE → fpos s o = pos → 0 ≤ pos →
  pos + n ≤ fsize (fmem (fs s)) (o_file o) → pos + n ≤ MAXFILESIZE → pos + n ≤ BLKSIZE * bno (fmem (fs s)) →
  (∀ k, 0 ≤ k < n → ptr (fmem (fs s)) (o_file o) ((pos + k) / BLKSIZE) ≠ 0) →
  ∃ m', serve_read s = Ret n (set_fs (set_fmem m' (fs s)) s) ∧
    ∀ a, rdb m' a =
      if decide (fsreq ≤ a < fsreq + n) then fbyte (fmem (fs s)) (o_file o) (pos + (a - fsreq))
      else rdb (st32 (fmem (fs s)) (o_fd o + fd_offset) (pos + n)) a.
Proof.
  intros Hrq Hw Hok En Hn Epos Hpos Hsz Hmax Hnb Hmap.
  unfold serve_read. rewrite (request_file s i o _ Hrq). step_with (load64_Ret s (fsreq + 8)). rewrite En.
  step_with (seek_pos_Ret s o). fold (fpos s o). rewrite Epos.
  destruct Hrq as [Ht Hi _ _]. destruct (ot_entry _ Ht i o Hi) as (Ho & _).
  assert (fsreq + PGSIZE ≤ o_fd o) as Hfd by (rewrite Ho; unfold fsreq, FILEVA, PGSIZE; lia).
  destruct (file_read_run (fs s) (o_file o) fb fsreq n pos Hw Hok Hpos ltac:(lia) Hsz Hmax Hnb) as (m' & E & Hm).
  { left. unfold fsreq, PGSIZE in *. layout. lia. }
  { intros k Hk. unfold in_range in Hk. replace k with (pos + (k - pos)) by lia. apply Hmap. lia. }
  step_with (lift_Ret _ s _ _ E). step_with (seek_pos_Ret (set_fs (set_fmem m' (fs s)) s) o). cbn [fs set_fs fmem set_fmem].
  assert (i32 (ld32 m' (o_fd o + fd_offset)) = pos) as ->.
  { rewrite <-Epos. unfold fpos. f_equal. apply ld32_ext. intros a Ha. rewrite Hm, decide_False; [done|].
    unfold fd_offset in Ha. lia. }
  rewrite i32_small by (unfold PGSIZE in *; lia). eexists. split.
  { step_with (lift_Ret (store32 (o_fd o + fd_offset) (pos + n)) (set_fs (set_fmem m' (fs s)) s) tt _ eq_refl). done. }
  intros a. destruct (decide (o_fd o + fd_offset ≤ a < o_fd o + fd_offset + 4)) as [Hin|Hnin].
  - rewrite decide_False by (unfold fd_offset in Hin; lia).
    replace a with (o_fd o + fd_offset + (a - (o_fd o + fd_offset))) by lia. by rewrite !rdb_st32_in by lia.
  - rewrite !rdb_st32_out by done. apply Hm.
Qed.

(** The bytes 72, 105 for the root file, which is open under the id 1024. *)
Definition ex_open : OpenFile := mkOpen 1024 ex_root 1 FILEVA.
Definition ex_mem : bytes :=
  wrb (wrb (wrb (wrb (fmem ex_disk) (fsreq + 1) 4) (fsreq + 4) 2) (fsreq + 12) 72) (fsreq + 13) 105.
Definition ex_server : sstate :=
  mkS (set_fmem ex_mem ex_disk) (<[O:=ex_open]> ex_tab) {[FILEVA := 2]} 1.

Lemma ex_server_request : request ex_server 0 ex_open.
Proof.
  split; [|done|by vm_compute|by vm_compute]. split; [by vm_compute|]. intros i o. cbn [opentab ex_server].
  destruct i as [|i].
  - intros [= <-]. by vm_compute.
  - rewrite list_lookup_insert_ne by done. unfold ex_tab. rewrite list_lookup_fmap, fmap_Some.
    intros (x & Hx & ->). apply lookup_seqZ in Hx as [-> Hi]. cbn [o_fd o_fileid]. unfold MAXOPEN.
    split_and!; [done| |lia|lia]. rewrite Z.mod_small; lia.
Qed.

Lemma ex_server_fs : fs_wf (fs ex_server) ∧ file_ok (fmem (fs ex_server)) ex_root 1.
Proof.
  destruct (outside_kept ex_disk ex_mem ex_root 1 ex_disk_wf ex_root_ok) as (H1 & H2 & _); [| |done].
  - unfold ex_mem. by repeat apply bytes_ok_wrb; apply ex_disk_wf.
  - intros a Ha. unfold ex_mem. rewrite !rdb_wrb, !decide_False by (unfold fsreq; layout; lia). done.
Qed.

Lemma serve_write_witness : ∃ s', serve_write ex_server = Ret 2 s' ∧ fpos s' ex_open = 2.
Proof.
  destruct (serve_write_correct ex_server 0 ex_open 1 2 0 ex_server_request (proj1 ex_server_fs) (proj2 ex_server_fs)
    ltac:(by vm_compute) ltac:(by vm_compute) ltac:(by vm_compute) ltac:(by vm_compute) ltac:(lia)
    ltac:(by vm_compute) ltac:(by vm_compute)) as [(s' & E & _ & _ & _ & Hp & _)|(s' & E & _)].
  - exists s'. split; [exact E|]. rewrite Hp. done.
  - exfalso. assert (match serve_write ex_server with Ret r _ => r | _ => 0 end = 2) as Hr by by vm_compute.
    rewrite E in Hr. discriminate.
Defined.

(** ** Seek position after an error *)

(** [serve_read] adds whatever [file_read] returns to the seek position: an error
    code moves the position back. *)
Theorem serve_read_error_moves_seek (s : sstate) (i : nat) (o : OpenFile) (e : Z) (f' : fsstate) :
  request s i o → - 2 ^ 31 ≤ e < 0 →
  file_read (o_file o) fsreq (ld64 (fmem (fs s)) (fsreq + 8)) (fpos s o) (fs s) = Ret e f' →
  0 ≤ i32 (ld32 (fmem f') (o_fd o + fd_offset)) + e →
  ∃ s', serve_read s = Ret e s' ∧ fpos s' o = i32 (ld32 (fmem f') (o_fd o + fd_offset)) + e.
Proof.
  intros Hrq He E Hp. unfold serve_read. rewrite (request_file s i o _ Hrq). step_with (load64_Ret s (fsreq + 8)).
  step_with (seek_pos_Ret s o). fold (fpos s o). step_with (lift_Ret _ s _ _ E).
  step_with (seek_pos_Ret (set_fs f' s) o). cbn [fs set_fs]. set (p := i32 (ld32 (fmem f') (o_fd o + fd_offset))) in *.
  assert (p < 2 ^ 31) by apply i32_bound. rewrite i32_small by lia.
  eexists. split.
  { step_with (lift_Ret (store32 (o_fd o + fd_offset) (p + e)) (set_fs f' s) tt _ eq_refl). done. }
  unfold fpos. cbn [fs set_fs fmem set_fmem]. rewrite ld32_st32_eq, u32_small by lia. by apply i32_small; lia.
Qed.
