(* ===== verification/Fork.v ===== *)
(** * Copy-on-write fork, lib/riscv/fork.c and lib/riscv/pgfault.c

    The address spaces of environments over physical frames, with the system calls
    as [fork] and its page-fault handler use them.  The theorem shows that after
    [fork] parent and child have private copies: whatever the two write and read
    afterwards, each sees the memory it would see if the pages had been copied at
    once. *)

From S2P Require Import Prelude Mmu Strings.

Definition PTE_COW : Z := 0x300.

(** Page number to frame and permissions. *)
Notation ptab := (gmap Z (Z * Z)).
(** Frame [f] is the 4096 bytes of [phys] from [4096 f] on. *)
Record proc := mkProc {
  env_pgfault_upcall : bool; (* the kernel's field is not null *)
  pgfault_handler : bool;    (* the program's [_pgfault_handler] is not null *)
  runnable : bool
}.
(** [kfree] is the length of the kernel's list of free pages; [ktabs] holds the page
    tables that exist, each with its environment, its level and the part of the page
    number that selects it. *)
Record vm := mkVm {
  phys : bytes; spaces : gmap Z ptab; procs : gmap Z proc;
  kfree : Z; ktabs : gset (Z * Z * Z)
}.
Definition set_phys (m : bytes) (s : vm) : vm := mkVm m (spaces s) (procs s) (kfree s) (ktabs s).
Definition set_space (e : Z) (t : ptab) (s : vm) : vm :=
  mkVm (phys s) (<[e:=t]> (spaces s)) (procs s) (kfree s) (ktabs s).
Definition set_proc (e : Z) (p : proc) (s : vm) : vm :=
  mkVm (phys s) (spaces s) (<[e:=p]> (procs s)) (kfree s) (ktabs s).
Definition set_kern (n : Z) (T : gset (Z * Z * Z)) (s : vm) : vm := mkVm (phys s) (spaces s) (procs s) n T.

Definition V (A : Type) : Type := M vm A.

(** The mapping of page [n] of environment [e]. *)
Definition entry (s : vm) (e n : Z) : option (Z * Z) := t ← spaces s !! e; t !! n.
Definition writable (perm : Z) : bool := negb (Z.land perm PTE_W =? 0).

Definition map_page (e n f perm : Z) (s : vm) : vm :=
  match spaces s !! e with Some t => set_space e (<[n:=(f, perm)]> t) s | None => s end.
Definition unmap_page (e n : Z) (s : vm) : vm :=
  match spaces s !! e with Some t => set_space e (delete n t) s | None => s end.

(** ** The kernel's pages *)

(** The frames that are mapped somewhere. *)
Definition frames (s : vm) : gset Z :=
  ⋃ ((λ t : ptab, list_to_set (fst <$> (map_to_list t).*2)) <$> (map_to_list (spaces s)).*2).
(** The pages that [page_remove] at page [n] gives back: the frame, if this was its
    last mapping. *)
Definition freed (e n : Z) (s : vm) : Z :=
  match entry s e n with
  | Some (f, _) => if bool_decide (f ∈ frames (unmap_page e n s)) then 0 else 1
  | None => 0
  end.
(** The three tables on the way to page [n]. *)
Definition tables (e n : Z) : list (Z * Z * Z) := [(e, 0, n / 2 ^ 27); (e, 1, n / 2 ^ 18); (e, 2, n / 2 ^ 9)].
Definition missing (e n : Z) (s : vm) : list (Z * Z * Z) := filter (λ t, t ∉ ktabs s) (tables e n).
(** [pgdir_walk] with creation: the missing tables are made from the top down while
    there are pages. *)
Definition make_tables (e n : Z) (s : vm) : bool * vm :=
  let m := missing e n s in
  let k := Z.min (Z.of_nat (length m)) (kfree s) in
  (Z.of_nat (length m) <=? kfree s, set_kern (kfree s - k) (list_to_set (take (Z.to_nat k) m) ∪ ktabs s) s).
(** [page_insert]: a page that was mapped there before goes. *)
Definition insert_page (e n f perm : Z) (s : vm) : Z * vm :=
  let '(ok, s) := make_tables e n s in
  if ok : bool then
    let back := match entry s e n with Some (g, _) => if g =? f then 0 else freed e n s | None => 0 end in
    (0, map_page e n f perm (set_kern (kfree s + back) (ktabs s) s))
  else (- E_NO_MEM, s).

Section fork.
(** The frame at the head of the kernel's free list. *)
Context (pick : vm → Z).

Definition bad_va (va : Z) : bool := (UTOP <=? va) || negb (va mod PGSIZE =? 0).

(** The system calls of kern/riscv/syscall.c on environments of the caller's own.
    [sys_page_alloc] does not test the result of [page_alloc]: with no free page it
    works on a null page.  When a table is missing it frees the page again. *)
Definition sys_page_alloc (e va perm : Z) : V Z := λ s,
  match spaces s !! e with
  | None => Ret (- E_BAD_ENV) s
  | Some _ =>
      if bad_va va then Ret (- E_INVAL) s else
      if negb (Z.land perm (Z.lnot PTE_SYSCALL) =? 0) then Ret (- E_INVAL) s else
      if kfree s <=? 0 then Undef else
      let f := pick s in
      let '(r, s) := insert_page e (va / PGSIZE) f perm
        (set_kern (kfree s - 1) (ktabs s) (set_phys (memset (phys s) (f * PGSIZE) 0 PGSIZE) s)) in
      if r <? 0 then Ret r (set_kern (kfree s + 1) (ktabs s) s) else Ret 0 s
  end.
Definition sys_page_map (srcenv srcva dstenv dstva perm : Z) : V Z := λ s,
  match spaces s !! srcenv, spaces s !! dstenv with
  | Some _, Some _ =>
      if bad_va srcva || bad_va dstva then Ret (- E_INVAL) s else
      match entry s srcenv (srcva / PGSIZE) with
      | None => Ret (- E_INVAL) s
      | Some (f, perm0) =>
          if writable perm && negb (writable perm0) then Ret (- E_INVAL) s
          else let '(r, s) := insert_page dstenv (dstva / PGSIZE) f perm s in Ret r s
      end
  | _, _ => Ret (- E_BAD_ENV) s
  end.
Definition sys_page_unmap (e va : Z) : V Z := λ s,
  match spaces s !! e with
  | None => Ret (- E_BAD_ENV) s
  | Some _ =>
      if bad_va va then Ret (- E_INVAL) s else
      let n := va / PGSIZE in Ret 0 (unmap_page e n (set_kern (kfree s + freed e n s) (ktabs s) s))
  end.
Definition upd_proc (e : Z) (f : proc → proc) : V Z := λ s,
  match procs s !! e with None => Ret (- E_BAD_ENV) s | Some p => Ret 0 (set_proc e (f p) s) end.
Definition sys_env_set_pgfault_upcall (e : Z) : V Z :=
  upd_proc e (λ p, mkProc true (pgfault_handler p) (runnable p)).
Definition sys_env_set_status (e : Z) (run : bool) : V Z :=
  upd_proc e (λ p, mkProc (env_pgfault_upcall p) (pgfault_handler p) run).

(** Fails on a result below zero. *)
Definition or_panic (m : V Z) : V unit := r <- m ;; if r <? 0 then panic else ret tt.

(** Where a user address is in physical memory. *)
Definition place (e va : Z) (s : vm) : option (Z * Z) :=
  '(f, perm) ← entry s e (va / PGSIZE); Some (f * PGSIZE + va mod PGSIZE, perm).

(** [memmove(dst, src, PGSIZE)] between two page-aligned addresses. *)
Definition copy_page (e dst src : Z) : V unit := λ s,
  match place e dst s, place e src s with
  | Some (d, perm), Some (a, _) =>
      if writable perm then Ret tt (set_phys (memmove (phys s) d a PGSIZE) s) else Undef
  | _, _ => Undef
  end.

Definition PERM_ALL : Z := Z.lor (Z.lor (Z.lor (Z.lor PTE_V PTE_U) PTE_W) PTE_X) PTE_R.
Definition PERM_COW : Z := Z.lor (Z.lor (Z.lor (Z.lor PTE_COW PTE_U) PTE_R) PTE_X) PTE_V.

Definition pgfault (e va : Z) : V unit :=
  let addr := ROUNDDOWN va PGSIZE in
  or_panic (sys_page_alloc e UTEMP PERM_ALL) ;;;
  copy_page e UTEMP addr ;;;
  or_panic (sys_page_map e UTEMP e addr PERM_ALL) ;;;
  or_panic (sys_page_unmap e UTEMP).

Definition duppage (e envid pn : Z) : V Z :=
  or_panic (sys_page_map e (u64 (pn * PGSIZE)) envid (u64 (pn * PGSIZE)) PERM_COW) ;;;
  or_panic (sys_page_map e (u64 (pn * PGSIZE)) e (u64 (pn * PGSIZE)) PERM_COW) ;;;
  ret 0.

(** [set_pgfault_handler(pgfault)] of lib/riscv/pgfault.c. *)
Definition set_pgfault_handler (e : Z) : V unit :=
  p <- gets (λ s, procs s !! e) ;;
  match p with
  | None => undef
  | Some p =>
      (if pgfault_handler p then ret tt else
       or_panic (sys_page_alloc e (UXSTACKTOP - PGSIZE) (Z.lor (Z.lor PTE_W PTE_U) PTE_R)) ;;;
       or_panic (sys_env_set_pgfault_upcall e)) ;;;
      upd_proc e (λ p, mkProc (env_pgfault_upcall p) true (runnable p)) ;;;
      ret tt
  end.

(** The kernel's [sys_exofork] gives a child without pages and with the parent's
    upcall, and panics if there is no page for its directory; [sys_copy_shared_pages]
    maps the parent's shared descriptor pages into it. *)
Definition sys_exofork (e child : Z) : V Z := λ s,
  match spaces s !! child, procs s !! e with
  | None, Some p =>
      if kfree s <=? 0 then Panic s else
      Ret child (set_space child ∅ (set_proc child (mkProc (env_pgfault_upcall p) false false)
        (set_kern (kfree s - 1) (ktabs s) s)))
  | _, _ => Undef
  end.
Definition PTE_SHARE : Z := 0x200.
(** Round [i] of its loop; the result of a mapping that failed is returned. *)
Fixpoint copy_shared_loop (n : nat) (e child i : Z) : V Z :=
  match n with
  | O => ret 0
  | S n' =>
      let va := 0xD0000000 + i * PGSIZE in
      o <- gets (λ s, entry s e (va / PGSIZE)) ;;
      match o with
      | Some (_, perm) =>
          let perm := Z.land perm PTE_SYSCALL in
          if negb (Z.land perm PTE_SHARE =? 0) then
            r <- sys_page_map e va child va (Z.lor (Z.lor PTE_SHARE perm) PTE_U) ;;
            if r <? 0 then ret r else copy_shared_loop n' e child (i + 1)
          else copy_shared_loop n' e child (i + 1)
      | None => copy_shared_loop n' e child (i + 1)
      end
  end.
Definition sys_copy_shared_pages (e child : Z) : V Z := copy_shared_loop 64 e child 0.

(** [_pgfault_handler] is a word of the image, kept apart here; the child has it
    with the duplicated image. *)
Definition dup_handler (e child : Z) : V unit :=
  p <- gets (λ s, procs s !! e) ;;
  match p with
  | None => undef
  | Some p => upd_proc child (λ q, mkProc (env_pgfault_upcall q) (pgfault_handler p) (runnable q)) ;;; ret tt
  end.

(** [fork] of environment [e], up to the parent's return, with the image up to
    [last] ([end] in the code); [child] is the id the kernel chose. *)
Definition fork (e child last : Z) : V Z :=
  set_pgfault_handler e ;;;
  envid <- sys_exofork e child ;;
  if envid <? 0 then panic else
  for_loop (Z.to_nat ((last - UTEXT + PGSIZE - 1) / PGSIZE)) 0 (λ i,
    duppage e envid ((UTEXT + i * PGSIZE) / PGSIZE) ;;; ret tt) ;;;
  duppage e envid ((USTACKTOP - PGSIZE) / PGSIZE) ;;;
  dup_handler e envid ;;;
  or_panic (sys_copy_shared_pages e envid) ;;;
  or_panic (sys_page_alloc envid (UXSTACKTOP - PGSIZE) (Z.lor (Z.lor (Z.lor PTE_W PTE_U) PTE_R) PTE_V)) ;;;
  or_panic (sys_env_set_status envid true) ;;;
  ret envid.

(** ** Accesses of the two environments *)

Definition uread (e va : Z) : V Z := λ s,
  match place e va s with Some (a, _) => Ret (rdb (phys s) a) s | None => Undef end.
Definition ustore (e va b : Z) : V unit := λ s,
  match place e va s with
  | Some (a, perm) => if writable perm then Ret tt (set_phys (wrb (phys s) a b) s) else Undef
  | None => Undef
  end.
(** The kernel calls the handler of an environment that has set one up and whose
    exception stack it can write; it destroys any other. *)
Definition handles (e : Z) (s : vm) : bool :=
  match procs s !! e, entry s e ((UXSTACKTOP - PGSIZE) / PGSIZE) with
  | Some p, Some (_, perm) => env_pgfault_upcall p && pgfault_handler p && writable perm
  | _, _ => false
  end.
(** A store that faults is retried after the handler. *)
Definition uwrite (e va b : Z) : V unit := λ s,
  match place e va s with
  | Some (_, perm) =>
      if writable perm then ustore e va b s
      else if handles e s then (pgfault e va ;;; ustore e va b) s else Undef
  | None => Undef
  end.
End fork.

(** ** Mappings *)

Definition has_space (s : vm) (e : Z) : Prop := is_Some (spaces s !! e).

Lemma entry_map s e n f perm e' n' :
  has_space s e →
  entry (map_page e n f perm s) e' n' = if decide (e' = e ∧ n' = n) then Some (f, perm) else entry s e' n'.
Proof.
  intros [t Ht]. unfold entry, map_page. rewrite Ht. cbn [set_space spaces].
  destruct (decide (e' = e)) as [->|Hne].
  - rewrite lookup_insert_eq, Ht. simpl. destruct (decide (n' = n)) as [->|Hn].
    + rewrite lookup_insert_eq. by rewrite decide_True.
    + rewrite lookup_insert_ne by done. rewrite decide_False; [done|naive_solver].
  - rewrite lookup_insert_ne by done. rewrite decide_False; [done|naive_solver].
Qed.

Lemma entry_unmap s e n e' n' :
  entry (unmap_page e n s) e' n' = if decide (e' = e ∧ n' = n) then None else entry s e' n'.
Proof.
  unfold entry, unmap_page. destruct (spaces s !! e) as [t|] eqn:Ht; cbn [set_space spaces].
  - destruct (decide (e' = e)) as [->|Hne].
    + rewrite lookup_insert_eq, Ht. simpl. destruct (decide (n' = n)) as [->|Hn].
      * rewrite lookup_delete_eq. by rewrite decide_True.
      * rewrite lookup_delete_ne by done. rewrite decide_False; [done|naive_solver].
    + rewrite lookup_insert_ne by done. rewrite decide_False; [done|naive_solver].
  - case_decide as Hc; [|done]. destruct Hc as [-> ->]. by rewrite Ht.
Qed.

Lemma has_space_map s e n f perm e' : has_space s e' → has_space (map_page e n f perm s) e'.
Proof.
  unfold has_space, map_page. intros [t' Ht']. destruct (spaces s !! e) as [t|]; [|by eexists].
  cbn [set_space spaces]. destruct (decide (e = e')) as [->|]; [rewrite lookup_insert_eq|rewrite lookup_insert_ne by done]; by eexists.
Qed.
Lemma has_space_unmap s e n e' : has_space s e' → has_space (unmap_page e n s) e'.
Proof.
  unfold has_space, unmap_page. intros [t' Ht']. destruct (spaces s !! e) as [t|]; [|by eexists].
  cbn [set_space spaces]. destruct (decide (e = e')) as [->|]; [rewrite lookup_insert_eq|rewrite lookup_insert_ne by done]; by eexists.
Qed.
Lemma entry_space s e n x : entry s e n = Some x → has_space s e.
Proof. unfold entry, has_space. destruct (spaces s !! e); simpl; [by eexists|done]. Qed.
Lemma phys_map s e n f perm : phys (map_page e n f perm s) = phys s.
Proof. unfold map_page. by destruct (spaces s !! e). Qed.
Lemma procs_map s e n f perm : procs (map_page e n f perm s) = procs s.
Proof. unfold map_page. by destruct (spaces s !! e). Qed.
Lemma procs_unmap s e n : procs (unmap_page e n s) = procs s.
Proof. unfold unmap_page. by destruct (spaces s !! e). Qed.
Lemma phys_unmap s e n : phys (unmap_page e n s) = phys s.
Proof. unfold unmap_page. by destruct (spaces s !! e). Qed.

(** ** Private pages *)

(** A frame under page [n] of [e] that is mapped writable is so only there. *)
Definition exclusive (s : vm) (e n : Z) : Prop :=
  ∀ f perm e' n' perm', entry s e n = Some (f, perm) → entry s e' n' = Some (f, perm') →
    writable perm' = true → e' = e ∧ n' = n.

Definition byte_at (s : vm) (e va : Z) : option Z := '(a, _) ← place e va s; Some (rdb (phys s) a).

(** The environments [P] see the memory [view] at the pages [Q], each its own. *)
Record private (P : Z → Prop) (Q : Z → Prop) (s : vm) (view : Z → Z → Z) : Prop := {
  pv_bytes : bytes_ok (phys s);
  pv_see e va : P e → Q (va / PGSIZE) → byte_at s e va = Some (view e va);
  pv_excl e n : P e → Q n → exclusive s e n;
  pv_handles e : P e → handles e s = true
}.

Definition vupd (view : Z → Z → Z) (e va b : Z) : Z → Z → Z :=
  λ e' va', if decide (e' = e ∧ va' = va) then b else view e' va'.

Lemma byte_at_inv s e va b :
  byte_at s e va = Some b →
  ∃ f perm, entry s e (va / PGSIZE) = Some (f, perm) ∧ b = rdb (phys s) (f * PGSIZE + va mod PGSIZE).
Proof.
  unfold byte_at, place. destruct (entry s e (va / PGSIZE)) as [[f perm]|]; simpl; [|done].
  intros [= <-]. by exists f, perm.
Qed.

Lemma place_Some s e va f perm :
  entry s e (va / PGSIZE) = Some (f, perm) → place e va s = Some (f * PGSIZE + va mod PGSIZE, perm).
Proof. unfold place. by intros ->. Qed.

Lemma byte_at_Some s e va f perm :
  entry s e (va / PGSIZE) = Some (f, perm) → byte_at s e va = Some (rdb (phys s) (f * PGSIZE + va mod PGSIZE)).
Proof. intros E. unfold byte_at. by rewrite (place_Some _ _ _ _ _ E). Qed.

Section access.
Context (P Q : Z → Prop).

(** A store through a writable mapping. *)
Lemma ustore_private s view e va b :
  private P Q s view → P e → Q (va / PGSIZE) →
  ∀ f perm, entry s e (va / PGSIZE) = Some (f, perm) → writable perm = true →
  ∃ s', ustore e va b s = Ret tt s' ∧ private P Q s' (vupd view e va (u8 b)) ∧ kfree s' = kfree s.
Proof.
  intros [Hb Hsee Hex Hh] Pe Qv f perm E Hw. unfold ustore. rewrite (place_Some _ _ _ _ _ E), Hw.
  eexists. split; [done|]. split; [|done]. split; [by apply bytes_ok_wrb| |exact Hex|exact Hh].
  intros e' va' Pe' Qv'. destruct (byte_at_inv _ _ _ _ (Hsee e' va' Pe' Qv')) as (f' & perm' & E' & Eb).
  rewrite (byte_at_Some (set_phys _ s) e' va' f' perm' E'). cbn [phys set_phys]. rewrite rdb_wrb, <-Eb. unfold vupd.
  pose proof (Z.mod_pos_bound va PGSIZE ltac:(done)) as Hm. pose proof (Z.mod_pos_bound va' PGSIZE ltac:(done)) as Hm'.
  f_equal. destruct (decide (e' = e ∧ va' = va)) as [[-> ->]|Hne].
  - rewrite E in E'. simplify_eq. by rewrite decide_True.
  - rewrite decide_False; [done|]. intros Ha. apply Hne.
    assert (f' = f ∧ va' mod PGSIZE = va mod PGSIZE) as [-> Emod] by (unfold PGSIZE in *; lia).
    destruct (Hex e' _ Pe' Qv' f perm' e _ perm E' E Hw) as [-> Ediv]. split; [done|].
    rewrite (Z.div_mod va PGSIZE), (Z.div_mod va' PGSIZE) by done. by rewrite Ediv, Emod.
Qed.
End access.

Lemma rounddown_page va : is_u64 va → ROUNDDOWN va PGSIZE = va / PGSIZE * PGSIZE.
Proof. intros Hv. unfold ROUNDDOWN. rewrite u64_small by done. unfold PGSIZE. Z.div_mod_to_equations. lia. Qed.

Lemma good_va n : 0 ≤ n → n * PGSIZE < UTOP → bad_va (n * PGSIZE) = false.
Proof.
  intros Hn Hu. unfold bad_va. destruct (Z.leb_spec UTOP (n * PGSIZE)); [lia|]. cbn [orb].
  by rewrite Z.mod_mul by done.
Qed.

Lemma or_panic_Ret m (s s' : vm) : m s = Ret 0 s' → or_panic m s = Ret tt s'.
Proof. intros E. unfold or_panic. by step_with E. Qed.

Lemma seq_Ret {A} (m : V unit) (d : V Z) (k : Z → V A) s r s' :
  (m ;;; d) s = Ret r s' → (m ;;; x <- d ;; k x) s = k r s'.
Proof. unfold bind. destruct (m s); try done. by intros ->. Qed.

Ltac no_err := change (0 <? 0) with false; cbv iota.

Definition TEMP : Z := UTEMP / PGSIZE.
Definition XSTACK : Z := (UXSTACKTOP - PGSIZE) / PGSIZE.

(** ** Pages of the kernel *)

Lemma kfree_map s e n f perm : kfree (map_page e n f perm s) = kfree s.
Proof. unfold map_page. by destruct (spaces s !! e). Qed.
Lemma kfree_unmap s e n : kfree (unmap_page e n s) = kfree s.
Proof. unfold unmap_page. by destruct (spaces s !! e). Qed.
Lemma freed_pos e n s : 0 ≤ freed e n s.
Proof. unfold freed. destruct (entry s e n) as [[f p]|]; [|done]. by destruct (bool_decide _). Qed.

(** Three pages are enough for a mapping. *)
Lemma insert_run e n f perm s : 3 ≤ kfree s →
  ∃ k T, insert_page e n f perm s = (0, map_page e n f perm (set_kern k T s)) ∧ kfree s - 3 ≤ k.
Proof.
  intros Hk. unfold insert_page, make_tables.
  assert (Z.of_nat (length (missing e n s)) ≤ 3) as Hm.
  { pose proof (length_filter (λ t, t ∉ ktabs s) (tables e n)) as Hl. unfold missing. cbn [length tables] in Hl. lia. }
  rewrite (proj2 (Z.leb_le _ _)) by lia. eexists _, _. split; [reflexivity|]. cbn [kfree set_kern].
  destruct (entry _ e n) as [[g p]|]; [|lia]. destruct (g =? f); [lia|].
  pose proof (freed_pos e n (set_kern (kfree s - Z.of_nat (length (missing e n s)) `min` kfree s)
    (list_to_set (take (Z.to_nat (Z.of_nat (length (missing e n s)) `min` kfree s)) (missing e n s)) ∪ ktabs s) s)). lia.
Qed.

Lemma map_run s e n d n' f p0 perm :
  has_space s d → 0 ≤ n → n * PGSIZE < UTOP → 0 ≤ n' → n' * PGSIZE < UTOP → entry s e n = Some (f, p0) →
  (writable perm = true → writable p0 = true) → 3 ≤ kfree s →
  ∃ k T, sys_page_map e (n * PGSIZE) d (n' * PGSIZE) perm s = Ret 0 (map_page d n' f perm (set_kern k T s)) ∧ kfree s - 3 ≤ k.
Proof.
  intros [t' Ht'] H1 H2 H3 H4 E Hw Hk. destruct (entry_space _ _ _ _ E) as [t Ht].
  destruct (insert_run d n' f perm s Hk) as (k & T & Ei & Hk'). exists k, T. split; [|done].
  unfold sys_page_map. rewrite Ht, Ht', !good_va by done. cbn [orb]. rewrite !Z.div_mul, E by done.
  destruct (writable perm); [rewrite Hw by done|]; cbn [andb negb]; by rewrite Ei.
Qed.

Lemma unmap_run s e n :
  has_space s e → 0 ≤ n → n * PGSIZE < UTOP →
  ∃ k T, sys_page_unmap e (n * PGSIZE) s = Ret 0 (unmap_page e n (set_kern k T s)) ∧ kfree s ≤ k.
Proof.
  intros [t Ht] Hn Hu. exists (kfree s + freed e n s), (ktabs s). unfold sys_page_unmap. rewrite Ht, good_va by done.
  rewrite Z.div_mul by done. split; [done|]. pose proof (freed_pos e n s). lia.
Qed.

Section handler.
Context (pick : vm → Z).
Context (pick_fresh : ∀ s, 0 < kfree s → ∀ e n perm, entry s e n ≠ Some (pick s, perm)).

Lemma alloc_run s e n perm :
  has_space s e → 0 ≤ n → n * PGSIZE < UTOP → (Z.land perm (Z.lnot PTE_SYSCALL) =? 0) = true → bytes_ok (phys s) → 4 ≤ kfree s →
  ∃ g s' k T, sys_page_alloc pick e (n * PGSIZE) perm s = Ret 0 s' ∧ (∀ e n perm, entry s e n ≠ Some (g, perm)) ∧
    s' = map_page e n g perm (set_kern k T (set_phys (phys s') s)) ∧ kfree s - 4 ≤ k ∧ bytes_ok (phys s') ∧
    ∀ a, rdb (phys s') a = if decide (g * PGSIZE ≤ a < g * PGSIZE + PGSIZE) then 0 else rdb (phys s) a.
Proof.
  intros [t Ht] Hn Hu Hperm Hb Hk. exists (pick s). set (m := memset (phys s) (pick s * PGSIZE) 0 PGSIZE).
  destruct (insert_run e n (pick s) perm (set_kern (kfree s - 1) (ktabs s) (set_phys m s))) as (k & T & Ei & Hk'); [cbn; lia|].
  cbn [kfree set_kern] in Hk'.
  exists (map_page e n (pick s) perm (set_kern k T (set_phys m s))), k, T. rewrite phys_map. cbn [phys set_phys set_kern].
  split_and!; [|intros; apply pick_fresh; lia|done|lia|by apply bytes_ok_memset|].
  - unfold sys_page_alloc. rewrite Ht, good_va, Hperm by done. cbn [negb]. destruct (Z.leb_spec (kfree s) 0); [lia|].
    rewrite Z.div_mul by done. fold m. by rewrite Ei.
  - intros a. unfold m. by rewrite memset_spec by (unfold PGSIZE; lia).
Qed.

(** The handler gives the page a frame of its own with the old contents. *)
Lemma pgfault_run s e va f perm :
  bytes_ok (phys s) → 0 ≤ va < UTOP → va / PGSIZE ≠ TEMP → entry s e (va / PGSIZE) = Some (f, perm) → 7 ≤ kfree s →
  ∃ g s', pgfault pick e va s = Ret tt s' ∧ bytes_ok (phys s') ∧ procs s' = procs s ∧ kfree s - 7 ≤ kfree s' ∧
    (∀ e n perm, entry s e n ≠ Some (g, perm)) ∧
    (∀ e' n', entry s' e' n' =
       if decide (e' = e ∧ n' = va / PGSIZE) then Some (g, PERM_ALL)
       else if decide (e' = e ∧ n' = TEMP) then None else entry s e' n') ∧
    (∀ a, ¬ (g * PGSIZE ≤ a < g * PGSIZE + PGSIZE) → rdb (phys s') a = rdb (phys s) a) ∧
    (∀ k, 0 ≤ k < PGSIZE → rdb (phys s') (g * PGSIZE + k) = rdb (phys s) (f * PGSIZE + k)).
Proof.
  intros Hb Hva HT E Hk. set (n := va / PGSIZE) in *.
  assert (0 ≤ n ∧ n * PGSIZE < UTOP) as [Hn Hu].
  { unfold n, PGSIZE in *. Z.div_mod_to_equations. lia. }
  pose proof (entry_space _ _ _ _ E) as Hsp.
  destruct (alloc_run s e TEMP PERM_ALL Hsp ltac:(done) ltac:(done) ltac:(done) Hb ltac:(lia))
    as (g & s1 & k1 & T1 & E1 & Hg & Es1 & Hk1 & Hb1 & Hp1).
  assert (∀ e' n', entry s1 e' n' = if decide (e' = e ∧ n' = TEMP) then Some (g, PERM_ALL) else entry s e' n') as He1.
  { intros e' n'. rewrite Es1. by rewrite entry_map. }
  assert (kfree s1 = k1) as Hk1' by (rewrite Es1; by rewrite kfree_map).
  assert (procs s1 = procs s) as Hpr1 by (rewrite Es1; by rewrite procs_map). clear Es1.
  assert (entry s1 e n = Some (f, perm)) as E1n by (rewrite He1, decide_False by naive_solver; done).
  assert (entry s1 e TEMP = Some (g, PERM_ALL)) as E1T by (rewrite He1; by rewrite decide_True).
  assert (f ≠ g) as Hfg by (intros ->; by apply (Hg e n perm)).
  set (m2 := memmove (phys s1) (g * PGSIZE) (f * PGSIZE) PGSIZE).
  assert (copy_page e UTEMP (n * PGSIZE) s1 = Ret tt (set_phys m2 s1)) as E2.
  { unfold copy_page, place. change (UTEMP / PGSIZE) with TEMP. rewrite Z.div_mul, Z.mod_mul by done.
    rewrite E1T, E1n. simpl. by rewrite !Z.add_0_r. }
  assert (bytes_ok m2) as Hb2 by by apply bytes_ok_memmove.
  assert (∀ a, rdb m2 a = _) as Hm2 by (intros a; by apply memmove_spec). clearbody m2.
  set (s2 := set_phys m2 s1) in *.
  assert (has_space s2 e) as Hsp2 by by apply (entry_space s1 e n (f, perm)).
  destruct (map_run s2 e TEMP e n g PERM_ALL PERM_ALL Hsp2) as (k3 & T3 & E3 & Hk3); try done; [cbn; lia|]. cbn [kfree set_phys s2] in Hk3.
  set (s3 := map_page e n g PERM_ALL _) in E3.
  destruct (unmap_run s3 e TEMP) as (k4 & T4 & E4 & Hk4); [by apply has_space_map|done|done|].
  unfold s3 in Hk4. rewrite kfree_map in Hk4. cbn [kfree set_kern] in Hk4.
  exists g, (unmap_page e TEMP (set_kern k4 T4 s3)). split_and!.
  - unfold pgfault. rewrite rounddown_page by (unfold is_u64, UTOP, UENVS in *; lia). fold n.
    step_with (or_panic_Ret _ _ _ E1). step_with E2. step_with (or_panic_Ret _ _ _ E3). by apply or_panic_Ret.
  - rewrite phys_unmap. unfold s3. cbn [phys set_kern]. by rewrite phys_map.
  - rewrite procs_unmap. unfold s3. cbn [procs set_kern]. rewrite procs_map. done.
  - rewrite kfree_unmap. cbn [kfree set_kern]. lia.
  - done.
  - intros e' n'. rewrite entry_unmap. change (entry (set_kern k4 T4 s3)) with (entry s3). unfold s3. rewrite entry_map by done.
    change (entry (set_kern k3 T3 s2)) with (entry s1). rewrite He1. repeat case_decide; try done; naive_solver.
  - intros a Ha. rewrite phys_unmap. unfold s3. cbn [phys set_kern]. rewrite phys_map. cbn [phys set_phys s2 set_kern].
    rewrite Hm2, decide_False by done. by rewrite Hp1, decide_False.
  - intros k Hkk. rewrite phys_unmap. unfold s3. cbn [phys set_kern]. rewrite phys_map. cbn [phys set_phys s2 set_kern].
    rewrite Hm2, decide_True by lia. rewrite Hp1, decide_False by (unfold PGSIZE in *; lia). f_equal. lia.
Qed.

(** The handler leaves every private page as it was. *)
Lemma pgfault_private P Q s view e va :
  private P Q s view → P e → Q (va / PGSIZE) → ¬ Q TEMP → ¬ Q XSTACK → 0 ≤ va < UTOP → 7 ≤ kfree s →
  ∃ s' g, pgfault pick e va s = Ret tt s' ∧ private P Q s' view ∧ kfree s - 7 ≤ kfree s' ∧ entry s' e (va / PGSIZE) = Some (g, PERM_ALL).
Proof.
  intros [Hb Hsee Hex Hh] Pe Qv HT HX Hva Hk. set (n := va / PGSIZE) in *.
  destruct (byte_at_inv _ _ _ _ (Hsee e va Pe Qv)) as (f & perm & E & _). fold n in E.
  destruct (pgfault_run s e va f perm Hb Hva ltac:(fold n; intros Hn; by rewrite Hn in Qv) E Hk)
    as (g & s' & Er & Hb' & Hpr & Hk' & Hg & He & Hout & Hin). fold n in He.
  exists s', g. split; [done|]. split; [|split; [done|by rewrite He, decide_True]]. split; [done| | |].
  - intros e' va' Pe' Qv'. rewrite <-(Hsee e' va' Pe' Qv').
    destruct (byte_at_inv _ _ _ _ (Hsee e' va' Pe' Qv')) as (f' & perm' & E' & _).
    pose proof (Z.mod_pos_bound va' PGSIZE ltac:(done)) as Hm.
    rewrite (byte_at_Some s e' va' f' perm' E'). destruct (decide (e' = e ∧ va' / PGSIZE = n)) as [[-> En]|Hne].
    + rewrite (byte_at_Some s' e va' g PERM_ALL) by (rewrite He; by rewrite decide_True). rewrite Hin by done.
      rewrite En, E in E'. by simplify_eq.
    + assert (f' ≠ g) as Hfg by (intros ->; by apply (Hg e' (va' / PGSIZE) perm')).
      rewrite (byte_at_Some s' e' va' f' perm').
      2: { rewrite He, decide_False by done. rewrite decide_False; [done|]. intros [_ Ht]. by rewrite Ht in Qv'. }
      rewrite Hout; [done|]. unfold PGSIZE in *. lia.
  - intros e' n' Pe' Qn' f0 perm0 e2 n2 perm2. rewrite !He. intros E0 E2 Hw.
    destruct (decide (e' = e ∧ n' = n)) as [[-> ->]|Hne].
    + simplify_eq. destruct (decide (e2 = e ∧ n2 = n)) as [|Hne2]; [done|].
      destruct (decide (e2 = e ∧ n2 = TEMP)); [done|]. by destruct (Hg e2 n2 perm2).
    + rewrite decide_False in E0 by (intros [_ ->]; done). destruct (decide (e2 = e ∧ n2 = n)) as [|Hne2].
      { simplify_eq. by destruct (Hg e' n' perm0). }
      destruct (decide (e2 = e ∧ n2 = TEMP)); [done|]. by apply (Hex e' n' Pe' Qn' f0 perm0 e2 n2 perm2).
  - intros e' Pe'. rewrite <-(Hh e' Pe'). unfold handles. fold XSTACK. rewrite Hpr, He.
    rewrite decide_False by (intros [_ Hx]; by rewrite Hx in HX). by rewrite decide_False by (intros [_ Hx]; done).
Qed.

(** A store of one of the environments, with or without a fault. *)
Lemma uwrite_private P Q s view e va b :
  private P Q s view → P e → Q (va / PGSIZE) → ¬ Q TEMP → ¬ Q XSTACK → 0 ≤ va < UTOP → 7 ≤ kfree s →
  ∃ s', uwrite pick e va b s = Ret tt s' ∧ private P Q s' (vupd view e va (u8 b)) ∧ kfree s - 7 ≤ kfree s'.
Proof.
  intros Hp Pe Qv HT HX Hva Hk. pose proof (pv_see _ _ _ _ Hp e va Pe Qv) as Hsee.
  destruct (byte_at_inv _ _ _ _ Hsee) as (f & perm & E & _).
  unfold uwrite. rewrite (place_Some _ _ _ _ _ E). destruct (writable perm) eqn:Hw.
  - destruct (ustore_private P Q s view e va b Hp Pe Qv f perm E Hw) as (s' & E' & Hp' & Hk'). exists s'. split_and!; [done|done|lia].
  - rewrite (pv_handles _ _ _ _ Hp e Pe). destruct (pgfault_private P Q s view e va Hp Pe Qv HT HX Hva Hk) as (s1 & g & E1 & Hp1 & Hk1 & Eg).
    destruct (ustore_private P Q s1 view e va b Hp1 Pe Qv g PERM_ALL Eg eq_refl) as (s' & E' & Hp' & Hk').
    exists s'. split_and!; [by step_with E1|done|lia].
Qed.
End handler.

(** ** [fork] *)

Lemma duppage_run s e c n f perm :
  e ≠ c → has_space s c → 0 ≤ n → n * PGSIZE < UTOP → entry s e n = Some (f, perm) → 6 ≤ kfree s →
  ∃ s', duppage e c n s = Ret 0 s' ∧ phys s' = phys s ∧ procs s' = procs s ∧ kfree s - 6 ≤ kfree s' ∧
    (∀ x, has_space s x → has_space s' x) ∧
    (∀ x k, entry s' x k = if decide ((x = e ∨ x = c) ∧ k = n) then Some (f, PERM_COW) else entry s x k).
Proof.
  intros Hne Hc Hn Hu E Hk. pose proof (entry_space _ _ _ _ E) as He. unfold duppage.
  rewrite u64_small by (unfold is_u64, UTOP, UENVS, PGSIZE in *; lia).
  destruct (map_run s e n c n f perm PERM_COW) as (k1 & T1 & E1 & Hk1); try done; [lia|].
  set (s1 := map_page c n f PERM_COW _) in E1.
  assert (has_space s1 e ∧ has_space s1 c) as [He1 Hc1] by by split; apply has_space_map.
  assert (entry s1 e n = Some (f, perm)) as Ee1.
  { unfold s1. rewrite entry_map by done. rewrite decide_False by naive_solver. done. }
  assert (kfree s1 = k1) as Hk1' by (unfold s1; by rewrite kfree_map).
  destruct (map_run s1 e n e n f perm PERM_COW) as (k2 & T2 & E2 & Hk2); try done; [lia|].
  eexists. split; [step_with (or_panic_Ret _ _ _ E1); by step_with (or_panic_Ret _ _ _ E2)|].
  assert (phys s1 = phys s ∧ procs s1 = procs s) as [Hph Hpr] by (unfold s1; by rewrite phys_map, procs_map).
  rewrite phys_map, procs_map, kfree_map. cbn [phys procs kfree set_kern].
  split_and!; [done|done|lia|intros x Hx; by repeat apply has_space_map|].
  intros x k. rewrite entry_map by done. change (entry (set_kern k2 T2 s1)) with (entry s1). unfold s1.
  rewrite entry_map by done. change (entry (set_kern k1 T1 s)) with (entry s). repeat case_decide; try done; naive_solver.
Qed.

(** [s'] is [s] with the pages [Q] of [e] shared copy-on-write with [c]. *)
Record shared_cow (s s' : vm) (e c : Z) (Q : Z → Prop) : Prop := {
  sc_phys : phys s' = phys s ∧ procs s' = procs s;
  sc_space : has_space s' e ∧ has_space s' c;
  sc_in n f perm : Q n → entry s e n = Some (f, perm) →
    entry s' e n = Some (f, PERM_COW) ∧ entry s' c n = Some (f, PERM_COW);
  sc_out e' n : ¬ (e' = e ∧ Q n) → e' ≠ c → entry s' e' n = entry s e' n;
  sc_child n : ¬ Q n → entry s' c n = None
}.

Lemma shared_cow_step s s' e c (Q Q' : Z → Prop) n :
  e ≠ c → shared_cow s s' e c Q → 0 ≤ n → n * PGSIZE < UTOP → is_Some (entry s e n) → ¬ Q n →
  (∀ k, Q' k ↔ Q k ∨ k = n) → 6 ≤ kfree s' →
  ∃ s2, duppage e c n s' = Ret 0 s2 ∧ shared_cow s s2 e c Q' ∧ kfree s' - 6 ≤ kfree s2.
Proof.
  intros Hne [[H1 H1'] [H2 H2'] H3 H4 H5] Hn Hu [[f perm] E] Hq HQ Hk.
  assert (entry s' e n = Some (f, perm)) as E' by (rewrite H4 by naive_solver; done).
  destruct (duppage_run s' e c n f perm) as (s2 & E2 & Hph & Hpr & Hk2 & Hsp & Hent); try done.
  exists s2. split; [done|]. split; [|done]. split.
  - by rewrite Hph, Hpr.
  - by split; apply Hsp.
  - intros k f' perm' Hkk Ek. rewrite !Hent. apply HQ in Hkk as [Hkk| ->].
    + destruct (decide (k = n)) as [->|]; [done|]. rewrite !decide_False by naive_solver. by apply (H3 k f' perm').
    + rewrite !decide_True by naive_solver. rewrite E in Ek. by simplify_eq.
  - intros e' k Hkk Hc. rewrite Hent, decide_False; [|naive_solver]. apply H4; naive_solver.
  - intros k Hkk. rewrite Hent, decide_False; [|naive_solver]. apply H5. naive_solver.
Qed.

(** Pages that [fork] duplicates, pages it shares. *)
Definition image (cnt n : Z) : Prop := UTEXT / PGSIZE ≤ n < UTEXT / PGSIZE + cnt.
Definition STACK : Z := (USTACKTOP - PGSIZE) / PGSIZE.
Definition image_pages (last : Z) : Z := (last - UTEXT + PGSIZE - 1) / PGSIZE.
Definition dup (last n : Z) : Prop := image (image_pages last) n ∨ n = STACK.
Definition fdpage (n : Z) : Prop := 0xD0000 ≤ n < 0xD0000 + 64.

#[export] Instance dup_dec last n : Decision (dup last n).
Proof. unfold dup, image. apply _. Defined.
#[export] Instance fdpage_dec n : Decision (fdpage n).
Proof. unfold fdpage. apply _. Defined.

Lemma writable_share perm : writable (Z.lor (Z.lor PTE_SHARE (Z.land perm PTE_SYSCALL)) PTE_U) = writable perm.
Proof.
  unfold writable. rewrite !Z.land_lor_distr_l, <-Z.land_assoc. change (Z.land PTE_SHARE PTE_W) with 0.
  change (Z.land PTE_U PTE_W) with 0. change (Z.land PTE_SYSCALL PTE_W) with PTE_W. by rewrite Z.lor_0_l, Z.lor_0_r.
Qed.

(** [s'] is [s] with some descriptor pages of [e] mapped in [c] too. *)
Definition shared_fds (s s' : vm) (e c : Z) : Prop :=
  (phys s' = phys s ∧ procs s' = procs s) ∧ has_space s' c ∧
  (∀ e' n, e' ≠ c ∨ ¬ fdpage n → entry s' e' n = entry s e' n) ∧
  (∀ n f perm, fdpage n → entry s' c n = Some (f, perm) → entry s c n = Some (f, perm) ∨
     ∃ perm0, entry s e n = Some (f, perm0) ∧ writable perm = writable perm0).

Lemma shared_fds_step s s1 e c n f perm k T :
  e ≠ c → shared_fds s s1 e c → fdpage n → entry s1 e n = Some (f, perm) →
  shared_fds s (map_page c n f (Z.lor (Z.lor PTE_SHARE (Z.land perm PTE_SYSCALL)) PTE_U) (set_kern k T s1)) e c.
Proof.
  intros Hne (Hph & Hs1 & Ho & Hi) Hn E. rewrite Ho in E by auto. unfold shared_fds. rewrite phys_map, procs_map.
  split_and!; [apply Hph|apply Hph|by apply has_space_map| |].
  - intros e' k' Hk. rewrite entry_map by done. rewrite decide_False by naive_solver. by apply Ho.
  - intros k' f' perm' Hk. rewrite entry_map by done. case_decide as Hkn; [|by apply Hi].
    destruct Hkn as [_ ->]. intros [= <- <-]. right. exists perm. split; [done|apply writable_share].
Qed.

Lemma copy_shared_loop_run s e c m : ∀ i s1,
  e ≠ c → shared_fds s s1 e c → 0 ≤ i → i + Z.of_nat m = 64 → 3 * Z.of_nat m ≤ kfree s1 →
  ∃ s', copy_shared_loop m e c i s1 = Ret 0 s' ∧ shared_fds s s' e c ∧ kfree s1 - 3 * Z.of_nat m ≤ kfree s'.
Proof.
  induction m as [|m IH]; intros i s1 Hne Hs Hi Hm Hk; cbn [copy_shared_loop]; [exists s1; split_and!; [done|done|lia]|].
  step_pure. set (va := 0xD0000000 + i * PGSIZE). assert (va = (va / PGSIZE) * PGSIZE ∧ fdpage (va / PGSIZE)) as [Hva Hn].
  { unfold va, fdpage, PGSIZE. Z.div_mod_to_equations. lia. }
  assert (∃ s', copy_shared_loop m e c (i + 1) s1 = Ret 0 s' ∧ shared_fds s s' e c ∧ kfree s1 - 3 * Z.of_nat (S m) ≤ kfree s') as Hskip.
  { destruct (IH (i + 1) s1) as (s' & E' & Hs' & Hk'); try done; try lia. exists s'. split_and!; [done|done|lia]. }
  destruct (entry s1 e (va / PGSIZE)) as [[f perm]|] eqn:E; [|done]. cbv zeta. destruct (negb _); [|done].
  destruct (map_run s1 e (va / PGSIZE) c (va / PGSIZE) f perm (Z.lor (Z.lor PTE_SHARE (Z.land perm PTE_SYSCALL)) PTE_U))
    as (k & T & E1 & Hk1); try done; try (unfold fdpage, UTOP, UENVS, PGSIZE in *; lia).
  { apply Hs. }
  { by rewrite writable_share. }
  rewrite <-Hva in E1. step_with E1. no_err. set (s2 := map_page _ _ _ _ _).
  destruct (IH (i + 1) s2) as (s' & E' & Hs' & Hk'); try done; try lia.
  { by apply shared_fds_step. }
  { unfold s2. rewrite kfree_map. cbn [kfree set_kern]. lia. }
  exists s'. split_and!; [done|done|]. unfold s2 in Hk'. rewrite kfree_map in Hk'. cbn [kfree set_kern] in Hk'. lia.
Qed.

Lemma copy_shared_run s e c :
  e ≠ c → has_space s c → 192 ≤ kfree s →
  ∃ s', sys_copy_shared_pages e c s = Ret 0 s' ∧ shared_fds s s' e c ∧ kfree s - 192 ≤ kfree s'.
Proof.
  intros Hne Hc Hk. apply (copy_shared_loop_run s e c 64 0 s); try done; try lia.
  split_and!; auto.
Qed.

(** The image of a program lies below the descriptor pages. *)
Lemma dup_disjoint last n :
  UTEXT ≤ last ≤ 0xD0000000 → dup last n → 0 ≤ n ∧ n * PGSIZE < UTOP ∧ n ≠ TEMP ∧ n ≠ XSTACK ∧ ¬ fdpage n.
Proof.
  intros Hl. change TEMP with 0x400. change XSTACK with 0xfffffbffeffff. unfold dup, image, image_pages, fdpage, STACK.
  change ((USTACKTOP - PGSIZE) / PGSIZE) with 0xfffffcffeffff. change (UTEXT / PGSIZE) with 0x800.
  change UTEXT with 0x800000 in *. unfold PGSIZE, UTOP, UENVS. intros [H|H]; Z.div_mod_to_equations; lia.
Qed.

(** After the duplication and the sharing no frame of a duplicated page is mapped
    writable. *)
Lemma no_writable s s1 s2 e c last n f perm x n' perm' :
  e ≠ c → UTEXT ≤ last ≤ 0xD0000000 → shared_cow s s1 e c (dup last) →
  (∀ n, dup last n → is_Some (entry s e n)) →
  (∀ e' n, e' ≠ c ∨ ¬ fdpage n → entry s2 e' n = entry s1 e' n) →
  (∀ n f perm, fdpage n → entry s2 c n = Some (f, perm) → entry s1 c n = Some (f, perm) ∨
     ∃ perm0, entry s1 e n = Some (f, perm0) ∧ writable perm = writable perm0) →
  (∀ n f perm e' n' perm', dup last n → entry s e n = Some (f, perm) → entry s e' n' = Some (f, perm') →
     writable perm' = true → e' = e ∧ dup last n') →
  dup last n → entry s e n = Some (f, perm) → entry s2 x n' = Some (f, perm') → writable perm' = false.
Proof.
  intros Hne Hl [_ _ S3 S4 S5] Hmap Ho Hi Hex Hn E E'. apply not_true_is_false. intros Hw.
  assert (∀ k p, ¬ dup last k → entry s1 e k = Some (f, p) → writable p = true → False) as Hpar.
  { intros k p Hk Ek Hp. rewrite S4 in Ek by (done || by intros [_ ?]).
    by destruct (Hex n f perm e k p Hn E Ek Hp). }
  destruct (decide (x = c ∧ fdpage n')) as [[-> Hfd]|Hnot].
  - assert (¬ dup last n') as Hnd by (intros Hd; by destruct (dup_disjoint last n' Hl Hd) as (_ & _ & _ & _ & ?)).
    destruct (Hi n' f perm' Hfd E') as [E1|(p0 & E1 & Ew)]; [by rewrite S5 in E1|].
    apply (Hpar n' p0 Hnd E1). by rewrite <-Ew.
  - rewrite Ho in E' by (destruct (decide (x = c)); naive_solver).
    destruct (decide (dup last n')) as [Hd|Hd].
    + destruct (Hmap n' Hd) as [[f0 p0] E0]. destruct (S3 n' f0 p0 Hd E0) as [Ee Ec].
      destruct (decide (x = c)) as [->|Hxc]; [rewrite Ec in E'; by simplify_eq|].
      destruct (decide (x = e)) as [->|Hxe]; [rewrite Ee in E'; by simplify_eq|].
      rewrite S4 in E' by (done || by intros [? _]). by destruct (Hex n f perm x n' perm' Hn E E' Hw).
    + destruct (decide (x = c)) as [->|Hxc]; [by rewrite S5 in E'|]. rewrite S4 in E' by (done || by intros [_ ?]).
      by destruct (Hex n f perm x n' perm' Hn E E' Hw).
Qed.

Section theorem.
Context (pick : vm → Z).
Context (pick_fresh : ∀ s, 0 < kfree s → ∀ e n perm, entry s e n ≠ Some (pick s, perm)).

(** The duplication of the image and the stack. *)
Lemma dup_loop_run s e c last :
  e ≠ c → has_space s e → spaces s !! c = None → UTEXT ≤ last ≤ 0xD0000000 →
  (∀ n, dup last n → is_Some (entry s e n)) → 6 * image_pages last + 6 ≤ kfree s →
  ∃ s', (for_loop (Z.to_nat (image_pages last)) 0 (λ i, duppage e c ((UTEXT + i * PGSIZE) / PGSIZE) ;;; ret tt) ;;;
         duppage e c STACK) (set_space c ∅ s) = Ret 0 s' ∧ shared_cow s s' e c (dup last) ∧
    kfree s - (6 * image_pages last + 6) ≤ kfree s'.
Proof.
  intros Hne He Hc Hl Hmap Hk. set (s0 := set_space c ∅ s).
  assert (0 ≤ image_pages last) as Hi by (apply Z.div_pos; unfold PGSIZE; lia).
  assert (shared_cow s s0 e c (image 0)) as H0.
  { split; [done| | | |].
    - unfold has_space, s0. cbn [spaces set_space]. rewrite lookup_insert_eq, lookup_insert_ne by done. by split.
    - intros n f perm Hn. unfold image in Hn. lia.
    - intros e' n _ Hc'. unfold entry, s0. cbn [spaces set_space]. by rewrite lookup_insert_ne by done.
    - intros n _. unfold entry, s0. cbn [spaces set_space]. by rewrite lookup_insert_eq. }
  destruct (for_loop_inv (λ i s', shared_cow s s' e c (image i) ∧ kfree s - 6 * i ≤ kfree s') (Z.to_nat (image_pages last)) 0
    (λ i, duppage e c ((UTEXT + i * PGSIZE) / PGSIZE) ;;; ret tt) s0) as (s1 & E1 & H1 & Hk1).
  { split; [done|]. cbn. lia. }
  - intros j s1 Hj [H1 Hk1]. set (n := (UTEXT + j * PGSIZE) / PGSIZE).
    assert (n = UTEXT / PGSIZE + j) as En by (unfold n; rewrite Z.div_add by done; done).
    assert (dup last n) as Hd by (left; unfold image; lia).
    destruct (dup_disjoint last n Hl Hd) as (Hn & Hu & _).
    destruct (shared_cow_step s s1 e c (image j) (image (j + 1)) n Hne H1 Hn Hu (Hmap n Hd)) as (s2 & E2 & H2 & Hk2).
    { unfold image. lia. }
    { intros k. unfold image. lia. }
    { lia. }
    exists s2. split; [by step_with E2|]. split; [done|lia].
  - step_with E1. assert (dup last STACK) as Hd by by right. destruct (dup_disjoint last STACK Hl Hd) as (Hn & Hu & _).
    rewrite Z.add_0_l, Z2Nat.id in Hk1 by done.
    destruct (shared_cow_step s s1 e c _ (dup last) STACK Hne H1 Hn Hu (Hmap STACK Hd)) as (s2 & E2 & H2 & Hk2).
    + unfold image. rewrite Z.add_0_l, Z2Nat.id by done. intros Hin.
      assert (0xD0000 < STACK) as Hs by by vm_compute.
      unfold image_pages in Hin. change (UTEXT / PGSIZE) with 0x800 in Hin. change UTEXT with 0x800000 in *.
      unfold PGSIZE in Hin. clear Hk Hk1 Hi. Z.div_mod_to_equations. lia.
    + intros k. unfold dup. rewrite Z.add_0_l, Z2Nat.id by done. done.
    + lia.
    + exists s2. split_and!; [done|done|lia].
Qed.

(** The program as [fork] finds it: it sees [view] at the pages to duplicate, and
    no other page gives write access to their frames. *)
Record ready (s : vm) (e last : Z) (view : Z → Z) : Prop := {
  rd_space : has_space s e;
  rd_bytes : bytes_ok (phys s);
  rd_view va : dup last (va / PGSIZE) → byte_at s e va = Some (view va);
  rd_own n f perm e' n' perm' : dup last n → entry s e n = Some (f, perm) → entry s e' n' = Some (f, perm') →
    writable perm' = true → e' = e ∧ dup last n'
}.

Lemma ready_mapped s e last view n : ready s e last view → dup last n → is_Some (entry s e n).
Proof.
  intros Hr Hn. destruct (byte_at_inv s e (n * PGSIZE) (view (n * PGSIZE))) as (f & p & E & _).
  { apply (rd_view _ _ _ _ Hr). by rewrite Z.div_mul. }
  rewrite Z.div_mul in E by done. by rewrite E.
Qed.

(** A fresh page outside the duplicated ones changes nothing. *)
Lemma ready_alloc s e last view n g perm m k T :
  ready s e last view → ¬ dup last n → (∀ e n perm, entry s e n ≠ Some (g, perm)) → bytes_ok m →
  (∀ a, ¬ (g * PGSIZE ≤ a < g * PGSIZE + PGSIZE) → rdb m a = rdb (phys s) a) →
  ready (map_page e n g perm (set_kern k T (set_phys m s))) e last view.
Proof.
  intros [Hsp Hb Hv Ho] Hn Hg Hm Hout. set (s' := map_page _ _ _ _ _).
  assert (∀ x k, entry s' x k = if decide (x = e ∧ k = n) then Some (g, perm) else entry s x k) as He.
  { intros x k'. unfold s'. by rewrite entry_map. }
  assert (phys s' = m) as Hph by (unfold s'; by rewrite phys_map).
  assert (∀ k, dup last k → entry s' e k = entry s e k) as Hd.
  { intros k' Hk. rewrite He, decide_False; [done|]. by intros [_ ->]. }
  split; [by apply has_space_map|by rewrite Hph| |].
  - intros va Hva. destruct (byte_at_inv _ _ _ _ (Hv va Hva)) as (f & p & E & Eb).
    rewrite (byte_at_Some _ e va f p) by by rewrite Hd. rewrite Eb, Hph.
    pose proof (Z.mod_pos_bound va PGSIZE ltac:(done)) as Hmod.
    assert (f ≠ g) by (intros ->; by apply (Hg e (va / PGSIZE) p)). f_equal. apply Hout. unfold PGSIZE in *. lia.
  - intros k1 f p x k2 p' Hk. rewrite Hd, He by done. intros E E' Hw.
    case_decide; [|by apply (Ho k1 f p x k2 p')]. injection E' as <- <-. by destruct (Hg e k1 p).
Qed.

(** The handler is in place before the child is made. *)
Lemma set_handler_run s e last view p :
  UTEXT ≤ last ≤ 0xD0000000 → ready s e last view → procs s !! e = Some p →
  (pgfault_handler p = true → handles e s = true) → 4 ≤ kfree s →
  ∃ s', set_pgfault_handler pick e s = Ret tt s' ∧ ready s' e last view ∧ handles e s' = true ∧ kfree s - 4 ≤ kfree s' ∧
    ∀ c, c ≠ e → spaces s' !! c = spaces s !! c.
Proof.
  intros Hl Hr Hp Hh Hk. unfold set_pgfault_handler. step_pure. rewrite Hp. destruct (pgfault_handler p) eqn:Eh.
  - step_pure. specialize (Hh eq_refl). eexists. split.
    { erewrite bind_Ret_l by (unfold upd_proc; rewrite Hp; reflexivity). done. }
    split; [by destruct Hr|]. split; [|split; [cbn; lia|done]]. unfold handles in *. cbn [procs set_proc].
    rewrite lookup_insert_eq, Hp, Eh in *. exact Hh.
  - destruct (alloc_run pick pick_fresh s e XSTACK (Z.lor (Z.lor PTE_W PTE_U) PTE_R) (rd_space _ _ _ _ Hr)
      ltac:(done) ltac:(done) ltac:(done) (rd_bytes _ _ _ _ Hr) Hk) as (g & s1 & k1 & T1 & E1 & Hg & Es1 & Hk1 & Hb1 & Hout).
    assert (kfree s1 = k1) as Hk1' by (rewrite Es1; by rewrite kfree_map).
    assert (procs s1 !! e = Some p) as Hp1 by (rewrite Es1; by rewrite procs_map).
    assert (ready s1 e last view) as Hr1.
    { rewrite Es1. apply ready_alloc; try done; [|intros a Ha; by rewrite Hout, decide_False].
      intros Hd. by destruct (dup_disjoint last XSTACK Hl Hd) as (_ & _ & _ & ? & _). }
    assert (entry s1 e XSTACK = Some (g, Z.lor (Z.lor PTE_W PTE_U) PTE_R)) as Ex.
    { rewrite Es1, entry_map by apply (rd_space _ _ _ _ Hr). by rewrite decide_True. }
    assert (∀ c, c ≠ e → spaces s1 !! c = spaces s !! c) as Hc.
    { intros c Hc. rewrite Es1. unfold map_page. cbn [spaces set_phys set_kern]. destruct (spaces s !! e); [|done].
      cbn [spaces set_space set_phys set_kern]. by rewrite lookup_insert_ne by done. }
    clear Es1. eexists. split.
    { change (UXSTACKTOP - PGSIZE) with (XSTACK * PGSIZE). rewrite bind_assoc. step_with (or_panic_Ret _ _ _ E1).
      erewrite bind_Ret_l by (apply or_panic_Ret; unfold sys_env_set_pgfault_upcall, upd_proc; rewrite Hp1; reflexivity).
      erewrite bind_Ret_l by (unfold upd_proc; cbn [procs set_proc]; rewrite lookup_insert_eq; reflexivity). done. }
    split; [by destruct Hr1|]. split; [|split; [cbn; lia|done]]. unfold handles. cbn [procs set_proc]. rewrite lookup_insert_eq.
    fold XSTACK. change (entry (set_proc _ _ _) e XSTACK) with (entry s1 e XSTACK). by rewrite Ex.
Qed.

(** The child before it gets an exception stack: [s1] is the state after the
    duplication, [s2] the one after the sharing. *)
Lemma child_run s e c last view p :
  e ≠ c → 0 < c → UTEXT ≤ last ≤ 0xD0000000 → ready s e last view → procs s !! e = Some p → spaces s !! c = None →
  6 * image_pages last + 199 ≤ kfree s →
  ∃ s1 s2, ∀ A (k : Z → V A),
    (envid <- sys_exofork e c ;;
     if envid <? 0 then panic else
     for_loop (Z.to_nat (image_pages last)) 0 (λ i, duppage e envid ((UTEXT + i * PGSIZE) / PGSIZE) ;;; ret tt) ;;;
     duppage e envid STACK ;;; dup_handler e envid ;;; or_panic (sys_copy_shared_pages e envid) ;;; k envid) s = k c s2 ∧
    shared_cow (set_proc c (mkProc (env_pgfault_upcall p) false false) (set_kern (kfree s - 1) (ktabs s) s)) s1 e c (dup last) ∧
    phys s2 = phys s ∧ procs s2 = <[c := mkProc (env_pgfault_upcall p) (pgfault_handler p) false]> (procs s) ∧
    kfree s - (6 * image_pages last + 199) ≤ kfree s2 ∧ has_space s2 c ∧
    (∀ e' n, e' ≠ c ∨ ¬ fdpage n → entry s2 e' n = entry s1 e' n) ∧
    (∀ n f perm, fdpage n → entry s2 c n = Some (f, perm) → entry s1 c n = Some (f, perm) ∨
       ∃ perm0, entry s1 e n = Some (f, perm0) ∧ writable perm = writable perm0).
Proof.
  intros Hne Hc0 Hl Hr Hp Hc Hk. set (q := mkProc (env_pgfault_upcall p) false false).
  set (sb := set_proc c q (set_kern (kfree s - 1) (ktabs s) s)).
  assert (0 ≤ image_pages last) as Hi by (apply Z.div_pos; unfold PGSIZE; lia).
  destruct (dup_loop_run sb e c last Hne (rd_space _ _ _ _ Hr) Hc Hl (λ n, ready_mapped s e last view n Hr)) as (s1 & E1 & H1 & Hk1).
  { cbn. lia. }
  cbn [kfree set_proc set_kern sb] in Hk1. pose proof H1 as [[S1 S1'] [S2 S2'] _ _ _].
  set (s1' := set_proc c (mkProc (env_pgfault_upcall p) (pgfault_handler p) false) s1).
  destruct (copy_shared_run s1' e c Hne S2') as (s2 & E2 & F2 & Hk2); [cbn; lia|]. cbn [kfree set_proc s1'] in Hk2.
  exists s1, s2. intros A k. split.
  { unfold sys_exofork at 1. erewrite bind_Ret_l by (rewrite Hc, Hp, (proj2 (Z.leb_gt _ _)) by lia; reflexivity).
    cbv beta. fold q. change (set_space c ∅ _) with (set_space c ∅ sb). rewrite (proj2 (Z.ltb_ge c 0)) by lia.
    rewrite (seq_Ret _ _ _ _ _ _ E1). erewrite (bind_Ret_l (dup_handler e c)).
    2: { unfold dup_handler. step_pure. rewrite S1'. cbn [procs set_proc set_kern sb]. rewrite lookup_insert_ne, Hp by done.
         erewrite bind_Ret_l by (unfold upd_proc; rewrite S1'; cbn [procs set_proc sb]; rewrite lookup_insert_eq; reflexivity).
         reflexivity. }
    by step_with (or_panic_Ret _ _ _ E2). }
  destruct F2 as ([Hph2 Hpr2] & Hsp2 & Ho2 & Hi2).
  split_and!; try done; [rewrite Hph2; cbn [phys set_proc s1']; by rewrite S1| |lia].
  rewrite Hpr2. cbn [procs set_proc s1']. rewrite S1'. cbn [procs set_proc set_kern sb]. by rewrite insert_insert_eq.
Qed.

(** The exception stack of the child completes the picture. *)
Lemma forked_private s q k T s1 s2 s3 e c last view g gperm :
  e ≠ c → UTEXT ≤ last ≤ 0xD0000000 → ready s e last view →
  shared_cow (set_proc c q (set_kern k T s)) s1 e c (dup last) →
  phys s2 = phys s →
  (∀ e' n, e' ≠ c ∨ ¬ fdpage n → entry s2 e' n = entry s1 e' n) →
  (∀ n f perm, fdpage n → entry s2 c n = Some (f, perm) → entry s1 c n = Some (f, perm) ∨
     ∃ perm0, entry s1 e n = Some (f, perm0) ∧ writable perm = writable perm0) →
  (∀ x n perm, entry s2 x n ≠ Some (g, perm)) →
  (∀ x n, entry s3 x n = if decide (x = c ∧ n = XSTACK) then Some (g, gperm) else entry s2 x n) →
  bytes_ok (phys s3) → (∀ a, ¬ (g * PGSIZE ≤ a < g * PGSIZE + PGSIZE) → rdb (phys s3) a = rdb (phys s2) a) →
  (∀ x, x = e ∨ x = c → handles x s3 = true) →
  private (λ x, x = e ∨ x = c) (dup last) s3 (λ _, view).
Proof.
  intros Hne Hl Hr H1 Hph2 Ho2 Hi2 Hg He3 Hb3 Hp3 Hh. pose proof H1 as [_ _ S3 _ _].
  assert (∀ x n f perm, (x = e ∨ x = c) → dup last n → entry s e n = Some (f, perm) →
    entry s3 x n = Some (f, PERM_COW) ∧ f ≠ g) as Hdup.
  { intros x n f perm Hx Hn E. destruct (dup_disjoint last n Hl Hn) as (_ & _ & _ & Hxs & Hfd).
    destruct (S3 n f perm Hn E) as [Ee Ec].
    assert (entry s2 x n = Some (f, PERM_COW)) as E2x by (rewrite Ho2 by auto; by destruct Hx as [-> | ->]).
    rewrite He3, decide_False by naive_solver. split; [done|]. intros ->. by apply (Hg x n PERM_COW). }
  split; [done| | |done].
  - intros x va Hx Hva. destruct (byte_at_inv _ _ _ _ (rd_view _ _ _ _ Hr va Hva)) as (f & perm & E & Ev).
    destruct (Hdup x _ f perm Hx Hva E) as [E3x Hfg]. rewrite (byte_at_Some s3 x va f PERM_COW E3x). f_equal. rewrite Ev.
    pose proof (Z.mod_pos_bound va PGSIZE ltac:(done)) as Hm.
    rewrite Hp3 by (unfold PGSIZE in *; lia). by rewrite Hph2.
  - intros x n Hx Hn f perm0 x' n' perm' E0 E' Hw. exfalso.
    destruct (ready_mapped _ _ _ _ n Hr Hn) as [[f0 perm] E]. destruct (Hdup x n f0 perm Hx Hn E) as [E3x Hfg].
    rewrite E3x in E0. injection E0 as <- <-. rewrite He3 in E'.
    case_decide as Hxs; [by injection E' as Eg _; destruct (Hfg (eq_sym Eg))|].
    by rewrite (no_writable (set_proc c q (set_kern k T s)) s1 s2 e c last n f0 perm x' n' perm' Hne Hl H1
      (λ n, ready_mapped s e last view n Hr) Ho2 Hi2 (rd_own _ _ _ _ Hr) Hn E E') in Hw.
Qed.

(** Pages of the kernel that are enough for [fork]: three tables for each mapping,
    one page more for each new frame and one for the directory of the child. *)
Definition fork_pages (last : Z) : Z := 6 * image_pages last + 207.

(** What [fork] does: the child sees what the parent saw, and all of it is private. *)
Lemma fork_run s e c last view p :
  e ≠ c → 0 < c → UTEXT ≤ last ≤ 0xD0000000 → ready s e last view → procs s !! e = Some p →
  (pgfault_handler p = true → handles e s = true) → spaces s !! c = None → fork_pages last ≤ kfree s →
  ∃ s', fork pick e c last s = Ret c s' ∧ private (λ x, x = e ∨ x = c) (dup last) s' (λ _, view) ∧
    runnable <$> procs s' !! c = Some true ∧ kfree s - fork_pages last ≤ kfree s'.
Proof.
  unfold fork_pages. intros Hne Hc Hl Hr0 Hp0 Hh0 Hc0 Hk.
  assert (0 ≤ image_pages last) as Hi by (apply Z.div_pos; unfold PGSIZE; lia).
  destruct (set_handler_run s e last view p Hl Hr0 Hp0 Hh0 ltac:(lia)) as (s0 & E0 & Hr & Hh & Hk0 & Hsp0).
  specialize (Hsp0 c ltac:(done)). rewrite Hc0 in Hsp0. clear Hr0 Hp0 Hh0 p.
  destruct (procs s0 !! e) as [p|] eqn:Hp; [|unfold handles in Hh; by rewrite Hp in Hh].
  destruct (child_run s0 e c last view p Hne Hc Hl Hr Hp Hsp0 ltac:(lia)) as (s1 & s2 & H).
  destruct (H Z (λ _, ret 0)) as (_ & H1 & Hph2 & Hpr2 & Hk2 & Hsp2 & Ho2 & Hi2).
  pose proof H1 as [_ _ S3 S4 S5].
  destruct (alloc_run pick pick_fresh s2 c XSTACK (Z.lor (Z.lor (Z.lor PTE_W PTE_U) PTE_R) PTE_V) Hsp2
    ltac:(done) ltac:(done) ltac:(done) ltac:(rewrite Hph2; apply (rd_bytes _ _ _ _ Hr)) ltac:(lia))
    as (g & s3 & k3 & T3 & E3 & Hg & Es3 & Hk3 & Hb3 & Hp3).
  assert (kfree s3 = k3) as Hk3' by (rewrite Es3; by rewrite kfree_map).
  assert (procs s3 = procs s2) as Hpr3 by (rewrite Es3; by rewrite procs_map).
  assert (∀ x n, entry s3 x n = if decide (x = c ∧ n = XSTACK) then Some (g, Z.lor (Z.lor (Z.lor PTE_W PTE_U) PTE_R) PTE_V)
                                else entry s2 x n) as He3.
  { intros x n. rewrite Es3. by rewrite entry_map. }
  clear Es3. exists (set_proc c (mkProc (env_pgfault_upcall p) (pgfault_handler p) true) s3). split_and!.
  { unfold fork. fold (image_pages last) STACK. step_with E0. rewrite (proj1 (H _ _)).
    change (UXSTACKTOP - PGSIZE) with (XSTACK * PGSIZE). step_with (or_panic_Ret _ _ _ E3).
    erewrite bind_Ret_l.
    2: { apply or_panic_Ret. unfold sys_env_set_status, upd_proc. rewrite Hpr3, Hpr2, lookup_insert_eq. reflexivity. }
    done. }
  - eapply (forked_private s0 _ _ _ s1 s2 _ e c last view g); try done; [intros a Ha; cbn; by rewrite Hp3, decide_False|].
    intros x [-> | ->]; unfold handles; fold XSTACK; cbn [procs set_proc].
    + rewrite lookup_insert_ne, Hpr3, Hpr2, lookup_insert_ne, Hp by done. change (entry (set_proc _ _ s3)) with (entry s3).
      rewrite He3, decide_False by (intros [? _]; done). rewrite Ho2 by by left.
      assert (¬ dup last XSTACK) as Hx by (intros Hd; by destruct (dup_disjoint last XSTACK Hl Hd) as (_ & _ & _ & ? & _)).
      rewrite S4 by (done || by intros [_ ?]). unfold handles in Hh. fold XSTACK in Hh. rewrite Hp in Hh. exact Hh.
    + rewrite lookup_insert_eq. change (entry (set_proc _ _ s3)) with (entry s3). rewrite He3, decide_True by done.
      unfold handles in Hh. rewrite Hp in Hh. destruct (entry s0 e _) as [[? ?]|]; [|done]. cbn.
      by apply andb_true_iff in Hh as [-> _].
  - cbn [procs set_proc]. by rewrite lookup_insert_eq.
  - cbn [kfree set_proc]. lia.
Qed.

(** ** Parent and child afterwards *)

Inductive access := Rd (e va : Z) | Wr (e va b : Z).
Definition allowed (e c last : Z) (a : access) : Prop :=
  match a with Rd x va | Wr x va _ => (x = e ∨ x = c) ∧ dup last (va / PGSIZE) end.

(** The values read, in order. *)
Fixpoint urun (l : list access) : V (list Z) :=
  match l with
  | [] => ret []
  | Rd e va :: l' => b <- uread e va ;; bs <- urun l' ;; ret (b :: bs)
  | Wr e va b :: l' => uwrite pick e va b ;;; urun l'
  end.
(** The same on two separate memories. *)
Fixpoint copies_run (l : list access) (view : Z → Z → Z) : list Z :=
  match l with
  | [] => []
  | Rd e va :: l' => view e va :: copies_run l' view
  | Wr e va b :: l' => copies_run l' (vupd view e va (u8 b))
  end.

Lemma dup_range last va : UTEXT ≤ last ≤ 0xD0000000 → dup last (va / PGSIZE) → 0 ≤ va < UTOP.
Proof.
  intros Hl Hd. destruct (dup_disjoint last _ Hl Hd) as (Hn & Hu & _). change UTOP with (0xfffffd7ff0000 * 4096) in *.
  unfold PGSIZE in *. Z.div_mod_to_equations. lia.
Qed.

Lemma urun_private l e c last s view :
  UTEXT ≤ last ≤ 0xD0000000 → private (λ x, x = e ∨ x = c) (dup last) s view → Forall (allowed e c last) l →
  7 * Z.of_nat (length l) ≤ kfree s → ∃ s', urun l s = Ret (copies_run l view) s'.
Proof.
  intros Hl Hp Ha. revert s view Hp. induction Ha as [|[x va|x va b] l [Hx Hd] _ IH]; intros s view Hp Hk; cbn [urun copies_run].
  - by exists s.
  - pose proof (pv_see _ _ _ _ Hp x va Hx Hd) as Hs. destruct (IH s view Hp ltac:(cbn in Hk; lia)) as [s' E']. exists s'.
    assert (uread x va s = Ret (view x va) s) as Er.
    { unfold uread. unfold byte_at in Hs. destruct (place x va s) as [[a p]|]; [by injection Hs as ->|done]. }
    step_with Er. by step_with E'.
  - destruct (uwrite_private pick pick_fresh _ _ s view x va b Hp Hx Hd) as (s1 & E1 & Hp1 & Hk1).
    { intros Ht. by destruct (dup_disjoint last TEMP Hl Ht) as (_ & _ & ? & _). }
    { intros Ht. by destruct (dup_disjoint last XSTACK Hl Ht) as (_ & _ & _ & ? & _). }
    { by apply (dup_range last). }
    { cbn in Hk. lia. }
    destruct (IH s1 _ Hp1 ltac:(cbn in Hk; lia)) as [s' E']. exists s'. by step_with E1.
Qed.
End theorem.

(** C8  [fork] gives the child a private copy.  If nothing but the duplicated pages
    gives write access to the frames of the parent's image and stack, and the kernel
    has pages enough for [fork] and for one copy at every later write, then [fork]
    returns the child and makes it runnable, and whatever parent and child write and
    read in those pages afterwards, in any order, each reads what it would read if
    the memory had been copied at the fork: the page-fault handler is in place in
    both, and copying on write is never noticed. *)
Theorem fork_isolates (pick : vm → Z)
    (pick_fresh : ∀ s, 0 < kfree s → ∀ e n perm, entry s e n ≠ Some (pick s, perm))
    (s : vm) (e c last : Z) (view : Z → Z) (p : proc) (l : list access)
    (Hne : e ≠ c) (Hc0 : 0 < c) (Hlast : UTEXT ≤ last ≤ 0xD0000000) (Hready : ready s e last view)
    (Hp : procs s !! e = Some p) (Hh : pgfault_handler p = true → handles e s = true)
    (Hc : spaces s !! c = None) (Hl : Forall (allowed e c last) l)
    (Hk : fork_pages last + 7 * Z.of_nat (length l) ≤ kfree s) :
  ∃ s1 s2, fork pick e c last s = Ret c s1 ∧ runnable <$> procs s1 !! c = Some true ∧
    urun pick l s1 = Ret (copies_run l (λ _, view)) s2.
Proof.
  destruct (fork_run pick pick_fresh s e c last view p Hne Hc0 Hlast Hready Hp Hh Hc ltac:(lia)) as (s1 & E1 & Hpv & Hrun & Hk1).
  destruct (urun_private pick pick_fresh l e c last s1 _ Hlast Hpv Hl ltac:(lia)) as (s2 & E2).
  by exists s1, s2.
Qed.

(** ** Without pages *)

(** A write to a shared page when the kernel has no page left works on a null page in
    [sys_page_alloc]; when a table for [UTEMP] cannot be had the handler panics. *)
Lemma pgfault_no_page pick s e va : has_space s e → kfree s ≤ 0 → pgfault pick e va s = Undef.
Proof.
  intros [t Ht] Hk. unfold pgfault, or_panic, sys_page_alloc, bind. rewrite Ht. change (bad_va UTEMP) with false.
  change (negb _) with false. by rewrite (proj2 (Z.leb_le _ _)).
Qed.
Lemma pgfault_no_table pick s e va : has_space s e → 0 < kfree s → kfree s - 1 < Z.of_nat (length (missing e TEMP s)) →
  ∃ s', pgfault pick e va s = Panic s'.
Proof.
  intros [t Ht] Hk Hm. unfold pgfault, or_panic, sys_page_alloc, bind. rewrite Ht. change (bad_va UTEMP) with false.
  change (negb _) with false. rewrite (proj2 (Z.leb_gt _ _)) by done. change (UTEMP / PGSIZE) with TEMP.
  unfold insert_page, make_tables. change (missing e TEMP (set_kern _ _ _)) with (missing e TEMP s). cbn [kfree set_kern].
  rewrite (proj2 (Z.leb_gt _ _)) by done. by eexists.
Qed.

(** ** An example: a program of one page and its stack *)

Definition pick_new (s : vm) : Z := fresh (frames s).

Lemma frames_entry s e n f perm : entry s e n = Some (f, perm) → f ∈ frames s.
Proof.
  unfold entry, frames. destruct (spaces s !! e) as [t|] eqn:Et; [|done]. simpl. intros En.
  apply elem_of_union_list. exists (list_to_set (fst <$> (map_to_list t).*2)). split.
  - apply list_elem_of_fmap. exists t. split; [done|]. apply list_elem_of_fmap. exists (e, t).
    split; [done|]. by apply elem_of_map_to_list.
  - apply elem_of_list_to_set. apply list_elem_of_fmap. exists (f, perm). split; [done|].
    apply list_elem_of_fmap. exists (n, (f, perm)). split; [done|]. by apply elem_of_map_to_list.
Qed.

Lemma pick_new_fresh s : 0 < kfree s → ∀ e n perm, entry s e n ≠ Some (pick_new s, perm).
Proof. intros _ e n perm E. apply frames_entry in E. unfold pick_new in E. by apply is_fresh in E. Qed.

Definition ex_vm : vm := mkVm ∅ {[ 1 := {[ 0x800 := (5, PERM_ALL); STACK := (6, PERM_ALL) ]} ]}
  {[ 1 := mkProc false false true ]} 300 ∅.

Lemma ex_vm_entry e n f perm :
  entry ex_vm e n = Some (f, perm) → e = 1 ∧ (n = 0x800 ∧ f = 5 ∨ n = STACK ∧ f = 6).
Proof.
  unfold entry, ex_vm. cbn [spaces]. destruct (decide (e = 1)) as [->|].
  2: { by rewrite lookup_singleton_ne. }
  rewrite lookup_singleton_eq. simpl. destruct (decide (n = 0x800)) as [->|].
  { rewrite lookup_insert_eq. intros [= <- <-]. auto. }
  rewrite lookup_insert_ne by done. destruct (decide (n = STACK)) as [->|].
  { rewrite lookup_singleton_eq. intros [= <- <-]. auto. }
  by rewrite lookup_singleton_ne.
Qed.

Lemma ex_dup n : dup (UTEXT + PGSIZE) n ↔ n = 0x800 ∨ n = STACK.
Proof.
  unfold dup, image. change (UTEXT / PGSIZE) with 0x800. change (image_pages (UTEXT + PGSIZE)) with 1. lia.
Qed.

Lemma ex_ready : ready ex_vm 1 (UTEXT + PGSIZE) (λ _, 0).
Proof.
  split.
  - by eexists.
  - intros a. by vm_compute.
  - intros va. rewrite ex_dup. intros [E|E]; unfold byte_at, place; rewrite E; by vm_compute.
  - intros n f perm e' n' perm' _ _ E' _. apply ex_vm_entry in E' as (-> & Hn). split; [done|].
    apply ex_dup. naive_solver.
Qed.

Lemma fork_isolates_witness :
  ∃ s1 s2, fork pick_new 1 2 (UTEXT + PGSIZE) ex_vm = Ret 2 s1 ∧ runnable <$> procs s1 !! 2 = Some true ∧
    urun pick_new [Wr 2 UTEXT 9; Rd 1 UTEXT; Wr 1 UTEXT 7; Rd 2 UTEXT; Rd 1 UTEXT] s1 = Ret [0; 9; 7] s2.
Proof.
  apply (fork_isolates pick_new pick_new_fresh ex_vm 1 2 (UTEXT + PGSIZE) (λ _, 0)
    (mkProc false false true) [Wr 2 UTEXT 9; Rd 1 UTEXT; Wr 1 UTEXT 7; Rd 2 UTEXT; Rd 1 UTEXT]).
  - done.
  - done.
  - by vm_compute.
  - exact ex_ready.
  - done.
  - done.
  - done.
  - repeat (apply Forall_cons; split; [split; [auto|apply ex_dup; by left]|]). by apply Forall_nil.
  - by vm_compute.
Defined.
