(* ===== verification/Fd.v ===== *)
(** * File descriptors, lib/riscv/fd.c

    The descriptor table of a program is a range of its address space: descriptor
    [i] is open when page [i] of the range is mapped, and two descriptors for the
    same open file are two mappings of one page.  The file holds the table, the
    generic calls that go through a device ([struct Dev]), the console device of
    lib/riscv/console.c and the set-up and the closing of pipes (lib/riscv/pipe.c),
    on the address spaces of [Fork].  The theorem relates the table to the usual
    picture of a table of references to open files. *)

From S2P Require Import Prelude Mmu Strings Words Fs Serv Fork.

Definition MAXFD : Z := 32.
Definition FDTABLE : Z := 0xD0000000.
Definition FILEDATA : Z := FDTABLE + MAXFD * PGSIZE.
Definition INDEX2FD (i : Z) : Z := u64 (FDTABLE + i * PGSIZE).
Definition INDEX2DATA (i : Z) : Z := u64 (FILEDATA + i * PGSIZE).
Definition O_RDONLY : Z := 0.
Definition O_WRONLY : Z := 1.
Definition O_RDWR : Z := 2.

Definition fd2num (fd : Z) : Z := i32 (u64 (fd - FDTABLE) / PGSIZE).
Definition fd2data (fd : Z) : Z := INDEX2DATA (fd2num fd).

(** [struct Stat] *)
Definition st_name : Z := 0.
Definition st_size : Z := 128.
Definition st_isdir : Z := 132.
Definition st_dev : Z := 136.

Section fd.
(** The part of the world the devices change, such as the file server. *)
Context {X : Type}.

(** [cin] is what [sys_cgetc] will give, zero when nothing was typed. *)
Record ust := mkU { uvm : vm; cin : list Z; cout : list Z; world : X }.
Definition U (A : Type) : Type := M ust A.
Definition set_uvm (v : vm) (s : ust) : ust := mkU v (cin s) (cout s) (world s).

Definition vmop {A} (m : V A) : U A := λ s,
  match m (uvm s) with
  | Ret a v => Ret a (set_uvm v s)
  | NoRet v => NoRet (set_uvm v s)
  | Panic v => Panic (set_uvm v s)
  | Undef => Undef
  end.

(** The operations of a device; [None] is a null pointer. *)
Record Dev := mkDev {
  dev_addr : Z;
  dev_id : Z;
  dev_read : option (Z → Z → Z → U Z);
  dev_write : option (Z → Z → Z → U Z);
  dev_close : option (Z → U Z);
  dev_stat : option (Z → Z → U Z);
  dev_trunc : option (Z → Z → U Z)
}.

Context (pick : vm → Z) (e : Z).

(** The flags of the entry for [va]. *)
Definition sys_uvpt_pte (va : Z) : U Z :=
  gets (λ s, match entry (uvm s) e (va / PGSIZE) with Some (_, perm) => Z.lor perm PTE_V | None => 0 end).

(** Words and bytes of the program's memory. *)
Definition uld32 (va : Z) : U Z := λ s,
  match place e va (uvm s) with
  | Some (a, _) => Ret (i32 (ld32 (phys (uvm s)) a)) s
  | None => Undef
  end.
Definition ust32 (va v : Z) : U unit := λ s,
  match place e va (uvm s) with
  | Some (_, perm) =>
      let store := λ s, match place e va (uvm s) with
        | Some (a, _) => Ret tt (set_uvm (set_phys (st32 (phys (uvm s)) a v) (uvm s)) s)
        | None => Undef end in
      if writable perm then store s
      else if handles e (uvm s) then (vmop (pgfault pick e va) ;;; store) s else Undef
  | None => Undef
  end.
Definition ustb (va b : Z) : U unit := vmop (uwrite pick e va b).
Definition ubytes (va : Z) (l : list Z) : U unit :=
  foldr (λ b k va, ustb va b ;;; k (va + 1)) (λ _, ret tt) l va.

(** ** Descriptors *)

(** The result code and [*fd_store]. *)
Fixpoint fd_alloc_loop (n : nat) (i : Z) : U (Z * Z) :=
  match n with
  | O => ret (- E_MAX_OPEN, 0)
  | S n' =>
      pte <- sys_uvpt_pte (INDEX2FD i) ;;
      if Z.land pte PTE_V =? 0 then ret (0, INDEX2FD i) else fd_alloc_loop n' (i + 1)
  end.
Definition fd_alloc : U (Z * Z) := fd_alloc_loop (Z.to_nat MAXFD) 0.

Definition fd_lookup (fdnum : Z) : U (Z * Z) :=
  if (fdnum <? 0) || (MAXFD <=? fdnum) then ret (- E_INVAL, 0) else
  pte <- sys_uvpt_pte (INDEX2FD fdnum) ;;
  if Z.land pte PTE_V =? 0 then ret (- E_INVAL, 0) else ret (0, INDEX2FD fdnum).

(** ** Devices *)

Context (devfile devsock : Dev).

(** The console. *)
Fixpoint sys_cgetc_wait (l : list Z) : option (Z * list Z) :=
  match l with
  | [] => None
  | c :: l' => if c =? 0 then sys_cgetc_wait l' else Some (c, l')
  end.
Definition devcons_read (fd vbuf n : Z) : U Z :=
  if n =? 0 then ret 0 else
  l <- gets cin ;;
  match sys_cgetc_wait l with
  | None => noret
  | Some (c, l') =>
      modify (λ s, mkU (uvm s) l' (cout s) (world s)) ;;;
      if c <? 0 then ret c else
      if c =? 4 then ret 0 else
      ustb vbuf c ;;; ret 1
  end.
Fixpoint until_nul (l : list Z) : list Z :=
  match l with [] => [] | c :: l' => if c =? 0 then [] else c :: until_nul l' end.
Fixpoint uget (n : nat) (va : Z) : U (list Z) :=
  match n with
  | O => ret []
  | S n' => b <- vmop (uread e va) ;; l <- uget n' (va + 1) ;; ret (b :: l)
  end.
(** One round of the loop per chunk of 127 characters; [sys_cputs] stops at a null
    character. *)
Fixpoint devcons_write_loop (fuel : nat) (vbuf n tot : Z) : U Z :=
  match fuel with
  | O => noret
  | S fuel' =>
      if u64 tot <? n then
        let m := i32 (n - tot) in
        let m := if 127 <? u64 m then 127 else m in
        l <- uget (Z.to_nat m) (vbuf + tot) ;;
        modify (λ s, mkU (uvm s) (cin s) (cout s ++ until_nul l) (world s)) ;;;
        devcons_write_loop fuel' vbuf n (i32 (tot + m))
      else ret tot
  end.
Definition devcons_write (fd vbuf n : Z) : U Z := devcons_write_loop (S (Z.to_nat n)) vbuf n 0.
Definition devcons_close (fd : Z) : U Z := ret 0.
Definition devcons_stat (fd stat : Z) : U Z :=
  ubytes (stat + st_name) [60; 99; 111; 110; 115; 62; 0] ;;; ret 0.
Definition devcons (addr : Z) : Dev :=
  mkDev addr 99 (Some devcons_read) (Some devcons_write) (Some devcons_close) (Some devcons_stat) None.

(** The pipe; its loops are in [Pipe]. *)
Context (devpipe_read devpipe_write : Z → Z → Z → U Z) (devpipe_stat : Z → Z → U Z).
Definition devpipe_close (fd : Z) : U Z :=
  vmop (sys_page_unmap e fd) ;;;
  vmop (sys_page_unmap e (fd2data fd)).
Definition devpipe (addr : Z) : Dev :=
  mkDev addr 112 (Some devpipe_read) (Some devpipe_write) (Some devpipe_close) (Some devpipe_stat) None.

Context (cons_addr pipe_addr : Z).
Definition devtab : list Dev := [devfile; devsock; devpipe pipe_addr; devcons cons_addr].
Definition dev_lookup (id : Z) : option Dev := list_find (λ d, dev_id d = id) devtab ≫= λ p, Some (snd p).

(** ** Closing and duplicating *)

(** [must_exist] only matters for a descriptor that is not open. *)
Definition fd_close (fd : Z) (must_exist : bool) : U Z :=
  l <- fd_lookup (fd2num fd) ;;
  if (fst l <? 0) || negb (fd =? snd l) then ret (if must_exist then fst l else 0) else
  id <- uld32 (fd + fd_dev_id) ;;
  r <- match dev_lookup id with
       | None => ret (- E_INVAL)
       | Some dev => match dev_close dev with Some f => f fd | None => ret 0 end
       end ;;
  vmop (sys_page_unmap e fd) ;;;
  ret r.

Definition close (fdnum : Z) : U Z :=
  l <- fd_lookup fdnum ;;
  if fst l <? 0 then ret (fst l) else fd_close (snd l) true.

Definition close_all : U unit := for_loop (Z.to_nat MAXFD) 0 (λ i, close i ;;; ret tt).

Definition dup (oldfdnum newfdnum : Z) : U Z :=
  l <- fd_lookup oldfdnum ;;
  if fst l <? 0 then ret (fst l) else
  let oldfd := snd l in
  close newfdnum ;;;
  let newfd := INDEX2FD newfdnum in
  let ova := fd2data oldfd in
  let nva := fd2data newfd in
  let err r := vmop (sys_page_unmap e newfd) ;;; vmop (sys_page_unmap e nva) ;;; ret r in
  pte <- sys_uvpt_pte ova ;;
  r <- (if negb (Z.land pte PTE_V =? 0)
        then vmop (sys_page_map e ova e nva (Z.land pte PTE_SYSCALL)) else ret 0) ;;
  if r <? 0 then err r else
  pte <- sys_uvpt_pte oldfd ;;
  r <- vmop (sys_page_map e oldfd e newfd (Z.land pte PTE_SYSCALL)) ;;
  if r <? 0 then err r else ret newfdnum.

(** ** Calls through a device *)

(** [fd_lookup] and [dev_lookup], as the calls below begin. *)
Definition with_dev (fdnum : Z) (k : Z → Dev → U Z) : U Z :=
  l <- fd_lookup fdnum ;;
  if fst l <? 0 then ret (fst l) else
  id <- uld32 (snd l + fd_dev_id) ;;
  match dev_lookup id with None => ret (- E_INVAL) | Some dev => k (snd l) dev end.

Definition read (fdnum buf n : Z) : U Z :=
  with_dev fdnum (λ fd dev,
    mode <- uld32 (fd + fd_omode) ;;
    if Z.land mode O_ACCMODE =? O_WRONLY then ret (- E_INVAL) else
    match dev_read dev with None => ret (- E_NOT_SUPP) | Some f => f fd buf n end).

Fixpoint readn_loop (fuel : nat) (fdnum buf n tot : Z) : U Z :=
  match fuel with
  | O => noret
  | S fuel' =>
      if u64 tot <? n then
        m <- read fdnum (buf + tot) (u64 (n - tot)) ;;
        let m := i32 m in
        if m <? 0 then ret m else
        if m =? 0 then ret tot else readn_loop fuel' fdnum buf n (i32 (tot + m))
      else ret tot
  end.
Definition readn (fdnum buf n : Z) : U Z := readn_loop (S (Z.to_nat n)) fdnum buf n 0.

Definition write (fdnum buf n : Z) : U Z :=
  with_dev fdnum (λ fd dev,
    mode <- uld32 (fd + fd_omode) ;;
    if Z.land mode O_ACCMODE =? O_RDONLY then ret (- E_INVAL) else
    match dev_write dev with None => ret (- E_NOT_SUPP) | Some f => f fd buf n end).

Definition seek (fdnum offset : Z) : U Z :=
  l <- fd_lookup fdnum ;;
  if fst l <? 0 then ret (fst l) else
  ust32 (snd l + fd_offset) offset ;;; ret 0.

Definition ftruncate (fdnum newsize : Z) : U Z :=
  with_dev fdnum (λ fd dev,
    mode <- uld32 (fd + fd_omode) ;;
    if Z.land mode O_ACCMODE =? O_RDONLY then ret (- E_INVAL) else
    match dev_trunc dev with None => ret (- E_NOT_SUPP) | Some f => f fd newsize end).

Definition fstat (fdnum stat : Z) : U Z :=
  with_dev fdnum (λ fd dev,
    match dev_stat dev with
    | None => ret (- E_NOT_SUPP)
    | Some f =>
        ustb (stat + st_name) 0 ;;;
        ust32 (stat + st_size) 0 ;;;
        ust32 (stat + st_isdir) 0 ;;;
        ust32 (stat + st_dev) (dev_addr dev) ;;; ust32 (stat + st_dev + 4) (dev_addr dev / 2 ^ 32) ;;;
        f fd stat
    end).

(** ** Opening the console and a pipe *)

Definition PERM_FD : Z := Z.lor (Z.lor (Z.lor (Z.lor PTE_V PTE_W) PTE_U) PTE_R) Fork.PTE_SHARE.

Definition iscons (fdnum : Z) : U Z :=
  l <- fd_lookup fdnum ;;
  if fst l <? 0 then ret (fst l) else
  id <- uld32 (snd l + fd_dev_id) ;;
  ret (if id =? dev_id (devcons cons_addr) then 1 else 0).

Definition opencons : U Z :=
  l <- fd_alloc ;;
  if fst l <? 0 then ret (fst l) else
  r <- vmop (sys_page_alloc pick e (snd l) PERM_FD) ;;
  if r <? 0 then ret r else
  ust32 (snd l + fd_dev_id) (dev_id (devcons cons_addr)) ;;;
  ust32 (snd l + fd_omode) O_RDWR ;;;
  ret (fd2num (snd l)).

(** The result code and the two numbers. *)
Definition pipe : U (Z * Z * Z) :=
  l0 <- fd_alloc ;;
  let fd0 := snd l0 in
  r <- (if fst l0 <? 0 then ret (fst l0) else vmop (sys_page_alloc pick e fd0 PERM_FD)) ;;
  if r <? 0 then ret (r, 0, 0) else
  let err1 r := vmop (sys_page_unmap e fd0) ;;; ret (r, 0, 0) in
  l1 <- fd_alloc ;;
  let fd1 := snd l1 in
  r <- (if fst l1 <? 0 then ret (fst l1) else vmop (sys_page_alloc pick e fd1 PERM_FD)) ;;
  if r <? 0 then err1 r else
  let err2 r := vmop (sys_page_unmap e fd1) ;;; err1 r in
  let va := fd2data fd0 in
  r <- vmop (sys_page_alloc pick e va PERM_FD) ;;
  if r <? 0 then err2 r else
  r <- vmop (sys_page_map e va e (fd2data fd1) PERM_FD) ;;
  if r <? 0 then vmop (sys_page_unmap e va) ;;; err2 r else
  ust32 (fd0 + fd_dev_id) (dev_id (devpipe pipe_addr)) ;;;
  ust32 (fd0 + fd_omode) O_RDONLY ;;;
  ust32 (fd1 + fd_dev_id) (dev_id (devpipe pipe_addr)) ;;;
  ust32 (fd1 + fd_omode) O_WRONLY ;;;
  ret (0, fd2num fd0, fd2num fd1).
End fd.

(** ** The descriptor pages *)

Definition FDP (i : Z) : Z := 0xD0000 + i.
Definition DATAP (i : Z) : Z := 0xD0020 + i.

Lemma INDEX2FD_page i : 0 ≤ i < MAXFD → INDEX2FD i = FDP i * PGSIZE.
Proof. intros Hi. unfold INDEX2FD, FDP, MAXFD in *. rewrite u64_small; unfold is_u64, FDTABLE, PGSIZE; lia. Qed.
Lemma fd2num_INDEX2FD i : 0 ≤ i < MAXFD → fd2num (INDEX2FD i) = i.
Proof.
  intros Hi. rewrite INDEX2FD_page by done. unfold fd2num, FDP, MAXFD in *.
  replace ((0xD0000 + i) * PGSIZE - FDTABLE) with (i * PGSIZE) by (unfold FDTABLE, PGSIZE; lia).
  rewrite u64_small by (unfold is_u64, PGSIZE; lia). rewrite Z.div_mul by done. apply i32_small. lia.
Qed.
Lemma fd2data_INDEX2FD i : 0 ≤ i < MAXFD → fd2data (INDEX2FD i) = DATAP i * PGSIZE.
Proof.
  intros Hi. unfold fd2data. rewrite fd2num_INDEX2FD by done. unfold INDEX2DATA, DATAP, MAXFD in *.
  rewrite u64_small; unfold is_u64, FILEDATA, FDTABLE, MAXFD, PGSIZE; lia.
Qed.
Lemma fd_pages_ok i : 0 ≤ i < MAXFD → 0 ≤ FDP i ∧ FDP i * PGSIZE < UTOP ∧ 0 ≤ DATAP i ∧ DATAP i * PGSIZE < UTOP.
Proof. unfold FDP, DATAP, MAXFD, UTOP, UENVS, PGSIZE. lia. Qed.

Lemma pte_valid_bit perm : (Z.land (Z.lor perm PTE_V) PTE_V =? 0) = false.
Proof.
  apply Z.eqb_neq. change PTE_V with (2 ^ 0). intros H. apply (f_equal (λ x, Z.testbit x 0)) in H.
  rewrite Z.land_spec, Z.lor_spec, Z.pow2_bits_true, Z.bits_0, orb_true_r in H by done. done.
Qed.
Lemma writable_pte perm : writable (Z.land (Z.lor perm PTE_V) PTE_SYSCALL) = writable perm.
Proof.
  unfold writable. rewrite <-Z.land_assoc. change (Z.land PTE_SYSCALL PTE_W) with PTE_W.
  rewrite Z.land_lor_distr_l. change (Z.land PTE_V PTE_W) with 0. by rewrite Z.lor_0_r.
Qed.

(** ** The table as a program sees it

    A descriptor number refers to an open file [d], and possibly to a data page;
    the seek position and the device belong to the open file. *)
Record fdtab := mkTab { tab : gmap Z (Z * option Z); off : Z → Z; dev : Z → Z }.
Definition add_fd (i d : Z) (g : option Z) (t : fdtab) : fdtab := mkTab (<[i := (d, g)]> (tab t)) (off t) (dev t).
Definition del_fd (i : Z) (t : fdtab) : fdtab := mkTab (delete i (tab t)) (off t) (dev t).
Definition set_off (d o : Z) (t : fdtab) : fdtab := mkTab (tab t) (λ x, if decide (x = d) then o else off t x) (dev t).
Definition set_dev (d id : Z) (t : fdtab) : fdtab := mkTab (tab t) (off t) (λ x, if decide (x = d) then id else dev t x).

Definition full (t : fdtab) : Prop := ∀ i, 0 ≤ i < MAXFD → is_Some (tab t !! i).
Definition lowest (t : fdtab) (i : Z) : Prop :=
  0 ≤ i < MAXFD ∧ tab t !! i = None ∧ ∀ j, 0 ≤ j < i → is_Some (tab t !! j).
Definition unused (t : fdtab) (d : Z) : Prop := ∀ i d' g, tab t !! i = Some (d', g) → d ≠ d'.

Inductive fdop := OOpencons | OPipe | OClose (i : Z) | ODup (i j : Z) | OSeek (i o : Z).

(** What [close] returns: zero from the console and a pipe, [-E_INVAL] when no device
    has the number [id], else the answer of the file or the socket device. *)
Definition close_result (id r : Z) : Prop :=
  (id = 99 ∨ id = 112 → r = 0) ∧ (id ∉ [102; 115; 112; 99] → r = - E_INVAL).

Inductive fdstep (t : fdtab) : fdop → Z * Z * Z → fdtab → Prop :=
| st_cons i d : lowest t i → unused t d →
    fdstep t OOpencons (i, 0, 0) (set_dev d 99 (set_off d 0 (add_fd i d None t)))
| st_cons_full : full t → fdstep t OOpencons (- E_MAX_OPEN, 0, 0) t
| st_pipe i j d d' g : lowest t i → lowest (add_fd i d None t) j → unused t d → unused t d' → d ≠ d' →
    fdstep t OPipe (0, i, j)
      (set_dev d' 112 (set_dev d 112 (set_off d' 0 (set_off d 0 (add_fd j d' (Some g) (add_fd i d (Some g) t))))))
| st_pipe_full : (∀ i d j, lowest t i → ¬ lowest (add_fd i d None t) j) → fdstep t OPipe (- E_MAX_OPEN, 0, 0) t
| st_close i r d g : tab t !! i = Some (d, g) → close_result (dev t d) r → fdstep t (OClose i) (r, 0, 0) (del_fd i t)
| st_close_bad i : tab t !! i = None → fdstep t (OClose i) (- E_INVAL, 0, 0) t
| st_dup i j d g : tab t !! i = Some (d, g) → i ≠ j → fdstep t (ODup i j) (j, 0, 0) (add_fd j d g t)
| st_dup_same i : is_Some (tab t !! i) → fdstep t (ODup i i) (- E_INVAL, 0, 0) (del_fd i t)
| st_dup_bad i j : tab t !! i = None → fdstep t (ODup i j) (- E_INVAL, 0, 0) t
| st_seek i o d g : tab t !! i = Some (d, g) → fdstep t (OSeek i o) (0, 0, 0) (set_off d (i32 o) t)
| st_seek_bad i o : tab t !! i = None → fdstep t (OSeek i o) (- E_INVAL, 0, 0) t.

(** The new number given to [dup] is one of the table. *)
Definition op_ok (o : fdop) : Prop := match o with ODup i j => 0 ≤ j < MAXFD | _ => True end.

(** Slot [i] of the address space of [e]. *)
Definition slot (e : Z) (v : vm) (f h : Z → Z) (i : Z) (o : option (Z * option Z)) : Prop :=
  match o with
  | None => entry v e (FDP i) = None
  | Some (d, g) =>
      (∃ perm, entry v e (FDP i) = Some (d, perm) ∧ writable perm = true) ∧
      (∀ g', g = Some g' → ∃ perm, entry v e (DATAP i) = Some (g', perm)) ∧
      i32 (ld32 (phys v) (d * PGSIZE + fd_offset)) = f d ∧
      i32 (ld32 (phys v) (d * PGSIZE + fd_dev_id)) = h d
  end.
Record rel (e : Z) (v : vm) (t : fdtab) : Prop := {
  rel_space : has_space v e;
  rel_bytes : bytes_ok (phys v);
  rel_range i : is_Some (tab t !! i) → 0 ≤ i < MAXFD;
  rel_slot i : 0 ≤ i < MAXFD → slot e v (off t) (dev t) i (tab t !! i)
}.

Lemma rel_open e v t i d g :
  rel e v t → tab t !! i = Some (d, g) →
  0 ≤ i < MAXFD ∧ (∃ perm, entry v e (FDP i) = Some (d, perm) ∧ writable perm = true) ∧
  (∀ g', g = Some g' → ∃ perm, entry v e (DATAP i) = Some (g', perm)) ∧
  i32 (ld32 (phys v) (d * PGSIZE + fd_offset)) = off t d ∧
  i32 (ld32 (phys v) (d * PGSIZE + fd_dev_id)) = dev t d.
Proof.
  intros R E. assert (0 ≤ i < MAXFD) as Hi by (apply (rel_range _ _ _ R); by rewrite E).
  split; [done|]. pose proof (rel_slot _ _ _ R i Hi) as H. by rewrite E in H.
Qed.
Lemma rel_closed e v t i : rel e v t → 0 ≤ i < MAXFD → tab t !! i = None → entry v e (FDP i) = None.
Proof. intros R Hi E. pose proof (rel_slot _ _ _ R i Hi) as H. by rewrite E in H. Qed.

(** The slots other than [i] keep their meaning when their entries and the fields of
    their open files do. *)
Definition field (x : Z) : Prop := x = fd_offset ∨ x = fd_dev_id.
Definition keeps (e i : Z) (v v' : vm) : Prop :=
  has_space v' e ∧ bytes_ok (phys v') ∧
  (∀ j, 0 ≤ j < MAXFD → j ≠ i → entry v' e (FDP j) = entry v e (FDP j) ∧ entry v' e (DATAP j) = entry v e (DATAP j)) ∧
  (∀ j d perm x, 0 ≤ j < MAXFD → entry v e (FDP j) = Some (d, perm) → field x →
     ld32 (phys v') (d * PGSIZE + x) = ld32 (phys v) (d * PGSIZE + x)).

Lemma slot_keeps e i v v' t j : keeps e i v v' → rel e v t → 0 ≤ j < MAXFD → j ≠ i → slot e v' (off t) (dev t) j (tab t !! j).
Proof.
  intros (_ & _ & He & Hp) R Hj Hne. destruct (He j Hj Hne) as [E1 E2]. pose proof (rel_slot _ _ _ R j Hj) as H.
  unfold slot in *. rewrite E1, E2. destruct (tab t !! j) as [[d g]|]; [|done].
  destruct H as ((perm & Ep & Hw) & Hg & Ho & Hd).
  split_and!; [by exists perm|done|rewrite (Hp j d perm _ Hj Ep); [done|by left]|rewrite (Hp j d perm _ Hj Ep); [done|by right]].
Qed.

Lemma keeps_rel e i v v' t o :
  0 ≤ i < MAXFD → keeps e i v v' → rel e v t → slot e v' (off t) (dev t) i o →
  rel e v' (mkTab (partial_alter (λ _, o) i (tab t)) (off t) (dev t)).
Proof.
  intros Hi K R Hs. split; [apply K|apply K| |].
  - intros j. cbn [tab]. destruct (decide (j = i)) as [->|Hne]; [done|].
    rewrite lookup_partial_alter_ne by done. apply (rel_range _ _ _ R).
  - intros j Hj. cbn [tab off dev]. destruct (decide (j = i)) as [->|Hne].
    + by rewrite lookup_partial_alter_eq.
    + rewrite lookup_partial_alter_ne by done. by apply (slot_keeps e i v).
Qed.

(** ** Single steps *)

Definition own_page (i n : Z) : Prop := n = FDP i ∨ n = DATAP i.
Lemma own_page_ne i j n : 0 ≤ i < MAXFD → 0 ≤ j < MAXFD → j ≠ i → own_page i n → FDP j ≠ n ∧ DATAP j ≠ n.
Proof. unfold own_page, FDP, DATAP, MAXFD. lia. Qed.

Lemma keeps_trans e i v1 v2 v3 :
  (∀ d perm x, entry v1 e (FDP i) = Some (d, perm) → field x →
     ld32 (phys v3) (d * PGSIZE + x) = ld32 (phys v1) (d * PGSIZE + x)) →
  keeps e i v1 v2 → keeps e i v2 v3 → keeps e i v1 v3.
Proof.
  intros Hi (_ & _ & He & Hp) (Hs & Hb & He' & Hp'). split_and!; [done|done| |].
  - intros j Hj Hne. destruct (He j Hj Hne) as [E1 E2], (He' j Hj Hne) as [-> ->]. done.
  - intros j d perm x Hj E Hx. destruct (decide (j = i)) as [->|Hne]; [by apply (Hi d perm)|].
    rewrite <-(Hp j d perm x Hj E Hx). apply (Hp' j d perm x Hj); [|done]. by destruct (He j Hj Hne) as [-> _].
Qed.

Lemma keeps_unmap e i n v :
  0 ≤ i < MAXFD → own_page i n → has_space v e → bytes_ok (phys v) → keeps e i v (unmap_page e n v).
Proof.
  intros Hi Hn Hs Hb. unfold keeps. rewrite phys_unmap. split_and!; [by apply has_space_unmap|done| |done].
  intros j Hj Hne. destruct (own_page_ne i j n Hi Hj Hne Hn). by rewrite !entry_unmap, !decide_False by naive_solver.
Qed.

Lemma keeps_map e i n f perm v :
  0 ≤ i < MAXFD → own_page i n → has_space v e → bytes_ok (phys v) → keeps e i v (map_page e n f perm v).
Proof.
  intros Hi Hn Hs Hb. unfold keeps. rewrite phys_map. split_and!; [by apply has_space_map|done| |done].
  intros j Hj Hne. destruct (own_page_ne i j n Hi Hj Hne Hn). by rewrite !entry_map, !decide_False by naive_solver.
Qed.

Lemma unmap_fd e i v t :
  rel e v t → 0 ≤ i < MAXFD → ∃ v', sys_page_unmap e (INDEX2FD i) v = Ret 0 v' ∧ rel e v' (del_fd i t) ∧ kfree v ≤ kfree v'.
Proof.
  intros R Hi. destruct (fd_pages_ok i Hi) as (H1 & H2 & _). rewrite INDEX2FD_page by done.
  destruct (unmap_run v e (FDP i) (rel_space _ _ _ R) H1 H2) as (k & T & E & Hk). eexists. split; [exact E|].
  split; [|by rewrite kfree_unmap]. apply (keeps_rel e i v _ t None Hi); [|done|].
  - apply (keeps_unmap e i (FDP i) (set_kern k T v)); [done|by left|apply R|apply R].
  - simpl. rewrite entry_unmap. by rewrite decide_True.
Qed.

Lemma unmap_data e i v t :
  rel e v t → 0 ≤ i < MAXFD → tab t !! i = None →
  ∃ v', sys_page_unmap e (fd2data (INDEX2FD i)) v = Ret 0 v' ∧ rel e v' t ∧ kfree v ≤ kfree v'.
Proof.
  intros R Hi Ht. destruct (fd_pages_ok i Hi) as (_ & _ & H1 & H2). rewrite fd2data_INDEX2FD by done.
  destruct (unmap_run v e (DATAP i) (rel_space _ _ _ R) H1 H2) as (k & T & E & Hk). eexists. split; [exact E|].
  split; [|by rewrite kfree_unmap]. replace t with (del_fd i t). 2: { unfold del_fd. rewrite delete_id by done. by destruct t. }
  apply (keeps_rel e i v _ t None Hi); [|done|].
  - apply (keeps_unmap e i (DATAP i) (set_kern k T v)); [done|by right|apply R|apply R].
  - simpl. rewrite entry_unmap, decide_False by (unfold FDP, DATAP; lia). by apply (rel_closed e v t).
Qed.

Section alloc.
Context (pick : vm → Z).
Context (pick_fresh : ∀ s, 0 < kfree s → ∀ e n perm, entry s e n ≠ Some (pick s, perm)).

(** A fresh zeroed page at one of the two pages of slot [i]. *)
Lemma alloc_keeps e i n v :
  0 ≤ i < MAXFD → own_page i n → has_space v e → bytes_ok (phys v) → 4 ≤ kfree v →
  ∃ d v', sys_page_alloc pick e (n * PGSIZE) PERM_FD v = Ret 0 v' ∧ (∀ x k perm, entry v x k ≠ Some (d, perm)) ∧
    keeps e i v v' ∧ kfree v - 4 ≤ kfree v' ∧ (∀ k, entry v' e k = if decide (k = n) then Some (d, PERM_FD) else entry v e k) ∧
    ∀ x, field x → ld32 (phys v') (d * PGSIZE + x) = 0.
Proof.
  intros Hi Hn Hs Hb Hk. destruct (fd_pages_ok i Hi) as (? & ? & ? & ?).
  destruct (alloc_run pick pick_fresh v e n PERM_FD Hs) as (d & v' & k & T & E & Hf & Ev & Hk' & Hb' & Hm);
    [by destruct Hn as [-> | ->]|by destruct Hn as [-> | ->]|done|done|done|].
  exists d, v'. split_and!; [done|done| |by rewrite Ev, kfree_map| |].
  - destruct (keeps_map e i n d PERM_FD (set_kern k T (set_phys (phys v') v)) Hi Hn Hs Hb') as (K1 & K2 & K3 & _).
    rewrite <-Ev in K1, K3. split_and!; [done|done|exact K3|].
    intros j d' perm x Hj Ed Hx. apply ld32_ext. intros b Hbr. rewrite Hm, decide_False; [done|].
    assert (d' ≠ d) by (intros ->; by apply (Hf e (FDP j) perm)). unfold field, PGSIZE, fd_offset, fd_dev_id in *. lia.
  - intros k'. rewrite Ev, entry_map by done. change (entry (set_kern k T _)) with (entry v). repeat case_decide; naive_solver.
  - intros x Hx. unfold ld32. rewrite !Hm, !decide_True by (unfold field, PGSIZE, fd_offset, fd_dev_id in *; lia). done.
Qed.

Lemma unused_fresh e v t d : rel e v t → (∀ x k perm, entry v x k ≠ Some (d, perm)) → unused t d.
Proof.
  intros R Hf i d' g E ->. destruct (rel_open e v t i d' g R E) as (_ & (perm & Ep & _) & _).
  by apply (Hf e (FDP i) perm).
Qed.

(** A new descriptor. *)
Lemma alloc_fd e i v t :
  rel e v t → 0 ≤ i < MAXFD → 4 ≤ kfree v →
  ∃ d v', sys_page_alloc pick e (INDEX2FD i) PERM_FD v = Ret 0 v' ∧ unused t d ∧ kfree v - 4 ≤ kfree v' ∧
    rel e v' (set_dev d 0 (set_off d 0 (add_fd i d None t))).
Proof.
  intros R Hi Hk. destruct (alloc_keeps e i (FDP i) v Hi ltac:(by left) (rel_space _ _ _ R) (rel_bytes _ _ _ R) Hk)
    as (d & v' & E & Hf & K & Hk' & He & Hz).
  exists d, v'. rewrite INDEX2FD_page by done. pose proof (unused_fresh e v t d R Hf) as Hu. split_and!; [done|done|done|].
  assert (rel e v (set_dev d 0 (set_off d 0 t))) as R'.
  { split; [apply R|apply R|apply (rel_range _ _ _ R)|]. intros j Hj. pose proof (rel_slot _ _ _ R j Hj) as Hs.
    cbn [tab set_off set_dev off dev]. destruct (tab t !! j) as [[d' g]|] eqn:Ej; [|done]. simpl in *.
    rewrite !decide_False; [done|..]; intros ->; by apply (Hu j d g). }
  apply (keeps_rel e i v v' (set_dev d 0 (set_off d 0 t)) (Some (d, None)) Hi K R'). simpl. split_and!.
  - exists PERM_FD. rewrite He. by rewrite decide_True.
  - done.
  - rewrite Hz by by left. by rewrite decide_True.
  - rewrite Hz by by right. by rewrite decide_True.
Qed.
End alloc.

Lemma i32_u32 v : i32 (u32 v) = i32 v.
Proof. unfold i32, u32. by rewrite Z.mod_mod. Qed.

(** A word of the [struct Fd] of an open file. *)
Definition word_set (d k w : Z) (t : fdtab) : fdtab :=
  if decide (k = 0) then set_dev d (i32 w) t else if decide (k = 4) then set_off d (i32 w) t else t.

Lemma rel_st32 e v t d k w :
  rel e v t → k = 0 ∨ k = 4 ∨ k = 8 → rel e (set_phys (st32 (phys v) (d * PGSIZE + k) w) v) (word_set d k w t).
Proof.
  intros R Hk. assert (tab (word_set d k w t) = tab t) as Et by (unfold word_set; by repeat case_decide).
  split; [apply R|by apply bytes_ok_st32, R|by rewrite Et; apply R|].
  intros j Hj. rewrite Et. pose proof (rel_slot _ _ _ R j Hj) as Hs. destruct (tab t !! j) as [[d' g]|]; [|done].
  destruct Hs as (Hp & Hg & Ho & Hd). unfold slot.
  change (phys (set_phys (st32 (phys v) (d * PGSIZE + k) w) v)) with (st32 (phys v) (d * PGSIZE + k) w).
  assert (∀ x, field x → ¬ (d' = d ∧ x = k) →
    ld32 (st32 (phys v) (d * PGSIZE + k) w) (d' * PGSIZE + x) = ld32 (phys v) (d' * PGSIZE + x)) as Hne.
  { intros x Hx Hn. apply ld32_st32_ne. unfold field, PGSIZE, fd_offset, fd_dev_id in *. destruct (decide (d' = d)) as [->|]; lia. }
  split_and!; [done|done| |].
  - unfold word_set. destruct (decide (d' = d ∧ fd_offset = k)) as [[-> <-]|Hn].
    + rewrite ld32_st32_eq, i32_u32. rewrite decide_False, decide_True by done. cbn. by rewrite decide_True.
    + rewrite Hne by (done || by left). rewrite Ho. repeat case_decide; try done. cbn. rewrite decide_False; [done|].
      intros ->. by apply Hn.
  - unfold word_set. destruct (decide (d' = d ∧ fd_dev_id = k)) as [[-> <-]|Hn].
    + rewrite ld32_st32_eq, i32_u32. rewrite decide_True by done. cbn. by rewrite decide_True.
    + rewrite Hne by (done || by right). rewrite Hd. repeat case_decide; try done. cbn. rewrite decide_False; [done|].
      intros ->. by apply Hn.
Qed.

(** Takes the branch of a call that succeeded, of one that failed. *)
Ltac no_error := change (0 <? 0) with false; cbv iota.
Ltac on_error := change (- E_MAX_OPEN <? 0) with true; cbv iota.

Section ops.
Context {X : Type} (pick : vm → Z) (e : Z).
Context (pick_fresh : ∀ s, 0 < kfree s → ∀ e n perm, entry s e n ≠ Some (pick s, perm)).
Context (devfile devsock : Dev (X := X)) (devpipe_read devpipe_write : Z → Z → Z → U (X := X) Z).
Context (devpipe_stat : Z → Z → U (X := X) Z) (cons_addr pipe_addr : Z).

(** What a device may do when a descriptor of its own is closed: it returns, leaves the
    other descriptors alone and uses at most [CLOSE_PAGES] pages of the kernel. *)
Definition CLOSE_PAGES : Z := 16.
Definition dev_ok (dev : Dev (X := X)) : Prop :=
  ∀ f, dev_close dev = Some f → ∀ i s t, rel e (uvm s) t → is_Some (tab t !! i) → CLOSE_PAGES ≤ kfree (uvm s) →
  ∃ r s', f (INDEX2FD i) s = Ret r s' ∧ keeps e i (uvm s) (uvm s') ∧ kfree (uvm s) - CLOSE_PAGES ≤ kfree (uvm s').
Context (devfile_ok : dev_ok devfile) (devsock_ok : dev_ok devsock).
Context (devfile_id : dev_id devfile = 102) (devsock_id : dev_id devsock = 115).

Implicit Types s : ust (X := X).

Lemma vmop_Ret {A} (m : V A) s a v : m (uvm s) = Ret a v → vmop m s = Ret a (set_uvm v s).
Proof. intros E. unfold vmop. by rewrite E. Qed.

Lemma pte_run va s : 
  sys_uvpt_pte e va s = Ret (match entry (uvm s) e (va / PGSIZE) with Some (_, perm) => Z.lor perm PTE_V | None => 0 end) s.
Proof. done. Qed.

Lemma fd_page i : 0 ≤ i < MAXFD → INDEX2FD i / PGSIZE = FDP i.
Proof. intros Hi. rewrite INDEX2FD_page by done. by rewrite Z.div_mul. Qed.
Lemma data_page i : 0 ≤ i < MAXFD → fd2data (INDEX2FD i) / PGSIZE = DATAP i.
Proof. intros Hi. rewrite fd2data_INDEX2FD by done. by rewrite Z.div_mul. Qed.

(** The test for an open descriptor. *)
Lemma open_test i s t :
  rel e (uvm s) t → 0 ≤ i < MAXFD →
  ∃ pte, sys_uvpt_pte e (INDEX2FD i) s = Ret pte s ∧ (Z.land pte PTE_V =? 0) = bool_decide (tab t !! i = None).
Proof.
  intros R Hi. eexists. split; [apply pte_run|]. rewrite fd_page by done.
  destruct (tab t !! i) as [[d g]|] eqn:Et.
  - destruct (rel_open e _ t i d g R Et) as (_ & (perm & -> & _) & _). by rewrite pte_valid_bit.
  - by rewrite (rel_closed e _ t i R Hi Et).
Qed.

Lemma lookup_run i s t :
  rel e (uvm s) t →
  fd_lookup e i s = Ret (match tab t !! i with Some _ => (0, INDEX2FD i) | None => (- E_INVAL, 0) end) s.
Proof.
  intros R. unfold fd_lookup. destruct (decide (0 ≤ i < MAXFD)) as [Hi|Hi].
  - destruct (Z.ltb_spec i 0); [lia|]. destruct (Z.leb_spec MAXFD i); [lia|]. cbn [orb].
    destruct (open_test i s t R Hi) as (pte & E & Hv). step_with E. rewrite Hv.
    destruct (tab t !! i) as [[]|]; done.
  - destruct (tab t !! i) eqn:Et; [destruct Hi; apply (rel_range _ _ _ R); by rewrite Et|].
    assert ((i <? 0) || (MAXFD <=? i) = true) as -> by (zcases; cbn; lia). done.
Qed.

Lemma alloc_loop_run n i s t :
  rel e (uvm s) t → i + Z.of_nat n = MAXFD → 0 ≤ i → (∀ j, 0 ≤ j < i → is_Some (tab t !! j)) →
  (∃ k, lowest t k ∧ fd_alloc_loop e n i s = Ret (0, INDEX2FD k) s) ∨
  (full t ∧ fd_alloc_loop e n i s = Ret (- E_MAX_OPEN, 0) s).
Proof.
  intros R. revert i. induction n as [|n IH]; intros i Hn Hi Hlow; cbn [fd_alloc_loop].
  - right. split; [|done]. intros j Hj. apply Hlow. lia.
  - destruct (open_test i s t R ltac:(lia)) as (pte & E & Hv). step_with E. rewrite Hv.
    destruct (tab t !! i) eqn:Et.
    + rewrite bool_decide_false by done. apply IH; [lia|lia|]. intros j Hj.
      destruct (decide (j = i)) as [->|]; [by rewrite Et|apply Hlow; lia].
    + rewrite bool_decide_true by done. left. exists i. split; [|done]. split_and!; [lia|lia|done|done].
Qed.
Lemma alloc_run_fd s t :
  rel e (uvm s) t →
  (∃ k, lowest t k ∧ fd_alloc e s = Ret (0, INDEX2FD k) s) ∨ (full t ∧ fd_alloc e s = Ret (- E_MAX_OPEN, 0) s).
Proof. intros R. apply (alloc_loop_run _ 0 s t R); [done|done|lia]. Qed.

(** Fields of an open descriptor. *)
Lemma place_field i k v t d g :
  rel e v t → tab t !! i = Some (d, g) → 0 ≤ k < PGSIZE →
  ∃ perm, place e (INDEX2FD i + k) v = Some (d * PGSIZE + k, perm) ∧ writable perm = true.
Proof.
  intros R Et Hk. destruct (rel_open e v t i d g R Et) as (Hi & (perm & Ep & Hw) & _). exists perm. split; [|done].
  rewrite INDEX2FD_page by done. rewrite (place_Some v e _ d perm).
  - by rewrite (Z.add_comm (FDP i * PGSIZE)), Z.mod_add, Z.mod_small by done.
  - by rewrite Z.add_comm, Z.div_add, Z.div_small, Z.add_0_l by done.
Qed.
Lemma ld_field i k s t d g :
  rel e (uvm s) t → tab t !! i = Some (d, g) → 0 ≤ k < PGSIZE →
  uld32 e (INDEX2FD i + k) s = Ret (i32 (ld32 (phys (uvm s)) (d * PGSIZE + k))) s.
Proof.
  intros R Et Hk. destruct (place_field i k _ t d g R Et Hk) as (perm & Ep & _). unfold uld32. by rewrite Ep.
Qed.
Lemma st_field i k w s t d g :
  rel e (uvm s) t → tab t !! i = Some (d, g) → k = 0 ∨ k = 4 ∨ k = 8 →
  ∃ s', ust32 pick e (INDEX2FD i + k) w s = Ret tt s' ∧
    rel e (uvm s') (word_set d k w t) ∧ kfree (uvm s') = kfree (uvm s).
Proof.
  intros R Et Hk. destruct (place_field i k _ t d g R Et ltac:(unfold PGSIZE; lia)) as (perm & Ep & Hw).
  unfold ust32. rewrite Ep, Hw. cbv zeta beta. eexists. split; [done|]. split; [by apply rel_st32|done].
Qed.

(** ** Closing *)

Lemma phys_kern k T v : phys (set_kern k T v) = phys v.
Proof. done. Qed.

Lemma devpipe_close_run i s t :
  rel e (uvm s) t → is_Some (tab t !! i) →
  ∃ s', devpipe_close e (INDEX2FD i) s = Ret 0 s' ∧ keeps e i (uvm s) (uvm s') ∧ kfree (uvm s) ≤ kfree (uvm s').
Proof.
  intros R Hi. pose proof (rel_range _ _ _ R i Hi) as Hr. destruct (fd_pages_ok i Hr) as (H1 & H2 & H3 & H4).
  destruct (unmap_run (uvm s) e (FDP i) (rel_space _ _ _ R) H1 H2) as (k1 & T1 & E1 & Hk1).
  pose proof (keeps_unmap e i (FDP i) (set_kern k1 T1 (uvm s)) Hr ltac:(by left) (rel_space _ _ _ R) (rel_bytes _ _ _ R)) as K1.
  destruct (unmap_run _ e (DATAP i) (proj1 K1) H3 H4) as (k2 & T2 & E2 & Hk2).
  pose proof (keeps_unmap e i (DATAP i) (set_kern k2 T2 (unmap_page e (FDP i) (set_kern k1 T1 (uvm s)))) Hr
    ltac:(by right) (proj1 K1) (proj1 (proj2 K1))) as K2.
  eexists. split.
  { unfold devpipe_close. erewrite bind_Ret_l by (apply vmop_Ret; rewrite INDEX2FD_page by done; exact E1).
    cbv beta. apply vmop_Ret. rewrite fd2data_INDEX2FD by done. exact E2. }
  rewrite kfree_unmap in Hk2. cbn [uvm set_uvm]. split.
  - eapply (keeps_trans e i (uvm s)); [|exact K1|exact K2]. intros d perm x _ _. by rewrite phys_unmap, phys_kern, phys_unmap.
  - rewrite kfree_unmap. cbn in *. lia.
Qed.

Notation dev_lookup := (dev_lookup pick e devfile devsock devpipe_read devpipe_write devpipe_stat cons_addr pipe_addr).
Notation devpipe := (devpipe e devpipe_read devpipe_write devpipe_stat pipe_addr).
Notation devcons := (devcons pick e cons_addr).

(** The device with number [id], and what closing a descriptor through it returns. *)
Lemma dev_lookup_cases id :
  match dev_lookup id with
  | Some dev => id = 102 ∧ dev = devfile ∨ id = 115 ∧ dev = devsock ∨ id = 112 ∧ dev = devpipe ∨ id = 99 ∧ dev = devcons
  | None => id ∉ [102; 115; 112; 99]
  end.
Proof.
  unfold dev_lookup, devtab. cbn [list_find]. rewrite devfile_id, devsock_id. cbn [dev_id].
  do 4 (case_decide; [cbn; naive_solver|]). cbn. rewrite !elem_of_cons. set_solver.
Qed.

Lemma device_close i id s t :
  rel e (uvm s) t → is_Some (tab t !! i) → CLOSE_PAGES ≤ kfree (uvm s) →
  ∃ r s', match dev_lookup id with
    | Some dev => match dev_close dev with Some f => f (INDEX2FD i) | None => ret 0 end
    | None => ret (- E_INVAL) end s = Ret r s' ∧
    keeps e i (uvm s) (uvm s') ∧ kfree (uvm s) - CLOSE_PAGES ≤ kfree (uvm s') ∧ close_result id r.
Proof.
  intros R Hi Hk. assert (keeps e i (uvm s) (uvm s)) as K by (split_and!; try done; apply R).
  pose proof (dev_lookup_cases id) as Hc. unfold CLOSE_PAGES in *. destruct (dev_lookup id) as [dev|].
  2: { exists (- E_INVAL), s. split_and!; [done|done|lia|]. split; [set_solver|done]. }
  assert (∀ r, id ∈ [102; 115] → close_result id r) as Hr.
  { intros r Hin. split; [intros [-> | ->]; set_solver|]. set_solver. }
  assert (id = 112 ∨ id = 99 → close_result id 0) as H0 by (intros [-> | ->]; split; [done|set_solver|done|set_solver]).
  assert (∀ d, dev_ok d → id ∈ [102; 115] → ∃ r s', match dev_close d with Some f => f (INDEX2FD i) | None => ret 0 end s = Ret r s' ∧
    keeps e i (uvm s) (uvm s') ∧ kfree (uvm s) - 16 ≤ kfree (uvm s') ∧ close_result id r) as Hd.
  { intros d Hok Hin. destruct (dev_close d) as [f|] eqn:Ef.
    - destruct (Hok f Ef i s t R Hi Hk) as (r & s' & E & K' & Hk'). exists r, s'. unfold CLOSE_PAGES in *. auto.
    - exists 0, s. split_and!; [done|done|lia|auto]. }
  destruct Hc as [[-> ->]|[[-> ->]|[[-> ->]|[-> ->]]]]; [apply Hd; [done|set_solver]|apply Hd; [done|set_solver]| |].
  - destruct (devpipe_close_run i s t R Hi) as (s' & E & K' & Hk'). exists 0, s'. split_and!; [done|done|lia|auto].
  - exists 0, s. split_and!; [done|done|lia|auto].
Qed.

Notation fd_close := (fd_close pick e devfile devsock devpipe_read devpipe_write devpipe_stat cons_addr pipe_addr).
Notation close := (close pick e devfile devsock devpipe_read devpipe_write devpipe_stat cons_addr pipe_addr).
Notation dup := (dup pick e devfile devsock devpipe_read devpipe_write devpipe_stat cons_addr pipe_addr).

(** After the device, whatever it did to the slot, the page goes. *)
Lemma unmap_keeps i v v' t :
  rel e v t → 0 ≤ i < MAXFD → keeps e i v v' →
  ∃ v2, sys_page_unmap e (INDEX2FD i) v' = Ret 0 v2 ∧ rel e v2 (del_fd i t) ∧ kfree v' ≤ kfree v2.
Proof.
  intros R Hi K. destruct (fd_pages_ok i Hi) as (H1 & H2 & _). rewrite INDEX2FD_page by done.
  destruct (unmap_run v' e (FDP i) (proj1 K) H1 H2) as (k & T & E & Hk). eexists. split; [exact E|].
  split; [|by rewrite kfree_unmap]. apply (keeps_rel e i v _ t None Hi); [|done|].
  - apply (keeps_trans e i v v'); [|done|].
    + intros d perm x Ep Hx. rewrite phys_unmap. by apply (proj2 (proj2 (proj2 K)) i d perm).
    + apply (keeps_unmap e i (FDP i) (set_kern k T v')); [done|by left|apply K|apply K].
  - simpl. rewrite entry_unmap. by rewrite decide_True.
Qed.

Lemma close_run i s t d g :
  rel e (uvm s) t → tab t !! i = Some (d, g) → CLOSE_PAGES ≤ kfree (uvm s) →
  ∃ r s', close i s = Ret r s' ∧ rel e (uvm s') (del_fd i t) ∧ kfree (uvm s) - CLOSE_PAGES ≤ kfree (uvm s') ∧
    close_result (dev t d) r.
Proof.
  intros R Et Hk. destruct (rel_open e _ t i d g R Et) as (Hi & _ & _ & _ & Hid).
  pose proof (lookup_run i s t R) as El. rewrite Et in El.
  unfold close, fd_close. step_with El. cbn [fst snd]. no_error.
  rewrite fd2num_INDEX2FD by done. step_with El. cbn [fst snd]. rewrite Z.eqb_refl. change (0 <? 0) with false. cbn [orb negb]. cbv iota.
  step_with (ld_field i fd_dev_id s t d g R Et ltac:(done)). rewrite Hid.
  destruct (device_close i (dev t d) s t R ltac:(by rewrite Et) Hk) as (r & s' & Er & K & Hk' & Hr). step_with Er.
  destruct (unmap_keeps i _ _ t R Hi K) as (v2 & E2 & R2 & Hk2).
  exists r. eexists. split; [step_with (vmop_Ret _ _ _ _ E2); done|]. split_and!; [done|cbn; lia|done].
Qed.

Lemma close_bad i s t : rel e (uvm s) t → tab t !! i = None → close i s = Ret (- E_INVAL) s.
Proof. intros R Et. pose proof (lookup_run i s t R) as El. rewrite Et in El. unfold close. by step_with El. Qed.

(** ** Duplicating *)

Lemma close_any j s t :
  rel e (uvm s) t → CLOSE_PAGES ≤ kfree (uvm s) →
  ∃ r s', close j s = Ret r s' ∧ rel e (uvm s') (del_fd j t) ∧ kfree (uvm s) - CLOSE_PAGES ≤ kfree (uvm s').
Proof.
  intros R Hk. destruct (tab t !! j) as [[d g]|] eqn:Et.
  - destruct (close_run j s t d g R Et Hk) as (r & s' & ? & ? & ? & _). by exists r, s'.
  - eexists _, s. split; [by apply (close_bad j s t)|]. unfold del_fd. rewrite delete_id by done. destruct t.
    split; [done|]. unfold CLOSE_PAGES. lia.
Qed.

(** The data page of [i], if there is one, becomes that of [j] as well. *)
Lemma dup_data i j v t :
  rel e v t → 0 ≤ i < MAXFD → 0 ≤ j < MAXFD → 3 ≤ kfree v →
  ∃ v', (∀ s, uvm s = v →
    (pte <- sys_uvpt_pte e (fd2data (INDEX2FD i)) ;;
     (if negb (Z.land pte PTE_V =? 0)
      then vmop (sys_page_map e (fd2data (INDEX2FD i)) e (fd2data (INDEX2FD j)) (Z.land pte PTE_SYSCALL)) else ret 0)) s =
    Ret 0 (set_uvm v' s)) ∧ keeps e j v v' ∧ kfree v - 3 ≤ kfree v' ∧ phys v' = phys v ∧
    (∀ f p, entry v e (DATAP i) = Some (f, p) → ∃ p', entry v' e (DATAP j) = Some (f, p')) ∧
    (∀ k, entry v' e (FDP k) = entry v e (FDP k) ∨ FDP k = DATAP j).
Proof.
  intros R Hi Hj Hk. destruct (fd_pages_ok i Hi) as (_ & _ & H1 & H2), (fd_pages_ok j Hj) as (_ & _ & H3 & H4).
  destruct (entry v e (DATAP i)) as [[f p]|] eqn:E.
  - destruct (map_run v e (DATAP i) e (DATAP j) f p (Z.land (Z.lor p PTE_V) PTE_SYSCALL)) as (k & T & Em & Hk');
      [apply R|done|done|done|done|done|by rewrite writable_pte|done|].
    exists (map_page e (DATAP j) f (Z.land (Z.lor p PTE_V) PTE_SYSCALL) (set_kern k T v)).
    assert (has_space (set_kern k T v) e) as Hs by apply R. split_and!.
    + intros s <-. step_with (pte_run (fd2data (INDEX2FD i)) s). rewrite data_page, E, pte_valid_bit by done. cbn [negb].
      apply vmop_Ret. by rewrite !fd2data_INDEX2FD by done.
    + apply (keeps_map e j (DATAP j) f _ (set_kern k T v)); [done|by right|apply R|apply R].
    + by rewrite kfree_map.
    + by rewrite phys_map.
    + intros f' p' [= <- <-]. rewrite entry_map by done. rewrite decide_True by done. by eexists.
    + intros k'. rewrite entry_map by done. case_decide as Hd; [right; by destruct Hd|by left].
  - exists v. split_and!; [|split_and!; try done; apply R|lia|done|done|by left].
    intros s <-. step_with (pte_run (fd2data (INDEX2FD i)) s). rewrite data_page, E by done. by destruct s.
Qed.

(** The pages of the kernel that one call may use up. *)
Definition OP_PAGES : Z := CLOSE_PAGES + 6.

Lemma dup_run i j s t d g :
  rel e (uvm s) t → tab t !! i = Some (d, g) → i ≠ j → 0 ≤ j < MAXFD → OP_PAGES ≤ kfree (uvm s) →
  ∃ s', dup i j s = Ret j s' ∧ rel e (uvm s') (add_fd j d g t) ∧ kfree (uvm s) - OP_PAGES ≤ kfree (uvm s').
Proof.
  unfold OP_PAGES. intros R Et Hne Hj Hk. pose proof (rel_range _ _ _ R i ltac:(by rewrite Et)) as Hi.
  pose proof (lookup_run i s t R) as El. rewrite Et in El.
  unfold dup. step_with El. cbn [fst snd]. no_error.
  destruct (close_any j s t R ltac:(lia)) as (r & s1 & E1 & R1 & Hk1). step_with E1.
  assert (tab (del_fd j t) !! i = Some (d, g)) as Et1 by (cbn [tab del_fd]; by rewrite lookup_delete_ne).
  destruct (dup_data i j _ _ R1 Hi Hj ltac:(lia)) as (v2 & E2 & K2 & Hk2 & Hph & Hd2 & Hf2). specialize (E2 s1 eq_refl).
  rewrite <-bind_assoc. step_with E2. no_error.
  destruct (rel_open e _ _ i d g R1 Et1) as (_ & (p & Ep & Hw) & Hg & Ho).
  assert (entry v2 e (FDP i) = Some (d, p)) as Ep2.
  { destruct (Hf2 i) as [-> |Hx]; [done|]. unfold FDP, DATAP, MAXFD in *. lia. }
  step_with (pte_run (INDEX2FD i) (set_uvm v2 s1)). cbn [uvm set_uvm]. rewrite fd_page, Ep2 by done.
  destruct (fd_pages_ok i Hi) as (H1 & H2 & _), (fd_pages_ok j Hj) as (H3 & H4 & _). pose proof K2 as (K2a & K2b & _).
  destruct (map_run v2 e (FDP i) e (FDP j) d p (Z.land (Z.lor p PTE_V) PTE_SYSCALL)) as (k & T & Em & Hk3);
    [done|done|done|done|done|done|by rewrite writable_pte|lia|].
  erewrite bind_Ret_l by (apply vmop_Ret; rewrite !INDEX2FD_page by done; exact Em).
  cbv beta. no_error. eexists. split; [done|]. cbn [uvm set_uvm]. split; [|rewrite kfree_map; cbn; lia].
  assert (add_fd j d g t = add_fd j d g (del_fd j t)) as ->.
  { unfold add_fd, del_fd. cbn [tab off dev]. by rewrite insert_delete_eq. }
  eapply (keeps_rel e j _ _ _ (Some (d, g)) Hj); [|exact R1|].
  - eapply keeps_trans; [|exact K2|apply (keeps_map e j (FDP j) d _ (set_kern k T v2)); [done|by left|done|done]].
    intros d' p' x _ _. by rewrite phys_map, <-Hph.
  - simpl. rewrite phys_map. change (phys (set_kern k T v2)) with (phys v2). rewrite Hph.
    rewrite !entry_map, decide_True by done. split_and!; [|..|apply Ho|apply Ho].
    + eexists. split; [done|]. by rewrite writable_pte.
    + intros g' ->. destruct (Hg g' eq_refl) as (p' & E'). destruct (Hd2 g' p' E') as (p2 & E2').
      exists p2. rewrite decide_False; [done|]. unfold FDP, DATAP. lia.
Qed.

Lemma map_none n n' perm v :
  has_space v e → 0 ≤ n → n * PGSIZE < UTOP → 0 ≤ n' → n' * PGSIZE < UTOP → entry v e n = None →
  sys_page_map e (n * PGSIZE) e (n' * PGSIZE) perm v = Ret (- E_INVAL) v.
Proof.
  intros [x Hx] H1 H2 H3 H4 E. unfold sys_page_map. rewrite Hx, !good_va by done. cbn [orb]. by rewrite !Z.div_mul, E.
Qed.

(** To itself: the descriptor is closed before it is mapped, and the mapping fails. *)
Lemma dup_same_run i s t :
  rel e (uvm s) t → is_Some (tab t !! i) → OP_PAGES ≤ kfree (uvm s) →
  ∃ s', dup i i s = Ret (- E_INVAL) s' ∧ rel e (uvm s') (del_fd i t) ∧ kfree (uvm s) - OP_PAGES ≤ kfree (uvm s').
Proof.
  unfold OP_PAGES. intros R [[d g] Et] Hk. pose proof (rel_range _ _ _ R i ltac:(by rewrite Et)) as Hi.
  pose proof (lookup_run i s t R) as El. rewrite Et in El.
  unfold dup. step_with El. cbn [fst snd]. no_error.
  destruct (close_any i s t R ltac:(lia)) as (r & s1 & E1 & R1 & Hk1). step_with E1.
  assert (tab (del_fd i t) !! i = None) as Et1 by (cbn [tab del_fd]; by rewrite lookup_delete_eq).
  destruct (dup_data i i _ _ R1 Hi Hi ltac:(lia)) as (v2 & E2 & K2 & Hk2 & Hph & Hd2 & Hf2). specialize (E2 s1 eq_refl).
  rewrite <-bind_assoc. step_with E2. no_error.
  assert (entry v2 e (FDP i) = None) as En.
  { destruct (Hf2 i) as [-> |Hx]; [by apply (rel_closed e _ (del_fd i t))|]. unfold FDP, DATAP, MAXFD in *. lia. }
  assert (rel e v2 (del_fd i t)) as R2.
  { replace (del_fd i t) with (del_fd i (del_fd i t)) by (unfold del_fd; cbn [tab off dev]; by rewrite delete_delete_eq).
    by apply (keeps_rel e i _ v2 _ None Hi K2 R1). }
  step_with (pte_run (INDEX2FD i) (set_uvm v2 s1)). cbn [uvm set_uvm]. rewrite fd_page, En by done.
  destruct (fd_pages_ok i Hi) as (H1 & H2 & _).
  erewrite bind_Ret_l by (apply vmop_Ret; rewrite !INDEX2FD_page by done; apply map_none; [apply R2|done..]).
  cbv beta. change (- E_INVAL <? 0) with true. cbv iota. cbn [uvm set_uvm].
  destruct (unmap_fd e i v2 _ R2 Hi) as (v3 & E3 & R3 & Hk3). step_with (vmop_Ret _ (set_uvm v2 s1) _ _ E3).
  destruct (unmap_data e i v3 _ R3 Hi) as (v4 & E4 & R4 & Hk4); [cbn; by rewrite lookup_delete_eq|].
  step_with (vmop_Ret _ (set_uvm v3 (set_uvm v2 s1)) _ _ E4). eexists. split; [done|]. cbn [uvm set_uvm]. split; [|lia].
  unfold del_fd in *. cbn [tab off dev] in *. by rewrite delete_delete_eq in R4.
Qed.

(** ** Seeking and opening *)

Notation opencons := (opencons pick e cons_addr).
Notation pipe := (pipe pick e devpipe_read devpipe_write devpipe_stat pipe_addr).

(** The fields of files no descriptor refers to do not matter. *)
Lemma rel_fields v t t' :
  rel e v t → tab t' = tab t → (∀ i d g, tab t !! i = Some (d, g) → off t' d = off t d ∧ dev t' d = dev t d) → rel e v t'.
Proof.
  intros R Ht Hf. split; [apply R|apply R|rewrite Ht; apply (rel_range _ _ _ R)|]. intros i Hi.
  pose proof (rel_slot _ _ _ R i Hi) as Hs. rewrite Ht. destruct (tab t !! i) as [[d g]|] eqn:Et; [|done].
  destruct (Hf i d g Et) as [Ho Hd]. unfold slot in *. by rewrite Ho, Hd.
Qed.

Lemma seek_run i o s t d g :
  rel e (uvm s) t → tab t !! i = Some (d, g) →
  ∃ s', seek pick e i o s = Ret 0 s' ∧ rel e (uvm s') (set_off d (i32 o) t) ∧ kfree (uvm s') = kfree (uvm s).
Proof.
  intros R Et. pose proof (lookup_run i s t R) as El. rewrite Et in El.
  destruct (st_field i fd_offset o s t d g R Et ltac:(by right; left)) as (s' & E' & R' & Hk).
  exists s'. split; [|split; [exact R'|done]]. unfold seek. step_with El. cbn [fst snd]. no_error.
  by step_with E'.
Qed.

(** The two fields a new descriptor gets. *)
Lemma init_fd i id mode s t d g :
  rel e (uvm s) t → tab t !! i = Some (d, g) →
  ∃ s', (∀ A (k : U A), (ust32 pick e (INDEX2FD i + fd_dev_id) id ;;; ust32 pick e (INDEX2FD i + fd_omode) mode ;;; k) s = k s') ∧
    rel e (uvm s') (set_dev d (i32 id) t) ∧ kfree (uvm s') = kfree (uvm s).
Proof.
  intros R Et. destruct (st_field i 0 id s t d g R Et ltac:(by left)) as (s1 & E1 & R1 & Hk1).
  destruct (st_field i 8 mode s1 (set_dev d (i32 id) t) d g R1 Et ltac:(by right; right)) as (s2 & E2 & R2 & Hk2).
  exists s2. split; [|split; [exact R2|congruence]]. intros A k. step_with E1. by step_with E2.
Qed.

Lemma opencons_run s t :
  rel e (uvm s) t → 4 ≤ kfree (uvm s) →
  ∃ r s' t', opencons s = Ret r s' ∧ fdstep t OOpencons (r, 0, 0) t' ∧ rel e (uvm s') t' ∧ kfree (uvm s) - 4 ≤ kfree (uvm s').
Proof.
  intros R Hk. unfold opencons. destruct (alloc_run_fd s t R) as [(i & Hl & E)|[Hf E]]; step_with E; cbn [fst snd].
  - no_error.
    destruct (alloc_fd pick pick_fresh e i _ t R (proj1 Hl) Hk) as (d & v1 & E1 & Hu & Hk1 & R1).
    step_with (vmop_Ret _ _ _ _ E1). no_error.
    edestruct (init_fd i (dev_id (devcons : Dev (X := X))) O_RDWR (set_uvm v1 s) _ d None R1) as (s2 & E2 & R2 & Hk2).
    { cbn [tab set_off set_dev add_fd]. by rewrite lookup_insert_eq. }
    rewrite E2. rewrite fd2num_INDEX2FD by apply Hl. eexists _, s2, _. split; [done|]. split; [by apply st_cons|].
    rewrite Hk2. split; [|done]. apply (rel_fields _ _ _ R2); [done|]. intros k d' g' _. cbn. by repeat case_decide.
  - eexists _, s, t. split; [done|]. split; [by apply st_cons_full|]. split; [done|lia].
Qed.

(** The data page of a pipe. *)
Lemma data_alloc i v t d g0 :
  rel e v t → tab t !! i = Some (d, g0) → 4 ≤ kfree v →
  ∃ g v', sys_page_alloc pick e (fd2data (INDEX2FD i)) PERM_FD v = Ret 0 v' ∧ rel e v' (add_fd i d (Some g) t) ∧
    entry v' e (DATAP i) = Some (g, PERM_FD) ∧ kfree v - 4 ≤ kfree v'.
Proof.
  intros R Et Hk. destruct (rel_open e v t i d g0 R Et) as (Hi & (p & Ep & Hw) & _ & Ho & Hd).
  destruct (alloc_keeps pick pick_fresh e i (DATAP i) v Hi ltac:(by right) (rel_space _ _ _ R) (rel_bytes _ _ _ R) Hk)
    as (g & v' & E & Hf & K & Hk' & He & _).
  exists g, v'. rewrite fd2data_INDEX2FD by done. split_and!; [done| |by rewrite He, decide_True|done].
  apply (keeps_rel e i v v' t (Some (d, Some g)) Hi K R). destruct K as (_ & _ & _ & Hp). simpl. split_and!.
  - exists p. rewrite He, decide_False; [done|]. unfold FDP, DATAP. lia.
  - intros g' [= <-]. exists PERM_FD. by rewrite He, decide_True.
  - rewrite (Hp i d p _ Hi Ep); [done|by left].
  - rewrite (Hp i d p _ Hi Ep); [done|by right].
Qed.

Lemma data_map i j v t d g g0 :
  rel e v t → 0 ≤ i < MAXFD → tab t !! j = Some (d, g0) → entry v e (DATAP i) = Some (g, PERM_FD) → 3 ≤ kfree v →
  ∃ v', sys_page_map e (fd2data (INDEX2FD i)) e (fd2data (INDEX2FD j)) PERM_FD v = Ret 0 v' ∧
    rel e v' (add_fd j d (Some g) t) ∧ kfree v - 3 ≤ kfree v'.
Proof.
  intros R Hi Et Eg Hk. destruct (rel_open e v t j d g0 R Et) as (Hj & (p & Ep & Hw) & _ & Ho & Hd).
  destruct (fd_pages_ok i Hi) as (_ & _ & H1 & H2), (fd_pages_ok j Hj) as (_ & _ & H3 & H4).
  destruct (map_run v e (DATAP i) e (DATAP j) g PERM_FD PERM_FD) as (k & T & Em & Hk');
    [apply R|done|done|done|done|done|done|done|].
  assert (has_space (set_kern k T v) e) as Hs by apply R.
  rewrite !fd2data_INDEX2FD by done. eexists. split; [exact Em|]. split; [|by rewrite kfree_map].
  apply (keeps_rel e j v _ t (Some (d, Some g)) Hj); [apply (keeps_map e j _ _ _ (set_kern k T v)); [done|by right|apply R|apply R]|done|].
  simpl. rewrite phys_map, !entry_map by done. rewrite decide_False by (unfold FDP, DATAP; lia). split_and!; [by exists p| |done|done].
  intros g' [= <-]. exists PERM_FD. by rewrite decide_True.
Qed.

Lemma lowest_unique t i j : lowest t i → lowest t j → i = j.
Proof.
  intros (Hi & Ei & Li) (Hj & Ej & Lj). destruct (Z.lt_trichotomy i j) as [H|[H|H]]; [|done|].
  - destruct (Lj i ltac:(lia)) as [x Hx]. by rewrite Hx in Ei.
  - destruct (Li j ltac:(lia)) as [x Hx]. by rewrite Hx in Ej.
Qed.

(** The second descriptor cannot be had: the first one goes again. *)
Lemma pipe_undo i d v t :
  lowest t i → unused t d → rel e v (set_dev d 0 (set_off d 0 (add_fd i d None t))) → full (add_fd i d None t) →
  (∀ i' d' j, lowest t i' → ¬ lowest (add_fd i' d' None t) j) ∧
  ∃ v', sys_page_unmap e (INDEX2FD i) v = Ret 0 v' ∧ rel e v' t ∧ kfree v ≤ kfree v'.
Proof.
  intros Hi Hu R Hf. split.
  - intros i' d' j Hi' (Hj & Ej' & _). rewrite (lowest_unique t i' i Hi' Hi) in Ej'.
    destruct (Hf j Hj) as [x Hx]. cbn [tab add_fd] in *.
    destruct (decide (j = i)) as [->|]; [by rewrite lookup_insert_eq in Ej'|].
    rewrite lookup_insert_ne in Ej', Hx by done. by rewrite Hx in Ej'.
  - destruct (unmap_fd e i _ _ R (proj1 Hi)) as (v2 & E2 & R2 & Hk2). exists v2. split; [done|]. split; [|done].
    assert (tab (del_fd i (set_dev d 0 (set_off d 0 (add_fd i d None t)))) = tab t) as Et.
    { cbn [tab del_fd set_off set_dev add_fd]. by rewrite delete_insert_id by apply Hi. }
    apply (rel_fields _ _ t R2); [by rewrite Et|].
    intros k d' g' Ek. rewrite Et in Ek. cbn. rewrite !decide_False; [done|..]; intros ->; by apply (Hu k d g').
Qed.

Lemma pipe_run s t :
  rel e (uvm s) t → OP_PAGES ≤ kfree (uvm s) →
  ∃ r s' t', pipe s = Ret r s' ∧ fdstep t OPipe r t' ∧ rel e (uvm s') t' ∧ kfree (uvm s) - OP_PAGES ≤ kfree (uvm s').
Proof.
  unfold OP_PAGES, CLOSE_PAGES. intros R Hk. unfold pipe.
  destruct (alloc_run_fd s t R) as [(i & Hi & E)|[Hf E]]; step_with E; cbn [fst snd].
  2: { on_error. step_pure. on_error.
       eexists _, s, t. split; [done|]. split; [|split; [done|lia]]. apply st_pipe_full. intros i d j (Hi & Ei & _) _.
       destruct (Hf i Hi) as [x Hx]. by rewrite Hx in Ei. }
  no_error.
  destruct (alloc_fd pick pick_fresh e i _ t R (proj1 Hi) ltac:(lia)) as (d & v1 & E1 & Hu & Hk1 & R1).
  step_with (vmop_Ret _ _ _ _ E1). no_error. set (s1 := set_uvm v1 s).
  destruct (alloc_run_fd s1 _ R1) as [(j & Hj & Ej)|[Hf Ej]]; step_with Ej; cbn [fst snd].
  2: { on_error. step_pure. on_error.
       destruct (pipe_undo i d v1 t Hi Hu R1 Hf) as (Hno & v2 & E2 & R2 & Hk2). step_with (vmop_Ret _ s1 _ _ E2).
       eexists _, _, t. split; [done|]. split; [by apply st_pipe_full|]. split; [done|cbn; lia]. }
  no_error.
  destruct (alloc_fd pick pick_fresh e j v1 _ R1 (proj1 Hj) ltac:(lia)) as (d' & v2 & E2 & Hu' & Hk2 & R2).
  step_with (vmop_Ret _ s1 _ _ E2). no_error.
  assert (i ≠ j) as Hij by (intros ->; destruct Hj as (_ & Hj & _); cbn in Hj; by rewrite lookup_insert_eq in Hj).
  destruct (data_alloc i v2 _ d None R2) as (g & v3 & E3 & R3 & Eg & Hk3); [|lia|].
  { cbn [tab set_off set_dev add_fd]. by rewrite lookup_insert_ne, lookup_insert_eq. }
  step_with (vmop_Ret _ (set_uvm v2 s1) _ _ E3). no_error.
  destruct (data_map i j v3 _ d' g None R3 (proj1 Hi)) as (v4 & E4 & R4 & Hk4); [|done|lia|].
  { cbn [tab set_off set_dev add_fd]. by rewrite lookup_insert_ne, lookup_insert_eq. }
  step_with (vmop_Ret _ (set_uvm v3 (set_uvm v2 s1)) _ _ E4). no_error.
  edestruct (init_fd i (dev_id (devpipe : Dev (X := X))) O_RDONLY
    (set_uvm v4 (set_uvm v3 (set_uvm v2 s1))) _ d (Some g) R4) as (s5 & E5 & R5 & Hk5).
  { cbn [tab set_off set_dev add_fd]. by rewrite lookup_insert_ne, lookup_insert_eq. }
  rewrite E5.
  edestruct (init_fd j (dev_id (devpipe : Dev (X := X))) O_WRONLY s5 _ d' (Some g) R5) as (s6 & E6 & R6 & Hk6).
  { cbn [tab set_off set_dev add_fd]. by rewrite lookup_insert_eq. }
  rewrite E6. rewrite !fd2num_INDEX2FD by (apply Hi || apply Hj).
  eexists _, s6, _. split; [done|]. split; [|split].
  - apply (st_pipe t i j d d' g); [done|exact Hj|done| |].
    + intros k x y Ek ->. apply (Hu' k x y); [|done]. cbn [tab set_off set_dev add_fd]. rewrite lookup_insert_ne; [done|].
      intros <-. destruct Hi as (_ & Hi & _). by rewrite Hi in Ek.
    + intros ->. apply (Hu' i d' None); [|done]. cbn [tab set_off set_dev add_fd]. by rewrite lookup_insert_eq.
  - apply (rel_fields _ _ _ R6); cbn [tab set_off set_dev add_fd off dev].
    + by rewrite (insert_insert_ne _ i j), (insert_insert_eq _ j), (insert_insert_eq _ i) by done.
    + intros k d0 g' _. by repeat case_decide.
  - rewrite Hk6, Hk5. cbn [uvm set_uvm]. lia.
Qed.

(** ** Sequences of calls *)

Definition run_op (o : fdop) : U (X := X) (Z * Z * Z) :=
  match o with
  | OOpencons => r <- opencons ;; ret (r, 0, 0)
  | OPipe => pipe
  | OClose i => r <- close i ;; ret (r, 0, 0)
  | ODup i j => r <- dup i j ;; ret (r, 0, 0)
  | OSeek i o => r <- seek pick e i o ;; ret (r, 0, 0)
  end.
Fixpoint run_ops (l : list fdop) : U (X := X) (list (Z * Z * Z)) :=
  match l with
  | [] => ret []
  | o :: l' => r <- run_op o ;; rs <- run_ops l' ;; ret (r :: rs)
  end.

Lemma run_op_step o s t :
  rel e (uvm s) t → op_ok o → OP_PAGES ≤ kfree (uvm s) →
  ∃ r s' t', run_op o s = Ret r s' ∧ fdstep t o r t' ∧ rel e (uvm s') t' ∧ kfree (uvm s) - OP_PAGES ≤ kfree (uvm s').
Proof.
  intros R Ho Hk. pose proof Hk as Hk'. unfold OP_PAGES, CLOSE_PAGES in Hk'.
  assert (kfree (uvm s) - OP_PAGES ≤ kfree (uvm s)) as Hk0 by (unfold OP_PAGES, CLOSE_PAGES; lia).
  destruct o as [| |i|i j|i o]; cbn [run_op].
  - destruct (opencons_run s t R ltac:(lia)) as (r & s' & t' & E & H & R' & Hk1). exists (r, 0, 0), s', t'. step_with E.
    split_and!; [done|done|done|unfold OP_PAGES, CLOSE_PAGES; lia].
  - by apply pipe_run.
  - destruct (tab t !! i) as [[d g]|] eqn:Et.
    + destruct (close_run i s t d g R Et) as (r & s' & E & R' & Hk1 & Hr); [unfold CLOSE_PAGES; lia|].
      exists (r, 0, 0), s', (del_fd i t). step_with E.
      split_and!; [done|by apply (st_close t i r d g)|done|unfold OP_PAGES; lia].
    + exists (- E_INVAL, 0, 0), s, t. step_with (close_bad i s t R Et). split_and!; [done|by apply st_close_bad|done|done].
  - destruct (tab t !! i) as [[d g]|] eqn:Et; [destruct (decide (i = j)) as [->|Hne]|].
    + destruct (dup_same_run j s t R ltac:(by rewrite Et) Hk) as (s' & E & R' & Hk1). exists (- E_INVAL, 0, 0), s', (del_fd j t).
      step_with E. split_and!; [done|apply st_dup_same; by rewrite Et|done|done].
    + destruct (dup_run i j s t d g R Et Hne Ho Hk) as (s' & E & R' & Hk1). exists (j, 0, 0), s', (add_fd j d g t).
      step_with E. split_and!; [done|by apply st_dup|done|done].
    + exists (- E_INVAL, 0, 0), s, t. pose proof (lookup_run i s t R) as El. rewrite Et in El. unfold dup.
      rewrite bind_assoc. step_with El. split_and!; [done|by apply st_dup_bad|done|done].
  - destruct (tab t !! i) as [[d g]|] eqn:Et.
    + destruct (seek_run i o s t d g R Et) as (s' & E & R' & Hk1). exists (0, 0, 0), s', (set_off d (i32 o) t).
      step_with E. split_and!; [done|by apply (st_seek t i o d g)|done|by rewrite Hk1].
    + exists (- E_INVAL, 0, 0), s, t. pose proof (lookup_run i s t R) as El. rewrite Et in El. unfold seek.
      rewrite bind_assoc. step_with El. split_and!; [done|by apply st_seek_bad|done|done].
Qed.
End ops.

(** The abstract table through a sequence of calls. *)
Inductive fdsteps : fdtab → list fdop → list (Z * Z * Z) → fdtab → Prop :=
| fdsteps_nil t : fdsteps t [] [] t
| fdsteps_cons t o r t' l rs t'' : fdstep t o r t' → fdsteps t' l rs t'' → fdsteps t (o :: l) (r :: rs) t''.


(** ** An example *)

Definition no_dev {X} (id : Z) : Dev (X := X) := mkDev 0 id None None None None None.
Definition ex_user : ust (X := unit) := mkU (mkVm ∅ {[ 1 := ∅ ]} ∅ 200 ∅) [] [] tt.
Definition ex_run (l : list fdop) : outcome (ust (X := unit)) (list (Z * Z * Z)) :=
  run_ops pick_new 1 (no_dev 102) (no_dev 115) (λ _ _ _, ret 0) (λ _ _ _, ret 0) (λ _ _, ret 0) 0 0 l ex_user.


(** ** Where [dup] falls short *)

(** [dup] does not test the new number: number 33 is the data page of descriptor 1,
    here the write end of a pipe. *)
Theorem dup_out_of_range_hits_data :
  match ex_run [OPipe; OOpencons; ODup 2 33] with
  | Ret rs s => (rs, bool_decide (fst <$> entry (uvm s) 1 (DATAP 1) = fst <$> entry (uvm s) 1 (FDP 2)))
  | _ => ([], false)
  end = ([(0, 0, 1); (2, 0, 0); (33, 0, 0)], true).
Proof. by vm_compute. Qed.
