(* ===== verification/File.v ===== *)
(** * Files of a client, lib/riscv/file.c

    The file device: requests to the file server through the page [fsipcbuf].
    Client and server are two environments of one machine, [e] and [se]; the server
    of [Serv] keeps its memory by its own virtual addresses, so the pages the two
    share are handed over with each message: the request page, and every page of
    the server that is mapped in the server's address space.  The theorem follows a
    write and a read through all layers, from the descriptor of the client to the
    blocks of the disk and back. *)

From S2P Require Import Prelude Mmu Strings Words Fs FsInv FsRw Serv Fork Fd.

(** ** Handing pages over *)

(** The pages [l], pairs of a destination in [m] and a source in [p]. *)
Definition hand_over (l : list (Z * Z)) (m p : bytes) : bytes :=
  foldr (λ x m, copy_bytes (Z.to_nat PGSIZE) p (snd x) m (fst x)) m l.

(** How often a frame is mapped. *)
Definition refs (v : vm) (f : Z) : Z :=
  Z.of_nat (length (filter (λ x, x = f) (map_to_list (spaces v) ≫= λ t, (map_to_list t.2).*2.*1))).

Section file.
Context (pick : vm → Z) (e se fsipcbuf : Z).
Notation U := (U (X := sstate)).

(** Server address and frame of the pages mapped by the server. *)
Definition server_pages (v : vm) : list (Z * Z) :=
  match spaces v !! se with
  | Some t => (λ x : Z * (Z * Z), (x.1 * PGSIZE, x.2.1)) <$> map_to_list t
  | None => []
  end.
Definition to_server (a : Z) (v : vm) : list (Z * Z) :=
  (fsreq, a) :: ((λ x : Z * Z, (x.1, x.2 * PGSIZE)) <$> server_pages v).
Definition to_client (a : Z) (v : vm) : list (Z * Z) :=
  (a, fsreq) :: ((λ x : Z * Z, (x.2 * PGSIZE, x.1)) <$> server_pages v).
Definition page_refs (v : vm) : gmap Z Z :=
  list_to_map ((λ x : Z * Z, (x.1, refs v x.2)) <$> server_pages v).

(** The frame of a page that the server has allocated for itself during the request.
    [Serv] takes that allocation to succeed, so a kernel without the tables for it is
    not described. *)
Definition server_page (pg : Z) : U Z := λ s,
  match entry (uvm s) se (pg / PGSIZE) with
  | Some (f, _) => Ret f s
  | None =>
      match sys_page_alloc pick se pg PERM_FD (uvm s) with
      | Ret r v =>
          match entry v se (pg / PGSIZE) with
          | Some (f, _) =>
              Ret f (set_uvm (set_phys (copy_bytes (Z.to_nat PGSIZE) (fmem (fs (world s))) pg (phys v) (f * PGSIZE)) v) s)
          | None => Undef
          end
      | _ => Undef
      end
  end.
(** The page of a reply appears at [dstva].  [ipc_send] of a server whose page cannot be
    mapped there panics, and the client waits for ever. *)
Definition receive_page (dstva pg perm : Z) : U unit :=
  f <- server_page pg ;;
  λ s, let '(r, v) := insert_page e (dstva / PGSIZE) f perm (uvm s) in
       if r <? 0 then NoRet (set_uvm v s) else Ret tt (set_uvm v s).

Definition PERM_REQ : Z := Z.lor (Z.lor (Z.lor PTE_V PTE_W) PTE_U) PTE_R.

(** [ipc_send] of the request, a round of the server, [ipc_recv] of the reply.  A
    server that does not reply leaves the client waiting. *)
Definition fsipc (type dstva : Z) : U Z := λ s,
  match place e fsipcbuf (uvm s) with
  | None => Undef
  | Some (a, _) =>
      let v := uvm s in
      let sv := world s in
      let m := hand_over (to_server a v) (fmem (fs sv)) (phys v) in
      match serve_round type PERM_REQ (set_pageref (page_refs v) (set_fs (set_fmem m (fs sv)) sv)) with
      | Ret (Some (r, pg, perm)) sv' =>
          let s' := mkU (set_phys (hand_over (to_client a v) (phys v) (fmem (fs sv'))) v) (cin s) (cout s) sv' in
          ((if pg =? 0 then ret tt else receive_page dstva pg perm) ;;; ret (i32 r)) s'
      | Undef => Undef
      | _ => NoRet s
      end
  end.

Notation st32u := (ust32 pick e).
Definition st64u (va v : Z) : U unit := st32u va v ;;; st32u (va + 4) (v / 2 ^ 32).

(** ** The device *)

Definition devfile_flush (fd : Z) : U Z :=
  id <- uld32 e (fd + fd_file_id) ;;
  st32u fsipcbuf id ;;;
  fsipc FSREQ_FLUSH 0.

Definition devfile_read (fd buf n : Z) : U Z :=
  id <- uld32 e (fd + fd_file_id) ;;
  st32u fsipcbuf id ;;;
  st64u (fsipcbuf + 8) n ;;;
  r <- fsipc FSREQ_READ 0 ;;
  if r <? 0 then ret r else
  assert_ (r <=? n) ;;;
  assert_ (r <=? PGSIZE) ;;;
  l <- uget e (Z.to_nat r) fsipcbuf ;;
  ubytes pick e buf l ;;;
  ret r.

Definition devfile_write (fd buf n : Z) : U Z :=
  id <- uld32 e (fd + fd_file_id) ;;
  st32u fsipcbuf id ;;;
  st64u (fsipcbuf + 4) n ;;;
  assert_ (n <=? PGSIZE - 4 - 8) ;;;
  l <- uget e (Z.to_nat n) buf ;;
  ubytes pick e (fsipcbuf + 12) l ;;;
  fsipc FSREQ_WRITE 0.

(** A string of at most [n] characters. *)
Fixpoint ucstr (n : nat) (va : Z) : U (option (list Z)) :=
  match n with
  | O => ret None
  | S n' =>
      c <- vmop (uread e va) ;;
      if c =? 0 then ret (Some []) else
      l <- ucstr n' (va + 1) ;;
      ret (cons c <$> l)
  end.

Definition devfile_stat (fd st : Z) : U Z :=
  id <- uld32 e (fd + fd_file_id) ;;
  st32u fsipcbuf id ;;;
  r <- fsipc FSREQ_STAT 0 ;;
  if r <? 0 then ret r else
  name <- ucstr (Z.to_nat PGSIZE) fsipcbuf ;;
  match name with
  | None => undef
  | Some l =>
      ubytes pick e (st + st_name) (l ++ [0]) ;;;
      size <- uld32 e (fsipcbuf + 128) ;;
      st32u (st + st_size) size ;;;
      isdir <- uld32 e (fsipcbuf + 132) ;;
      st32u (st + st_isdir) isdir ;;;
      ret 0
  end.

Definition devfile_trunc (fd newsize : Z) : U Z :=
  id <- uld32 e (fd + fd_file_id) ;;
  st32u fsipcbuf id ;;;
  st32u (fsipcbuf + 4) newsize ;;;
  fsipc FSREQ_SET_SIZE 0.

Definition devfile (addr : Z) : Dev (X := sstate) :=
  mkDev addr devfile_dev_id (Some devfile_read) (Some devfile_write) (Some devfile_flush)
    (Some devfile_stat) (Some devfile_trunc).

(** ** Opening *)

Context (devsock : Dev (X := sstate)) (devpipe_read devpipe_write : Z → Z → Z → U Z) (devpipe_stat : Z → Z → U Z).
Context (file_addr cons_addr pipe_addr : Z).
Notation with_devices f :=
  (f pick e (devfile file_addr) devsock devpipe_read devpipe_write devpipe_stat cons_addr pipe_addr).

Definition open (path mode : Z) : U Z :=
  p <- ucstr (Z.to_nat MAXPATHLEN) path ;;
  match p with
  | None => ret (- E_BAD_PATH)
  | Some l =>
      a <- fd_alloc e ;;
      if fst a <? 0 then ret (fst a) else
      ubytes pick e fsipcbuf (l ++ [0]) ;;;
      st32u (fsipcbuf + MAXPATHLEN) mode ;;;
      r <- fsipc FSREQ_OPEN (snd a) ;;
      if r <? 0 then with_devices Fd.fd_close (snd a) false ;;; ret r else ret (fd2num (snd a))
  end.

(** [stat] of fd.c. *)
Definition stat (path st : Z) : U Z :=
  fd <- open path O_RDONLY ;;
  if fd <? 0 then ret fd else
  r <- with_devices Fd.fstat fd st ;;
  with_devices Fd.close fd ;;;
  ret r.

Definition sync : U Z := fsipc FSREQ_SYNC 0.
End file.

(** ** Pages handed over *)

Lemma bytes_ok_hand_over l m p : bytes_ok m → bytes_ok (hand_over l m p).
Proof. intros Hm. induction l as [|x l IH]; [done|]. by apply bytes_ok_copy. Qed.

Definition in_page (d a : Z) : Prop := d ≤ a < d + PGSIZE.
Definition pages_ok (l : list (Z * Z)) : Prop := NoDup l.*1 ∧ ∀ x, x ∈ l → x.1 mod PGSIZE = 0.

Lemma hand_over_out l m p a : (∀ x, x ∈ l → ¬ in_page x.1 a) → rdb (hand_over l m p) a = rdb m a.
Proof.
  intros H. induction l as [|x l IH]; [done|]. cbn [hand_over foldr]. rewrite copy_bytes_rdb.
  rewrite decide_False by exact (H x (list_elem_of_here _ _)). apply IH. intros y Hy. apply H. by right.
Qed.

Lemma hand_over_in l m p d s k :
  pages_ok l → bytes_ok p → (d, s) ∈ l → 0 ≤ k < PGSIZE → rdb (hand_over l m p) (d + k) = rdb p (s + k).
Proof.
  intros [Hnd Hal] Hp Hin Hk. induction l as [|x l IH]; [by apply not_elem_of_nil in Hin|].
  cbn [hand_over foldr]. rewrite copy_bytes_rdb. change (Z.of_nat (Z.to_nat PGSIZE)) with PGSIZE.
  rewrite fmap_cons in Hnd. apply NoDup_cons in Hnd as [Hx Hnd].
  assert (u8 (rdb p (s + k)) = rdb p (s + k)) as Hu by (apply Z.mod_small, Hp).
  apply elem_of_cons in Hin as [<-|Hin].
  - cbn [fst snd]. rewrite decide_True by lia. rewrite <-Hu. do 2 f_equal. lia.
  - assert (x.1 ≠ d) as Hne by (intros <-; apply Hx; apply (list_elem_of_fmap_2 fst _ _ Hin)).
    pose proof (Hal x (list_elem_of_here _ _)) as H1. pose proof (Hal (d, s) ltac:(by right)) as H2. cbn [fst] in H2.
    rewrite decide_False.
    + apply IH; [done| |done]. intros y Hy. apply Hal. by right.
    + unfold PGSIZE in *. intros H. apply Hne. Z.div_mod_to_equations. lia.
Qed.

#[local] Opaque hand_over.

(** ** Client and server *)

Section link.
Context (pick : vm → Z) (e se fsipcbuf : Z).
Notation UF := (U (X := sstate)).
Implicit Types (s : ust (X := sstate)) (v : vm) (sv : sstate).

(** The request buffer is the frame [b]; the server maps pages of its own, above the
    disk, each frame once. *)
Record linked v (b : Z) : Prop := {
  lk_buf : fsipcbuf mod PGSIZE = 0;
  lk_frame : ∃ perm, entry v e (fsipcbuf / PGSIZE) = Some (b, perm) ∧ writable perm = true;
  lk_server n f perm : entry v se n = Some (f, perm) → FILEVA ≤ n * PGSIZE ∧ f ≠ b;
  lk_inj n n' f perm perm' : entry v se n = Some (f, perm) → entry v se n' = Some (f, perm') → n = n';
  lk_bytes : bytes_ok (phys v)
}.

Lemma server_pages_In v va f :
  (va, f) ∈ server_pages se v ↔ ∃ n perm, va = n * PGSIZE ∧ entry v se n = Some (f, perm).
Proof.
  unfold server_pages, entry. destruct (spaces v !! se) as [t|]; cbn [mbind option_bind].
  - rewrite list_elem_of_fmap. split.
    + intros ([n [f' p]] & [= -> ->] & Hin). exists n, p. by apply elem_of_map_to_list in Hin.
    + intros (n & p & -> & E). exists (n, (f, p)). split; [done|]. by apply elem_of_map_to_list.
  - split; [by intros ?%not_elem_of_nil|]. by intros (n & p & _ & ?).
Qed.

Lemma NoDup_server_pages {A} v (g : Z * Z → A) :
  (∀ x y, x ∈ server_pages se v → y ∈ server_pages se v → g x = g y → x = y) → NoDup (g <$> server_pages se v).
Proof.
  intros Hg. apply NoDup_fmap_2_strong; [done|]. unfold server_pages. destruct (spaces v !! se) as [t|]; [|constructor].
  apply NoDup_fmap_2_strong; [|apply NoDup_map_to_list].
  intros [n [f p]] [n' [f' p']] Hx Hy [= En ->]. apply elem_of_map_to_list in Hx, Hy.
  assert (n = n') as -> by (unfold PGSIZE in En; lia). rewrite Hx in Hy. by simplify_eq.
Qed.

Lemma server_pages_key v va f f' : (va, f) ∈ server_pages se v → (va, f') ∈ server_pages se v → f = f'.
Proof.
  intros (n & p & -> & E)%server_pages_In (n' & p' & En & E')%server_pages_In.
  assert (n = n') as -> by (unfold PGSIZE in En; lia). rewrite E in E'. by simplify_eq.
Qed.

Lemma to_server_ok v b : linked v b → pages_ok (to_server se (b * PGSIZE) v).
Proof.
  intros L. split.
  - unfold to_server. rewrite fmap_cons. cbn [fst]. apply NoDup_cons. split.
    + intros ([d s] & E & Hin)%list_elem_of_fmap. apply list_elem_of_fmap in Hin as ([va f] & [= -> ->] & Hin).
      apply server_pages_In in Hin as (n & p & -> & En). cbn [fst] in E. apply (lk_server _ _ L) in En as [En _].
      unfold fsreq, FILEVA in *. lia.
    + rewrite <-list_fmap_compose. apply NoDup_server_pages. intros [va f] [va' f'] Hx Hy E. cbn in E. subst va'.
      by rewrite (server_pages_key v va f f' Hx Hy).
  - intros x [->|Hin]%elem_of_cons; [done|]. apply list_elem_of_fmap in Hin as ([va f] & -> & Hin).
    apply server_pages_In in Hin as (n & p & -> & _). cbn [fst]. by apply Z.mod_mul.
Qed.

Lemma to_client_ok v b : linked v b → pages_ok (to_client se (b * PGSIZE) v).
Proof.
  intros L. split.
  - unfold to_client. rewrite fmap_cons. cbn [fst]. apply NoDup_cons. split.
    + intros ([d s] & E & Hin)%list_elem_of_fmap. apply list_elem_of_fmap in Hin as ([va f] & [= -> ->] & Hin).
      apply server_pages_In in Hin as (n & p & -> & En). cbn [fst snd] in E. apply (lk_server _ _ L) in En as [_ En].
      unfold PGSIZE in E. lia.
    + rewrite <-list_fmap_compose. apply NoDup_server_pages. intros [va f] [va' f'] Hx Hy E. cbn in E.
      assert (f = f') as <- by (unfold PGSIZE in E; lia).
      apply server_pages_In in Hx as (n & p & -> & En), Hy as (n' & p' & -> & En').
      by rewrite (lk_inj _ _ L n n' f p p' En En').
  - intros x [->|Hin]%elem_of_cons; [by apply Z.mod_mul|]. apply list_elem_of_fmap in Hin as ([va f] & -> & _).
    cbn [fst snd]. by apply Z.mod_mul.
Qed.

(** The server when the request arrives, the client when the reply does. *)
Definition at_server s (b : Z) : sstate :=
  set_pageref (page_refs se (uvm s)) (set_fs (set_fmem
    (hand_over (to_server se (b * PGSIZE) (uvm s)) (fmem (fs (world s))) (phys (uvm s))) (fs (world s))) (world s)).
Definition at_client s (b : Z) sv : ust :=
  mkU (set_phys (hand_over (to_client se (b * PGSIZE) (uvm s)) (phys (uvm s)) (fmem (fs sv))) (uvm s)) (cin s) (cout s) sv.

Lemma buf_place v b k : linked v b → 0 ≤ k < PGSIZE →
  ∃ perm, place e (fsipcbuf + k) v = Some (b * PGSIZE + k, perm) ∧ writable perm = true.
Proof.
  intros L Hk. destruct (lk_frame _ _ L) as (perm & E & Hw). exists perm. split; [|done].
  pose proof (lk_buf _ _ L) as Hb.
  assert (fsipcbuf + k = k + fsipcbuf / PGSIZE * PGSIZE) as -> by (unfold PGSIZE in *; Z.div_mod_to_equations; lia).
  rewrite (place_Some v e _ b perm).
  - by rewrite Z.mod_add, Z.mod_small by done.
  - by rewrite Z.div_add, Z.div_small, Z.add_0_l by done.
Qed.

Lemma fsipc_run type s b r perm sv :
  linked (uvm s) b → serve_round type PERM_REQ (at_server s b) = Ret (Some (r, 0, perm)) sv →
  fsipc pick e se fsipcbuf type 0 s = Ret (i32 r) (at_client s b sv).
Proof.
  intros L E. destruct (buf_place (uvm s) b 0 L ltac:(done)) as (p & Ep & _). rewrite !Z.add_0_r in Ep.
  unfold fsipc. rewrite Ep. cbv zeta. fold (at_server s b). by rewrite E.
Qed.

Lemma ld32_eq m m' a a' : (∀ k, 0 ≤ k < 4 → rdb m (a + k) = rdb m' (a' + k)) → ld32 m a = ld32 m' a'.
Proof.
  intros H. unfold ld32. pose proof (H 0 ltac:(lia)) as H0. rewrite !Z.add_0_r in H0. rewrite H0, !H by lia. done.
Qed.

Section memory.
Context (s : ust (X := sstate)) (b : Z) (L : linked (uvm s) b).

Lemma at_server_buf k : 0 ≤ k < PGSIZE → rdb (fmem (fs (at_server s b))) (fsreq + k) = rdb (phys (uvm s)) (b * PGSIZE + k).
Proof. apply hand_over_in; [by apply to_server_ok|apply L|left]. Qed.
Lemma at_server_page n f p k :
  entry (uvm s) se n = Some (f, p) → 0 ≤ k < PGSIZE →
  rdb (fmem (fs (at_server s b))) (n * PGSIZE + k) = rdb (phys (uvm s)) (f * PGSIZE + k).
Proof.
  intros E. apply hand_over_in; [by apply to_server_ok|apply L|right]. apply list_elem_of_fmap. exists (n * PGSIZE, f).
  split; [done|]. apply server_pages_In. by exists n, p.
Qed.
Lemma at_server_disk a : DISKMAP ≤ a < FILEVA → rdb (fmem (fs (at_server s b))) a = rdb (fmem (fs (world s))) a.
Proof.
  intros Ha. apply hand_over_out. intros x [->|Hin]%elem_of_cons.
  - unfold in_page, fsreq, DISKMAP, PGSIZE in *. cbn [fst]. lia.
  - apply list_elem_of_fmap in Hin as ([va f] & -> & Hin). apply server_pages_In in Hin as (n & p & -> & En).
    apply (lk_server _ _ L) in En as [En _]. unfold in_page. cbn [fst]. lia.
Qed.

Context (sv : sstate) (Hsv : bytes_ok (fmem (fs sv))).
Lemma at_client_buf k :
  0 ≤ k < PGSIZE → rdb (phys (uvm (at_client s b sv))) (b * PGSIZE + k) = rdb (fmem (fs sv)) (fsreq + k).
Proof. apply hand_over_in; [by apply to_client_ok|done|left]. Qed.
Lemma at_client_page n f p k :
  entry (uvm s) se n = Some (f, p) → 0 ≤ k < PGSIZE →
  rdb (phys (uvm (at_client s b sv))) (f * PGSIZE + k) = rdb (fmem (fs sv)) (n * PGSIZE + k).
Proof.
  intros E. apply hand_over_in; [by apply to_client_ok|done|right]. apply list_elem_of_fmap. exists (n * PGSIZE, f).
  split; [done|]. apply server_pages_In. by exists n, p.
Qed.
Lemma at_client_linked : linked (uvm (at_client s b sv)) b.
Proof. destruct L as [H1 H2 H3 H4 H5]. split; [exact H1|exact H2|exact H3|exact H4|]. by apply bytes_ok_hand_over. Qed.
End memory.

(** Descriptor [i] of the client is open for the file [o_file o], entry [j] of the
    server's table; [d] is the frame of its page. *)
Record session s (b i d : Z) (j : nat) (o : OpenFile) (fb : Z) : Prop := {
  ss_link : linked (uvm s) b;
  ss_range : 0 ≤ i < MAXFD;
  ss_fd : ∃ perm, entry (uvm s) e (FDP i) = Some (d, perm) ∧ writable perm = true;
  ss_dev : ld32 (phys (uvm s)) (d * PGSIZE + fd_dev_id) = devfile_dev_id;
  ss_mode : Z.land (i32 (ld32 (phys (uvm s)) (d * PGSIZE + fd_omode))) O_ACCMODE ≠ O_WRONLY;
  ss_id : ld32 (phys (uvm s)) (d * PGSIZE + fd_file_id) = o_fileid o;
  ss_share : ∃ perm, entry (uvm s) se (o_fd o / PGSIZE) = Some (d, perm);
  ss_refs : 2 ≤ refs (uvm s) d;
  ss_tab : opentab_ok (world s);
  ss_open : opentab (world s) !! j = Some o;
  ss_fs : fs_wf (fs (world s));
  ss_file : file_ok (fmem (fs (world s))) (o_file o) fb
}.
Definition fdmode s (d : Z) : Z := Z.land (i32 (ld32 (phys (uvm s)) (d * PGSIZE + fd_omode))) O_ACCMODE.
Definition fdpos s (d : Z) : Z := i32 (ld32 (phys (uvm s)) (d * PGSIZE + fd_offset)).

Lemma session_ofd s b i d j o fb : session s b i d j o fb → o_fd o / PGSIZE * PGSIZE = o_fd o ∧ FILEVA ≤ o_fd o.
Proof.
  intros S. destruct (ot_entry _ (ss_tab _ _ _ _ _ _ _ S) j o (ss_open _ _ _ _ _ _ _ S)) as (-> & _).
  unfold FILEVA, PGSIZE. split; [|lia]. rewrite (Z.mul_comm 4096). change 0xD0000000 with (0xD0000 * 4096).
  rewrite <-Z.mul_add_distr_r. by rewrite Z.div_mul.
Qed.

(** What the server finds. *)
Lemma session_request s b i d j o fb :
  session s b i d j o fb → ld32 (phys (uvm s)) (b * PGSIZE) = o_fileid o →
  request (at_server s b) j o ∧ fpos (at_server s b) o = fdpos s d.
Proof.
  intros S Hid. pose proof (ss_link _ _ _ _ _ _ _ S) as L. destruct (session_ofd _ _ _ _ _ _ _ S) as [Ho _].
  destruct (ss_share _ _ _ _ _ _ _ S) as (p & Ep). split; [split|].
  - destruct (ss_tab _ _ _ _ _ _ _ S) as [H1 H2]. by split.
  - apply S.
  - rewrite <-Hid. apply ld32_eq. intros k Hk. apply at_server_buf; [done|unfold PGSIZE; lia].
  - unfold ref_of, at_server, page_refs. cbn [pageref set_pageref].
    rewrite (elem_of_list_to_map_1 _ (o_fd o) (refs (uvm s) d)); [apply S| |].
    + rewrite <-list_fmap_compose. apply NoDup_server_pages. intros [va f] [va' f'] Hx Hy E. cbn in E. subst va'.
      by rewrite (server_pages_key _ va f f' Hx Hy).
    + apply list_elem_of_fmap. exists (o_fd o, d). split; [done|]. apply server_pages_In. exists (o_fd o / PGSIZE), p. by rewrite Ho.
  - unfold fpos, fdpos. f_equal. apply ld32_eq. intros k Hk. rewrite <-Ho, <-!Z.add_assoc.
    apply (at_server_page s b L _ d p); [done|unfold PGSIZE, fd_offset; lia].
Qed.

Lemma entry_spaces v v' x n : spaces v' = spaces v → entry v' x n = entry v x n.
Proof. intros E. unfold entry. by rewrite E. Qed.
Lemma place_spaces v v' x va : spaces v' = spaces v → place x va v' = place x va v.
Proof. intros E. unfold place. by rewrite (entry_spaces v v'). Qed.

Lemma linked_spaces v v' b : linked v b → spaces v' = spaces v → bytes_ok (phys v') → linked v' b.
Proof.
  intros [H1 H2 H3 H4 H5] E Hb. assert (∀ x n, entry v' x n = entry v x n) as He by (intros; by apply entry_spaces).
  split; [done|by rewrite He| | |done].
  - intros n f p. rewrite He. apply H3.
  - intros n n' f p p'. rewrite !He. apply H4.
Qed.

(** The session goes on while the table of the server, its file and the three words
    of the descriptor stay. *)
Lemma session_change s s' b i d j o fb :
  session s b i d j o fb → spaces (uvm s') = spaces (uvm s) → bytes_ok (phys (uvm s')) →
  (∀ x, x = fd_dev_id ∨ x = fd_omode ∨ x = fd_file_id →
     ld32 (phys (uvm s')) (d * PGSIZE + x) = ld32 (phys (uvm s)) (d * PGSIZE + x)) →
  opentab (world s') = opentab (world s) → fs_wf (fs (world s')) → file_ok (fmem (fs (world s'))) (o_file o) fb →
  session s' b i d j o fb.
Proof.
  intros [H1 H2 H3 H4 H5 H6 H7 H8 H9 H10 H11 H12] E Hb Hx Ht Hw Hf.
  assert (∀ x n, entry (uvm s') x n = entry (uvm s) x n) as He by (intros; by apply entry_spaces).
  split; rewrite ?He, ?Hx by auto; try done.
  - by apply (linked_spaces (uvm s)).
  - unfold refs. by rewrite E.
  - destruct H9 as [Hl Hentry]. split; by rewrite Ht.
  - by rewrite Ht.
Qed.

Lemma session_frames s b i d j o fb : session s b i d j o fb → d ≠ b.
Proof. intros S. destruct (ss_share _ _ _ _ _ _ _ S) as (p & E). by apply (lk_server _ _ (ss_link _ _ _ _ _ _ _ S)) in E as [_ ?]. Qed.

Definition setp s (ph : bytes) : ust (X := sstate) := set_uvm (set_phys ph (uvm s)) s.

(** A change of the request page. *)
Lemma session_buf s b i d j o fb ph :
  session s b i d j o fb → bytes_ok ph → (∀ a, ¬ in_page (b * PGSIZE) a → rdb ph a = rdb (phys (uvm s)) a) →
  session (setp s ph) b i d j o fb ∧ fdpos (setp s ph) d = fdpos s d.
Proof.
  intros S Hb Hout. pose proof (session_frames _ _ _ _ _ _ _ S) as Hdb.
  assert (∀ x, 0 ≤ x → x + 4 ≤ PGSIZE → ld32 ph (d * PGSIZE + x) = ld32 (phys (uvm s)) (d * PGSIZE + x)) as Hx.
  { intros x H1 H2. apply ld32_ext. intros a Ha. apply Hout. unfold in_page, PGSIZE in *. lia. }
  split; [|unfold fdpos; cbn [uvm setp set_uvm phys set_phys]; by rewrite Hx].
  apply (session_change s); try done; [|apply S|apply S].
  intros x [-> | [-> | ->]]; by apply Hx.
Qed.

(** The file system as the server finds it. *)
Lemma session_fs s b i d j o fb :
  session s b i d j o fb →
  fs_wf (fs (at_server s b)) ∧ file_ok (fmem (fs (at_server s b))) (o_file o) fb ∧
  bno (fmem (fs (at_server s b))) = bno (fmem (fs (world s))) ∧
  fsize (fmem (fs (at_server s b))) (o_file o) = fsize (fmem (fs (world s))) (o_file o) ∧
  ∀ k, 0 ≤ k < MAXFILESIZE → ptr (fmem (fs (world s))) (o_file o) (k / BLKSIZE) ≠ 0 →
    ptr (fmem (fs (at_server s b))) (o_file o) (k / BLKSIZE) ≠ 0 ∧
    fbyte (fmem (fs (at_server s b))) (o_file o) k = fbyte (fmem (fs (world s))) (o_file o) k.
Proof.
  intros S. pose proof (ss_link _ _ _ _ _ _ _ S) as L. pose proof (ss_fs _ _ _ _ _ _ _ S) as Hw.
  pose proof (ss_file _ _ _ _ _ _ _ S) as Hok. set (m' := fmem (fs (at_server s b))).
  assert (∀ a, DISKMAP ≤ a < baddr (bno (fmem (fs (world s)))) → rdb m' a = rdb (fmem (fs (world s))) a) as Hm.
  { intros a Ha. apply (at_server_disk s b L). pose proof (fw_size _ Hw) as [_ Hn]. unfold FILEVA. layout. lia. }
  destruct (outside_kept (fs (world s)) m' (o_file o) fb Hw Hok) as (Hw' & Hok' & En & [_ Hp] & Hb); [|done|].
  { apply bytes_ok_hand_over, Hw. }
  split_and!; [exact Hw'|exact Hok'|exact En| |].
  - unfold fsize. f_equal. apply ld32_ext. intros a Ha. apply Hm.
    apply (file_on_disk _ _ _ a (proj1 (fw_size _ Hw)) Hok). unfold f_size in Ha. lia.
  - intros k Hk Hpk. split; [|by apply Hb]. rewrite Hp; [done|]. by apply (block_bounds k MAXFILESIZE).
Qed.

(** ** Buffers of the client *)

Lemma set_uvm_id s : set_uvm (uvm s) s = s.
Proof. by destruct s. Qed.

Lemma uget_run n va s (g : Z → Z) :
  (∀ k, 0 ≤ k < Z.of_nat n → byte_at (uvm s) e (va + k) = Some (g k)) →
  ∃ l, uget e n va s = Ret l s ∧ length l = n ∧ ∀ k, (k < n)%nat → l !! k = Some (g (Z.of_nat k)).
Proof.
  revert va g. induction n as [|n IH]; intros va g Hg; cbn [uget].
  - exists []. split_and!; [done|done|lia].
  - pose proof (Hg 0 ltac:(lia)) as H0. rewrite Z.add_0_r in H0.
    assert (vmop (uread e va) s = Ret (g 0) s) as E0.
    { unfold vmop, uread. unfold byte_at in H0. destruct (place e va (uvm s)) as [[a p]|]; [|done].
      injection H0 as <-. by rewrite set_uvm_id. }
    destruct (IH (va + 1) (λ k, g (k + 1))) as (l & El & Hl & Hk).
    { intros k Hk. rewrite <-Z.add_assoc, (Z.add_comm 1). apply Hg. lia. }
    exists (g 0 :: l). split_and!; [step_with E0; by step_with El|by cbn; rewrite Hl|].
    intros [|k] Hkn; [done|]. cbn. rewrite Hk by lia. do 2 f_equal. lia.
Qed.

(** The physical places of [n] bytes at [va], writable and pairwise different. *)
Definition at_places v (va n : Z) (a : Z → Z) : Prop :=
  (∀ k, 0 ≤ k < n → ∃ p, place e (va + k) v = Some (a k, p) ∧ writable p = true) ∧
  ∀ k k', 0 ≤ k < n → 0 ≤ k' < n → a k = a k' → k = k'.

Lemma ubytes_run l va s (a : Z → Z) :
  at_places (uvm s) va (Z.of_nat (length l)) a → bytes_ok (phys (uvm s)) →
  ∃ ph, ubytes pick e va l s = Ret tt (setp s ph) ∧ bytes_ok ph ∧
    (∀ k c, l !! k = Some c → rdb ph (a (Z.of_nat k)) = u8 c) ∧
    ∀ x, (∀ k, 0 ≤ k < Z.of_nat (length l) → x ≠ a k) → rdb ph x = rdb (phys (uvm s)) x.
Proof.
  revert va s a. induction l as [|c l IH]; intros va s a [Hp Hi] Hb.
  - exists (phys (uvm s)). split; [|done]. unfold setp. destruct s as [[ph sp pr] ci co w]. done.
  - cbn [length] in *. destruct (Hp 0 ltac:(lia)) as (p & E0 & Hw). rewrite Z.add_0_r in E0.
    set (ph1 := wrb (phys (uvm s)) (a 0) c). assert (bytes_ok ph1) as Hb1 by by apply bytes_ok_wrb.
    destruct (IH (va + 1) (setp s ph1) (λ k, a (k + 1))) as (ph & E & Hbp & Hin & Hout); [|done|].
    { split.
      - intros k Hk. destruct (Hp (k + 1) ltac:(lia)) as (p' & E' & Hw'). exists p'. split; [|done].
        rewrite <-Z.add_assoc, (Z.add_comm 1). by rewrite (place_spaces (uvm s)).
      - intros k k' Hk Hk' Ha. apply Hi in Ha; lia. }
    exists ph. split_and!; [|done| |].
    + unfold ubytes in *. cbn [foldr]. erewrite bind_Ret_l; [exact E|].
      unfold ustb. apply vmop_Ret. unfold uwrite, ustore. rewrite E0, Hw. done.
    + intros [|k] c' Hk.
      * injection Hk as <-. rewrite Hout.
        { cbn [uvm setp set_uvm phys set_phys]. unfold ph1. rewrite rdb_wrb. by rewrite decide_True. }
        intros k Hk Ha. apply Hi in Ha; lia.
      * cbn in Hk. rewrite <-(Hin k c' Hk). f_equal. f_equal. lia.
    + intros x Hx. rewrite Hout.
      * cbn [uvm setp set_uvm phys set_phys]. unfold ph1. rewrite rdb_wrb, decide_False; [done|].
        intros Ha. by apply (Hx 0 ltac:(lia)).
      * intros k Hk. apply Hx. lia.
Qed.

(** A word of the request. *)
Lemma st_buf s b k w :
  linked (uvm s) b → 0 ≤ k → k + 4 ≤ PGSIZE →
  ust32 pick e (fsipcbuf + k) w s = Ret tt (setp s (st32 (phys (uvm s)) (b * PGSIZE + k) w)).
Proof.
  intros L H1 H2. destruct (buf_place (uvm s) b k L ltac:(lia)) as (p & E & Hw).
  unfold ust32. rewrite E, Hw. done.
Qed.

Lemma u32_i32 x : u32 (i32 x) = u32 x.
Proof. unfold u32, i32. destruct (_ <? _); Z.div_mod_to_equations; lia. Qed.

(** ** The descriptor of a session *)

Lemma fd_place s b i d j o fb k :
  session s b i d j o fb → 0 ≤ k < PGSIZE →
  ∃ p, place e (INDEX2FD i + k) (uvm s) = Some (d * PGSIZE + k, p) ∧ writable p = true.
Proof.
  intros S Hk. destruct (ss_fd _ _ _ _ _ _ _ S) as (p & E & Hw). exists p. split; [|done].
  rewrite INDEX2FD_page by apply S. rewrite (Z.add_comm (FDP i * PGSIZE)). rewrite (place_Some (uvm s) e _ d p).
  - by rewrite Z.mod_add, Z.mod_small by done.
  - by rewrite Z.div_add, Z.div_small, Z.add_0_l by done.
Qed.
Lemma fd_word s b i d j o fb k :
  session s b i d j o fb → 0 ≤ k < PGSIZE →
  uld32 e (INDEX2FD i + k) s = Ret (i32 (ld32 (phys (uvm s)) (d * PGSIZE + k))) s.
Proof. intros S Hk. destruct (fd_place _ _ _ _ _ _ _ _ S Hk) as (p & E & _). unfold uld32. by rewrite E. Qed.
Lemma session_lookup s b i d j o fb : session s b i d j o fb → fd_lookup e i s = Ret (0, INDEX2FD i) s.
Proof.
  intros S. pose proof (ss_range _ _ _ _ _ _ _ S) as Hi. destruct (ss_fd _ _ _ _ _ _ _ S) as (p & E & _).
  unfold fd_lookup. destruct (Z.ltb_spec i 0); [lia|]. destruct (Z.leb_spec MAXFD i); [lia|]. cbn [orb].
  step_with (pte_run e (INDEX2FD i) s). rewrite fd_page, E, pte_valid_bit by done. done.
Qed.

Context (devsock : Dev (X := sstate)) (devpipe_read devpipe_write : Z → Z → Z → UF Z) (devpipe_stat : Z → Z → UF Z).
Context (file_addr cons_addr pipe_addr : Z).
Notation with_devices f :=
  (f pick e (devfile pick e se fsipcbuf file_addr) devsock devpipe_read devpipe_write devpipe_stat cons_addr pipe_addr).

(** The generic calls reach the file device. *)
Lemma session_dev s b i d j o fb k :
  session s b i d j o fb → with_devices with_dev i k s = k (INDEX2FD i) (devfile pick e se fsipcbuf file_addr) s.
Proof.
  intros S. unfold with_dev. step_with (session_lookup _ _ _ _ _ _ _ S). cbn [fst snd]. no_error.
  step_with (fd_word _ _ _ _ _ _ _ fd_dev_id S ltac:(done)). rewrite (ss_dev _ _ _ _ _ _ _ S). done.
Qed.
Lemma write_dev s b i d j o fb buf n :
  session s b i d j o fb → fdmode s d ≠ O_RDONLY →
  with_devices write i buf n s = devfile_write pick e se fsipcbuf (INDEX2FD i) buf n s.
Proof.
  intros S Hm. unfold write. rewrite (session_dev _ _ _ _ _ _ _ _ S).
  step_with (fd_word _ _ _ _ _ _ _ fd_omode S ltac:(done)). fold (fdmode s d).
  by destruct (Z.eqb_spec (fdmode s d) O_RDONLY).
Qed.
Lemma read_dev s b i d j o fb buf n :
  session s b i d j o fb → with_devices read i buf n s = devfile_read pick e se fsipcbuf (INDEX2FD i) buf n s.
Proof.
  intros S. unfold read. rewrite (session_dev _ _ _ _ _ _ _ _ S).
  step_with (fd_word _ _ _ _ _ _ _ fd_omode S ltac:(done)). pose proof (ss_mode _ _ _ _ _ _ _ S).
  by destruct (Z.eqb_spec (Z.land (i32 (ld32 (phys (uvm s)) (d * PGSIZE + fd_omode))) O_ACCMODE) O_WRONLY).
Qed.

(** The file id and a 64-bit number at [x] of the request. *)
Lemma header_run s b i d j o fb x n :
  session s b i d j o fb → x = 4 ∨ x = 8 → 0 ≤ n < 2 ^ 32 →
  ∃ ph, (∀ A (k : UF A), (id <- uld32 e (INDEX2FD i + fd_file_id) ;; ust32 pick e fsipcbuf id ;;;
      st64u pick e (fsipcbuf + x) n ;;; k) s = k (setp s ph)) ∧ bytes_ok ph ∧ (∀ a, ¬ in_page (b * PGSIZE) a → rdb ph a = rdb (phys (uvm s)) a) ∧
    ld32 ph (b * PGSIZE) = o_fileid o ∧ ld64 ph (b * PGSIZE + x) = n.
Proof.
  intros S Hx Hn. pose proof (ss_link _ _ _ _ _ _ _ S) as L. set (m := phys (uvm s)). set (a := b * PGSIZE).
  set (m1 := st32 m (a + 0) (i32 (o_fileid o))). set (m2 := st32 m1 (a + x) n). set (m3 := st32 m2 (a + (x + 4)) (n / 2 ^ 32)).
  assert (bytes_ok m1 ∧ bytes_ok m2 ∧ bytes_ok m3) as (Hb1 & Hb2 & Hb3) by (split_and!; repeat apply bytes_ok_st32; apply L).
  assert (∀ ph, bytes_ok ph → linked (uvm (setp s ph)) b) as L' by (intros ph Hph; by apply (linked_spaces (uvm s))).
  exists m3. split_and!; [|done| | |].
  - intros A k. step_with (fd_word _ _ _ _ _ _ _ fd_file_id S ltac:(done)). rewrite (ss_id _ _ _ _ _ _ _ S).
    pose proof (st_buf s b 0 (i32 (o_fileid o)) L ltac:(lia) ltac:(unfold PGSIZE; lia)) as E1. rewrite (Z.add_0_r fsipcbuf) in E1.
    step_with E1. unfold st64u. rewrite bind_assoc.
    step_with (st_buf (setp s m1) b x n (L' m1 Hb1) ltac:(lia) ltac:(unfold PGSIZE; lia)). rewrite <-Z.add_assoc.
    by step_with (st_buf (setp s m2) b (x + 4) (n / 2 ^ 32) (L' m2 Hb2) ltac:(lia) ltac:(unfold PGSIZE; lia)).
  - intros y Hy. unfold in_page, PGSIZE in Hy. unfold m3, m2, m1. by rewrite !rdb_st32_out by lia.
  - unfold m3, m2, m1. rewrite !ld32_st32_ne by lia. rewrite <-(Z.add_0_r a) at 2. rewrite ld32_st32_eq, u32_i32.
    apply u32_small. destruct (ot_entry _ (ss_tab _ _ _ _ _ _ _ S) j o (ss_open _ _ _ _ _ _ _ S)) as (_ & _ & ?). done.
  - unfold ld64. rewrite <-Z.add_assoc. unfold m3 at 2. rewrite ld32_st32_eq. unfold m3. rewrite ld32_st32_ne by lia.
    unfold m2. rewrite ld32_st32_eq, u32_small by lia. rewrite Z.div_small by lia.
    change (u32 0) with 0. lia.
Qed.

(** The client after a reply that moved the seek position to [w]. *)
Lemma reply_session s b i d j o fb sv w :
  session s b i d j o fb → opentab sv = opentab (world s) → fs_wf (fs sv) → file_ok (fmem (fs sv)) (o_file o) fb →
  (∀ a, FILEVA ≤ a →
     rdb (fmem (fs sv)) a = rdb (st32 (fmem (fs (at_server s b))) (o_fd o + fd_offset) w) a) →
  session (at_client s b sv) b i d j o fb ∧ fdpos (at_client s b sv) d = i32 w.
Proof.
  intros S Ht Hw Hok Hm. pose proof (ss_link _ _ _ _ _ _ _ S) as L. destruct (ss_share _ _ _ _ _ _ _ S) as (p & Ep).
  destruct (session_ofd _ _ _ _ _ _ _ S) as [Ho Hge].
  assert (∀ x, 0 ≤ x → x + 4 ≤ PGSIZE → ld32 (phys (uvm (at_client s b sv))) (d * PGSIZE + x) =
    ld32 (st32 (fmem (fs (at_server s b))) (o_fd o + fd_offset) w) (o_fd o + x)) as Hx.
  { intros x H1 H2. apply ld32_eq. intros k Hk. rewrite <-!Z.add_assoc.
    rewrite (at_client_page s b L sv (fw_bytes _ Hw) _ d p (x + k) Ep) by lia. rewrite Ho. apply Hm. lia. }
  split.
  - apply (session_change s); [exact S|reflexivity|by apply bytes_ok_hand_over, L| |exact Ht|exact Hw|exact Hok].
    intros x Hxs. assert (0 ≤ x ∧ x + 4 ≤ PGSIZE ∧ (x + 4 ≤ 4 ∨ 8 ≤ x)) as (H1 & H2 & H3)
      by (unfold fd_dev_id, fd_omode, fd_file_id, PGSIZE in *; lia).
    rewrite Hx, ld32_st32_ne by (unfold fd_offset; lia). apply ld32_eq. intros k Hk. rewrite <-!Z.add_assoc, <-Ho.
    apply (at_server_page s b L _ d p); [done|lia].
  - unfold fdpos. rewrite Hx by done. by rewrite ld32_st32_eq, i32_u32.
Qed.

Lemma round_write sv r sv' : serve_write sv = Ret r sv' → serve_round FSREQ_WRITE PERM_REQ sv = Ret (Some (r, 0, PERM_REQ)) sv'.
Proof. intros E. unfold serve_round. change (Z.land PERM_REQ PTE_V =? 0) with false. cbn. by step_with E. Qed.
Lemma round_read sv r sv' : serve_read sv = Ret r sv' → serve_round FSREQ_READ PERM_REQ sv = Ret (Some (r, 0, PERM_REQ)) sv'.
Proof. intros E. unfold serve_round. change (Z.land PERM_REQ PTE_V =? 0) with false. cbn. by step_with E. Qed.

Lemma ld64_eq m m' a a' : (∀ k, 0 ≤ k < 8 → rdb m (a + k) = rdb m' (a' + k)) → ld64 m a = ld64 m' a'.
Proof.
  intros H. unfold ld64. rewrite (ld32_eq m m' a a'), (ld32_eq m m' (a + 4) (a' + 4)); [done| |].
  - intros k Hk. rewrite <-!Z.add_assoc. apply H. lia.
  - intros k Hk. apply H. lia.
Qed.

(** The buffer [buf] of [n] bytes [B], outside the request page. *)
Definition holds s (b buf n : Z) (B : Z → Z) : Prop :=
  ∀ k, 0 ≤ k < n → byte_at (uvm s) e (buf + k) = Some (B k) ∧
    ∀ f p, entry (uvm s) e ((buf + k) / PGSIZE) = Some (f, p) → f ≠ b.

Lemma holds_setp s b buf n B ph :
  holds s b buf n B → (∀ a, ¬ in_page (b * PGSIZE) a → rdb ph a = rdb (phys (uvm s)) a) → holds (setp s ph) b buf n B.
Proof.
  intros H Hout k Hk. destruct (H k Hk) as [Hb Hf]. split; [|exact Hf].
  destruct (byte_at_inv _ _ _ _ Hb) as (f & p & E & ->). rewrite (byte_at_Some (uvm (setp s ph)) e (buf + k) f p E).
  f_equal. apply Hout. specialize (Hf f p E). pose proof (Z.mod_pos_bound (buf + k) PGSIZE ltac:(done)).
  unfold in_page, PGSIZE in *. lia.
Qed.

(** The request of a write is in place. *)
Lemma write_request s b i d j o fb buf n B :
  session s b i d j o fb → holds s b buf n B → 0 ≤ n ≤ PGSIZE - 12 →
  ∃ s1, devfile_write pick e se fsipcbuf (INDEX2FD i) buf n s = fsipc pick e se fsipcbuf FSREQ_WRITE 0 s1 ∧
    session s1 b i d j o fb ∧ fdpos s1 d = fdpos s d ∧ world s1 = world s ∧ spaces (uvm s1) = spaces (uvm s) ∧
    ld32 (phys (uvm s1)) (b * PGSIZE) = o_fileid o ∧ ld64 (phys (uvm s1)) (b * PGSIZE + 4) = n ∧
    ∀ k, 0 ≤ k < n → rdb (phys (uvm s1)) (b * PGSIZE + 12 + k) = B k.
Proof.
  intros S HB Hn. destruct (header_run s b i d j o fb 4 n S ltac:(by left) ltac:(unfold PGSIZE in *; lia))
    as (ph & E & Hb & Hout & Hid & Hnn).
  destruct (session_buf s b i d j o fb ph S Hb Hout) as [S1 Hp1]. pose proof (holds_setp _ _ _ _ _ _ HB Hout) as HB1.
  pose proof (ss_link _ _ _ _ _ _ _ S1) as L1.
  destruct (uget_run (Z.to_nat n) buf (setp s ph) B) as (l & El & Hl & Hlk).
  { intros k Hk. apply HB1. lia. }
  destruct (ubytes_run l (fsipcbuf + 12) (setp s ph) (λ k, b * PGSIZE + 12 + k)) as (ph2 & E2 & Hb2 & Hin2 & Hout2); [|done|].
  { split; [|lia]. intros k Hk. rewrite <-!Z.add_assoc. apply buf_place; [done|unfold PGSIZE in *; lia]. }
  assert (∀ x, x < b * PGSIZE + 12 ∨ b * PGSIZE + 12 + n ≤ x → rdb ph2 x = rdb ph x) as Hout2'.
  { intros x Hx. apply Hout2. intros k Hk. lia. }
  destruct (session_buf (setp s ph) b i d j o fb ph2 S1 Hb2) as [S2 Hp2].
  { intros a Ha. apply Hout2'. unfold in_page, PGSIZE in *. lia. }
  exists (setp s ph2). split_and!; [|exact S2|by rewrite <-Hp1, <-Hp2|done|done| | |].
  - unfold devfile_write. rewrite E. destruct (Z.leb_spec n (PGSIZE - 4 - 8)); [|lia].
    step_with (eq_refl : assert_ true (setp s ph) = Ret tt (setp s ph)). step_with El. by step_with E2.
  - rewrite <-Hid. apply ld32_ext. intros a Ha. apply Hout2'. lia.
  - rewrite <-Hnn. apply ld64_eq. intros k Hk. apply Hout2'. lia.
  - intros k Hk. cbn [uvm setp set_uvm phys set_phys]. specialize (Hlk (Z.to_nat k) ltac:(lia)).
    rewrite Z2Nat.id in Hlk by lia. specialize (Hin2 _ _ Hlk). rewrite Z2Nat.id in Hin2 by lia. rewrite Hin2.
    destruct (HB1 k Hk) as [Hbk _]. apply byte_at_inv in Hbk as (f & p & _ & ->). by apply u8_small, Hb.
Qed.

(** ** Writing, seeking, reading *)

Lemma write_run s b i d j o fb buf n B pos :
  session s b i d j o fb → fdmode s d ≠ O_RDONLY → holds s b buf n B → 0 ≤ n ≤ PGSIZE - 12 → fdpos s d = pos → 0 ≤ pos →
  0 ≤ fsize (fmem (fs (world s))) (o_file o) → pos + n ≤ MAXFILESIZE → pos + n ≤ BLKSIZE * bno (fmem (fs (world s))) →
  (∃ s', with_devices write i buf n s = Ret n s' ∧ session s' b i d j o fb ∧ spaces (uvm s') = spaces (uvm s) ∧
     bno (fmem (fs (world s'))) = bno (fmem (fs (world s))) ∧ pos + n ≤ fsize (fmem (fs (world s'))) (o_file o) ∧
     ∀ k, 0 ≤ k < n → ptr (fmem (fs (world s'))) (o_file o) ((pos + k) / BLKSIZE) ≠ 0 ∧
       fbyte (fmem (fs (world s'))) (o_file o) (pos + k) = B k) ∨
  (∃ s', with_devices write i buf n s = Ret (- E_NO_DISK) s' ∧ FsInv.full (fmem (fs (world s')))).
Proof.
  intros S Hmode HB Hn Epos Hpos Hsz Hmax Hnb. rewrite (write_dev _ _ _ _ _ _ _ _ _ S Hmode).
  destruct (write_request _ _ _ _ _ _ _ _ _ _ S HB Hn) as (s1 & -> & S1 & Hp1 & Hw1 & Hsp1 & Hid & Hnn & HB1).
  pose proof (ss_link _ _ _ _ _ _ _ S1) as L1. destruct (session_request _ _ _ _ _ _ _ S1 Hid) as [Hrq Hfp].
  destruct (session_fs _ _ _ _ _ _ _ S1) as (Hwf & Hok & En & Ez & _). rewrite Hw1 in En, Ez.
  destruct (serve_write_run (at_server s1 b) j o fb n pos Hrq Hwf Hok) as [(sv & E & Hwf' & Hok' & Eb' & Es' & Hd & [Ht _] & Hout)|(sv & E & Hfull)].
  - by rewrite Ez.
  - rewrite <-Hnn. apply ld64_eq. intros k Hk. rewrite <-!Z.add_assoc. apply (at_server_buf s1 b L1). unfold PGSIZE. lia.
  - done.
  - by rewrite Hfp, Hp1.
  - done.
  - done.
  - by rewrite En.
  - left. exists (at_client s1 b sv).
    destruct (reply_session s1 b i d j o fb sv (pos + n) S1 Ht Hwf' Hok') as [S' _].
    { intros a Ha. apply Hout. right. rewrite En. pose proof (fw_size _ (ss_fs _ _ _ _ _ _ _ S)) as [_ Hbn].
      unfold FILEVA in Ha. layout. lia. }
    split_and!; [|exact S'|exact Hsp1| | |].
    + rewrite (fsipc_run _ s1 b n PERM_REQ sv L1 (round_write _ _ _ E)).
      rewrite i32_small by (unfold PGSIZE in *; lia). done.
    + cbn [world at_client]. by rewrite Eb', En.
    + cbn [world at_client]. rewrite Es'. lia.
    + intros k Hk. cbn [world at_client]. destruct (Hd k Hk) as [Hpk Hbk]. split; [done|]. rewrite Hbk.
      rewrite <-Z.add_assoc. rewrite (at_server_buf s1 b L1) by (unfold PGSIZE in *; lia). rewrite Z.add_assoc. by apply HB1.
  - right. exists (at_client s1 b sv). split; [|exact Hfull].
    by rewrite (fsipc_run _ s1 b _ PERM_REQ sv L1 (round_write _ _ _ E)).
Qed.

Lemma seek_session s b i d j o fb w :
  session s b i d j o fb →
  ∃ s', seek pick e i w s = Ret 0 s' ∧ session s' b i d j o fb ∧ fdpos s' d = i32 w ∧ world s' = world s ∧
    uvm s' = set_phys (phys (uvm s')) (uvm s) ∧ ∀ x, ¬ in_page (d * PGSIZE) x → rdb (phys (uvm s')) x = rdb (phys (uvm s)) x.
Proof.
  intros S. destruct (fd_place _ _ _ _ _ _ _ fd_offset S ltac:(done)) as (p & Ep & Hw).
  set (m := st32 (phys (uvm s)) (d * PGSIZE + fd_offset) w). exists (setp s m). split_and!; [| | |done|done|].
  4:{ intros x Hx. apply rdb_st32_out. unfold in_page, fd_offset, PGSIZE in *. lia. }
  - unfold seek. step_with (session_lookup _ _ _ _ _ _ _ S). cbn [fst snd]. no_error.
    erewrite bind_Ret_l; [done|]. unfold ust32. rewrite Ep, Hw. done.
  - apply (session_change s); [exact S|done|apply bytes_ok_st32, S| |done|apply S|apply S].
    intros x Hx. apply ld32_st32_ne. unfold fd_offset, fd_dev_id, fd_omode, fd_file_id in *. lia.
  - unfold fdpos, m. cbn [uvm setp set_uvm phys set_phys]. by rewrite ld32_st32_eq, i32_u32.
Qed.

(** The end of a read: the bytes go from the request page to the buffer. *)
Lemma receive_bytes s b sv n dst B a :
  linked (uvm s) b → bytes_ok (fmem (fs sv)) → 0 < n ≤ PGSIZE → (∀ k, 0 ≤ k < n → rdb (fmem (fs sv)) (fsreq + k) = B k) →
  at_places (uvm s) dst n a →
  ∃ s', (assert_ (n <=? n) ;;; assert_ (n <=? PGSIZE) ;;; l <- uget e (Z.to_nat n) fsipcbuf ;;
         ubytes pick e dst l ;;; ret n) (at_client s b sv) = Ret n s' ∧
    (∀ k, 0 ≤ k < n → byte_at (uvm s') e (dst + k) = Some (B k)) ∧
    ∃ ph, s' = setp (at_client s b sv) ph ∧ bytes_ok ph ∧
      ∀ x, (∀ k, 0 ≤ k < n → x ≠ a k) → rdb ph x = rdb (phys (uvm (at_client s b sv))) x.
Proof.
  intros L Hb Hn HB [Hdst Hinj]. set (s1 := at_client s b sv). pose proof (at_client_linked s b L sv) as L1.
  destruct (uget_run (Z.to_nat n) fsipcbuf s1 B) as (l & El & Hl & Hlk).
  { intros k Hk. destruct (buf_place (uvm s1) b k L1 ltac:(lia)) as (p & Ep & _). unfold byte_at. rewrite Ep. simpl.
    f_equal. rewrite <-HB by lia. apply (at_client_buf s b L sv Hb). lia. }
  assert (at_places (uvm s1) dst (Z.of_nat (length l)) a) as Hd1.
  { rewrite Hl, Z2Nat.id by lia. split; [|done]. intros k Hk. rewrite (place_spaces (uvm s)) by done. by apply Hdst. }
  destruct (ubytes_run l dst s1 a Hd1 (lk_bytes _ _ L1)) as (ph & E2 & Hb2 & Hin & Hout).
  exists (setp s1 ph). split_and!; [| |exists ph; split_and!; [done|done|rewrite Hl, Z2Nat.id in Hout by lia; exact Hout]].
  - rewrite Z.leb_refl. destruct (Z.leb_spec n PGSIZE); [|lia].
    step_with (eq_refl : assert_ true s1 = Ret tt s1). step_with (eq_refl : assert_ true s1 = Ret tt s1).
    step_with El. by step_with E2.
  - intros k Hk. destruct (Hdst k Hk) as (p & Ep & _). unfold byte_at.
    rewrite (place_spaces (uvm s)), Ep by done. simpl. f_equal.
    specialize (Hlk (Z.to_nat k) ltac:(lia)). rewrite Z2Nat.id in Hlk by lia. specialize (Hin _ _ Hlk).
    rewrite Z2Nat.id in Hin by lia. rewrite Hin. apply u8_small. rewrite <-HB by done. apply Hb.
Qed.

(** The session after a read: the server changed the request page and the seek
    position, the client its buffer at the places [a]. *)
Lemma read_after s b i d j o fb m' n w (a : Z → Z) ph :
  session s b i d j o fb → 0 < n ≤ PGSIZE → bytes_ok m' → bytes_ok ph →
  (∀ x, ¬ (fsreq ≤ x < fsreq + n) → rdb m' x = rdb (st32 (fmem (fs (at_server s b))) (o_fd o + fd_offset) w) x) →
  let sv := set_fs (set_fmem m' (fs (at_server s b))) (at_server s b) in
  (∀ x, (∀ k, 0 ≤ k < n → x ≠ a k) → rdb ph x = rdb (phys (uvm (at_client s b sv))) x) →
  ((∀ k, 0 ≤ k < n → ¬ in_page (d * PGSIZE) (a k)) → session (setp (at_client s b sv) ph) b i d j o fb) ∧
  (∀ x, DISKMAP ≤ x < FILEVA → rdb m' x = rdb (fmem (fs (world s))) x) ∧
  ∀ x, (∀ k, 0 ≤ k < n → x ≠ a k) → ¬ in_page (b * PGSIZE) x →
    (∀ n' f p, entry (uvm s) se n' = Some (f, p) → ¬ in_page (f * PGSIZE) x) → rdb ph x = rdb (phys (uvm s)) x.
Proof.
  intros S Hn Hbm Hbp Hm sv Hout. pose proof (ss_link _ _ _ _ _ _ _ S) as L.
  destruct (session_fs _ _ _ _ _ _ _ S) as (Hwf & Hok & _).
  assert (∀ x, DISKMAP ≤ x < FILEVA → rdb m' x = rdb (fmem (fs (at_server s b))) x) as Hdisk.
  { intros x Hx. rewrite Hm by (unfold fsreq, DISKMAP, PGSIZE in *; lia). apply rdb_st32_out.
    destruct (session_ofd _ _ _ _ _ _ _ S) as [_ ?]. unfold fd_offset. lia. }
  split_and!.
  - intros Hda. destruct (outside_kept (fs (at_server s b)) m' (o_file o) fb Hwf Hok Hbm) as (Hw' & Hok' & _).
    { intros x Hx. apply Hdisk. pose proof (fw_size _ Hwf) as [_ Hbn]. unfold FILEVA. layout. lia. }
    destruct (reply_session s b i d j o fb sv w S eq_refl Hw' Hok') as [S2 _].
    { intros x Hx. change (fmem (fs sv)) with m'. apply Hm. unfold fsreq, FILEVA, PGSIZE in *. lia. }
    apply (session_change (at_client s b sv)); [exact S2|done|done| |done|apply S2|apply S2].
    intros x Hx. apply ld32_ext. intros y Hy. apply Hout. intros k Hk ->. apply (Hda k Hk).
    unfold in_page, fd_dev_id, fd_omode, fd_file_id, PGSIZE in *. lia.
  - intros x Hx. rewrite Hdisk by done. exact (at_server_disk s b L x Hx).
  - intros x Ha Hbx Hsx. rewrite Hout by done. apply hand_over_out. intros y [->|Hin]%elem_of_cons; [done|].
    apply list_elem_of_fmap in Hin as ([va f] & -> & Hin). apply server_pages_In in Hin as (n' & p & -> & En'). cbn [fst snd].
    exact (Hsx n' f p En').
Qed.

Lemma read_run s b i d j o fb dst n B pos a :
  session s b i d j o fb → 0 < n ≤ PGSIZE → fdpos s d = pos → 0 ≤ pos → pos + n ≤ fsize (fmem (fs (world s))) (o_file o) →
  pos + n ≤ MAXFILESIZE → pos + n ≤ BLKSIZE * bno (fmem (fs (world s))) →
  (∀ k, 0 ≤ k < n → ptr (fmem (fs (world s))) (o_file o) ((pos + k) / BLKSIZE) ≠ 0 ∧
     fbyte (fmem (fs (world s))) (o_file o) (pos + k) = B k) →
  at_places (uvm s) dst n a →
  ∃ s', with_devices read i dst n s = Ret n s' ∧ (∀ k, 0 ≤ k < n → byte_at (uvm s') e (dst + k) = Some (B k)) ∧
    ((∀ k, 0 ≤ k < n → ¬ in_page (d * PGSIZE) (a k)) → session s' b i d j o fb) ∧
    uvm s' = set_phys (phys (uvm s')) (uvm s) ∧
    (∀ x, DISKMAP ≤ x < FILEVA → rdb (fmem (fs (world s'))) x = rdb (fmem (fs (world s))) x) ∧
    ∀ x, (∀ k, 0 ≤ k < n → x ≠ a k) → ¬ in_page (b * PGSIZE) x →
      (∀ n' f p, entry (uvm s) se n' = Some (f, p) → ¬ in_page (f * PGSIZE) x) →
      rdb (phys (uvm s')) x = rdb (phys (uvm s)) x.
Proof.
  intros S Hn Epos Hpos Hsz Hmax Hnb HB Hdst. rewrite (read_dev _ _ _ _ _ _ _ _ _ S).
  destruct (header_run s b i d j o fb 8 n S ltac:(by right) ltac:(unfold PGSIZE in *; lia)) as (ph & E & Hb & Hout & Hid & Hnn).
  destruct (session_buf s b i d j o fb ph S Hb Hout) as [S1 Hp1]. set (s1 := setp s ph) in *.
  pose proof (ss_link _ _ _ _ _ _ _ S1) as L1. destruct (session_request _ _ _ _ _ _ _ S1 Hid) as [Hrq Hfp].
  destruct (session_fs _ _ _ _ _ _ _ S1) as (Hwf & Hok & En & Ez & Hfb). change (world s1) with (world s) in *.
  assert (∀ k, 0 ≤ k < n → ptr (fmem (fs (at_server s1 b))) (o_file o) ((pos + k) / BLKSIZE) ≠ 0 ∧
     fbyte (fmem (fs (at_server s1 b))) (o_file o) (pos + k) = B k) as HB1.
  { intros k Hk. destruct (HB k Hk) as [Hp Hf]. rewrite <-Hf. apply Hfb; [lia|done]. }
  destruct (serve_read_run (at_server s1 b) j o fb n pos Hrq Hwf Hok) as (m' & Em & Hm).
  { rewrite <-Hnn. apply ld64_eq. intros k Hk. rewrite <-!Z.add_assoc. apply (at_server_buf s1 b L1). unfold PGSIZE. lia. }
  { done. }
  { by rewrite Hfp, Hp1. }
  { done. }
  { by rewrite Ez. }
  { done. }
  { by rewrite En. }
  { intros k Hk. by apply HB1. }
  set (sv := set_fs (set_fmem m' (fs (at_server s1 b))) (at_server s1 b)) in *.
  assert (bytes_ok m') as Hbm.
  { intros x. rewrite Hm. case_decide; [apply (fw_bytes _ Hwf)|]. apply bytes_ok_st32, (fw_bytes _ Hwf). }
  destruct (receive_bytes s1 b sv n dst B a L1 Hbm Hn) as (s' & Es & Hs' & ph2 & Es' & Hb2 & Hout2).
  { intros k Hk. change (fmem (fs sv)) with m'. rewrite Hm, decide_True by lia.
    replace (fsreq + k - fsreq) with k by lia. exact (proj2 (HB1 k Hk)). }
  { done. }
  destruct (read_after s1 b i d j o fb m' n (pos + n) a ph2 S1 Hn Hbm Hb2) as (R1 & R2 & R3).
  { intros x Hx. by rewrite Hm, decide_False. }
  { exact Hout2. }
  exists s'. split_and!; [|done|by rewrite Es'|by rewrite Es'|by rewrite Es'|].
  - unfold devfile_read. rewrite E. fold s1.
    step_with (fsipc_run _ s1 b n PERM_REQ sv L1 (round_read _ _ _ Em)). rewrite i32_small by (unfold PGSIZE in *; lia).
    destruct (Z.ltb_spec n 0); [lia|]. exact Es.
  - intros x Ha Hbx Hsx. rewrite Es'. cbn [uvm setp set_uvm phys set_phys]. rewrite R3 by done. by apply Hout.
Qed.
End link.

(** C6  A client gets back what it wrote.  For a descriptor open for reading and
    writing, [write] of [n] bytes at the seek position, [seek] back and [read] put
    the same bytes into another buffer: through the descriptor layer, the request
    page and the reply, the server's table of open files, the file's blocks and
    back.  Otherwise [write] returns [-E_NO_DISK], and the disk is full. *)
Theorem client_write_read (pick : vm → Z) (e se fsipcbuf : Z)
    (devsock : Dev (X := sstate)) (devpipe_read devpipe_write : Z → Z → Z → U (X := sstate) Z)
    (devpipe_stat : Z → Z → U (X := sstate) Z) (file_addr cons_addr pipe_addr : Z)
    (s : ust (X := sstate)) (b i d : Z) (j : nat) (o : OpenFile) (fb buf dst n pos : Z) (B a : Z → Z)
    (S : session e se fsipcbuf s b i d j o fb) (Hmode : fdmode s d = O_RDWR) (HB : holds e s b buf n B) (Hdst : at_places e (uvm s) dst n a)
    (Hn : 0 < n ≤ PGSIZE - 12) (Epos : fdpos s d = pos) (Hpos : 0 ≤ pos) (Hmax : pos + n ≤ MAXFILESIZE)
    (Hsz : 0 ≤ fsize (fmem (fs (world s))) (o_file o)) (Hnb : pos + n ≤ BLKSIZE * bno (fmem (fs (world s)))) :
  let devfile := devfile pick e se fsipcbuf file_addr in
  (∃ s1 s2 s3,
     write pick e devfile devsock devpipe_read devpipe_write devpipe_stat cons_addr pipe_addr i buf n s = Ret n s1 ∧
     seek pick e i pos s1 = Ret 0 s2 ∧
     read pick e devfile devsock devpipe_read devpipe_write devpipe_stat cons_addr pipe_addr i dst n s2 = Ret n s3 ∧
     ∀ k, 0 ≤ k < n → byte_at (uvm s3) e (dst + k) = Some (B k)) ∨
  (∃ s1,
     write pick e devfile devsock devpipe_read devpipe_write devpipe_stat cons_addr pipe_addr i buf n s =
       Ret (- E_NO_DISK) s1 ∧ FsInv.full (fmem (fs (world s1)))).
Proof.
  intros devfile.
  destruct (write_run pick e se fsipcbuf devsock devpipe_read devpipe_write devpipe_stat file_addr cons_addr pipe_addr
    s b i d j o fb buf n B pos S ltac:(by rewrite Hmode) HB ltac:(lia) Epos Hpos Hsz Hmax Hnb)
    as [(s1 & E1 & S1 & Hsp1 & Hb1 & Hz1 & HB1)|?]; [left|by right].
  destruct (seek_session pick e se fsipcbuf s1 b i d j o fb pos S1) as (s2 & E2 & S2 & Hp2 & Hw2 & Hsp2 & _).
  destruct (read_run pick e se fsipcbuf devsock devpipe_read devpipe_write devpipe_stat file_addr cons_addr pipe_addr
    s2 b i d j o fb dst n B pos a S2) as (s3 & E3 & H3 & _); rewrite ?Hw2, ?Hb1; try done; [lia| | |].
  - rewrite Hp2. apply i32_small. unfold MAXFILESIZE in Hmax. layout. lia.
  - destruct Hdst as [Hd Hi]. split; [|done]. intros k Hk. rewrite (place_spaces (uvm s)) by by rewrite Hsp2. by apply Hd.
  - by exists s1, s2, s3.
Qed.

(** ** An example: two bytes into the root file of an empty disk *)

Definition ex_ipcbuf : Z := 0x900000.
Definition ex_buf : Z := 0x901000.
Definition ex_dst : Z := 0x902000.
Definition ex_client : ust (X := sstate) :=
  mkU (mkVm
    {[ 11 * 4096 := 102; 11 * 4096 + 8 := 2; 11 * 4096 + 13 := 4; 12 * 4096 := 72; 12 * 4096 + 1 := 105 ]}
    {[ 1 := {[ 0x900 := (10, PERM_ALL); 0x901 := (12, PERM_ALL); 0x902 := (13, PERM_ALL); 0xD0000 := (11, PERM_FD) ]};
       2 := {[ 0xD0000 := (11, PERM_FD) ]} ]} ∅ 0 ∅) [] []
    (mkS ex_disk (<[O := ex_open]> ex_tab) ∅ 1).

Lemma ex_server_entry n f p : entry (uvm ex_client) 2 n = Some (f, p) → n = 0xD0000 ∧ f = 11.
Proof.
  unfold entry. change (spaces (uvm ex_client) !! 2) with (Some ({[ 0xD0000 := (11, PERM_FD) ]} : gmap Z (Z * Z))).
  cbn [mbind option_bind]. rewrite lookup_singleton_Some. by intros [<- [= <- _]].
Qed.

Lemma ex_session : session 1 2 ex_ipcbuf ex_client 10 0 11 0 ex_open 1.
Proof.
  split; try (by vm_compute).
  - split; try (by vm_compute).
    + exists PERM_ALL. by vm_compute.
    + intros n f p [-> ->]%ex_server_entry. by vm_compute.
    + intros n n' f p p' [-> _]%ex_server_entry [-> _]%ex_server_entry. done.
    + intros x. unfold rdb. apply (bytes_ok_sound (phys (uvm ex_client))). by apply (bool_decide_unpack _); vm_compute.
  - exists PERM_FD. by vm_compute.
  - exists PERM_FD. by vm_compute.
  - destruct ex_server_request as [[H1 H2] _ _ _]. split; [exact H1|exact H2].
  - exact ex_disk_wf.
  - exact ex_root_ok.
Qed.

(** The two bytes of a buffer. *)
Lemma two_cases k : 0 ≤ k < 2 → k = 0 ∨ k = 1.
Proof. lia. Qed.

Lemma client_write_read_witness :
  ∃ s3 : ust (X := sstate), byte_at (uvm s3) 1 ex_dst = Some 72 ∧ byte_at (uvm s3) 1 (ex_dst + 1) = Some 105.
Proof.
  destruct (client_write_read pick_new 1 2 ex_ipcbuf (no_dev 115) (λ _ _ _, ret 0) (λ _ _ _, ret 0) (λ _ _, ret 0) 0 0 0
    ex_client 10 0 11 0 ex_open 1 ex_buf ex_dst 2 0 (λ k, if k =? 0 then 72 else 105) (λ k, 13 * 4096 + k) ex_session ltac:(by vm_compute))
    as [(s1 & s2 & s3 & _ & _ & _ & H)|(s1 & E & _)].
  - intros k [-> | ->]%two_cases; split; [by vm_compute| |by vm_compute|]; intros f p [= <- _]; done.
  - split; [|lia]. intros k [-> | ->]%two_cases; exists PERM_ALL; by vm_compute.
  - by vm_compute.
  - by vm_compute.
  - done.
  - by vm_compute.
  - by vm_compute.
  - by vm_compute.
  - exists s3. split; [apply (H 0); lia|apply (H 1); lia].
  - exfalso. assert (match write pick_new 1 (devfile pick_new 1 2 ex_ipcbuf 0) (no_dev 115) (λ _ _ _, ret 0)
      (λ _ _ _, ret 0) (λ _ _, ret 0) 0 0 0 ex_buf 2 ex_client with Ret r _ => r | _ => 0 end = 2) as Hr by by vm_compute.
    rewrite E in Hr. discriminate Hr.
Defined.
