(* ===== verification/Inet.v ===== *)
(** * Addresses and byte order of the network stack: net/lwip/core/ipv4/inet.c

    [htons], [htonl] and their inverses for this little-endian machine, the
    reader [inet_aton]/[inet_addr] of dotted addresses in all the forms it accepts,
    and the printer [inet_ntoa].  A string is the list of its characters from the
    pointer on, the NUL included where the code writes it; reading past the end of
    the list gives NUL.  An address is the 32-bit word [s_addr] as it is stored, in
    network order. *)

From S2P Require Import Prelude.

(** ** Byte order *)

Definition htons (n : Z) : Z :=
  u16 (Z.lor (Z.shiftl (Z.land n 0xff) 8) (Z.shiftr (Z.land n 0xff00) 8)).
Definition ntohs (n : Z) : Z := htons n.

Definition htonl (n : Z) : Z :=
  u32 (Z.lor (Z.lor (Z.lor (Z.shiftl (Z.land n 0xff) 24)
                           (Z.shiftl (Z.land n 0xff00) 8))
                    (Z.shiftr (Z.land n 0xff0000) 8))
             (Z.shiftr (Z.land n 0xff000000) 24)).
Definition ntohl (n : Z) : Z := htonl n.

(** ** Character classes *)

Definition in_range (c lo up : Z) : bool := (lo <=? u8 c) && (u8 c <=? up).
Definition isprint (c : Z) : bool := in_range c 0x20 0x7f.
Definition isdigit (c : Z) : bool := in_range c 48 57.
Definition isxdigit (c : Z) : bool := isdigit c || in_range c 97 102 || in_range c 65 70.
Definition islower (c : Z) : bool := in_range c 97 122.
Definition isspace (c : Z) : bool :=
  (c =? 32) || (c =? 12) || (c =? 10) || (c =? 13) || (c =? 9) || (c =? 11).

(** ** Reading an address *)

Definition cur (cp : list Z) : Z := hd 0 cp.

(** The inner [for (;;)]: the digits of one part. *)
Fixpoint digits_loop (base val : Z) (cp : list Z) : Z * list Z :=
  match cp with
  | [] => (val, [])
  | c :: cp' =>
      if isdigit c then digits_loop base (u32 (u32 (val * base) + (c - 48))) cp'
      else if (base =? 16) && isxdigit c then
        digits_loop base (u32 (Z.lor (Z.shiftl val 4) (c + 10 - (if islower c then 97 else 65)))) cp'
      else (val, cp)
  end.

(** One part: [None] when it does not start with a digit. *)
Definition part (cp : list Z) : option (Z * list Z) :=
  if negb (isdigit (cur cp)) then None
  else if cur cp =? 48 then
    let cp := tl cp in
    if (cur cp =? 120) || (cur cp =? 88) then Some (digits_loop 16 0 (tl cp))
    else Some (digits_loop 8 0 cp)
  else Some (digits_loop 10 0 cp).

(** The outer [for (;;)]; [room] is [parts + 3 - pp]. *)
Fixpoint parts_loop (room : nat) (parts : list Z) (cp : list Z) : option (list Z * Z * list Z) :=
  '(val, cp) ← part cp;
  if cur cp =? 46 then
    match room with
    | O => None
    | S room' => parts_loop room' (parts ++ [val]) (tl cp)
    end
  else Some (parts, val, cp).

(** [Some s_addr] where the code returns 1. *)
Definition inet_aton (cp : list Z) : option Z :=
  '(parts, val, cp) ← parts_loop 3 [] cp;
  let c := cur cp in
  if negb (c =? 0) && (negb (isprint c) || negb (isspace c)) then None
  else
    match parts with
    | [] => Some (htonl val)
    | [a] =>
        if 0xffffff <? val then None else Some (htonl (Z.lor val (u32 (Z.shiftl a 24))))
    | [a; b] =>
        if 0xffff <? val then None
        else Some (htonl (Z.lor val (Z.lor (u32 (Z.shiftl a 24)) (u32 (Z.shiftl b 16)))))
    | [a; b; d] =>
        if 0xff <? val then None
        else Some (htonl (Z.lor val (Z.lor (Z.lor (u32 (Z.shiftl a 24)) (u32 (Z.shiftl b 16)))
                                           (u32 (Z.shiftl d 8)))))
    | _ => None
    end.

Definition INADDR_NONE : Z := 0xffffffff.
Definition inet_addr (cp : list Z) : Z := default INADDR_NONE (inet_aton cp).

(** ** Printing an address *)

(** The [do] loop on [*ap]: the digits of one byte, last one first; a byte has at most
    three. *)
Fixpoint inv_loop (fuel : nat) (a : Z) (inv : list Z) : option (list Z) :=
  match fuel with
  | O => None
  | S fuel' =>
      let rem := a mod 10 in
      let a := a / 10 in
      let inv := inv ++ [48 + rem] in
      if negb (a =? 0) then inv_loop fuel' a inv else Some inv
  end.

(** The digits copied back in order, then the dot. *)
Definition octet_str (a : Z) : option (list Z) :=
  inv ← inv_loop 3 a []; Some (reverse inv ++ [46]).

Definition ap_byte (s_addr n : Z) : Z := Z.shiftr s_addr (8 * n) mod 256.

(** The bytes stored in [str]: the last dot becomes the NUL. *)
Definition inet_ntoa (s_addr : Z) : option (list Z) :=
  s0 ← octet_str (ap_byte s_addr 0); s1 ← octet_str (ap_byte s_addr 1);
  s2 ← octet_str (ap_byte s_addr 2); s3 ← octet_str (ap_byte s_addr 3);
  let str := s0 ++ s1 ++ s2 ++ s3 in
  Some (take (length str - 1) str ++ [0]).

(** ** Bytes of a word *)

Definition is_octet (x : Z) : Prop := 0 ≤ x < 256.
Definition word4 (a b c d : Z) : Z := ((a * 256 + b) * 256 + c) * 256 + d.

Lemma land_byte n k : 0 ≤ k → Z.land n (Z.shiftl 0xff k) = Z.shiftl (n / 2 ^ k mod 256) k.
Proof.
  intros Hk. change 256 with (2 ^ 8).
  rewrite <-(land_ones_mod (n / 2 ^ k) 8), <-Z.shiftr_div_pow2, Z.shiftl_land by lia.
  apply Z.bits_inj'. intros i Hi. rewrite !Z.land_spec.
  destruct (decide (i < k)).
  - by rewrite !(Z.shiftl_spec_low _ _ i), !andb_false_r by lia.
  - by rewrite !(Z.shiftl_spec _ _ i), Z.shiftr_spec, Z.sub_add by lia.
Qed.

Lemma lor_word4 a b c d :
  is_octet b → is_octet c → is_octet d →
  Z.lor (Z.lor (Z.lor (Z.shiftl a 24) (Z.shiftl b 16)) (Z.shiftl c 8)) d = word4 a b c d.
Proof.
  unfold is_octet. intros Hb Hc Hd.
  replace (Z.shiftl a 24) with (Z.shiftl (Z.shiftl (Z.shiftl a 8) 8) 8)
    by (by rewrite !Z.shiftl_shiftl).
  replace (Z.shiftl b 16) with (Z.shiftl (Z.shiftl b 8) 8) by (by rewrite Z.shiftl_shiftl).
  rewrite <-!Z.shiftl_lor. rewrite !(lor_shiftl_add _ _ 8) by (lia || (cbn; lia)). done.
Qed.

Lemma word4_byte a b c d :
  is_octet b → is_octet c → is_octet d →
  word4 a b c d / 2 ^ 0 mod 256 = d ∧ word4 a b c d / 2 ^ 8 mod 256 = c ∧
  word4 a b c d / 2 ^ 16 mod 256 = b ∧ word4 a b c d / 2 ^ 24 mod 256 = a mod 256.
Proof.
  unfold is_octet, word4. intros Hb Hc Hd.
  change (2 ^ 0) with 1. change (2 ^ 8) with 256. change (2 ^ 16) with 65536.
  change (2 ^ 24) with 16777216. split_and!; Z.div_mod_to_equations; lia.
Qed.

Lemma word4_split n : 0 ≤ n < 2 ^ 32 →
  ∃ a b c d, n = word4 a b c d ∧ is_octet a ∧ is_octet b ∧ is_octet c ∧ is_octet d.
Proof.
  intros Hn. exists (n / 2 ^ 24), (n / 2 ^ 16 mod 256), (n / 2 ^ 8 mod 256), (n mod 256).
  unfold word4, is_octet. change (2 ^ 8) with 256. change (2 ^ 16) with (256 * 256).
  change (2 ^ 24) with (256 * 256 * 256). rewrite <-!Z.div_div by lia.
  split_and!; Z.div_mod_to_equations; lia.
Qed.

Lemma htonl_word4 a b c d :
  is_octet a → is_octet b → is_octet c → is_octet d → htonl (word4 a b c d) = word4 d c b a.
Proof.
  intros Ha Hb Hc Hd. unfold htonl.
  change 0xff00 with (Z.shiftl 0xff 8). change 0xff0000 with (Z.shiftl 0xff 16).
  change 0xff000000 with (Z.shiftl 0xff 24).
  replace (Z.land (word4 a b c d) 0xff) with (Z.land (word4 a b c d) (Z.shiftl 0xff 0)) by done.
  rewrite !land_byte by lia. destruct (word4_byte a b c d) as (-> & -> & -> & ->); try done.
  rewrite (Z.mod_small a) by done. rewrite Z.shiftl_0_r, Z.shiftl_shiftl, !Z.shiftr_shiftl_l by lia.
  rewrite Z.shiftl_0_r. change (8 + 8) with 16. change (16 - 8) with 8. rewrite lor_word4 by done.
  apply u32_small. unfold word4, is_octet in *. lia.
Qed.

(** Swapping twice gives the word back. *)
Lemma htonl_htonl n : 0 ≤ n < 2 ^ 32 → ntohl (htonl n) = n.
Proof.
  intros (a & b & c & d & -> & ?)%word4_split. unfold ntohl. by rewrite !htonl_word4 by tauto.
Qed.

Lemma htons_bytes a b : is_octet a → is_octet b → htons (a * 256 + b) = b * 256 + a.
Proof.
  unfold is_octet. intros Ha Hb. unfold htons. change 0xff00 with (Z.shiftl 0xff 8).
  rewrite (land_ones_mod _ 8), land_byte, Z.shiftr_shiftl_l, Z.shiftl_0_r by lia.
  change (2 ^ 8) with 256. rewrite lor_shiftl_add by (try (apply Z.mod_pos_bound); lia).
  rewrite Z.div_add_l, (Z.div_small b), Z.add_0_r, !(Z.add_comm (a * 256)), Z.mod_add by lia.
  rewrite !Z.mod_small by lia. apply u16_small. lia.
Qed.

Lemma u16_split n : 0 ≤ n < 2 ^ 16 → ∃ a b, n = a * 256 + b ∧ is_octet a ∧ is_octet b.
Proof.
  intros Hn. exists (n / 256), (n mod 256). unfold is_octet.
  split_and!; Z.div_mod_to_equations; lia.
Qed.

Lemma htons_htons n : 0 ≤ n < 2 ^ 16 → ntohs (htons n) = n.
Proof. intros (a & b & -> & ? & ?)%u16_split. unfold ntohs. by rewrite !htons_bytes. Qed.

Lemma htons_bound n : 0 ≤ htons n < 2 ^ 16.
Proof. apply u16_bound. Qed.

(** ** What is printed is read back *)

Lemma isdigit_digit x : 0 ≤ x < 10 → isdigit (48 + x) = true.
Proof. intros H. unfold isdigit, in_range, u8. rewrite Z.mod_small by lia. lia. Qed.

Lemma digits_loop_digit base val x cp :
  0 ≤ x < 10 → 0 ≤ val * base → val * base + x < 2 ^ 32 →
  digits_loop base val ((48 + x) :: cp) = digits_loop base (val * base + x) cp.
Proof.
  intros Hx H1 H2. simpl. rewrite isdigit_digit by done.
  replace (48 + x - 48) with x by lia. by rewrite (u32_small (val * base)), u32_small by lia.
Qed.

Lemma digits_loop_stop base val c cp :
  c = 46 ∨ c = 0 → digits_loop base val (c :: cp) = (val, c :: cp).
Proof. intros [-> | ->]; simpl; by rewrite andb_false_r. Qed.

(** The one to three digits [inet_ntoa] prints for a byte. *)
Lemma octet_str_digits a : is_octet a →
  octet_str a = Some
    ((if a <? 10 then [48 + a]
      else if a <? 100 then [48 + a / 10; 48 + a mod 10]
      else [48 + a / 100; 48 + a / 10 mod 10; 48 + a mod 10]) ++ [46]).
Proof.
  unfold is_octet, octet_str. intros Ha. simpl.
  assert (a / 10 / 10 = a / 100) as E by (by rewrite Z.div_div). rewrite E.
  assert (a / 100 / 10 = 0) as E' by (Z.div_mod_to_equations; lia). rewrite E'. simpl.
  destruct (a <? 10) eqn:E1; [|destruct (a <? 100) eqn:E2].
  - by rewrite (Z.div_small a 10), (Z.mod_small a 10) by lia.
  - replace (a / 100) with 0 by (Z.div_mod_to_equations; lia). simpl.
    rewrite (Z.mod_small (a / 10)) by (Z.div_mod_to_equations; lia).
    by destruct (Z.eqb_spec (a / 10) 0); [Z.div_mod_to_equations; lia|].
  - destruct (Z.eqb_spec (a / 10) 0); [Z.div_mod_to_equations; lia|].
    destruct (Z.eqb_spec (a / 100) 0); [Z.div_mod_to_equations; lia|].
    rewrite (Z.mod_small (a / 100)) by (Z.div_mod_to_equations; lia). done.
Qed.

(** Reading one printed part, up to the dot or the NUL after it. *)
Lemma part_octet a c cp : is_octet a → c = 46 ∨ c = 0 →
  ∃ l, octet_str a = Some (l ++ [46]) ∧ part (l ++ c :: cp) = Some (a, c :: cp) ∧ (0 < length l ≤ 3)%nat.
Proof.
  intros Ha Hc. rewrite octet_str_digits by done. unfold is_octet in Ha.
  eexists; split; [done|].
  destruct (a <? 10) eqn:E1; [|destruct (a <? 100) eqn:E2]; split; try (simpl; lia); unfold part; simpl cur.
  - rewrite isdigit_digit by lia. cbn [negb tl app].
    destruct (Z.eqb_spec (48 + a) 48).
    + assert (a = 0) as -> by lia. destruct Hc as [-> | ->]; done.
    + rewrite digits_loop_digit, digits_loop_stop by (lia || done). do 2 f_equal; lia.
  - assert (1 ≤ a / 10 < 10) by (Z.div_mod_to_equations; lia).
    pose proof (Z.mod_pos_bound a 10). rewrite isdigit_digit by lia. cbn [negb tl app].
    destruct (Z.eqb_spec (48 + a / 10) 48); [lia|].
    rewrite !digits_loop_digit, digits_loop_stop by (lia || done).
    do 2 f_equal; Z.div_mod_to_equations; lia.
  - assert (1 ≤ a / 100 < 3) by (Z.div_mod_to_equations; lia).
    pose proof (Z.mod_pos_bound a 10). pose proof (Z.mod_pos_bound (a / 10) 10).
    rewrite isdigit_digit by lia. cbn [negb tl app].
    destruct (Z.eqb_spec (48 + a / 100) 48); [lia|].
    rewrite !digits_loop_digit, digits_loop_stop by (lia || done).
    do 2 f_equal; Z.div_mod_to_equations; lia.
Qed.

Lemma ap_byte_word4 a b c d :
  is_octet a → is_octet b → is_octet c → is_octet d →
  ap_byte (word4 d c b a) 0 = a ∧ ap_byte (word4 d c b a) 1 = b ∧
  ap_byte (word4 d c b a) 2 = c ∧ ap_byte (word4 d c b a) 3 = d.
Proof.
  intros Ha Hb Hc Hd. unfold ap_byte. rewrite !Z.shiftr_div_pow2 by lia.
  change (8 * 0) with 0. change (8 * 1) with 8. change (8 * 2) with 16. change (8 * 3) with 24.
  destruct (word4_byte d c b a) as (-> & -> & -> & ->); try done.
  split_and!; try done. by apply Z.mod_small.
Qed.

Lemma take_but_last (l : list Z) x : take (length (l ++ [x]) - 1) (l ++ [x]) = l.
Proof. rewrite length_app, Nat.add_sub. apply take_app_length. Qed.

(** The part list [a.b.c] and the last part [d] of a dotted quad. *)
Lemma parts_loop_quad la lb lc ld a b c d :
  part (la ++ 46 :: lb ++ 46 :: lc ++ 46 :: ld ++ [0]) = Some (a, 46 :: lb ++ 46 :: lc ++ 46 :: ld ++ [0]) →
  part (lb ++ 46 :: lc ++ 46 :: ld ++ [0]) = Some (b, 46 :: lc ++ 46 :: ld ++ [0]) →
  part (lc ++ 46 :: ld ++ [0]) = Some (c, 46 :: ld ++ [0]) →
  part (ld ++ [0]) = Some (d, [0]) →
  parts_loop 3 [] (la ++ [46] ++ lb ++ [46] ++ lc ++ [46] ++ ld ++ [0]) = Some ([a; b; c], d, [0]).
Proof.
  intros H1 H2 H3 H4. unfold parts_loop. cbn [app].
  rewrite H1. cbn -[part]. rewrite H2. cbn -[part]. rewrite H3. cbn -[part]. by rewrite H4.
Qed.

Lemma quad_bytes a b c d :
  is_octet a → is_octet b → is_octet c → is_octet d →
  Z.lor d (Z.lor (Z.lor (u32 (Z.shiftl a 24)) (u32 (Z.shiftl b 16))) (u32 (Z.shiftl c 8))) = word4 a b c d.
Proof.
  intros Ha Hb Hc Hd. rewrite <-lor_word4 by done. unfold is_octet in *.
  rewrite !u32_small by (rewrite Z.shiftl_mul_pow2 by lia; lia). apply Z.lor_comm.
Qed.

(** C30  [inet_ntoa] and [inet_aton] (net/lwip/core/ipv4/inet.c) are a round trip:
    every 32-bit address is printed, in at most the 16 bytes of the static buffer,
    as a NUL-terminated string that [inet_aton] accepts and turns into the same
    address, and so does [inet_addr]. *)
Theorem inet_ntoa_aton s_addr :
  0 ≤ s_addr < 2 ^ 32 →
  ∃ str, inet_ntoa s_addr = Some str ∧ (length str ≤ 16)%nat ∧ last str = Some 0 ∧
    inet_aton str = Some s_addr ∧ inet_addr str = s_addr.
Proof.
  intros (d & c & b & a & -> & Hd & Hc & Hb & Ha)%word4_split.
  unfold inet_ntoa. destruct (ap_byte_word4 a b c d) as (-> & -> & -> & ->); try done.
  destruct (part_octet d 0 [] Hd) as (ld & -> & Pd & Ld); [by right|].
  destruct (part_octet c 46 (ld ++ [0]) Hc) as (lc & -> & Pc & Lc); [by left|].
  destruct (part_octet b 46 (lc ++ 46 :: ld ++ [0]) Hb) as (lb & -> & Pb & Lb); [by left|].
  destruct (part_octet a 46 (lb ++ 46 :: lc ++ 46 :: ld ++ [0]) Ha) as (la & -> & Pa & La); [by left|].
  cbn -[take length inet_aton inet_addr]. eexists. split; [done|].
  rewrite !(assoc_L (++)), take_but_last, <-!(assoc_L (++)).
  split_and!; [rewrite !length_app; simpl; lia|by rewrite !(assoc_L (++)), last_snoc|..].
  all: unfold inet_addr, inet_aton; rewrite (parts_loop_quad _ _ _ _ a b c d) by done; simpl.
  all: unfold is_octet in Hd; destruct (Z.ltb_spec 0xff d); [lia|].
  all: simpl; by rewrite quad_bytes, htonl_word4.
Qed.

Lemma inet_ntoa_aton_witness :
  ∃ str, inet_ntoa 0x0100a8c0 = Some str ∧ (length str ≤ 16)%nat ∧ last str = Some 0 ∧
    inet_aton str = Some 0x0100a8c0 ∧ inet_addr str = 0x0100a8c0.
Proof. apply inet_ntoa_aton. lia. Defined.

(** A part in front of the last one is not checked against its width: the reader
    takes 1.300.2.3 and gives it the address of 1.44.2.3. *)
Lemma inet_aton_wide_part :
  inet_aton [49; 46; 51; 48; 48; 46; 50; 46; 51; 0] = inet_aton [49; 46; 52; 52; 46; 50; 46; 51; 0] ∧
  inet_aton [49; 46; 51; 48; 48; 46; 50; 46; 51; 0] = Some 0x03022c01.
Proof. split; vm_compute; done. Qed.

(** The trailing test accepts a space after the address and no other blank. *)
Lemma inet_aton_trailing c cp d rest :
  parts_loop 3 [] cp = Some ([], d, c :: rest) → 0 ≤ c < 256 →
  inet_aton cp = if (c =? 0) || (c =? 32) then Some (htonl d) else None.
Proof.
  intros H Hc. unfold inet_aton. rewrite H. simpl.
  unfold isprint, in_range, isspace, u8. rewrite Z.mod_small by lia. zcases; simpl; try done; lia.
Qed.
