(* ===== verification/Chksum.v ===== *)
(** * The Internet checksum: net/lwip/core/ipv4/inet_chksum.c

    The three versions of [lwip_standard_chksum] the file has (version 1 is the one
    compiled unless LWIP_CHKSUM_ALGORITHM says otherwise), and the checksums made of
    it: [inet_chksum], [inet_chksum_pbuf] over a chain of buffers, and the TCP/UDP
    checksums with a pseudo header.  Memory is the byte map of [Strings]; of a
    [struct pbuf] the fields [payload] and [len] count here, and a chain is the list
    of its pbufs.  The reference is the one's-complement sum of the big-endian
    16-bit words, as RFC 1071 defines it. *)

From S2P Require Import Prelude Strings Words Inet.

(** ** The routines *)

Definition SWAP_BYTES_IN_WORD (w : Z) : Z :=
  Z.lor (Z.shiftl (Z.land w 0xff) 8) (Z.shiftr (Z.land w 0xff00) 8).
Definition FOLD_U32T (u : Z) : Z := u32 (Z.shiftr u 16 + Z.land u 0xffff).

Definition ld16 (m : bytes) (a : Z) : Z := rdb m a + 256 * rdb m (a + 1).

(** Version 1: [while (len > 1)]; gives the pointer, the octets left and [acc]. *)
Fixpoint octets_loop (len : nat) (m : bytes) (p acc : Z) : Z * nat * Z :=
  match len with
  | S (S len') =>
      let src := u16 (Z.shiftl (rdb m p) 8) in
      let src := Z.lor src (rdb m (p + 1)) in
      octets_loop len' m (p + 2) (u32 (acc + src))
  | _ => (p, len, acc)
  end.

Definition lwip_standard_chksum (m : bytes) (dataptr len : Z) : Z :=
  let '(octetptr, len, acc) := octets_loop (Z.to_nat len) m dataptr 0 in
  let acc := if (0 <? len)%nat then u32 (acc + u16 (Z.shiftl (rdb m octetptr) 8)) else acc in
  let acc := FOLD_U32T acc in
  let acc := if negb (Z.land acc 0xffff0000 =? 0) then FOLD_U32T acc else acc in
  htons (u16 acc).

(** Version 2: 16-bit loads; [t] holds the bytes at the two ends. *)
Fixpoint words_loop (len : nat) (m : bytes) (ps sum : Z) : Z * nat * Z :=
  match len with
  | S (S len') => words_loop len' m (ps + 2) (u32 (sum + ld16 m ps))
  | _ => (ps, len, sum)
  end.

Definition lwip_standard_chksum2 (m : bytes) (dataptr len : Z) : Z :=
  let odd := negb (Z.land (u32 dataptr) 1 =? 0) in
  let '(t1, pb, len) :=
    if odd && (0 <? len) then (rdb m dataptr, dataptr + 1, len - 1) else (0, dataptr, len) in
  let '(ps, len, sum) := words_loop (Z.to_nat len) m pb 0 in
  let t0 := if (0 <? len)%nat then rdb m ps else 0 in
  let sum := u32 (sum + (256 * t1 + t0)) in
  let sum := FOLD_U32T sum in
  let sum := FOLD_U32T sum in
  let sum := if odd then SWAP_BYTES_IN_WORD sum else sum in
  u16 sum.

(** Version 3: eight bytes at a time, the carry of each addition added back. *)
Definition add_back (sum x : Z) : Z :=
  let tmp := u32 (sum + x) in if tmp <? sum then u32 (tmp + 1) else tmp.

Fixpoint pingpong_loop (fuel : nat) (m : bytes) (pl len sum : Z) : option (Z * Z * Z) :=
  match fuel with
  | O => None
  | S fuel' =>
      if 7 <? len then
        let tmp := add_back sum (ld32 m pl) in
        let sum := add_back tmp (ld32 m (pl + 4)) in
        pingpong_loop fuel' m (pl + 8) (len - 8) sum
      else Some (pl, len, sum)
  end.

Definition lwip_standard_chksum3 (fuel : nat) (m : bytes) (dataptr len : Z) : option Z :=
  let odd := negb (Z.land (u32 dataptr) 1 =? 0) in
  let '(t1, ps, len) :=
    if odd && (0 <? len) then (rdb m dataptr, dataptr + 1, len - 1) else (0, dataptr, len) in
  let '(sum, ps, len) :=
    if negb (Z.land (u32 ps) 3 =? 0) && (1 <? len) then (ld16 m ps, ps + 2, len - 2)
    else (0, ps, len) in
  '(pl, len, sum) ← pingpong_loop fuel m ps len sum;
  let sum := FOLD_U32T sum in
  let '(ps, len, sum) := words_loop (Z.to_nat len) m pl sum in
  let t0 := if (0 <? len)%nat then rdb m ps else 0 in
  let sum := u32 (sum + (256 * t1 + t0)) in
  let sum := FOLD_U32T sum in
  let sum := FOLD_U32T sum in
  let sum := if odd then SWAP_BYTES_IN_WORD sum else sum in
  Some (u16 sum).

Definition inet_chksum (m : bytes) (dataptr len : Z) : Z :=
  u16 (Z.lnot (lwip_standard_chksum m dataptr len)).

Record pbuf := Pbuf { payload : Z; plen : Z }.

(** The loops over a chain: [acc] and [swapped]. *)
Fixpoint chain_loop (m : bytes) (q : list pbuf) (acc : Z) (swapped : bool) : Z * bool :=
  match q with
  | [] => (acc, swapped)
  | b :: q' =>
      let acc := u32 (acc + lwip_standard_chksum m (payload b) (plen b)) in
      let acc := FOLD_U32T acc in
      if negb (plen b mod 2 =? 0) then chain_loop m q' (SWAP_BYTES_IN_WORD acc) (negb swapped)
      else chain_loop m q' acc swapped
  end.

Definition inet_chksum_pbuf (m : bytes) (p : list pbuf) : Z :=
  let '(acc, swapped) := chain_loop m p 0 false in
  let acc := if swapped then SWAP_BYTES_IN_WORD acc else acc in
  u16 (Z.lnot (Z.land acc 0xffff)).

(** The pseudo header added to [acc], the folds and the inversion. *)
Definition pseudo_header (acc src dest proto proto_len : Z) : Z :=
  let acc := u32 (acc + Z.land src 0xffff) in
  let acc := u32 (acc + Z.land (Z.shiftr src 16) 0xffff) in
  let acc := u32 (acc + Z.land dest 0xffff) in
  let acc := u32 (acc + Z.land (Z.shiftr dest 16) 0xffff) in
  let acc := u32 (acc + htons (u16 proto)) in
  let acc := u32 (acc + htons proto_len) in
  let acc := FOLD_U32T acc in
  let acc := FOLD_U32T acc in
  u16 (Z.lnot (Z.land acc 0xffff)).

Definition inet_chksum_pseudo (m : bytes) (p : list pbuf) (src dest proto proto_len : Z) : Z :=
  let '(acc, swapped) := chain_loop m p 0 false in
  let acc := if swapped then SWAP_BYTES_IN_WORD acc else acc in
  pseudo_header acc src dest proto proto_len.

(** The loop over at most [chksum_len] bytes of the chain; [None] where the
    assertion of the loop fails. *)
Fixpoint partial_loop (m : bytes) (q : list pbuf) (chksum_len acc : Z) (swapped : bool)
    : option (Z * bool) :=
  match q with
  | [] => Some (acc, swapped)
  | b :: q' =>
      if 0 <? chksum_len then
        let chklen := if chksum_len <? plen b then chksum_len else plen b in
        let acc := u32 (acc + lwip_standard_chksum m (payload b) chklen) in
        let chksum_len := u16 (chksum_len - chklen) in
        if negb (chksum_len <? 0x7fff) then None
        else
          let acc := FOLD_U32T acc in
          if negb (plen b mod 2 =? 0) then
            partial_loop m q' chksum_len (SWAP_BYTES_IN_WORD acc) (negb swapped)
          else partial_loop m q' chksum_len acc swapped
      else Some (acc, swapped)
  end.

Definition inet_chksum_pseudo_partial (m : bytes) (p : list pbuf)
    (src dest proto proto_len chksum_len : Z) : option Z :=
  match partial_loop m p chksum_len 0 false with
  | None => None
  | Some (acc, swapped) =>
      let acc := if swapped then SWAP_BYTES_IN_WORD acc else acc in
      Some (pseudo_header acc src dest proto proto_len)
  end.

(** ** The reference: RFC 1071 *)

Definition oc_add (x y : Z) : Z := let s := x + y in if s <? 65536 then s else s - 65535.

(** The one's-complement sum of the big-endian words, an odd last byte padded with
    a zero. *)
Fixpoint rfc1071_sum (l : list Z) : Z :=
  match l with
  | [] => 0
  | [a] => 256 * a
  | a :: b :: l' => oc_add (256 * a + b) (rfc1071_sum l')
  end.

Fixpoint octets (n : nat) (m : bytes) (p : Z) : list Z :=
  match n with
  | O => []
  | S n' => rdb m p :: octets n' m (p + 1)
  end.

(** The bytes of a chain. *)
Definition chain_octets (m : bytes) (q : list pbuf) : list Z :=
  q ≫= λ b, octets (Z.to_nat (plen b)) m (payload b).

(** ** Sums up to one's-complement equality

    Two sums are the same one's-complement number when they agree modulo 65535 and
    both or neither are zero. *)

Definition oc (x y : Z) : Prop :=
  0 ≤ x ∧ 0 ≤ y ∧ x mod 65535 = y mod 65535 ∧ (x = 0 ↔ y = 0).

Lemma oc_refl x : 0 ≤ x → oc x x.
Proof. unfold oc. intuition. Qed.

#[export] Instance oc_symmetric : Symmetric oc.
Proof. intros x y. unfold oc. intuition. Qed.

#[export] Instance oc_transitive : Transitive oc.
Proof. intros x y z (?&?&?&?) (?&?&?&?). unfold oc. intuition congruence. Qed.

#[export] Instance oc_plus : Proper (oc ==> oc ==> oc) Z.add.
Proof.
  intros x x' (?&?&E1&?) y y' (?&?&E2&?). unfold oc. split_and!; try lia.
  rewrite Z.add_mod, E1, E2, <-Z.add_mod; lia.
Qed.

#[export] Instance oc_swap_proper : Proper (oc ==> oc) (Z.mul 256).
Proof.
  intros x x' (?&?&E1&?). unfold oc. split_and!; try lia.
  rewrite Z.mul_mod, E1, <-Z.mul_mod; lia.
Qed.

Lemma oc_intro x y k : 0 ≤ x → 0 ≤ y → x = y + k * 65535 → (x = 0 ↔ y = 0) → oc x y.
Proof. intros ? ? -> ?. unfold oc. rewrite Z.mod_add by lia. done. Qed.

Lemma oc_swap_swap x : 0 ≤ x → oc (256 * (256 * x)) x.
Proof. intros H. apply (oc_intro _ _ x); lia. Qed.

(** A one's-complement number has one 16-bit representation. *)
Lemma oc_unique x y : x ≤ 65535 → y ≤ 65535 → oc x y → x = y.
Proof. unfold oc. intros Hx Hy (?&?&E&?). Z.div_mod_to_equations. lia. Qed.

Lemma oc_zero_iff x y : oc x y → x = 0 ↔ y = 0.
Proof. unfold oc. tauto. Qed.

Lemma oc_FOLD u : 0 ≤ u < 2 ^ 32 → oc (FOLD_U32T u) u ∧ FOLD_U32T u ≤ 0x1fffe.
Proof.
  intros Hu. unfold FOLD_U32T. rewrite (land_ones_mod _ 16), Z.shiftr_div_pow2 by lia.
  rewrite u32_small by (Z.div_mod_to_equations; lia). split.
  - apply (oc_intro _ _ (- (u / 2 ^ 16))); Z.div_mod_to_equations; lia.
  - Z.div_mod_to_equations; lia.
Qed.

Lemma oc_FOLD_small u : 0 ≤ u ≤ 0x1fffe → oc (FOLD_U32T u) u ∧ FOLD_U32T u ≤ 0xffff.
Proof.
  intros Hu. split; [apply oc_FOLD; lia|]. unfold FOLD_U32T.
  rewrite (land_ones_mod _ 16), Z.shiftr_div_pow2 by lia.
  rewrite u32_small by (Z.div_mod_to_equations; lia). Z.div_mod_to_equations; lia.
Qed.

Lemma oc_FOLD_FOLD u : 0 ≤ u < 2 ^ 32 →
  oc (FOLD_U32T (FOLD_U32T u)) u ∧ FOLD_U32T (FOLD_U32T u) ≤ 0xffff.
Proof.
  intros Hu. destruct (oc_FOLD u Hu) as [H1 H2].
  destruct (oc_FOLD_small (FOLD_U32T u)) as [H3 H4]; [unfold oc in H1; lia|].
  split; [by etrans|done].
Qed.

Lemma SWAP_htons w : 0 ≤ w ≤ 65535 → SWAP_BYTES_IN_WORD w = htons w.
Proof.
  intros Hw. destruct (u16_split w) as (a & b & -> & Ha & Hb); [lia|].
  rewrite htons_bytes by done. rewrite <-(htons_bytes a b) by done. unfold htons.
  symmetry. apply u16_small. fold (SWAP_BYTES_IN_WORD (a * 256 + b)).
  unfold is_octet in *. unfold SWAP_BYTES_IN_WORD. change 0xff00 with (Z.shiftl 0xff 8).
  rewrite (land_ones_mod _ 8), land_byte, Z.shiftr_shiftl_l, Z.shiftl_0_r by lia.
  rewrite lor_shiftl_add; Z.div_mod_to_equations; lia.
Qed.

Lemma oc_htons w : 0 ≤ w ≤ 65535 → oc (htons w) (256 * w).
Proof.
  intros Hw. destruct (u16_split w) as (a & b & -> & Ha & Hb); [lia|].
  rewrite htons_bytes by done. unfold is_octet in *.
  apply (oc_intro _ _ (- a)); lia.
Qed.

(** The plain sum of bytes weighted 256 and 1 in turn; [hi] is the weight of the
    first. *)
Fixpoint psum (hi : bool) (l : list Z) : Z :=
  match l with
  | [] => 0
  | a :: l' => (if hi then 256 * a else a) + psum (negb hi) l'
  end.

Lemma psum_nonneg hi l : Forall is_octet l → 0 ≤ psum hi l.
Proof.
  intros H. revert hi. induction H as [|a l Ha H IH]; intros hi; [done|]. simpl.
  unfold is_octet in Ha. specialize (IH (negb hi)). destruct hi; lia.
Qed.


Lemma psum_swap hi l : Forall is_octet l → oc (psum (negb hi) l) (256 * psum hi l).
Proof.
  intros H. revert hi. induction H as [|a l Ha H IH]; intros hi; [by apply oc_refl|].
  simpl. rewrite negb_involutive, Z.mul_add_distr_l. apply oc_plus.
  - unfold is_octet in Ha. destruct hi; simpl; [|apply oc_refl; lia].
    apply (oc_intro _ _ (- a)); lia.
  - specialize (IH (negb hi)). by rewrite negb_involutive in IH.
Qed.

Lemma psum_app hi l1 l2 :
  psum hi (l1 ++ l2) = psum hi l1 + psum (xorb hi (Nat.odd (length l1))) l2.
Proof.
  revert hi. induction l1 as [|a l1 IH]; intros hi; simpl length.
  - by rewrite xorb_false_r.
  - simpl. rewrite IH, Nat.odd_succ, <-Nat.negb_odd. destruct hi, (Nat.odd (length l1)); simpl; lia.
Qed.

Lemma octets_ok n m p : bytes_ok m → Forall is_octet (octets n m p).
Proof. intros H. revert p. induction n; intros p; simpl; constructor; [apply H|done]. Qed.

Lemma length_octets n m p : length (octets n m p) = n.
Proof. revert p. induction n; intros p; simpl; auto. Qed.

Lemma octets_plus n k m p : octets (n + k) m p = octets n m p ++ octets k m (p + Z.of_nat n).
Proof.
  revert p. induction n as [|n IH]; intros p; simpl; [by rewrite Z.add_0_r|].
  f_equal. rewrite IH. do 2 f_equal. lia.
Qed.

Lemma psum_octets_bound hi n m p : bytes_ok m →
  psum hi (octets n m p) ≤ 65280 + 32768 * Z.of_nat n.
Proof.
  intros H. revert hi p. induction n as [n IH] using lt_wf_ind; intros hi p.
  destruct n as [|[|n]]; simpl; [lia|pose proof (H p); destruct hi; lia|].
  specialize (IH n ltac:(lia) hi (p + 1 + 1)). pose proof (H p). pose proof (H (p + 1)).
  rewrite negb_involutive. destruct hi; simpl; lia.
Qed.

Lemma oc_rfc1071 l : Forall is_octet l → oc (rfc1071_sum l) (psum true l) ∧ rfc1071_sum l ≤ 65535.
Proof.
  induction l as [l IH] using (well_founded_induction (well_founded_ltof _ length)).
  destruct l as [|a [|b l]]; intros H; simpl; [by split; [apply oc_refl|]|..].
  - inversion_clear H as [|? ? Ha _]. unfold is_octet in Ha. rewrite Z.add_0_r.
    split; [apply oc_refl|]; lia.
  - inversion_clear H as [|? ? Ha H']. inversion_clear H' as [|? ? Hb Hl].
    unfold is_octet in Ha, Hb. destruct (IH l) as [IH1 IH2]; [unfold ltof; simpl; lia|done|].
    rewrite Z.add_assoc. unfold oc_add. split.
    + etrans; [|apply oc_plus; [by apply oc_refl; lia|exact IH1]].
      unfold oc in IH1. zcases; [apply oc_refl; lia|apply (oc_intro _ _ (-1)); lia].
    + zcases; lia.
Qed.

(** The 16-bit number with the bytes swapped that stands for a sum is determined by
    the sum of the bytes in either order. *)
Lemma oc_result x l : Forall is_octet l → x ≤ 65535 → oc x (psum false l) → x = htons (rfc1071_sum l).
Proof.
  intros Hl Hx H. destruct (oc_rfc1071 l Hl) as [E B].
  apply oc_unique; [done|pose proof (htons_bound (rfc1071_sum l)); lia|].
  etrans; [exact H|]. etrans; [exact (psum_swap true l Hl)|]. symmetry.
  etrans; [apply oc_htons; unfold oc in E; lia|]. by apply oc_swap_proper.
Qed.

(** ** The versions compute the reference sum *)

Section versions.
  Context (m : bytes) (Hm : bytes_ok m).

Lemma be_word p : Z.lor (u16 (Z.shiftl (rdb m p) 8)) (rdb m (p + 1)) = 256 * rdb m p + rdb m (p + 1).
Proof.
  pose proof (Hm p). pose proof (Hm (p + 1)). rewrite u16_small.
  - rewrite lor_shiftl_add by lia. lia.
  - rewrite Z.shiftl_mul_pow2 by lia. lia.
Qed.

Lemma octets_loop_sum len p acc :
  0 ≤ acc → acc + psum true (octets len m p) < 2 ^ 32 →
  ∃ p' l' acc', octets_loop len m p acc = (p', l', acc') ∧ 0 ≤ acc' ∧
    acc' + (if (0 <? l')%nat then 256 * rdb m p' else 0) = acc + psum true (octets len m p).
Proof.
  revert p acc. induction len as [len IH] using lt_wf_ind; intros p acc H0 H.
  destruct len as [|[|len]]; simpl in *; [by eauto 10| |].
  - exists p, 1%nat, acc. split_and!; [done..|simpl; lia].
  - pose proof (Hm p). pose proof (Hm (p + 1)). pose proof (psum_nonneg true _ (octets_ok len m (p + 1 + 1) Hm)).
    rewrite be_word. replace (p + 2) with (p + 1 + 1) by lia. rewrite u32_small by lia.
    destruct (IH len ltac:(lia) (p + 1 + 1) (acc + (256 * rdb m p + rdb m (p + 1)))) as (p' & l' & acc' & -> & ? & E); [lia..|].
    exists p', l', acc'. split_and!; [done..|lia].
Qed.

Lemma words_loop_sum len p acc :
  0 ≤ acc → acc + psum false (octets len m p) < 2 ^ 32 →
  ∃ p' l' acc', words_loop len m p acc = (p', l', acc') ∧ 0 ≤ acc' ∧
    acc' + (if (0 <? l')%nat then rdb m p' else 0) = acc + psum false (octets len m p).
Proof.
  revert p acc. induction len as [len IH] using lt_wf_ind; intros p acc H0 H.
  destruct len as [|[|len]]; simpl in *; [by eauto 10| |].
  - exists p, 1%nat, acc. split_and!; [done..|simpl; lia].
  - pose proof (Hm p). pose proof (Hm (p + 1)). pose proof (psum_nonneg false _ (octets_ok len m (p + 1 + 1) Hm)).
    unfold ld16. replace (p + 2) with (p + 1 + 1) by lia. rewrite u32_small by lia.
    destruct (IH len ltac:(lia) (p + 1 + 1) (acc + (rdb m p + 256 * rdb m (p + 1)))) as (p' & l' & acc' & -> & ? & E); [lia..|].
    exists p', l', acc'. split_and!; [done..|lia].
Qed.

Lemma high_half_zero u : 0 ≤ u < 2 ^ 32 → Z.land u 0xffff0000 = 0 → u ≤ 0xffff.
Proof.
  intros Hu E. change 0xffff0000 with (Z.shiftl 0xffff 16) in E.
  apply (f_equal (λ x, Z.shiftr x 16)) in E.
  rewrite Z.shiftr_land, Z.shiftr_shiftl_l, Z.shiftl_0_r, (land_ones_mod _ 16), Z.shiftr_div_pow2 in E by lia.
  rewrite Z.mod_small in E by (Z.div_mod_to_equations; lia).
  change (Z.shiftr 0 16) with 0 in E. Z.div_mod_to_equations; lia.
Qed.

Lemma chksum1_rfc1071 p len : 0 ≤ len ≤ 0xffff →
  lwip_standard_chksum m p len = htons (rfc1071_sum (octets (Z.to_nat len) m p)).
Proof.
  intros Hl. unfold lwip_standard_chksum.
  pose proof (psum_octets_bound true (Z.to_nat len) m p Hm).
  pose proof (octets_ok (Z.to_nat len) m p Hm) as Ho. pose proof (psum_nonneg true _ Ho).
  destruct (octets_loop_sum (Z.to_nat len) p 0) as (p' & l' & acc' & -> & ? & E); [lia..|].
  set (acc2 := if (0 <? l')%nat then _ else _).
  assert (acc2 = psum true (octets (Z.to_nat len) m p)) as ->.
  { subst acc2. rewrite u16_small; pose proof (Hm p'); rewrite Z.shiftl_mul_pow2 by lia; [|lia].
    rewrite Z.add_0_l in E. rewrite <-E. case_match; [|lia]. rewrite u32_small by lia. lia. }
  f_equal. destruct (oc_rfc1071 _ Ho) as [R1 R2].
  match goal with |- u16 (if _ then FOLD_U32T ?f else _) = _ => set (F := f) end.
  destruct (oc_FOLD (psum true (octets (Z.to_nat len) m p))) as [F1 F2]; [lia|]. fold F in F1, F2.
  assert (0 ≤ F) by (unfold oc in F1; lia).
  destruct (oc_FOLD_small F) as [G1 G2]; [done|].
  assert (∀ x, oc x F → x ≤ 65535 → u16 x = rfc1071_sum (octets (Z.to_nat len) m p)) as K.
  { intros x X1 X2. rewrite u16_small by (unfold oc in X1; lia). apply oc_unique; [done..|].
    etrans; [exact X1|]. etrans; [exact F1|]. by symmetry. }
  destruct (Z.land F 0xffff0000 =? 0) eqn:El; simpl; [|by apply K].
  apply K; [by apply oc_refl|]. apply Z.eqb_eq in El. apply high_half_zero in El; lia.
Qed.

(** The end of versions 2 and 3. *)
Lemma fold_and_swap (odd : bool) sum l : Forall is_octet l → 0 ≤ sum < 2 ^ 32 → oc sum (psum odd l) →
  u16 (if odd then SWAP_BYTES_IN_WORD (FOLD_U32T (FOLD_U32T sum)) else FOLD_U32T (FOLD_U32T sum)) =
  htons (rfc1071_sum l).
Proof.
  intros Hl Hs Ho. destruct (oc_FOLD_FOLD sum Hs) as [F1 F2].
  set (s := FOLD_U32T _) in *. assert (0 ≤ s) by (unfold oc in F1; lia).
  pose proof (htons_bound s) as Hb. destruct odd.
  - rewrite SWAP_htons, u16_small by lia. apply oc_result; [done|lia|].
    etrans; [apply oc_htons; lia|]. etrans; [apply oc_swap_proper; exact F1|].
    etrans; [apply oc_swap_proper; exact Ho|]. symmetry. exact (psum_swap true l Hl).
  - rewrite u16_small by lia. apply oc_result; [done|lia|]. by etrans.
Qed.

Lemma octets_cons p len : 0 < len →
  octets (Z.to_nat len) m p = rdb m p :: octets (Z.to_nat (len - 1)) m (p + 1).
Proof. intros H. by replace (Z.to_nat len) with (S (Z.to_nat (len - 1))) by lia. Qed.

(** The byte at an odd address taken first. *)
Lemma align_head (odd : bool) p len : 0 ≤ len →
  ∃ t1 pb len', (if odd && (0 <? len) then (rdb m p, p + 1, len - 1) else (0, p, len)) = (t1, pb, len') ∧
    0 ≤ len' ≤ len ∧ is_octet t1 ∧
    256 * t1 + psum false (octets (Z.to_nat len') m pb) = psum odd (octets (Z.to_nat len) m p).
Proof.
  intros Hl. destruct odd; simpl.
  - destruct (Z.ltb_spec 0 len); do 3 eexists; (split; [done|]).
    + split; [lia|]. split; [apply Hm|]. by rewrite (octets_cons p len) by done.
    + by assert (len = 0) as -> by lia.
  - do 3 eexists; (split; [done|]). split_and!; try done; lia.
Qed.

Lemma chksum2_rfc1071 p len : 0 ≤ len ≤ 0xffff →
  lwip_standard_chksum2 m p len = htons (rfc1071_sum (octets (Z.to_nat len) m p)).
Proof.
  intros Hl. unfold lwip_standard_chksum2. set (odd := negb _).
  destruct (align_head odd p len) as (t1 & pb & len' & -> & Hl' & Ht & E); [lia|].
  pose proof (psum_octets_bound false (Z.to_nat len') m pb Hm).
  pose proof (psum_nonneg false _ (octets_ok (Z.to_nat len') m pb Hm)).
  destruct (words_loop_sum (Z.to_nat len') pb 0) as (p' & l' & acc' & -> & ? & E'); [lia..|].
  rewrite Z.add_0_l in E'. unfold is_octet in Ht.
  rewrite (u32_small (acc' + _)) by lia. apply fold_and_swap; [by apply octets_ok|lia|].
  rewrite <-E. replace (acc' + _) with (256 * t1 + psum false (octets (Z.to_nat len') m pb)) by lia.
  apply oc_refl. lia.
Qed.

Lemma add_back_oc sum x : 0 ≤ sum < 2 ^ 32 → 0 ≤ x < 2 ^ 32 →
  oc (add_back sum x) (sum + x) ∧ add_back sum x < 2 ^ 32.
Proof.
  intros Hs Hx. unfold add_back. destruct (decide (sum + x < 2 ^ 32)).
  - rewrite (u32_small (sum + x)) by lia. zcases; [lia|]. split; [apply oc_refl|]; lia.
  - assert (u32 (sum + x) = sum + x - 2 ^ 32) as E.
    { symmetry. apply (Z.mod_unique _ _ 1); lia. }
    rewrite E. zcases; [|lia]. rewrite u32_small by lia. split; [|lia].
    apply (oc_intro _ _ (- 65537)); lia.
Qed.

Lemma ld32_oc p : oc (ld32 m p) (psum false (octets 4 m p)).
Proof.
  cbn [octets psum negb]. replace (p + 1 + 1 + 1) with (p + 3) by lia. replace (p + 1 + 1) with (p + 2) by lia.
  unfold ld32. pose proof (Hm p). pose proof (Hm (p + 1)). pose proof (Hm (p + 2)). pose proof (Hm (p + 3)).
  apply (oc_intro _ _ (rdb m (p + 2) + 256 * rdb m (p + 3))); lia.
Qed.

Lemma octets_psum_split (k : nat) p len : Nat.even k = true → Z.of_nat k ≤ len →
  psum false (octets (Z.to_nat len) m p) =
  psum false (octets k m p) + psum false (octets (Z.to_nat (len - Z.of_nat k)) m (p + Z.of_nat k)).
Proof.
  intros Hk Hl. replace (Z.to_nat len) with (k + Z.to_nat (len - Z.of_nat k))%nat by lia.
  rewrite octets_plus, psum_app, length_octets, <-Nat.negb_even, Hk. done.
Qed.

(** Eight bytes per iteration: [len / 8] iterations end the loop. *)
Lemma pingpong_loop_sum fuel pl len sum :
  (Z.to_nat (len / 8) < fuel)%nat → 0 ≤ len → 0 ≤ sum < 2 ^ 32 →
  ∃ pl' len' sum', pingpong_loop fuel m pl len sum = Some (pl', len', sum') ∧ 0 ≤ len' ≤ 7 ∧
    0 ≤ sum' < 2 ^ 32 ∧
    oc (sum' + psum false (octets (Z.to_nat len') m pl')) (sum + psum false (octets (Z.to_nat len) m pl)).
Proof.
  revert pl len sum. induction fuel as [|fuel IH]; intros pl len sum Hf Hl Hs; [lia|]. simpl.
  pose proof (psum_nonneg false _ (octets_ok (Z.to_nat len) m pl Hm)).
  destruct (Z.ltb_spec 7 len).
  - pose proof (ld32_bound m pl Hm). pose proof (ld32_bound m (pl + 4) Hm).
    destruct (add_back_oc sum (ld32 m pl)) as [A1 B1]; [lia..|].
    destruct (add_back_oc (add_back sum (ld32 m pl)) (ld32 m (pl + 4))) as [A2 B2]; [unfold oc in A1; lia|lia|].
    edestruct (IH (pl + 8) (len - 8)) as (pl' & len' & sum' & -> & ? & ? & E); cycle 3.
    + do 3 eexists. split_and!; [done|lia..|]. etrans; [exact E|].
      rewrite (octets_psum_split 8 pl len) by (done || lia).
      change (octets 8 m pl) with (octets (Z.to_nat 8) m pl).
      rewrite (octets_psum_split 4 pl 8) by (done || lia).
      rewrite !Z.add_assoc. apply oc_plus; [|apply oc_refl, psum_nonneg; by apply octets_ok].
      etrans; [exact A2|]. apply oc_plus; [|apply ld32_oc].
      etrans; [exact A1|]. apply oc_plus; [apply oc_refl; lia|apply ld32_oc].
    + replace (len - 8) with (len + (-1) * 8) by lia. rewrite Z.div_add by lia.
      assert (0 < len / 8) by (apply Z.div_str_pos; lia). lia.
    + lia.
    + unfold oc in A2. lia.
  - do 3 eexists. split_and!; [done|lia..|]. apply oc_refl. lia.
Qed.

Lemma align_word (b : bool) p len : 0 ≤ len →
  ∃ sum ps len', (if b && (1 <? len) then (ld16 m p, p + 2, len - 2) else (0, p, len)) = (sum, ps, len') ∧
    0 ≤ len' ≤ len ∧ 0 ≤ sum < 2 ^ 32 ∧
    sum + psum false (octets (Z.to_nat len') m ps) = psum false (octets (Z.to_nat len) m p).
Proof.
  intros Hl. destruct (b && (1 <? len)) eqn:E; do 3 eexists; (split; [done|]); [|split_and!; done || lia].
  apply andb_prop in E as [_ E]. unfold ld16. pose proof (Hm p). pose proof (Hm (p + 1)).
  split_and!; [lia..|]. rewrite (octets_psum_split 2 p len) by (done || lia).
  change (Z.of_nat 2) with 2. cbn [octets psum negb]. lia.
Qed.

Lemma chksum3_rfc1071 fuel p len : 0 ≤ len ≤ 0xffff → 8192 ≤ Z.of_nat fuel →
  lwip_standard_chksum3 fuel m p len = Some (htons (rfc1071_sum (octets (Z.to_nat len) m p))).
Proof.
  intros Hl Hf. unfold lwip_standard_chksum3. set (odd := negb _).
  destruct (align_head odd p len) as (t1 & pb & len' & -> & Hl' & Ht & E); [lia|].
  destruct (align_word (negb (Z.land (u32 pb) 3 =? 0)) pb len') as (s0 & ps & len2 & -> & Hl2 & Hs0 & E2); [lia|].
  destruct (pingpong_loop_sum fuel ps len2 s0) as (pl & len3 & s3 & -> & Hl3 & Hs3 & E3); [|lia..|].
  { assert (len2 / 8 < 8192) by (apply Z.div_lt_upper_bound; lia). lia. }
  simpl. destruct (oc_FOLD s3 Hs3) as [F1 F2]. assert (0 ≤ FOLD_U32T s3) by (unfold oc in F1; lia).
  pose proof (psum_octets_bound false (Z.to_nat len3) m pl Hm).
  pose proof (psum_nonneg false _ (octets_ok (Z.to_nat len3) m pl Hm)).
  destruct (words_loop_sum (Z.to_nat len3) pl (FOLD_U32T s3)) as (p' & l' & acc' & -> & ? & E'); [lia..|].
  unfold is_octet in Ht. rewrite (u32_small (acc' + _)) by lia. f_equal.
  apply fold_and_swap; [by apply octets_ok|lia|].
  rewrite <-E, <-E2. replace (acc' + _) with (256 * t1 + (FOLD_U32T s3 + psum false (octets (Z.to_nat len3) m pl))) by lia.
  apply oc_plus; [apply oc_refl; lia|]. etrans; [|exact E3].
  apply oc_plus; [done|]. by apply oc_refl.
Qed.
End versions.

(** C12  The three versions of [lwip_standard_chksum]
    (net/lwip/core/ipv4/inet_chksum.c) compute one function: for every buffer of a
    16-bit length, at every alignment, each gives the one's-complement sum of
    RFC 1071 with its bytes swapped, so the versions that load 16 and 32 bits at a
    time and add the carries back agree with the byte-wise version.  Version 3's
    unrolled loop ends within [len / 8] iterations. *)
Theorem chksum_versions_agree m p len fuel :
  bytes_ok m → 0 ≤ len ≤ 0xffff → 8192 ≤ Z.of_nat fuel →
  lwip_standard_chksum m p len = htons (rfc1071_sum (octets (Z.to_nat len) m p)) ∧
  lwip_standard_chksum2 m p len = lwip_standard_chksum m p len ∧
  lwip_standard_chksum3 fuel m p len = Some (lwip_standard_chksum m p len).
Proof.
  intros Hm Hl Hf. by rewrite chksum1_rfc1071, chksum2_rfc1071, chksum3_rfc1071.
Qed.

Lemma chksum_versions_agree_witness :
  let m : bytes := list_to_map [(7, 0xff); (8, 0xfe); (9, 1); (10, 2); (11, 3)] in
  lwip_standard_chksum m 7 5 = htons (rfc1071_sum (octets (Z.to_nat 5) m 7)) ∧
  lwip_standard_chksum2 m 7 5 = lwip_standard_chksum m 7 5 ∧
  lwip_standard_chksum3 (Z.to_nat 8192) m 7 5 = Some (lwip_standard_chksum m 7 5).
Proof.
  intros m. apply chksum_versions_agree; [|lia|lia].
  apply bytes_ok_sound. apply (bool_decide_unpack _). by vm_compute.
Defined.

(** ** Chains of buffers *)

Definition pbuf_ok (b : pbuf) : Prop := 0 ≤ plen b ≤ 0xffff.

Lemma oc_chksum1 m p len : bytes_ok m → 0 ≤ len ≤ 0xffff →
  oc (lwip_standard_chksum m p len) (psum false (octets (Z.to_nat len) m p)) ∧
  lwip_standard_chksum m p len ≤ 65535.
Proof.
  intros Hm Hl. rewrite chksum1_rfc1071 by done. pose proof (octets_ok (Z.to_nat len) m p Hm) as Ho.
  destruct (oc_rfc1071 _ Ho) as [R1 R2]. set (s := rfc1071_sum _) in *.
  pose proof (htons_bound s). split; [|lia].
  etrans; [apply oc_htons; unfold oc in R1; lia|].
  etrans; [apply oc_swap_proper; exact R1|]. symmetry. exact (psum_swap true _ Ho).
Qed.

(** One buffer added to a 16-bit [acc] that stands for the bytes [l] before it. *)
Lemma chain_step m b n l acc swapped :
  bytes_ok m → Forall is_octet l → 0 ≤ n ≤ 0xffff →
  oc acc (psum swapped l) → acc ≤ 65535 → Nat.odd (length l) = swapped →
  let acc' := FOLD_U32T (u32 (acc + lwip_standard_chksum m b n)) in
  oc acc' (psum swapped (l ++ octets (Z.to_nat n) m b)) ∧ acc' ≤ 65535.
Proof.
  intros Hm Hl Hn Ho Ha Hs. destruct (oc_chksum1 m b n Hm Hn) as [C1 C2].
  set (k := lwip_standard_chksum m b n) in *.
  assert (0 ≤ acc) by (unfold oc in Ho; lia). assert (0 ≤ k) by (unfold oc in C1; lia).
  rewrite u32_small by lia. destruct (oc_FOLD_small (acc + k)) as [F1 F2]; [lia|].
  split; [|done]. etrans; [exact F1|]. rewrite psum_app, Hs, xorb_nilpotent. by apply oc_plus.
Qed.

Lemma swap_step acc swapped l : Forall is_octet l → acc ≤ 65535 → oc acc (psum swapped l) →
  oc (SWAP_BYTES_IN_WORD acc) (psum (negb swapped) l) ∧ SWAP_BYTES_IN_WORD acc ≤ 65535.
Proof.
  intros Hl Ha Ho. assert (0 ≤ acc) by (unfold oc in Ho; lia). rewrite SWAP_htons by lia.
  pose proof (htons_bound acc). split; [|lia]. etrans; [by apply oc_htons; lia|].
  etrans; [apply oc_swap_proper; exact Ho|]. symmetry. by apply psum_swap.
Qed.

Lemma odd_app_octets l n m p : 0 ≤ n →
  Nat.odd (length (l ++ octets (Z.to_nat n) m p)) = xorb (Nat.odd (length l)) (negb (n mod 2 =? 0)).
Proof.
  intros Hn. rewrite length_app, length_octets, Nat.odd_add. f_equal.
  rewrite <-Nat.negb_even. f_equal. rewrite <-(Z2Nat.id n) at 2 by done.
  set (k := Z.to_nat n). destruct (Nat.even k) eqn:E.
  - apply Nat.even_spec in E as [j ->]. symmetry. apply Z.eqb_eq.
    replace (Z.of_nat (2 * j)) with (Z.of_nat j * 2) by lia. apply Z.mod_mul. lia.
  - apply (f_equal negb) in E. rewrite Nat.negb_even in E. apply Nat.odd_spec in E as [j ->].
    symmetry. apply Z.eqb_neq.
    replace (Z.of_nat (2 * j + 1)) with (1 + Z.of_nat j * 2) by lia. rewrite Z.mod_add by lia. done.
Qed.

Lemma chain_octets_ok m q : bytes_ok m → Forall is_octet (chain_octets m q).
Proof.
  intros Hm. unfold chain_octets. apply Forall_bind, Forall_forall. intros b _. by apply octets_ok.
Qed.

Lemma chain_loop_sum m q l acc swapped :
  bytes_ok m → Forall pbuf_ok q → Forall is_octet l →
  oc acc (psum swapped l) → acc ≤ 65535 → Nat.odd (length l) = swapped →
  ∃ acc' swapped', chain_loop m q acc swapped = (acc', swapped') ∧
    oc acc' (psum swapped' (l ++ chain_octets m q)) ∧ acc' ≤ 65535.
Proof.
  intros Hm Hq. revert l acc swapped. induction Hq as [|b q Hb Hq IH]; intros l acc swapped Hl Ho Ha Hs.
  - simpl. exists acc, swapped. by rewrite app_nil_r.
  - destruct (chain_step m (payload b) (plen b) l acc swapped) as [S1 S2]; [done..|].
    assert (Forall is_octet (l ++ octets (Z.to_nat (plen b)) m (payload b))) as Hl'
      by (apply Forall_app; split; [done|by apply octets_ok]).
    pose proof (odd_app_octets l (plen b) m (payload b)) as Hp.
    cbn [chain_loop chain_octets mbind list_bind]. rewrite (assoc_L (++)).
    destruct (plen b mod 2 =? 0); simpl in *.
    + apply IH; [done..|]. rewrite Hp, Hs by apply Hb. apply xorb_false_r.
    + destruct (swap_step _ _ _ Hl' S2 S1) as [W1 W2].
      apply IH; [done..|]. rewrite Hp, Hs by apply Hb. apply xorb_true_r.
Qed.

(** What the two loops over a chain leave, swapped back if need be. *)
Lemma chain_end acc (swapped : bool) l : Forall is_octet l → acc ≤ 65535 → oc acc (psum swapped l) →
  (if swapped then SWAP_BYTES_IN_WORD acc else acc) = htons (rfc1071_sum l).
Proof.
  intros Hl Ha Ho. destruct swapped; [|by apply oc_result].
  destruct (swap_step acc true l) as [W1 W2]; [done..|]. by apply oc_result.
Qed.

Lemma chain_loop_rfc1071 m q : bytes_ok m → Forall pbuf_ok q →
  ∃ acc swapped, chain_loop m q 0 false = (acc, swapped) ∧
    (if swapped : bool then SWAP_BYTES_IN_WORD acc else acc) = htons (rfc1071_sum (chain_octets m q)).
Proof.
  intros Hm Hq. destruct (chain_loop_sum m q [] 0 false) as (acc & sw & E & H1 & H2);
    [done|done|done|by apply oc_refl|lia|done|].
  exists acc, sw. split; [done|]. apply chain_end; [by apply chain_octets_ok|done..].
Qed.

Lemma lnot_u16 s : 0 ≤ s ≤ 65535 → u16 (Z.lnot s) = 65535 - s.
Proof. intros H. unfold u16, Z.lnot. symmetry. apply (Z.mod_unique _ _ (-1)); lia. Qed.

Lemma land_u16 s : 0 ≤ s ≤ 65535 → Z.land s 0xffff = s.
Proof. intros H. rewrite (land_ones_mod _ 16) by lia. apply Z.mod_small. lia. Qed.

(** C20  [inet_chksum_pbuf] over a chain of buffers is the checksum of the bytes of
    the chain laid end to end, however they are cut into buffers: an odd-sized
    buffer moves the words of the ones after it by a byte, and the swaps of the loop
    undo that.  In particular it equals [inet_chksum] of a flat copy of the chain. *)
Theorem inet_chksum_pbuf_correct m q :
  bytes_ok m → Forall pbuf_ok q →
  inet_chksum_pbuf m q = 65535 - htons (rfc1071_sum (chain_octets m q)) ∧
  ∀ p len, 0 ≤ len ≤ 0xffff → octets (Z.to_nat len) m p = chain_octets m q →
    inet_chksum_pbuf m q = inet_chksum m p len.
Proof.
  intros Hm Hq. unfold inet_chksum_pbuf, inet_chksum.
  destruct (chain_loop_rfc1071 m q) as (acc & sw & -> & ->); [done..|].
  pose proof (htons_bound (rfc1071_sum (chain_octets m q))).
  rewrite land_u16, lnot_u16 by lia. split; [done|]. intros p len Hl E.
  rewrite chksum1_rfc1071, E by done. by rewrite lnot_u16 by lia.
Qed.

(** ** Checking a received checksum *)

Lemma octets_ext n m m' p : (∀ a, p ≤ a < p + Z.of_nat n → rdb m' a = rdb m a) → octets n m' p = octets n m p.
Proof.
  revert p. induction n as [|n IH]; intros p H; simpl; [done|].
  rewrite H by lia. f_equal. apply IH. intros a Ha. apply H. lia.
Qed.

(** A 16-bit store, as the assignment to a checksum field of a header. *)
Definition st16 (m : bytes) (a v : Z) : bytes := wrb (wrb m a v) (a + 1) (v / 2 ^ 8).

Lemma rdb_st16 m a v b : rdb (st16 m a v) b =
  if decide (b = a) then u8 v else if decide (b = a + 1) then u8 (v / 2 ^ 8) else rdb m b.
Proof.
  unfold st16. rewrite !rdb_wrb. repeat case_decide; done || lia.
Qed.

Lemma bytes_ok_st16 m a v : bytes_ok m → bytes_ok (st16 m a v).
Proof. intros H. unfold st16. by repeat apply bytes_ok_wrb. Qed.

(** Storing [c] in a zero field at an even offset adds [c] to the sum. *)
Lemma psum_st16 m p len off c :
  bytes_ok m → 0 ≤ off → Z.even off = true → off + 2 ≤ len → 0 ≤ c < 65536 →
  rdb m (p + off) = 0 → rdb m (p + off + 1) = 0 →
  psum false (octets (Z.to_nat len) (st16 m (p + off) c) p) = psum false (octets (Z.to_nat len) m p) + c.
Proof.
  intros Hm Ho He Hl Hc Z1 Z2.
  assert (Nat.even (Z.to_nat off) = true) as He'.
  { apply Z.even_spec in He as [j ->]. apply Nat.even_spec. exists (Z.to_nat j). lia. }
  rewrite !(octets_psum_split _ (Z.to_nat off) p len) by (done || lia).
  rewrite !(octets_psum_split _ 2 (p + Z.of_nat (Z.to_nat off))) by (done || lia).
  rewrite !Z2Nat.id by done. change (Z.of_nat 2) with 2.
  rewrite (octets_ext (Z.to_nat off) m), (octets_ext (Z.to_nat (len - off - 2)) m).
  2,3: intros a Ha; rewrite rdb_st16, !decide_False by lia; done.
  cbn [octets psum negb]. rewrite !rdb_st16, Z1, Z2. repeat case_decide; try lia.
  unfold u8. change (2 ^ 8) with 256. rewrite (Z.mod_small (c / 256)) by (Z.div_mod_to_equations; lia).
  Z.div_mod_to_equations; lia.
Qed.

(** The checksum a sender stores is the one a receiver accepts: with [inet_chksum]
    of a buffer whose 16-bit checksum field is zero stored in that field, the
    checksum of the buffer is zero, which is the test ip.c makes on every header it
    receives; and a header whose field holds any other value but the checksum is
    rejected (the two zeros of one's-complement arithmetic apart). *)
Theorem inet_chksum_verifies m p len off c :
  bytes_ok m → 0 ≤ len ≤ 0xffff → 0 ≤ off → Z.even off = true → off + 2 ≤ len →
  rdb m (p + off) = 0 → rdb m (p + off + 1) = 0 →
  inet_chksum (st16 m (p + off) (inet_chksum m p len)) p len = 0 ∧
  (0 ≤ c ≤ 65535 → inet_chksum (st16 m (p + off) c) p len = 0 →
   c = inet_chksum m p len ∨ (c = 65535 ∧ inet_chksum m p len = 0)).
Proof.
  intros Hm Hl Ho He Hf Z1 Z2. destruct (oc_chksum1 m p len Hm Hl) as [C1 C2].
  assert (∀ c, 0 ≤ c ≤ 65535 →
    oc (lwip_standard_chksum (st16 m (p + off) c) p len) (lwip_standard_chksum m p len + c) ∧
    0 ≤ lwip_standard_chksum (st16 m (p + off) c) p len ≤ 65535) as K.
  { intros x Hx. destruct (oc_chksum1 (st16 m (p + off) x) p len) as [D1 D2];
      [by apply bytes_ok_st16|done|].
    rewrite psum_st16 in D1 by (done || lia). split; [|unfold oc in D1; lia].
    etrans; [exact D1|]. apply oc_plus; [by symmetry|apply oc_refl; lia]. }
  unfold inet_chksum. set (s := lwip_standard_chksum m p len) in *.
  assert (0 ≤ s) by (unfold oc in C1; lia). rewrite !(lnot_u16 s) by lia. split.
  - destruct (K (65535 - s)) as [K1 K2]; [lia|]. rewrite lnot_u16 by done.
    replace (s + (65535 - s)) with 65535 in K1 by lia.
    apply oc_unique in K1; [|lia..]. lia.
  - intros Hc H0. destruct (K c) as [K1 K2]; [lia|]. rewrite lnot_u16 in H0 by done.
    replace (lwip_standard_chksum _ p len) with 65535 in K1 by lia.
    unfold oc in K1. Z.div_mod_to_equations. lia.
Qed.

(** An IP header from 192.168.0.1 with its checksum field at offset 10. *)
Definition hdr : bytes :=
  list_to_map (imap (λ i c, (Z.of_nat i, c))
    [0x45; 0; 0; 0x73; 0; 0; 0x40; 0; 0x40; 0x11; 0; 0; 0xc0; 0xa8; 0; 1; 0xc0; 0xa8; 0; 0xc7]).
Lemma hdr_ok : bytes_ok hdr.
Proof. apply bytes_ok_sound. apply (bool_decide_unpack _). by vm_compute. Qed.

Lemma inet_chksum_verifies_witness :
  inet_chksum (st16 hdr (0 + 10) (inet_chksum hdr 0 20)) 0 20 = 0 ∧
  (0 ≤ 0x61b8 ≤ 65535 → inet_chksum (st16 hdr (0 + 10) 0x61b8) 0 20 = 0 →
   0x61b8 = inet_chksum hdr 0 20 ∨ (0x61b8 = 65535 ∧ inet_chksum hdr 0 20 = 0)).
Proof. apply inet_chksum_verifies; [exact hdr_ok|lia|lia|done|lia|done|done]. Defined.

Lemma inet_chksum_pbuf_correct_witness :
  inet_chksum_pbuf hdr [Pbuf 0 7; Pbuf 7 4; Pbuf 11 9] =
    65535 - htons (rfc1071_sum (chain_octets hdr [Pbuf 0 7; Pbuf 7 4; Pbuf 11 9])) ∧
  inet_chksum_pbuf hdr [Pbuf 0 7; Pbuf 7 4; Pbuf 11 9] = inet_chksum hdr 0 20.
Proof.
  destruct (inet_chksum_pbuf_correct hdr [Pbuf 0 7; Pbuf 7 4; Pbuf 11 9] hdr_ok) as [H1 H2].
  { repeat constructor; done. }
  split; [exact H1|]. apply H2; [lia|]. vm_compute. reflexivity.
Defined.

(** ** TCP and UDP: the pseudo header *)

(** The pseudo header as bytes; addresses are words in network order. *)
Definition addr_octets (a : Z) : list Z := [ap_byte a 0; ap_byte a 1; ap_byte a 2; ap_byte a 3].
Definition pseudo_octets (src dest proto proto_len : Z) : list Z :=
  addr_octets src ++ addr_octets dest ++ [0; proto; proto_len / 256; proto_len mod 256].

Lemma ap_byte_octet a n : is_octet (ap_byte a n).
Proof. apply Z.mod_pos_bound. lia. Qed.

Lemma addr_halves a : 0 ≤ a < 2 ^ 32 →
  Z.land a 0xffff + Z.land (Z.shiftr a 16) 0xffff = psum false (addr_octets a).
Proof.
  intros (d & c & b & a' & -> & Hd & Hc & Hb & Ha)%word4_split.
  cbn [addr_octets psum negb]. destruct (ap_byte_word4 a' b c d) as (-> & -> & -> & ->); try done.
  rewrite !(land_ones_mod _ 16), Z.shiftr_div_pow2 by lia. unfold word4, is_octet in *.
  Z.div_mod_to_equations; lia.
Qed.

Lemma pseudo_octets_ok src dest proto proto_len : is_octet proto → 0 ≤ proto_len < 65536 →
  Forall is_octet (pseudo_octets src dest proto proto_len).
Proof.
  intros Hp Hl. unfold pseudo_octets, addr_octets. simpl.
  do 8 (apply Forall_cons; split; [apply ap_byte_octet|]).
  assert (is_octet (proto_len / 256)) by (unfold is_octet; Z.div_mod_to_equations; lia).
  assert (is_octet (proto_len mod 256)) by (apply Z.mod_pos_bound; lia).
  repeat constructor; done || apply Hp || (unfold is_octet in *; lia).
Qed.

Section pseudo.
  Context (src dest proto proto_len : Z).
  Context (Hsrc : 0 ≤ src < 2 ^ 32) (Hdest : 0 ≤ dest < 2 ^ 32).
  Context (Hproto : is_octet proto) (Hlen : 0 ≤ proto_len < 65536).

Lemma pseudo_header_sum acc l : Forall is_octet l → oc acc (psum false l) → acc ≤ 65535 →
  pseudo_header acc src dest proto proto_len =
  65535 - htons (rfc1071_sum (pseudo_octets src dest proto proto_len ++ l)).
Proof.
  intros Hl Ho Ha. assert (0 ≤ acc) by (unfold oc in Ho; lia).
  pose proof (addr_halves src Hsrc) as E1. pose proof (addr_halves dest Hdest) as E2.
  assert (∀ x, 0 ≤ Z.land x 0xffff ≤ 65535) as L.
  { intros x. rewrite (land_ones_mod _ 16) by lia. pose proof (Z.mod_pos_bound x (2 ^ 16)). lia. }
  pose proof (L src). pose proof (L (Z.shiftr src 16)). pose proof (L dest). pose proof (L (Z.shiftr dest 16)).
  unfold is_octet in Hproto. assert (htons (u16 proto) = 256 * proto) as E3.
  { rewrite u16_small by lia. replace proto with (0 * 256 + proto) at 1 by lia.
    rewrite htons_bytes by (unfold is_octet; lia). lia. }
  assert (htons proto_len = proto_len / 256 + 256 * (proto_len mod 256)) as E4.
  { rewrite (Z.div_mod proto_len 256) at 1 by lia. rewrite (Z.mul_comm 256).
    rewrite htons_bytes by (unfold is_octet; Z.div_mod_to_equations; lia). lia. }
  pose proof (htons_bound (u16 proto)). pose proof (htons_bound proto_len).
  unfold pseudo_header. cbv zeta. set (s := Z.land src _) in *. set (s' := Z.land (Z.shiftr src _) _) in *.
  set (d := Z.land dest _) in *. set (d' := Z.land (Z.shiftr dest _) _) in *.
  rewrite (u32_small (acc + s)), (u32_small (acc + s + s')), (u32_small (acc + s + s' + d)) by lia.
  rewrite (u32_small (acc + s + s' + d + d')), (u32_small (_ + htons (u16 proto))), u32_small by lia.
  set (sum := _ + htons proto_len).
  assert (sum = acc + psum false (pseudo_octets src dest proto proto_len)) as Es.
  { unfold pseudo_octets. rewrite !psum_app, <-E1. cbn [addr_octets length Nat.odd Nat.even negb xorb] in *.
    change (xorb false (Nat.odd _)) with false. rewrite <-E2. subst sum. cbn [psum negb]. lia. }
  destruct (oc_FOLD_FOLD sum) as [F1 F2]; [lia|]. set (f := FOLD_U32T _) in *.
  assert (0 ≤ f) by (unfold oc in F1; lia). rewrite land_u16, lnot_u16 by lia. f_equal.
  apply oc_result; [apply Forall_app; split; [by apply pseudo_octets_ok|done]|done|].
  etrans; [exact F1|]. rewrite psum_app. change (xorb false (Nat.odd _)) with false.
  rewrite Es, Z.add_comm. apply oc_plus; [apply oc_refl; lia|done].
Qed.
End pseudo.

Lemma take_octets k n m p : (k ≤ n)%nat → take k (octets n m p) = octets k m p.
Proof.
  intros H. replace n with (k + (n - k))%nat by lia. rewrite octets_plus.
  rewrite <-(length_octets k m p) at 1. apply take_app_length.
Qed.

Lemma partial_loop_done m q acc swapped : partial_loop m q 0 acc swapped = Some (acc, swapped).
Proof. by destruct q. Qed.

(** The parity of a buffer that is summed only in part does not matter: no buffer
    is summed after it. *)
Lemma partial_loop_sum m q l cl acc swapped :
  bytes_ok m → Forall pbuf_ok q → Forall is_octet l → 0 ≤ cl < 0x7fff →
  oc acc (psum swapped l) → acc ≤ 65535 → Nat.odd (length l) = swapped →
  ∃ acc' swapped', partial_loop m q cl acc swapped = Some (acc', swapped') ∧
    oc acc' (psum swapped' (l ++ take (Z.to_nat cl) (chain_octets m q))) ∧ acc' ≤ 65535.
Proof.
  intros Hm Hq. revert l cl acc swapped.
  induction Hq as [|b q Hb Hq IH]; intros l cl acc swapped Hl Hcl Ho Ha Hs.
  { simpl. exists acc, swapped. by rewrite take_nil, app_nil_r. }
  cbn [partial_loop]. destruct (Z.ltb_spec 0 cl).
  2:{ assert (cl = 0) as -> by lia. exists acc, swapped. by rewrite app_nil_r. }
  unfold pbuf_ok in Hb. change (chain_octets m (b :: q))
    with (octets (Z.to_nat (plen b)) m (payload b) ++ chain_octets m q).
  destruct (Z.ltb_spec cl (plen b)).
  - destruct (chain_step m (payload b) cl l acc swapped) as [S1 S2]; [done|done|lia|done..|].
    rewrite Z.sub_diag, take_app_le, take_octets by (rewrite ?length_octets; lia). cbn [negb Z.ltb].
    change (negb (u16 0 <? 32767)) with false. change (u16 0) with 0. rewrite !partial_loop_done.
    case_match; do 2 eexists; (split; [done|]); [|done].
    apply swap_step; [apply Forall_app; split; [done|by apply octets_ok]|done..].
  - destruct (chain_step m (payload b) (plen b) l acc swapped) as [S1 S2]; [done..|].
    assert (Forall is_octet (l ++ octets (Z.to_nat (plen b)) m (payload b))) as Hl'
      by (apply Forall_app; split; [done|by apply octets_ok]).
    pose proof (odd_app_octets l (plen b) m (payload b)) as Hp.
    rewrite (u16_small (cl - plen b)) by lia. destruct (Z.ltb_spec (cl - plen b) 0x7fff); [|lia].
    rewrite take_app_ge, length_octets by (rewrite length_octets; lia). rewrite (assoc_L (++)).
    replace (Z.to_nat cl - Z.to_nat (plen b))%nat with (Z.to_nat (cl - plen b)) by lia.
    destruct (plen b mod 2 =? 0); simpl in *.
    + apply IH; [done|lia|done..|]. rewrite Hp, Hs by apply Hb. apply xorb_false_r.
    + destruct (swap_step _ _ _ Hl' S2 S1) as [W1 W2].
      apply IH; [done|lia|done..|]. rewrite Hp, Hs by apply Hb. apply xorb_true_r.
Qed.

Lemma oc_chain_end acc (swapped : bool) l : Forall is_octet l → acc ≤ 65535 → oc acc (psum swapped l) →
  oc (if swapped then SWAP_BYTES_IN_WORD acc else acc) (psum false l) ∧
  (if swapped then SWAP_BYTES_IN_WORD acc else acc) ≤ 65535.
Proof. intros Hl Ha Ho. destruct swapped; [|done]. by apply (swap_step acc true l). Qed.

(** C29  The TCP/UDP checksum [inet_chksum_pseudo] is the Internet checksum of the
    pseudo header (both addresses, a zero byte, the protocol and the length in
    network order) followed by the bytes of the chain, and
    [inet_chksum_pseudo_partial] is that of the pseudo header and the first
    [chksum_len] bytes of the chain, its assertion never failing for a [chksum_len]
    below 0x7fff. *)
Theorem inet_chksum_pseudo_correct m q src dest proto proto_len chksum_len :
  bytes_ok m → Forall pbuf_ok q → 0 ≤ src < 2 ^ 32 → 0 ≤ dest < 2 ^ 32 → is_octet proto →
  0 ≤ proto_len < 65536 → 0 ≤ chksum_len < 0x7fff →
  let hdr := pseudo_octets src dest proto proto_len in
  inet_chksum_pseudo m q src dest proto proto_len =
    65535 - htons (rfc1071_sum (hdr ++ chain_octets m q)) ∧
  inet_chksum_pseudo_partial m q src dest proto proto_len chksum_len =
    Some (65535 - htons (rfc1071_sum (hdr ++ take (Z.to_nat chksum_len) (chain_octets m q)))).
Proof.
  intros Hm Hq Hs Hd Hp Hl Hc hdr. pose proof (chain_octets_ok m q Hm) as Ho.
  unfold inet_chksum_pseudo, inet_chksum_pseudo_partial. split.
  - destruct (chain_loop_sum m q [] 0 false) as (acc & sw & -> & H1 & H2);
      [done|done|done|by apply oc_refl|lia|done|].
    destruct (oc_chain_end acc sw _ Ho H2 H1). by apply pseudo_header_sum.
  - destruct (partial_loop_sum m q [] chksum_len 0 false) as (acc & sw & -> & H1 & H2);
      [done|done|done|done|by apply oc_refl|lia|done|].
    pose proof (Forall_take _ (Z.to_nat chksum_len) _ Ho) as Ho'.
    destruct (oc_chain_end acc sw _ Ho' H2 H1). f_equal. by apply pseudo_header_sum.
Qed.

Lemma inet_chksum_pseudo_correct_witness :
  let q := [Pbuf 0 7; Pbuf 7 13] in let h := pseudo_octets 0x0100a8c0 0xc700a8c0 17 20 in
  inet_chksum_pseudo hdr q 0x0100a8c0 0xc700a8c0 17 20 =
    65535 - htons (rfc1071_sum (h ++ chain_octets hdr q)) ∧
  inet_chksum_pseudo_partial hdr q 0x0100a8c0 0xc700a8c0 17 20 8 =
    Some (65535 - htons (rfc1071_sum (h ++ take (Z.to_nat 8) (chain_octets hdr q)))).
Proof.
  intros q h. apply inet_chksum_pseudo_correct; [exact hdr_ok|repeat constructor; done|lia|lia| |lia|lia].
  unfold is_octet. lia.
Defined.
