(* ===== verification/Lwmem.v ===== *)
(** * The heap of lwIP: net/lwip/core/mem.c

    [mem_init], [mem_malloc], [mem_free], [mem_realloc] and [mem_calloc] with the
    options of net/lwip/jos/lwipopts.h, on a memory of bytes that holds the data and
    the [struct mem] headers alike.  The theorems say that the headers always form a
    list of adjacent blocks without two free neighbours, that the search from
    [lfree] is a first fit over the whole heap, and that the data of the live blocks
    is nobody else's. *)

From S2P Require Import Prelude Strings Words.

(** ** Configuration *)

Definition MEM_ALIGNMENT : Z := 4.
Definition TCP_MSS : Z := 1460.
Definition TCP_SND_BUF : Z := 16 * TCP_MSS.
Definition TCP_SND_QUEUELEN : Z := 2 * TCP_SND_BUF / TCP_MSS.
Definition MEMP_NUM_TCP_SEG : Z := TCP_SND_QUEUELEN.
Definition PER_TCP_PCB_BUFFER : Z := 16 * 4096.
Definition MEM_SIZE : Z := PER_TCP_PCB_BUFFER * MEMP_NUM_TCP_SEG + 4096 * MEMP_NUM_TCP_SEG.

(** On a [mem_size_t], which is a [u32_t] for this [MEM_SIZE]. *)
Definition LWIP_MEM_ALIGN_SIZE (size : Z) : Z := Z.land (u32 (size + MEM_ALIGNMENT - 1)) (u32 (Z.lnot (MEM_ALIGNMENT - 1))).
Definition LWIP_MEM_ALIGN (addr : Z) : Z := Z.land (u64 (addr + MEM_ALIGNMENT - 1)) (u64 (Z.lnot (MEM_ALIGNMENT - 1))).
Definition MIN_SIZE : Z := 12.
Definition MIN_SIZE_ALIGNED : Z := Eval cbv in LWIP_MEM_ALIGN_SIZE MIN_SIZE.
(** [struct mem]: [next] and [prev] of 32 bits and [used] of 8, 4-aligned. *)
Definition SIZEOF_STRUCT_MEM : Z := Eval cbv in LWIP_MEM_ALIGN_SIZE 12.
Definition MEM_SIZE_ALIGNED : Z := Eval cbv in LWIP_MEM_ALIGN_SIZE MEM_SIZE.

(** ** State *)

(** The memory, the pointer [lfree] and the counter of the semaphore [mem_sem]. *)
Record lheap := mkHeap { hm : bytes; lfree : Z; mem_sem : Z }.
Definition set_hm (m : bytes) (s : lheap) : lheap := mkHeap m (lfree s) (mem_sem s).
Definition set_lfree (p : Z) (s : lheap) : lheap := mkHeap (hm s) p (mem_sem s).
Definition set_sem (n : Z) (s : lheap) : lheap := mkHeap (hm s) (lfree s) n.
Definition LM (A : Type) : Type := M lheap A.

Definition mem_next (p : Z) : LM Z := gets (λ s, ld32 (hm s) p).
Definition mem_prev (p : Z) : LM Z := gets (λ s, ld32 (hm s) (p + 4)).
Definition mem_used (p : Z) : LM Z := gets (λ s, rdb (hm s) (p + 8)).
Definition set_next (p v : Z) : LM unit := modify (λ s, set_hm (st32 (hm s) p v) s).
Definition set_prev (p v : Z) : LM unit := modify (λ s, set_hm (st32 (hm s) (p + 4) v) s).
Definition set_used (p v : Z) : LM unit := modify (λ s, set_hm (wrb (hm s) (p + 8) v) s).

(** [sys_arch_sem_wait(mem_sem, 0)] waits, without end if nobody signals. *)
Definition sem_wait : LM unit :=
  n <- gets mem_sem ;; if 0 <? n then modify (set_sem (n - 1)) else noret.
Definition sem_signal : LM unit := n <- gets mem_sem ;; modify (set_sem (n + 1)).

(** More rounds than there can be blocks. *)
Definition BLOCKS : nat := Z.to_nat 92845.

Section heap.
Context (ram_heap : Z).

(** The two pointers that [mem_init] sets once. *)
Definition ram : Z := LWIP_MEM_ALIGN ram_heap.
Definition ram_end : Z := ram + MEM_SIZE_ALIGNED.

(** Plug hole forward. *)
Definition plug_forward (mem : Z) : LM unit :=
  next <- mem_next mem ;; assert_ (next <=? MEM_SIZE_ALIGNED) ;;;
  let nmem := ram + next in
  nu <- mem_used nmem ;;
  if negb (mem =? nmem) && (nu =? 0) && negb (nmem =? ram_end) then
    l <- gets lfree ;;
    (if l =? nmem then modify (set_lfree mem) else ret tt) ;;;
    nn <- mem_next nmem ;;
    set_next mem nn ;;;
    nn <- mem_next nmem ;;
    set_prev (ram + nn) (u32 (mem - ram))
  else ret tt.

(** Plug hole backward. *)
Definition plug_backward (mem : Z) : LM unit :=
  prev <- mem_prev mem ;;
  let pmem := ram + prev in
  pu <- mem_used pmem ;;
  if negb (pmem =? mem) && (pu =? 0) then
    l <- gets lfree ;;
    (if l =? mem then modify (set_lfree pmem) else ret tt) ;;;
    n <- mem_next mem ;;
    set_next pmem n ;;;
    n <- mem_next mem ;;
    set_prev (ram + n) (u32 (pmem - ram))
  else ret tt.

Definition plug_holes (mem : Z) : LM unit :=
  assert_ (ram <=? mem) ;;;
  assert_ (mem <? ram_end) ;;;
  u <- mem_used mem ;; assert_ (u =? 0) ;;;
  plug_forward mem ;;;
  plug_backward mem.

Definition mem_init : LM unit :=
  assert_ (Z.land SIZEOF_STRUCT_MEM (MEM_ALIGNMENT - 1) =? 0) ;;;
  set_next ram MEM_SIZE_ALIGNED ;;;
  set_prev ram 0 ;;;
  set_used ram 0 ;;;
  set_used ram_end 1 ;;;
  set_next ram_end MEM_SIZE_ALIGNED ;;;
  set_prev ram_end MEM_SIZE_ALIGNED ;;;
  modify (set_sem 1) ;;;
  modify (set_lfree ram).

Definition mem_free (rmem : Z) : LM unit :=
  if rmem =? 0 then ret tt else
  assert_ (Z.land rmem (MEM_ALIGNMENT - 1) =? 0) ;;;
  assert_ ((ram <=? rmem) && (rmem <? ram_end)) ;;;
  if (rmem <? ram) || (ram_end <=? rmem) then ret tt else
  sem_wait ;;;
  let mem := rmem - SIZEOF_STRUCT_MEM in
  u <- mem_used mem ;; assert_ (negb (u =? 0)) ;;;
  set_used mem 0 ;;;
  l <- gets lfree ;;
  (if mem <? l then modify (set_lfree mem) else ret tt) ;;;
  plug_holes mem ;;;
  sem_signal.

(** The next struct is unused: it is moved down to [ptr2]. *)
Definition move_next (mem ptr ptr2 mem2 : Z) : LM unit :=
  next <- mem_next mem2 ;;
  l <- gets lfree ;;
  (if l =? mem2 then modify (set_lfree (ram + ptr2)) else ret tt) ;;;
  let mem2 := ram + ptr2 in
  set_used mem2 0 ;;;
  set_next mem2 next ;;;
  set_prev mem2 ptr ;;;
  set_next mem ptr2 ;;;
  n2 <- mem_next mem2 ;;
  if negb (n2 =? MEM_SIZE_ALIGNED) then n2 <- mem_next mem2 ;; set_prev (ram + n2) ptr2 else ret tt.

(** The next struct is used: the rest of the block becomes a struct at [ptr2]. *)
Definition split_rest (mem ptr ptr2 : Z) : LM unit :=
  let mem2 := ram + ptr2 in
  l <- gets lfree ;;
  (if mem2 <? l then modify (set_lfree mem2) else ret tt) ;;;
  set_used mem2 0 ;;;
  n <- mem_next mem ;;
  set_next mem2 n ;;;
  set_prev mem2 ptr ;;;
  set_next mem ptr2 ;;;
  n2 <- mem_next mem2 ;;
  if negb (n2 =? MEM_SIZE_ALIGNED) then n2 <- mem_next mem2 ;; set_prev (ram + n2) ptr2 else ret tt.

Definition mem_realloc (rmem newsize : Z) : LM Z :=
  let newsize := LWIP_MEM_ALIGN_SIZE newsize in
  let newsize := if newsize <? MIN_SIZE_ALIGNED then MIN_SIZE_ALIGNED else newsize in
  if MEM_SIZE_ALIGNED <? newsize then ret 0 else
  assert_ ((ram <=? rmem) && (rmem <? ram_end)) ;;;
  if (rmem <? ram) || (ram_end <=? rmem) then ret rmem else
  let mem := rmem - SIZEOF_STRUCT_MEM in
  let ptr := u32 (mem - ram) in
  n <- mem_next mem ;;
  let size := u32 (n - ptr - SIZEOF_STRUCT_MEM) in
  assert_ (newsize <=? size) ;;;
  if size <? newsize then ret 0 else
  if newsize =? size then ret rmem else
  sem_wait ;;;
  let mem2 := ram + n in
  u2 <- mem_used mem2 ;;
  let ptr2 := u32 (ptr + SIZEOF_STRUCT_MEM + newsize) in
  (if u2 =? 0 then move_next mem ptr ptr2 mem2
   else if newsize + SIZEOF_STRUCT_MEM + MIN_SIZE_ALIGNED <=? size then split_rest mem ptr ptr2
   else ret tt) ;;;
  sem_signal ;;;
  ret rmem.

(** [while (lfree->used && lfree != ram_end) lfree = &ram[lfree->next]]. *)
Fixpoint lfree_loop (fuel : nat) : LM unit :=
  match fuel with
  | O => noret
  | S fuel' =>
      l <- gets lfree ;;
      u <- mem_used l ;;
      if negb (u =? 0) && negb (l =? ram_end) then
        n <- mem_next l ;; modify (set_lfree (ram + n)) ;;; lfree_loop fuel'
      else ret tt
  end.

(** A block that is big enough is taken. *)
Definition take_block (size ptr : Z) : LM Z :=
  let mem := ram + ptr in
  n <- mem_next mem ;;
  (if size + SIZEOF_STRUCT_MEM + MIN_SIZE_ALIGNED <=? u64 (n - (ptr + SIZEOF_STRUCT_MEM)) then
     let ptr2 := u32 (ptr + SIZEOF_STRUCT_MEM + size) in
     let mem2 := ram + ptr2 in
     set_used mem2 0 ;;;
     n <- mem_next mem ;;
     set_next mem2 n ;;;
     set_prev mem2 ptr ;;;
     set_next mem ptr2 ;;;
     set_used mem 1 ;;;
     n2 <- mem_next mem2 ;;
     if negb (n2 =? MEM_SIZE_ALIGNED) then n2 <- mem_next mem2 ;; set_prev (ram + n2) ptr2 else ret tt
   else set_used mem 1) ;;;
  l <- gets lfree ;;
  (if mem =? l then
     lfree_loop BLOCKS ;;;
     l <- gets lfree ;; u <- mem_used l ;; assert_ ((l =? ram_end) || (u =? 0))
   else ret tt) ;;;
  sem_signal ;;;
  assert_ (mem + SIZEOF_STRUCT_MEM + size <=? ram_end) ;;;
  assert_ ((mem + SIZEOF_STRUCT_MEM) mod MEM_ALIGNMENT =? 0) ;;;
  assert_ (Z.land mem (MEM_ALIGNMENT - 1) =? 0) ;;;
  ret (mem + SIZEOF_STRUCT_MEM).

Fixpoint malloc_loop (fuel : nat) (size ptr : Z) : LM Z :=
  match fuel with
  | O => noret
  | S fuel' =>
      if ptr <? u32 (MEM_SIZE_ALIGNED - size) then
        u <- mem_used (ram + ptr) ;;
        n <- mem_next (ram + ptr) ;;
        if (u =? 0) && (size <=? u64 (n - (ptr + SIZEOF_STRUCT_MEM))) then take_block size ptr
        else malloc_loop fuel' size n
      else sem_signal ;;; ret 0
  end.

Definition mem_malloc (size : Z) : LM Z :=
  if size =? 0 then ret 0 else
  let size := LWIP_MEM_ALIGN_SIZE size in
  let size := if size <? MIN_SIZE_ALIGNED then MIN_SIZE_ALIGNED else size in
  if MEM_SIZE_ALIGNED <? size then ret 0 else
  sem_wait ;;;
  l <- gets lfree ;;
  malloc_loop BLOCKS size (u32 (l - ram)).

Definition mem_calloc (count size : Z) : LM Z :=
  p <- mem_malloc (u32 (count * size)) ;;
  (if negb (p =? 0) then modify (λ s, set_hm (memset (hm s) p 0 (u32 (count * size))) s) else ret tt) ;;;
  ret p.
End heap.

(** ** Blocks *)

(** A block: in use or not, and its size with the header. *)
Notation block := (bool * Z)%type.
Implicit Types (l : list block) (m : bytes).

Ltac consts :=
  change MEM_SIZE_ALIGNED with 2228224 in *; change SIZEOF_STRUCT_MEM with 12 in *;
  change MIN_SIZE_ALIGNED with 12 in *; change MEM_ALIGNMENT with 4 in *.

Fixpoint total (l : list block) : Z := match l with [] => 0 | (_, n) :: l' => n + total l' end.

(** The offset of the first free block, the end of the heap if there is none. *)
Fixpoint lowest (c : Z) (l : list block) : Z :=
  match l with [] => c | (b, n) :: l' => if b then lowest (c + n) l' else c end.

(** The offset of the first free block with room for [size] bytes. *)
Fixpoint find (size c : Z) (l : list block) : option Z :=
  match l with
  | [] => None
  | (b, n) :: l' => if negb b && (12 + size <=? n) then Some c else find size (c + n) l'
  end.

(** First fit: the block is split when the rest can hold a block of its own. *)
Fixpoint fit (size : Z) (l : list block) : list block :=
  match l with
  | [] => []
  | (b, n) :: l' =>
      if negb b && (12 + size <=? n) then
        if size + 36 <=? n then (true, 12 + size) :: (false, n - 12 - size) :: l' else (true, n) :: l'
      else (b, n) :: fit size l'
  end.

(** Neighbouring free blocks put together. *)
Fixpoint coal (l : list block) : list block :=
  match l with
  | [] => []
  | (b, n) :: l' =>
      match coal l' with
      | (false, k) :: r => if b then (b, n) :: (false, k) :: r else (false, n + k) :: r
      | r => (b, n) :: r
      end
  end.

Definition hd_used (l : list block) : bool := match l with (b, _) :: _ => b | [] => true end.
Fixpoint last_used (l : list block) : bool :=
  match l with [] => true | [(b, _)] => b | _ :: l' => last_used l' end.
Fixpoint no_adj (l : list block) : Prop :=
  match l with [] => True | (b, _) :: l' => (b || hd_used l' = true) ∧ no_adj l' end.

Lemma total_app l1 l2 : total (l1 ++ l2) = total l1 + total l2.
Proof. induction l1 as [|[b n] l1 IH]; simpl; lia. Qed.

Lemma last_used_app l1 b n : last_used (l1 ++ [(b, n)]) = b.
Proof. induction l1 as [|x l1 IH]; [done|]. cbn [app last_used]. destruct x. destruct l1; [done|exact IH]. Qed.

Lemma no_adj_app l1 l2 : no_adj (l1 ++ l2) ↔ no_adj l1 ∧ no_adj l2 ∧ (last_used l1 || hd_used l2 = true).
Proof.
  induction l1 as [|[b n] l1 IH]; [cbn; tauto|]. cbn [app no_adj]. rewrite IH.
  destruct l1 as [|[b' n'] l1]; [cbn; destruct b; simpl; tauto|]. cbn [app hd_used last_used no_adj]. tauto.
Qed.

Lemma coal_id l : no_adj l → coal l = l.
Proof.
  induction l as [|[b n] l IH]; [done|]. cbn [no_adj coal]. intros [H1 H2]. rewrite IH by done.
  destruct l as [|[b' n'] l]; [by destruct b|]. cbn in H1. by destruct b, b'.
Qed.

(** Merging in front of a free block. *)
Lemma coal_app l1 r0 n r : no_adj l1 → last_used l1 = true → coal r0 = (false, n) :: r →
  coal (l1 ++ r0) = l1 ++ (false, n) :: r.
Proof.
  intros H Hl E. induction l1 as [|[b k] l1 IH]; [done|]. cbn [app coal]. cbn [no_adj] in H. destruct H as [H1 H2].
  destruct l1 as [|[b' k'] l1]; [cbn in Hl |- *; rewrite E; by subst b|].
  rewrite IH by done. cbn [app]. cbn in H1. by destruct b, b'.
Qed.

Lemma no_adj_coal l : no_adj (coal l).
Proof.
  induction l as [|[b n] l IH]; [done|]. cbn [coal]. destruct (coal l) as [|[[] k] r]; cbn in *.
  - by destruct b.
  - by destruct b.
  - destruct b; cbn; [by split|]. tauto.
Qed.
Lemma coal_coal l1 l2 : coal (l1 ++ coal l2) = coal (l1 ++ l2).
Proof.
  induction l1 as [|[b n] l1 IH]; cbn [app coal]; [apply coal_id, no_adj_coal|by rewrite IH].
Qed.
Lemma lowest_coal c l : lowest c (coal l) = lowest c l.
Proof.
  revert c. induction l as [|[[] n] l IH]; intros c; [done|..]; cbn [coal].
  - destruct (coal l) as [|[[] k] r]; cbn [lowest]; by rewrite <-IH.
  - destruct (coal l) as [|[[] k] r]; done.
Qed.

Lemma fit_split size c l c' : find size c l = Some c' →
  ∃ l1 n l2, l = l1 ++ (false, n) :: l2 ∧ c' = c + total l1 ∧ 12 + size ≤ n ∧
    fit size l = l1 ++ (if size + 36 <=? n then [(true, 12 + size); (false, n - 12 - size)] else [(true, n)]) ++ l2.
Proof.
  revert c. induction l as [|[b n] l IH]; [done|]. intros c H. cbn [find fit] in *.
  destruct (negb b && (12 + size <=? n)) eqn:E.
  - simplify_eq. apply andb_prop in E as [Eb En]. apply Z.leb_le in En. destruct b; [done|].
    exists [], n, l. cbn [total app]. split_and!; [done|lia|done|by destruct (size + 36 <=? n)].
  - destruct (IH _ H) as (l1 & n' & l2 & -> & -> & Hn & ->). exists ((b, n) :: l1), n', l2. cbn [total app].
    split_and!; [done|lia|done|done].
Qed.

Lemma find_app size c l1 l2 : Forall (λ x, x.1 = true) l1 → find size c (l1 ++ l2) = find size (c + total l1) l2.
Proof.
  intros H. revert c. induction H as [|[b n] l1 Hb H IH]; intros c; cbn [app find total]; [f_equal; lia|].
  cbn in Hb. subst b. cbn [negb andb]. rewrite IH. f_equal. lia.
Qed.

Lemma lowest_app c l1 l2 : lowest c (l1 ++ l2) = if forallb fst l1 then lowest (c + total l1) l2 else lowest c l1.
Proof.
  revert c. induction l1 as [|[b n] l1 IH]; intros c; cbn [app lowest forallb total fst]; [f_equal; lia|].
  destruct b; [|done]. rewrite IH. cbn [andb]. destruct (forallb fst l1); [f_equal; lia|done].
Qed.

Lemma lowest_split c l : ∃ l1 l2, l = l1 ++ l2 ∧ lowest c l = c + total l1 ∧ Forall (λ x, x.1 = true) l1 ∧
  match l2 with [] => True | (b, _) :: _ => b = false end.
Proof.
  revert c. induction l as [|[b n] l IH]; intros c; [exists [], []; cbn; split_and!; [done|lia|done|done]|].
  cbn [lowest]. destruct b.
  - destruct (IH (c + n)) as (l1 & l2 & -> & -> & H1 & H2). exists ((true, n) :: l1), l2. cbn [app total].
    split_and!; [done|lia|by constructor|done].
  - exists [], ((false, n) :: l). cbn. split_and!; [done|lia|done|done].
Qed.

(** ** Headers in memory *)

Section blocks.
Context (ram_heap : Z).
Notation ram := (ram ram_heap).
Notation ram_end := (ram_end ram_heap).

(** The headers of the blocks [l] from offset [c] on, the first one pointing back to
    [p], up to the header at the end of the heap. *)
Fixpoint chain (m : bytes) (p c : Z) (l : list block) : Prop :=
  match l with
  | [] => c = MEM_SIZE_ALIGNED ∧ ld32 m (ram + c) = MEM_SIZE_ALIGNED ∧ rdb m (ram + c + 8) = 1
  | (b, n) :: l' =>
      24 ≤ n ∧ n mod 4 = 0 ∧ ld32 m (ram + c) = c + n ∧ ld32 m (ram + c + 4) = p ∧
      rdb m (ram + c + 8) = Z.b2z b ∧ chain m c (c + n) l'
  end.
Fixpoint seg (m : bytes) (p c : Z) (l : list block) : Prop :=
  match l with
  | [] => True
  | (b, n) :: l' =>
      24 ≤ n ∧ n mod 4 = 0 ∧ ld32 m (ram + c) = c + n ∧ ld32 m (ram + c + 4) = p ∧
      rdb m (ram + c + 8) = Z.b2z b ∧ seg m c (c + n) l'
  end.
Fixpoint lastp (p c : Z) (l : list block) : Z :=
  match l with [] => p | (_, n) :: l' => lastp c (c + n) l' end.

Lemma chain_app m p c l1 l2 :
  chain m p c (l1 ++ l2) ↔ seg m p c l1 ∧ chain m (lastp p c l1) (c + total l1) l2.
Proof.
  revert p c. induction l1 as [|[b n] l1 IH]; intros p c; cbn [app chain seg lastp total]; [rewrite Z.add_0_r; tauto|].
  rewrite IH, Z.add_assoc. tauto.
Qed.

Lemma seg_total m p c l : seg m p c l → 24 * Z.of_nat (length l) ≤ total l ∧ total l mod 4 = 0.
Proof.
  revert p c. induction l as [|[b n] l IH]; intros p c H; cbn [seg total length] in *; [by split|].
  destruct H as (H1 & H2 & _ & _ & _ & H). destruct (IH _ _ H). split; [lia|].
  rewrite Zplus_mod, H2, H3. done.
Qed.

Lemma chain_seg m p c l : chain m p c l → seg m p c l ∧ c + total l = MEM_SIZE_ALIGNED.
Proof. rewrite <-(app_nil_r l) at 1. rewrite chain_app. by intros [? [? _]]. Qed.

Lemma chain_total m p c l : chain m p c l →
  c + total l = MEM_SIZE_ALIGNED ∧ 24 * Z.of_nat (length l) ≤ total l ∧ total l mod 4 = 0.
Proof. intros H. destruct (chain_seg _ _ _ _ H) as [Hs ?]. by destruct (seg_total _ _ _ _ Hs). Qed.

Lemma lastp_app p c l b n : lastp p c (l ++ [(b, n)]) = c + total l.
Proof.
  revert p c. induction l as [|[b' n'] l IH]; intros p c; cbn [app lastp total]; [lia|]. rewrite IH. lia.
Qed.

Lemma seg_frame m m' p c l : (∀ a, ram + c ≤ a < ram + c + total l → rdb m' a = rdb m a) →
  seg m p c l → seg m' p c l.
Proof.
  revert p c. induction l as [|[b n] l IH]; intros p c Hf H; [done|]. cbn [seg total] in *.
  destruct H as (H1 & H2 & H3 & H4 & H5 & H). destruct (seg_total _ _ _ _ H) as [Hn _].
  split_and!; [done|done| | | |].
  - rewrite <-H3. apply ld32_ext. intros x Hx. apply Hf. lia.
  - rewrite <-H4. apply ld32_ext. intros x Hx. apply Hf. lia.
  - rewrite <-H5. apply Hf. lia.
  - apply IH; [|done]. intros a Ha. apply Hf. lia.
Qed.

(** The first header may point back elsewhere. *)
Lemma chain_relink m m' p q c l :
  (∀ a, ram + c ≤ a < ram_end + 12 → ¬ (ram + c + 4 ≤ a < ram + c + 8) → rdb m' a = rdb m a) →
  (l ≠ [] → ld32 m' (ram + c + 4) = q) → chain m p c l → chain m' q c l.
Proof.
  intros Hf Hq H. pose proof (chain_total _ _ _ _ H) as (Ht & Hn & _). unfold Lwmem.ram_end in Hf.
  destruct l as [|[b n] l]; cbn [chain total length] in *.
  { destruct H as (H1 & H2 & H3). split_and!; [done| |].
    - rewrite <-H2. apply ld32_ext. intros x Hx. apply Hf; lia.
    - rewrite <-H3. apply Hf; lia. }
  destruct H as (H1 & H2 & H3 & H4 & H5 & H). split_and!; [done|done| |by apply Hq| |].
  - rewrite <-H3. apply ld32_ext. intros x Hx. apply Hf; lia.
  - rewrite <-H5. apply Hf; lia.
  - destruct (chain_seg _ _ _ _ H) as [Hs Hm]. destruct (seg_total _ _ _ _ Hs) as [Hl _].
    rewrite <-(app_nil_r l) in H |- *. rewrite chain_app in H |- *. destruct H as [HA HB]. split.
    + apply (seg_frame m); [|done]. intros a Ha. apply Hf; lia.
    + cbn [chain] in *. destruct HB as (B1 & B2 & B3). split_and!; [done| |].
      * rewrite <-B2. apply ld32_ext. intros x Hx. apply Hf; lia.
      * rewrite <-B3. apply Hf; lia.
Qed.

Lemma rdb_wrb_ne m a v x : x ≠ a → rdb (wrb m a v) x = rdb m x.
Proof. intros H. by rewrite rdb_wrb, decide_False. Qed.
Lemma ld32_wrb_ne m a v x : ¬ (x ≤ a < x + 4) → ld32 (wrb m a v) x = ld32 m x.
Proof. intros H. apply ld32_ext. intros y Hy. apply rdb_wrb_ne. lia. Qed.

Ltac step_assert := rewrite (bind_Ret_l (assert_ true) _ _ tt _ eq_refl); cbv beta iota.
Ltac msimp := repeat first
  [ rewrite ld32_st32_eq | rewrite ld32_st32_ne by lia | rewrite ld32_wrb_ne by lia
  | rewrite rdb_st32_out by lia | rewrite rdb_wrb_ne by lia | rewrite rdb_wrb, decide_True by done ].

(** The block at [c] is cut at [c2]; the rest up to [nxt] is free. *)
Definition cut_mem (m : bytes) (u : bool) (c c2 nxt : Z) : bytes :=
  let m := st32 (st32 (st32 (wrb m (ram + c2 + 8) 0) (ram + c2) nxt) (ram + c2 + 4) c) (ram + c) c2 in
  let m := if u then wrb m (ram + c + 8) 1 else m in
  if negb (nxt =? MEM_SIZE_ALIGNED) then st32 m (ram + nxt + 4) c2 else m.
(** The blocks from [c] up to [nxt] become one. *)
Definition merge_mem (m : bytes) (c nxt : Z) : bytes := st32 (st32 m (ram + c) nxt) (ram + nxt + 4) c.

Lemma cut_mem_same m u c c2 nxt a :
  0 ≤ c → c + 12 ≤ c2 → c2 + 12 ≤ nxt →
  ¬ (ram + c ≤ a < ram + c + 4) → a ≠ ram + c + 8 → ¬ (ram + c2 ≤ a < ram + c2 + 12) →
  ¬ (ram + nxt + 4 ≤ a < ram + nxt + 8) → rdb (cut_mem m u c c2 nxt) a = rdb m a.
Proof.
  intros ??? H1 H2 H3 H4. unfold cut_mem. destruct u, (negb (nxt =? MEM_SIZE_ALIGNED)); by msimp.
Qed.

Lemma cut_mem_chain m u b p c c2 nxt l q :
  0 ≤ c → c + 24 ≤ c2 → (c2 - c) mod 4 = 0 → c2 + 24 ≤ nxt → (nxt - c2) mod 4 = 0 →
  ld32 m (ram + c + 4) = p → rdb m (ram + c + 8) = Z.b2z b → chain m q nxt l →
  chain (cut_mem m u c c2 nxt) p c ((u || b, c2 - c) :: (false, nxt - c2) :: l).
Proof.
  intros Hc H1 H2 H3 H4 Hp Hu H. pose proof (chain_total _ _ _ _ H) as (Ht & Hn & _). consts.
  assert (0 ≤ nxt < 2 ^ 32 ∧ 0 ≤ c2 < 2 ^ 32 ∧ 0 ≤ c < 2 ^ 32) as (?&?&?) by lia.
  replace (u || b, c2 - c) with (u || b, c2 - c) by done. cbn [chain].
  replace (c + (c2 - c)) with c2 by lia. replace (c2 + (nxt - c2)) with nxt by lia.
  split_and!; try lia.
  - unfold cut_mem. destruct u, (negb (nxt =? MEM_SIZE_ALIGNED)); msimp; by apply u32_small.
  - rewrite <-Hp. unfold cut_mem. destruct u, (negb (nxt =? MEM_SIZE_ALIGNED)); by msimp.
  - unfold cut_mem. destruct u, (negb (nxt =? MEM_SIZE_ALIGNED)); msimp; done.
  - unfold cut_mem. destruct u, (negb (nxt =? MEM_SIZE_ALIGNED)); msimp; by apply u32_small.
  - unfold cut_mem. destruct u, (negb (nxt =? MEM_SIZE_ALIGNED)); msimp; by apply u32_small.
  - unfold cut_mem. destruct u, (negb (nxt =? MEM_SIZE_ALIGNED)); by msimp.
  - apply (chain_relink m _ q); [|intros Hl|done].
    + intros a Ha Ha'. apply cut_mem_same; lia.
    + assert (nxt ≠ MEM_SIZE_ALIGNED) by (destruct l as [|[] ?]; [done|simpl in *; consts; lia]).
      unfold cut_mem. destruct (Z.eqb_spec nxt MEM_SIZE_ALIGNED); [lia|]. cbn [negb]. msimp. by apply u32_small.
Qed.

Lemma merge_mem_same m c nxt a :
  ¬ (ram + c ≤ a < ram + c + 4) → ¬ (ram + nxt + 4 ≤ a < ram + nxt + 8) → rdb (merge_mem m c nxt) a = rdb m a.
Proof. intros. unfold merge_mem. by msimp. Qed.

Lemma merge_mem_chain m p c nxt l q :
  0 ≤ c → c + 24 ≤ nxt → (nxt - c) mod 4 = 0 →
  ld32 m (ram + c + 4) = p → rdb m (ram + c + 8) = 0 → chain m q nxt l →
  chain (merge_mem m c nxt) p c ((false, nxt - c) :: l).
Proof.
  intros Hc H1 H2 Hp Hu H. pose proof (chain_total _ _ _ _ H) as (Ht & Hn & _). consts. cbn [chain].
  replace (c + (nxt - c)) with nxt by lia. split_and!; try lia; try (unfold merge_mem; msimp; (done || apply u32_small; lia)).
  apply (chain_relink m _ q); [|intros _|done].
  - intros a Ha Ha'. apply merge_mem_same; lia.
  - unfold merge_mem. msimp. apply u32_small. lia.
Qed.

(** ** The invariant *)

Record heap_ok (s : lheap) (l : list block) : Prop := {
  ho_bytes : bytes_ok (hm s);
  ho_chain : chain (hm s) 0 0 l;
  ho_adj : no_adj l;
  ho_lfree : lfree s = ram + lowest 0 l;
  ho_sem : mem_sem s = 1
}.

(** The bytes the users of the blocks in use own. *)
Fixpoint owned (c : Z) (l : list block) (a : Z) : Prop :=
  match l with
  | [] => False
  | (b, n) :: l' => (b = true ∧ ram + c + 12 ≤ a < ram + c + n) ∨ owned (c + n) l' a
  end.

(** An operation that leaves the blocks [l] writes neither to their data nor outside
    the heap. *)
Definition respects (l : list block) (s s' : lheap) : Prop :=
  ∀ a, owned 0 l a ∨ ¬ (ram ≤ a < ram_end + 12) → rdb (hm s') a = rdb (hm s) a.

Lemma owned_app c l1 l2 a : owned c (l1 ++ l2) a ↔ owned c l1 a ∨ owned (c + total l1) l2 a.
Proof.
  revert c. induction l1 as [|[b n] l1 IH]; intros c; cbn [app owned total]; [rewrite Z.add_0_r; tauto|].
  rewrite IH, Z.add_assoc. tauto.
Qed.

Lemma owned_seg m p c l a : seg m p c l → owned c l a → ram + c + 12 ≤ a < ram + c + total l.
Proof.
  revert p c. induction l as [|[b n] l IH]; intros p c Hs H; cbn [seg owned total] in *; [done|].
  destruct Hs as (H1 & _ & _ & _ & _ & Hs). destruct (seg_total _ _ _ _ Hs) as [? _].
  destruct H as [[_ H]|H]; [lia|]. specialize (IH _ _ Hs H). lia.
Qed.

Lemma owned_chain m p c l a : chain m p c l → owned c l a → ram + c + 12 ≤ a < ram_end.
Proof.
  intros H Ha. destruct (chain_seg _ _ _ _ H) as [Hs Ht]. unfold Lwmem.ram_end.
  pose proof (owned_seg _ _ _ _ _ Hs Ha). lia.
Qed.

(** Where the blocks around one block are. *)
Lemma chain_at m l1 b n l2 : chain m 0 0 (l1 ++ (b, n) :: l2) →
  let c := total l1 in
  seg m 0 0 l1 ∧ 0 ≤ c ∧ c mod 4 = 0 ∧ 24 ≤ n ∧ n mod 4 = 0 ∧ c + n ≤ MEM_SIZE_ALIGNED ∧
  ld32 m (ram + c) = c + n ∧ ld32 m (ram + c + 4) = lastp 0 0 l1 ∧ rdb m (ram + c + 8) = Z.b2z b ∧
  chain m c (c + n) l2.
Proof.
  rewrite chain_app. intros [Hs H] c. fold c in H. rewrite Z.add_0_l in H. cbn [chain] in H.
  destruct H as (H1 & H2 & H3 & H4 & H5 & H). destruct (seg_total _ _ _ _ Hs). destruct (chain_total _ _ _ _ H) as (? & ? & _).
  fold c in H0, H6. split_and!; try done; lia.
Qed.

(** The header behind a block tells whether the next block is free. *)
Lemma next_used m p c l : chain m p c l → rdb m (ram + c + 8) = Z.b2z (hd_used l).
Proof. destruct l as [|[b n] l]; cbn; [by intros (_ & _ & ?)|tauto]. Qed.

(** A byte that is outside the free block [(c, x)] and the headers around it. *)
Lemma respects_parts m l1 x l2 c y a : seg m 0 0 l1 → chain m c y l2 → y = total l1 + x →
  owned 0 (l1 ++ (false, x) :: l2) a ∨ ¬ (ram ≤ a < ram_end + 12) →
  a < ram + total l1 ∨ ram + y + 12 ≤ a.
Proof.
  intros Hs Hc -> Ha. rewrite owned_app in Ha. cbn [owned] in Ha. rewrite Z.add_0_l in Ha.
  destruct (seg_total _ _ _ _ Hs). destruct (chain_total _ _ _ _ Hc) as (? & ? & _). unfold Lwmem.ram_end in Ha. consts.
  destruct Ha as [[Ha|[[? _]|Ha]]|Ha]; [|done| |lia].
  - pose proof (owned_seg _ _ _ _ _ Hs Ha). lia.
  - pose proof (owned_chain _ _ _ _ _ Hc Ha). lia.
Qed.

(** ** Freeing *)

Definition join_next (n : Z) (l2 : list block) : Z * list block :=
  match l2 with (false, k) :: r => (n + k, r) | _ => (n, l2) end.

Lemma coal_free n l2 : no_adj l2 → coal ((false, n) :: l2) = let '(n', r) := join_next n l2 in (false, n') :: r.
Proof. intros H. cbn [coal]. rewrite coal_id by done. by destruct l2 as [|[[] k] l2]. Qed.

Lemma plug_forward_run s l1 n l2 :
  bytes_ok (hm s) → chain (hm s) 0 0 (l1 ++ (false, n) :: l2) → lfree s ≤ ram + total l1 →
  ∃ m', let '(n', r) := join_next n l2 in
    plug_forward ram_heap (ram + total l1) s = Ret tt (set_hm m' s) ∧
    bytes_ok m' ∧ chain m' 0 0 (l1 ++ (false, n') :: r) ∧
    respects (l1 ++ (false, n') :: r) s (set_hm m' s).
Proof.
  intros Hb H Hl.
  destruct (chain_at _ _ _ _ _ H) as (Hs & H0 & Hc4 & Hn & Hn4 & Hmax & Hnext & Hprev & Hu & Hch).
  set (c := total l1) in *.
  unfold plug_forward, mem_next, mem_used. step_pure. rewrite Hnext.
  destruct (Z.leb_spec (c + n) MEM_SIZE_ALIGNED); [|lia]. step_assert. step_pure.
  rewrite (next_used _ _ _ _ Hch).
  destruct (Z.eqb_spec (ram + c) (ram + (c + n))); [lia|]. cbn [negb andb].
  destruct l2 as [|[b k] l2]; cbn [hd_used join_next].
  { exists (hm s). split_and!; [by destruct s|done|done|by intros a _]. }
  destruct b; cbn [Z.b2z Z.eqb negb andb].
  { exists (hm s). split_and!; [by destruct s|done|done|by intros a _]. }
  cbn [chain] in Hch. destruct Hch as (Hk & Hk4 & Hnn & _ & _ & Hch).
  destruct (chain_total _ _ _ _ Hch) as (Ht & Hlen & _). unfold Lwmem.ram_end. consts.
  destruct (Z.eqb_spec (ram + (c + n)) (ram + 2228224)); [lia|]. cbn [negb]. step_pure.
  destruct (Z.eqb_spec (lfree s) (ram + (c + n))); [lia|]. do 2 step_pure. rewrite Hnn. unfold set_next, set_prev.
  do 2 step_pure. cbn [hm set_hm]. rewrite ld32_st32_ne, Hnn by lia.
  replace (ram + c - ram) with c by lia. rewrite u32_small by lia.
  exists (merge_mem (hm s) c (c + n + k)). split_and!; [done|by repeat apply bytes_ok_st32| |].
  - apply chain_app. split.
    + apply (seg_frame (hm s)); [|done]. intros a Ha. fold c in Ha. apply merge_mem_same; lia.
    + rewrite Z.add_0_l. fold c. replace (n + k) with (c + n + k - c) by lia. eapply merge_mem_chain; try done; try lia.
      replace (c + n + k - c) with (n + k) by lia. rewrite Zplus_mod, Hn4, Hk4. done.
  - intros a Ha. apply (respects_parts _ _ _ _ _ _ _ Hs Hch) in Ha; [|fold c; lia]. fold c in Ha.
    apply (merge_mem_same (hm s)); lia.
Qed.

Lemma lowest_range m p c l : seg m p c l → c ≤ lowest c l ≤ c + total l.
Proof.
  revert p c. induction l as [|[b n] l IH]; intros p c H; cbn [seg lowest total] in *; [lia|].
  destruct H as (? & _ & _ & _ & _ & H). destruct (seg_total _ _ _ _ H) as [? _]. specialize (IH _ _ H). destruct b; lia.
Qed.
Lemma lowest_free m l1 n l2 : seg m 0 0 l1 → lowest 0 (l1 ++ (false, n) :: l2) ≤ total l1.
Proof.
  intros H. rewrite lowest_app. destruct (seg_total _ _ _ _ H) as [? _]. pose proof (lowest_range _ _ _ _ H).
  destruct (forallb fst l1); cbn [lowest]; lia.
Qed.

Lemma plug_backward_run s l1 n l2 :
  bytes_ok (hm s) → chain (hm s) 0 0 (l1 ++ (false, n) :: l2) → no_adj l1 →
  lfree s = ram + lowest 0 (l1 ++ (false, n) :: l2) →
  coal ((false, n) :: l2) = (false, n) :: l2 →
  let l' := coal (l1 ++ (false, n) :: l2) in
  ∃ m', plug_backward ram_heap (ram + total l1) s = Ret tt (set_hm m' s) ∧
    bytes_ok m' ∧ chain m' 0 0 l' ∧ respects l' s (set_hm m' s).
Proof.
  intros Hb H Ha Hl Hr l'.
  destruct (chain_at _ _ _ _ _ H) as (Hs & H0 & Hc4 & Hn & Hn4 & Hmax & Hnext & Hprev & Hu & Hch).
  set (c := total l1) in *. unfold plug_backward, mem_next, mem_prev, mem_used. do 2 step_pure. rewrite Hprev.
  assert (last_used l1 = true → ∃ m', Ret tt s = Ret tt (set_hm m' s) ∧ bytes_ok m' ∧ chain m' 0 0 l' ∧
    respects l' s (set_hm m' s)) as Hsame.
  { intros Hlast. exists (hm s). subst l'. rewrite (coal_app l1 _ n l2) by done. split_and!; [by destruct s|done..]. }
  destruct (decide (l1 = [])) as [->|Hne].
  { cbn [lastp]. change c with 0. rewrite Z.eqb_refl. by apply Hsame. }
  destruct (exists_last Hne) as (l0 & [b k] & ->). rewrite lastp_app, Z.add_0_l.
  rewrite <-app_assoc in H. cbn [app] in H. destruct (chain_at _ _ _ _ _ H) as (Hs0 & G0 & Gc4 & Gn & Gn4 & Gmax & Gnext & Gprev & Gu & Gch).
  assert (c = total l0 + k) as Ec by (subst c; rewrite total_app; cbn; lia). rewrite last_used_app in Hsame.
  set (d := total l0) in *. rewrite Gu. destruct (Z.eqb_spec (ram + d) (ram + c)); [lia|]. cbn [negb andb].
  destruct b; cbn [Z.b2z Z.eqb]; [by apply Hsame|].
  pose proof (lowest_free _ _ k ((false, n) :: l2) Hs0) as Hlow. fold d in Hlow.
  rewrite <-app_assoc in Hl. cbn [app] in Hl. step_pure. destruct (Z.eqb_spec (lfree s) (ram + c)); [lia|].
  do 2 step_pure. rewrite Hnext. unfold set_next, set_prev. do 2 step_pure. cbn [hm set_hm].
  rewrite ld32_st32_ne, Hnext by lia. replace (ram + d - ram) with d by lia.
  destruct (chain_total _ _ _ _ Hch) as (Ht & Hlen & _). consts. rewrite u32_small by lia.
  assert (l' = l0 ++ (false, k + n) :: l2) as ->.
  { subst l'. rewrite <-app_assoc. apply no_adj_app in Ha as (Ha & _ & Hlu). cbn in Hlu. rewrite orb_false_r in Hlu.
    apply coal_app; [done|done|]. cbn [app coal] in Hr |- *. by rewrite Hr. }
  exists (merge_mem (hm s) d (c + n)). split_and!; [done|by repeat apply bytes_ok_st32| |].
  - apply chain_app. split.
    + apply (seg_frame (hm s)); [|done]. intros a Ha'. fold d in Ha'. apply merge_mem_same; lia.
    + rewrite Z.add_0_l. fold d. replace (k + n) with (c + n - d) by lia. eapply merge_mem_chain; try done; try lia.
      replace (c + n - d) with (k + n) by lia. rewrite Zplus_mod, Gn4, Hn4. done.
  - intros a Ha'. apply (respects_parts _ _ _ _ _ _ _ Hs0 Hch) in Ha'; [|fold d; lia].
    fold d in Ha'. apply (merge_mem_same (hm s)); lia.
Qed.

Lemma owned_coal c l a : owned c (coal l) a ↔ owned c l a.
Proof.
  revert c. induction l as [|[b n] l IH]; intros c; [done|]. cbn [coal owned]. rewrite <-IH.
  destruct (coal l) as [|[[] k] r]; [done..|]. destruct b; cbn [owned]; [done|]. rewrite (Z.add_assoc c n k). assert (false ≠ true) by done. tauto.
Qed.

Lemma respects_trans l s1 s2 s3 : respects l s1 s2 → respects l s2 s3 → respects l s1 s3.
Proof. intros H1 H2 a Ha. by rewrite H2, H1. Qed.
Lemma respects_owned l l' s1 s2 : (∀ a, owned 0 l' a → owned 0 l a) → respects l s1 s2 → respects l' s1 s2.
Proof. intros H H1 a [Ha|Ha]; apply H1; auto. Qed.

(** Both directions. *)
Lemma plug_holes_run s l1 n l2 :
  bytes_ok (hm s) → chain (hm s) 0 0 (l1 ++ (false, n) :: l2) → no_adj l1 → no_adj l2 →
  lfree s = ram + lowest 0 (l1 ++ (false, n) :: l2) →
  let l' := coal (l1 ++ (false, n) :: l2) in
  ∃ m', plug_holes ram_heap (ram + total l1) s = Ret tt (set_hm m' s) ∧
    bytes_ok m' ∧ chain m' 0 0 l' ∧ respects l' s (set_hm m' s).
Proof.
  intros Hb H Ha1 Ha2 Hl l'.
  destruct (chain_at _ _ _ _ _ H) as (Hs & H0 & Hc4 & Hn & Hn4 & Hmax & Hnext & Hprev & Hu & Hch).
  pose proof (lowest_free _ _ n l2 Hs) as Hlow. pose proof (coal_free n l2 Ha2) as Hcf.
  pose proof (coal_coal l1 ((false, n) :: l2)) as Hcc. pose proof (no_adj_coal ((false, n) :: l2)) as Hna.
  assert (lfree s ≤ ram + total l1) as Hle by lia. unfold plug_holes, mem_used. unfold Lwmem.ram_end at 1. consts.
  destruct (Z.leb_spec ram (ram + total l1)); [|lia]. step_assert.
  destruct (Z.ltb_spec (ram + total l1) (ram + 2228224)); [|lia]. step_assert. step_pure. rewrite Hu. step_assert.
  destruct (plug_forward_run s l1 n l2 Hb H Hle) as (m1 & HF). destruct (join_next n l2) as [n' r] eqn:Ej.
  destruct HF as (E & Hb1 & Hc1 & HR1). step_with E. rewrite Hcf in Hcc, Hna.
  destruct (plug_backward_run (set_hm m1 s) l1 n' r) as (m2 & E2 & Hb2 & Hc2 & HR2); [done|done|done| |by apply coal_id|].
  { cbn [lfree set_hm]. rewrite Hl, !lowest_app. destruct (forallb fst l1); done. }
  rewrite Hcc in Hc2, HR2. exists m2. split_and!; [done|done|done|].
  apply (respects_trans _ s (set_hm m1 s)); [|done]. apply (respects_owned (l1 ++ (false, n') :: r)); [|done].
  intros a Ha. apply owned_coal. by rewrite Hcc.
Qed.

(** Setting [used]. *)
Lemma mark_chain m l1 b b' n l2 : chain m 0 0 (l1 ++ (b, n) :: l2) →
  chain (wrb m (ram + total l1 + 8) (Z.b2z b')) 0 0 (l1 ++ (b', n) :: l2).
Proof.
  intros H. destruct (chain_at _ _ _ _ _ H) as (Hs & H0 & Hc4 & Hn & Hn4 & Hmax & Hnext & Hprev & Hu & Hch).
  apply chain_app. split; [apply (seg_frame m); [|done]; intros a Ha; apply rdb_wrb_ne; lia|].
  rewrite Z.add_0_l. cbn [chain]. split_and!; [done|done| | | |].
  - by rewrite ld32_wrb_ne by lia.
  - by rewrite ld32_wrb_ne by lia.
  - rewrite rdb_wrb, decide_True by done. by destruct b'.
  - apply (chain_relink m _ (total l1)); [intros a Ha _; apply rdb_wrb_ne; lia| |done].
    intros Hl. rewrite ld32_wrb_ne by lia. destruct l2 as [|[] ?]; [done|]. cbn in Hch. tauto.
Qed.

Lemma mark_respects s m l1 b n l2 v : seg m 0 0 l1 → chain m (total l1) (total l1 + n) l2 → 24 ≤ n →
  respects (l1 ++ (b, n) :: l2) s (set_hm (wrb (hm s) (ram + total l1 + 8) v) s).
Proof.
  intros Hs Hc Hn a Ha. cbn [hm set_hm]. apply rdb_wrb_ne.
  rewrite owned_app in Ha. cbn [owned] in Ha. rewrite Z.add_0_l in Ha. destruct (seg_total _ _ _ _ Hs).
  destruct (chain_total _ _ _ _ Hc) as (? & ? & _). unfold Lwmem.ram_end in Ha.
  destruct Ha as [[Ha|[[_ Ha]|Ha]]|Ha]; [|lia| |lia].
  - pose proof (owned_seg _ _ _ _ _ Hs Ha). lia.
  - pose proof (owned_chain _ _ _ _ _ Hc Ha). lia.
Qed.

Lemma lowest_mark m l1 n l2 : chain m 0 0 (l1 ++ (true, n) :: l2) →
  lowest 0 (l1 ++ (false, n) :: l2) = Z.min (total l1) (lowest 0 (l1 ++ (true, n) :: l2)).
Proof.
  intros H. destruct (chain_at _ _ _ _ _ H) as (Hs & H0 & Hc4 & Hn & Hn4 & Hmax & Hnext & Hprev & Hu & Hch).
  rewrite !lowest_app, !Z.add_0_l. cbn [lowest]. destruct (chain_seg _ _ _ _ Hch) as [Hs2 _].
  pose proof (lowest_range _ _ _ _ Hs). pose proof (lowest_range _ _ _ _ Hs2). destruct (forallb fst l1); lia.
Qed.

Context (Hheap : 0 < ram_heap < 2 ^ 63).

Lemma align_mask w x : 2 ≤ w → 0 ≤ x < 2 ^ w → Z.land x ((Z.lnot 3) mod 2 ^ w) = x - x mod 4.
Proof.
  intros Hw Hx. rewrite <-Z.land_ones, (Z.land_comm (Z.lnot 3)), Z.land_assoc, Z.land_ones by lia.
  rewrite Z.mod_small by done. change 3 with (Z.ones 2). rewrite <-Z.ldiff_land, Z.ldiff_ones_r by lia.
  rewrite Z.shiftl_mul_pow2, Z.shiftr_div_pow2 by lia. change (2 ^ 2) with 4. Z.div_mod_to_equations. lia.
Qed.

Lemma ram_facts : 0 < ram < 2 ^ 63 + 4 ∧ ram mod 4 = 0.
Proof.
  unfold Lwmem.ram, LWIP_MEM_ALIGN. change (MEM_ALIGNMENT - 1) with 3. rewrite (u64_small (ram_heap + MEM_ALIGNMENT - 1)).
  2:{ unfold is_u64. consts. lia. }
  unfold u64. rewrite align_mask by (consts; lia). consts. split; Z.div_mod_to_equations; lia.
Qed.

Lemma land3 x : x mod 4 = 0 → Z.land x 3 = 0.
Proof. intros H. change 3 with (Z.ones 2). by rewrite Z.land_ones. Qed.

Lemma mem_free_run s l1 n l2 : heap_ok s (l1 ++ (true, n) :: l2) →
  let l' := coal (l1 ++ (false, n) :: l2) in
  ∃ s', mem_free ram_heap (ram + total l1 + 12) s = Ret tt s' ∧ heap_ok s' l' ∧ respects l' s s'.
Proof.
  intros [Hb H Ha Hl Hsem] l'. pose proof ram_facts as [Hram Hram4].
  destruct (chain_at _ _ _ _ _ H) as (Hs & H0 & Hc4 & Hn & Hn4 & Hmax & Hnext & Hprev & Hu & Hch).
  pose proof (lowest_mark _ _ _ _ H) as Hlow. pose proof (mark_chain _ _ _ false _ _ H) as H1.
  pose proof (mark_respects s _ _ false _ _ 0 Hs Hch Hn) as HR1.
  apply no_adj_app in Ha as (Ha1 & Ha2 & _). cbn [no_adj] in Ha2. destruct Ha2 as [_ Ha2].
  set (c := total l1) in *. unfold mem_free. consts. destruct (Z.eqb_spec (ram + c + 12) 0); [lia|].
  rewrite land3 by (Z.div_mod_to_equations; lia). step_assert. unfold Lwmem.ram_end. consts.
  destruct (Z.leb_spec ram (ram + c + 12)); [|lia]. destruct (Z.ltb_spec (ram + c + 12) (ram + 2228224)); [|lia].
  step_assert. destruct (Z.ltb_spec (ram + c + 12) ram); [lia|]. destruct (Z.leb_spec (ram + 2228224) (ram + c + 12)); [lia|].
  cbn [orb]. unfold sem_wait. rewrite bind_assoc. step_pure. rewrite Hsem. cbn [Z.ltb]. change (0 <? 1) with true. cbv iota.
  step_pure. replace (ram + c + 12 - 12) with (ram + c) by lia. unfold mem_used, set_used. step_pure. cbn [hm set_sem].
  rewrite Hu. cbn [Z.b2z Z.eqb negb]. step_assert. do 2 step_pure. cbn [lfree set_hm set_sem hm mem_sem]. rewrite Hl.
  set (m1 := wrb (hm s) (ram + c + 8) 0) in *.
  match goal with |- context [bind ?k _ ?st] => assert (k st = Ret tt (mkHeap m1 (ram + lowest 0 (l1 ++ (false, n) :: l2)) 0)) as E end.
  { rewrite Hlow. destruct (Z.ltb_spec (ram + c) (ram + lowest 0 (l1 ++ (true, n) :: l2))).
    - by rewrite Z.min_l by lia.
    - rewrite Z.min_r by lia. unfold ret, set_hm, set_sem. cbn [hm lfree mem_sem]. by rewrite Hl. }
  step_with E. clear E. set (s1 := mkHeap m1 _ 0).
  assert (bytes_ok m1) as Hb1 by by apply bytes_ok_wrb.
  destruct (plug_holes_run s1 l1 n l2) as (m2 & E & Hb2 & H6 & HR2); try done. fold c in E. step_with E.
  exists (set_sem 1 (set_hm m2 s1)). split_and!; [done| |].
  - split; cbn [hm lfree mem_sem set_sem set_hm s1]; [done|done|apply no_adj_coal|by unfold l'; rewrite lowest_coal|done].
  - apply (respects_trans _ s (set_hm m1 s)); [|done]. apply (respects_owned (l1 ++ (false, n) :: l2)); [|done].
    intros a. apply owned_coal.
Qed.

(** ** Allocating *)

Lemma lowest_lt m p c l : seg m p c l → forallb fst l = false → lowest c l < c + total l.
Proof.
  revert p c. induction l as [|[b n] l IH]; intros p c H Hf; cbn [seg lowest total forallb fst] in *; [done|].
  destruct H as (? & _ & _ & _ & _ & H). destruct (seg_total _ _ _ _ H) as [? _].
  destruct b; [specialize (IH _ _ H Hf); lia|lia].
Qed.

Lemma lfree_loop_run fuel s l1 l2 :
  chain (hm s) 0 0 (l1 ++ l2) → lfree s = ram + total l1 → (length l2 < fuel)%nat →
  lfree_loop ram_heap fuel s = Ret tt (set_lfree (ram + lowest (total l1) l2) s).
Proof.
  revert s l1 l2. induction fuel as [|fuel IH]; intros s l1 l2 H Hl Hf; [lia|].
  cbn [lfree_loop]. step_pure. unfold mem_used, mem_next. step_pure. rewrite Hl.
  destruct l2 as [|[b n] l2].
  - apply chain_app in H as [_ H]. rewrite Z.add_0_l in H. destruct H as (H1 & H2 & H3). rewrite H3, H1.
    unfold Lwmem.ram_end. rewrite Z.eqb_refl. cbn [Z.eqb negb andb lowest]. destruct s. cbn in Hl |- *. subst lfree0. by rewrite H1.
  - destruct (chain_at _ _ _ _ _ H) as (Hs & H0 & Hc4 & Hn & Hn4 & Hmax & Hnext & Hprev & Hu & Hch).
    rewrite Hu. destruct b; cbn [Z.b2z Z.eqb negb andb lowest]; [|by destruct s; cbn in *; subst].
    unfold Lwmem.ram_end. destruct (Z.eqb_spec (ram + total l1) (ram + MEM_SIZE_ALIGNED)); [lia|]. cbn [negb].
    do 2 step_pure. rewrite Hnext.
    rewrite (IH (set_lfree (ram + (total l1 + n)) s) (l1 ++ [(true, n)]) l2).
    + rewrite total_app. cbn [total]. by rewrite Z.add_0_r.
    + by rewrite <-app_assoc.
    + rewrite total_app. cbn. lia.
    + simpl in Hf. lia.
Qed.

Definition new_blocks (size n : Z) : list block :=
  if size + 36 <=? n then [(true, 12 + size); (false, n - 12 - size)] else [(true, n)].

Definition taken_mem (m : bytes) (size c n : Z) : bytes :=
  if size + 36 <=? n then cut_mem m true c (c + 12 + size) (c + n) else wrb m (ram + c + 8) 1.

Lemma taken_chain m l1 n l2 size :
  chain m 0 0 (l1 ++ (false, n) :: l2) → 12 + size ≤ n → 12 ≤ size → size mod 4 = 0 →
  chain (taken_mem m size (total l1) n) 0 0 (l1 ++ new_blocks size n ++ l2).
Proof.
  intros H Hn Hsz Hsz4. unfold taken_mem, new_blocks. destruct (Z.leb_spec (size + 36) n) as [Hbig|Hbig].
  - destruct (chain_at _ _ _ _ _ H) as (Hs & H0 & Hc4 & _ & Hn4 & Hmax & Hnext & Hprev & Hu & Hch).
    set (c := total l1) in *. apply chain_app. split.
    + apply (seg_frame m); [|done]. intros a Ha. fold c in Ha. apply cut_mem_same; lia.
    + rewrite Z.add_0_l. fold c. pose proof (cut_mem_chain m true false (lastp 0 0 l1) c (c + 12 + size) (c + n) l2 c H0) as G.
      replace (c + 12 + size - c) with (12 + size) in G by lia. replace (c + n - (c + 12 + size)) with (n - 12 - size) in G by lia.
      apply G; try done; try lia; Z.div_mod_to_equations; lia.
  - apply (mark_chain _ _ false true _ _ H).
Qed.

Lemma taken_respects s l1 n l2 size :
  chain (hm s) 0 0 (l1 ++ (false, n) :: l2) → 12 + size ≤ n → 12 ≤ size →
  respects (l1 ++ new_blocks size n ++ l2) s (set_hm (taken_mem (hm s) size (total l1) n) s).
Proof.
  intros H Hn Hsz. destruct (chain_at _ _ _ _ _ H) as (Hs & H0 & Hc4 & H24 & Hn4 & Hmax & Hnext & Hprev & Hu & Hch).
  unfold taken_mem, new_blocks. destruct (Z.leb_spec (size + 36) n) as [Hbig|Hbig].
  2:{ by apply (mark_respects s (hm s) l1 true n l2 1). }
  set (c := total l1) in *. intros a Ha. cbn [hm set_hm].
  rewrite owned_app in Ha. cbn [owned app] in Ha. rewrite Z.add_0_l in Ha. fold c in Ha. unfold Lwmem.ram_end in Ha. consts.
  destruct (chain_total _ _ _ _ Hch) as (? & ? & _).
  replace (c + (12 + size) + (n - 12 - size)) with (c + n) in Ha by lia.
  assert (a < ram + c ∨ ram + c + 12 ≤ a < ram + (c + 12 + size) ∨ ram + (c + n) + 12 ≤ a) as Hw.
  { destruct Ha as [[Ha|[[_ Ha]|[[? _]|Ha]]]|Ha]; [|lia|done| |lia].
    - pose proof (owned_seg _ _ _ _ _ Hs Ha) as Hx. fold c in Hx. lia.
    - pose proof (owned_chain _ _ _ _ _ Hch Ha). lia. }
  apply cut_mem_same; lia.
Qed.

Lemma cut_adj l1 n l2 size : no_adj (l1 ++ (false, n) :: l2) → no_adj (l1 ++ new_blocks size n ++ l2).
Proof.
  rewrite !no_adj_app. intros (H1 & H2 & _). cbn [no_adj] in H2. destruct H2 as [H2 H3]. cbn in H2.
  unfold new_blocks. destruct (size + 36 <=? n); cbn; rewrite ?H2, ?orb_true_r; tauto.
Qed.

Lemma lowest_used m l : chain m 0 0 l → lowest 0 l = MEM_SIZE_ALIGNED ∨ rdb m (ram + lowest 0 l + 8) = 0.
Proof.
  intros H. destruct (lowest_split 0 l) as (l1 & l2 & -> & -> & _ & H2). rewrite Z.add_0_l.
  destruct l2 as [|[b n] l2]; [left|right].
  - apply chain_app in H as [_ [H _]]. lia.
  - subst b. by destruct (chain_at _ _ _ _ _ H) as (_ & _ & _ & _ & _ & _ & _ & _ & Hu & _).
Qed.

(** The second part: [lfree] moves on when it was the block taken. *)
Lemma move_lfree s l1 n l2 r :
  chain (hm s) 0 0 (l1 ++ r) → seg (hm s) 0 0 l1 → lfree s = ram + lowest 0 (l1 ++ (false, n) :: l2) →
  (if ram + total l1 =? lfree s then
     lfree_loop ram_heap BLOCKS ;;;
     l <- gets lfree ;; u <- mem_used l ;; assert_ ((l =? ram_end) || (u =? 0))
   else ret tt) s = Ret tt (set_lfree (ram + lowest 0 (l1 ++ r)) s).
Proof.
  intros H Hs Hl. destruct (chain_total _ _ _ _ H) as (Ht & Hlen & _). rewrite length_app in Hlen.
  pose proof (lowest_used _ _ H) as Hlow. rewrite lowest_app in Hl, Hlow |- *. rewrite Z.add_0_l in *. cbn [lowest] in Hl. consts.
  destruct (forallb fst l1) eqn:Ef.
  - rewrite Hl, Z.eqb_refl. erewrite bind_Ret_l by (apply (lfree_loop_run _ _ l1 r); [done|done|unfold BLOCKS; lia]).
    step_pure. unfold mem_used. step_pure. cbn [lfree set_lfree hm]. unfold Lwmem.ram_end.
    destruct Hlow as [->|Hlow]; [by rewrite Z.eqb_refl|]. rewrite Hlow. by rewrite orb_true_r.
  - pose proof (lowest_lt _ _ _ _ Hs Ef). destruct (Z.eqb_spec (ram + total l1) (lfree s)); [lia|].
    rewrite <-Hl. by destruct s.
Qed.

Lemma take_block_run s l1 n l2 size :
  heap_ok (set_sem 1 s) (l1 ++ (false, n) :: l2) → mem_sem s = 0 → 12 + size ≤ n → 12 ≤ size → size mod 4 = 0 →
  let l' := l1 ++ new_blocks size n ++ l2 in
  ∃ s', take_block ram_heap size (total l1) s = Ret (ram + total l1 + 12) s' ∧ heap_ok s' l' ∧ respects l' s s'.
Proof.
  intros [Hb H Ha Hl _] Hsem Hn Hsz Hsz4 l'. cbn [hm set_sem lfree] in *. pose proof ram_facts as [Hram Hram4].
  pose proof (taken_chain _ _ _ _ size H Hn Hsz Hsz4) as HC. pose proof (taken_respects s _ _ _ size H Hn Hsz) as HR.
  pose proof (cut_adj _ _ _ size Ha) as HA. fold l' in HC, HR, HA.
  destruct (chain_at _ _ _ _ _ H) as (Hs & H0 & Hc4 & H24 & Hn4 & Hmax & Hnext & Hprev & Hu & Hch).
  set (m1 := taken_mem (hm s) size (total l1) n) in *. assert (bytes_ok m1) as Hb1.
  { subst m1. unfold taken_mem, cut_mem. repeat case_match; repeat (apply bytes_ok_st32 || apply bytes_ok_wrb); done. }
  destruct (chain_total _ _ _ _ HC) as (Htot & Hlen & _).
  unfold take_block. unfold mem_next at 1. step_pure. rewrite Hnext.
  match goal with |- context [bind ?k _ s] => assert (k s = Ret tt (set_hm m1 s)) as E end.
  { subst m1. unfold taken_mem. consts. rewrite u64_small by (unfold is_u64; lia).
    replace (total l1 + n - (total l1 + 12)) with (n - 12) by lia.
    destruct (Z.leb_spec (size + 12 + 12) (n - 12)), (Z.leb_spec (size + 36) n); try lia; [|done].
    rewrite u32_small by lia. unfold cut_mem, set_used, set_next, set_prev, mem_next. consts.
    do 2 step_pure. cbn [hm set_hm]. rewrite ld32_wrb_ne, Hnext by lia. do 5 step_pure. cbn [hm set_hm].
    rewrite ld32_wrb_ne, !ld32_st32_ne, ld32_st32_eq, u32_small by lia.
    destruct (Z.eqb_spec (total l1 + n) 2228224); cbn [negb]; [done|]. step_pure. cbn [hm set_hm].
    by rewrite ld32_wrb_ne, !ld32_st32_ne, ld32_st32_eq, u32_small by lia. }
  step_with E. clear E. step_pure. assert (seg m1 0 0 l1) as Hs1 by (by apply chain_app in HC as [? _]).
  step_with (move_lfree (set_hm m1 s) l1 n l2 _ HC Hs1 Hl). unfold sem_signal. rewrite bind_assoc. do 2 step_pure.
  unfold Lwmem.ram_end. consts. destruct (Z.leb_spec (ram + total l1 + 12 + size) (ram + 2228224)); [|lia]. step_assert.
  replace ((ram + total l1 + 12) mod 4) with 0 by (Z.div_mod_to_equations; lia). step_assert.
  rewrite land3 by (Z.div_mod_to_equations; lia). step_assert.
  eexists. split; [done|]. split; [|done]. split; cbn [hm lfree mem_sem set_sem set_lfree set_hm]; try done. lia.
Qed.

Lemma find_none m p c l size : chain m p c l → MEM_SIZE_ALIGNED - size ≤ c → find size c l = None.
Proof.
  revert p c. induction l as [|[b n] l IH]; intros p c H Hc; [done|]. cbn [chain find] in *.
  destruct H as (H1 & _ & _ & _ & _ & H). destruct (chain_total _ _ _ _ H) as (? & ? & _).
  destruct (Z.leb_spec (12 + size) n); [lia|]. rewrite andb_false_r. eapply IH; [done|lia].
Qed.

(** The scan finds the first block that fits. *)
Lemma malloc_loop_run fuel s size l1 l2 :
  chain (hm s) 0 0 (l1 ++ l2) → 12 ≤ size ≤ MEM_SIZE_ALIGNED → (length l2 < fuel)%nat →
  malloc_loop ram_heap fuel size (total l1) s =
  match find size (total l1) l2 with
  | Some c => take_block ram_heap size c s
  | None => (sem_signal ;;; ret 0) s
  end.
Proof.
  revert s l1 l2. induction fuel as [|fuel IH]; intros s l1 l2 H Hsz Hf; [lia|]. cbn [malloc_loop].
  rewrite u32_small by (consts; lia). destruct (Z.ltb_spec (total l1) (MEM_SIZE_ALIGNED - size)) as [Hc|Hc].
  2:{ apply chain_app in H as [_ H]. rewrite Z.add_0_l in H. by rewrite (find_none _ _ _ _ _ H) by lia. }
  destruct l2 as [|[b n] l2].
  { apply chain_app in H as [_ [H _]]. lia. }
  destruct (chain_at _ _ _ _ _ H) as (Hs & H0 & Hc4 & Hn & Hn4 & Hmax & Hnext & Hprev & Hu & Hch).
  unfold mem_used, mem_next. do 2 step_pure. rewrite Hu, Hnext. consts. rewrite u64_small by (unfold is_u64; lia).
  replace (Z.b2z b =? 0) with (negb b) by (by destruct b). cbn [find].
  replace (size <=? total l1 + n - (total l1 + 12)) with (12 + size <=? n) by (zcases; lia).
  destruct (negb b && (12 + size <=? n)); [done|].
  replace (total l1 + n) with (total (l1 ++ [(b, n)])) by (rewrite total_app; cbn; lia).
  apply IH; [by rewrite <-app_assoc|done|simpl in Hf; lia].
Qed.

(** The size of the block for a request: rounded up to a multiple of 4, at least 12. *)
Definition need (size : Z) : Z := Z.max 12 ((size + 3) / 4 * 4).

Lemma need_facts size : 0 ≤ size < 2 ^ 32 - 3 →
  (let r := LWIP_MEM_ALIGN_SIZE size in if r <? MIN_SIZE_ALIGNED then MIN_SIZE_ALIGNED else r) = need size ∧
  12 ≤ need size ∧ need size mod 4 = 0 ∧ size ≤ need size.
Proof.
  intros H. unfold LWIP_MEM_ALIGN_SIZE, need. consts. cbv zeta. change (4 - 1) with 3. rewrite (u32_small (size + 4 - 1)) by lia.
  unfold u32. rewrite align_mask by lia. replace (size + 4 - 1 - (size + 4 - 1) mod 4) with ((size + 3) / 4 * 4) by (Z.div_mod_to_equations; lia).
  split_and!; [zcases; lia|lia| |Z.div_mod_to_equations; lia].
  destruct (Z.max_spec 12 ((size + 3) / 4 * 4)) as [[_ ->]|[_ ->]]; [by rewrite Z_mod_mult|done].
Qed.

Lemma mem_malloc_run s l size : heap_ok s l → 0 < size < 2 ^ 32 - 3 →
  match find (need size) 0 l with
  | None => mem_malloc ram_heap size s = Ret 0 s
  | Some c => ∃ s', mem_malloc ram_heap size s = Ret (ram + c + 12) s' ∧
      heap_ok s' (fit (need size) l) ∧ respects (fit (need size) l) s s'
  end.
Proof.
  intros Hok Hsz. pose proof Hok as [Hb H Ha Hl Hsem]. destruct (need_facts size) as (En & Hn1 & Hn4 & _); [lia|].
  destruct (chain_total _ _ _ _ H) as (Ht & Hlen & _).
  unfold mem_malloc. destruct (Z.eqb_spec size 0); [lia|]. cbv zeta in En |- *. rewrite En.
  destruct (Z.ltb_spec MEM_SIZE_ALIGNED (need size)) as [Hbig|Hbig].
  { rewrite (find_none _ _ _ _ _ H) by lia. done. }
  unfold sem_wait. rewrite bind_assoc. step_pure. rewrite Hsem. change (0 <? 1) with true. cbv iota. do 2 step_pure.
  cbn [lfree set_sem]. rewrite Hl. destruct (lowest_split 0 l) as (l1 & l2 & -> & Elow & Hall & _). rewrite Elow.
  destruct (proj1 (chain_app _ _ _ _ _) H) as [Hs H2]. destruct (seg_total _ _ _ _ Hs) as [? _].
  destruct (chain_total _ _ _ _ H2) as (? & ? & _). consts.
  replace (ram + (0 + total l1) - ram) with (total l1) by lia. rewrite u32_small by lia.
  rewrite (malloc_loop_run _ _ _ l1 l2); [|done|consts; lia|unfold BLOCKS; lia]. rewrite find_app by done. rewrite Z.add_0_l.
  destruct (find (need size) (total l1) l2) as [c|] eqn:Ef.
  2:{ unfold sem_signal. rewrite bind_assoc. do 2 step_pure. destruct s. cbn in *. by subst mem_sem0. }
  rewrite <-(Z.add_0_l (total l1)), <-find_app in Ef by done. destruct (fit_split _ _ _ _ Ef) as (k1 & n' & k2 & Ek & -> & Hn & ->).
  rewrite Ek in *. rewrite Z.add_0_l. apply (take_block_run (set_sem (1 - 1) s)); try done.
Qed.

(** ** Shrinking *)

Definition shrink (k n : Z) (l2 : list block) : list block :=
  match l2 with
  | (false, x) :: r => (true, 12 + k) :: (false, n + x - 12 - k) :: r
  | _ => if k + 36 <=? n then (true, 12 + k) :: (false, n - 12 - k) :: l2 else (true, n) :: l2
  end.

(** A block in use cut at [c2], its rest and what is free behind it one free block. *)
Lemma cut_used s l1 n l2 k nxt r q :
  heap_ok (set_sem 1 s) (l1 ++ (true, n) :: l2) → 12 ≤ k → k mod 4 = 0 → 12 + k ≤ n → total l1 + k + 36 ≤ nxt →
  nxt mod 4 = 0 → chain (hm s) q nxt r →
  let c := total l1 in let m := cut_mem (hm s) false c (c + 12 + k) nxt in
  let l' := l1 ++ (true, 12 + k) :: (false, nxt - (c + 12 + k)) :: r in
  bytes_ok m ∧ chain m 0 0 l' ∧ respects l' s (set_hm m s) ∧
  lowest 0 l' = if forallb fst l1 then c + 12 + k else lowest 0 l1.
Proof.
  intros [Hb H _ _ _] Hk Hk4 Hkn Hnxt Hnxt4 Hr c m l'. cbn [hm set_sem] in Hb, H.
  destruct (chain_at _ _ _ _ _ H) as (Hs & H0 & Hc4 & H24 & Hn4 & Hmax & Hnext & Hprev & Hu & Hch). fold c in H0, Hc4, Hmax, Hnext, Hprev, Hu, Hch, Hnxt.
  destruct (chain_total _ _ _ _ Hr) as (Ht & Hlen & _). split_and!.
  - subst m. unfold cut_mem. repeat case_match; repeat (apply bytes_ok_st32 || apply bytes_ok_wrb); done.
  - apply chain_app. split.
    + apply (seg_frame (hm s)); [|done]. intros a Ha. fold c in Ha. apply cut_mem_same; lia.
    + rewrite Z.add_0_l. fold c. pose proof (cut_mem_chain (hm s) false true (lastp 0 0 l1) c (c + 12 + k) nxt r q H0) as G.
      replace (c + 12 + k - c) with (12 + k) in G by lia. apply G; try done; try lia; Z.div_mod_to_equations; lia.
  - intros a Ha. cbn [hm set_hm]. subst l'. rewrite owned_app in Ha. cbn [owned] in Ha. rewrite Z.add_0_l in Ha. fold c in Ha.
    replace (c + (12 + k) + (nxt - (c + 12 + k))) with nxt in Ha by lia. unfold Lwmem.ram_end in Ha. consts.
    assert (a < ram + c ∨ ram + c + 12 ≤ a < ram + (c + 12 + k) ∨ ram + nxt + 12 ≤ a) as Hw.
    { destruct Ha as [[Ha|[[_ Ha]|[[? _]|Ha]]]|Ha]; [|lia|done| |lia].
      - pose proof (owned_seg _ _ _ _ _ Hs Ha) as Hx. fold c in Hx. lia.
      - pose proof (owned_chain _ _ _ _ _ Hr Ha). lia. }
    apply cut_mem_same; lia.
  - subst l'. rewrite lowest_app, Z.add_0_l. cbn [lowest]. fold c. by rewrite Z.add_assoc.
Qed.

(** The stores both branches of [mem_realloc] make. *)
Lemma cut_stores s m0 c c2 nxt : 0 ≤ c → c + 24 ≤ c2 → c2 + 24 ≤ nxt < 2 ^ 32 →
  (set_next (ram + c2) nxt ;;;
   set_prev (ram + c2) c ;;;
   set_next (ram + c) c2 ;;;
   n2 <- mem_next (ram + c2) ;;
   if negb (n2 =? MEM_SIZE_ALIGNED) then n2 <- mem_next (ram + c2) ;; set_prev (ram + n2) c2 else ret tt)
    (set_hm (wrb m0 (ram + c2 + 8) 0) s) = Ret tt (set_hm (cut_mem m0 false c c2 nxt) s).
Proof.
  intros. unfold set_next, set_prev, mem_next, cut_mem. do 4 step_pure. cbn [hm set_hm].
  rewrite !ld32_st32_ne, ld32_st32_eq, u32_small by lia. consts.
  destruct (Z.eqb_spec nxt 2228224); cbn [negb]; [done|]. step_pure. cbn [hm set_hm].
  by rewrite !ld32_st32_ne, ld32_st32_eq, u32_small by lia.
Qed.

Lemma move_next_run s l1 n x r k :
  heap_ok (set_sem 1 s) (l1 ++ (true, n) :: (false, x) :: r) → 12 ≤ k → k mod 4 = 0 → 12 + k < n →
  let c := total l1 in let l' := l1 ++ shrink k n ((false, x) :: r) in
  ∃ s', move_next ram_heap (ram + c) c (c + 12 + k) (ram + (c + n)) s = Ret tt s' ∧
    mem_sem s' = mem_sem s ∧ heap_ok (set_sem 1 s') l' ∧ respects l' s s'.
Proof.
  intros Hok Hk Hk4 Hkn c l'. pose proof Hok as [Hb H Ha Hl _]. cbn [hm lfree set_sem] in Hb, H, Hl.
  destruct (chain_at _ _ _ _ _ H) as (Hs & H0 & Hc4 & H24 & Hn4 & Hmax & Hnext & Hprev & Hu & Hch).
  fold c in H0, Hc4, Hmax, Hnext, Hprev, Hu, Hch. cbn [chain] in Hch. destruct Hch as (Hx & Hx4 & Hnn & _ & _ & Hch).
  destruct (chain_total _ _ _ _ Hch) as (Ht & Htl & _).
  destruct (cut_used s l1 n _ k (c + n + x) r (c + n) Hok Hk Hk4) as (Hb1 & Hc1 & HR1 & Hlow); [lia|fold c; lia|Z.div_mod_to_equations; lia|done|].
  fold c in Hb1, Hc1, HR1, Hlow. replace (c + n + x - (c + 12 + k)) with (n + x - 12 - k) in Hc1, HR1, Hlow by lia.
  change (l1 ++ (true, 12 + k) :: (false, n + x - 12 - k) :: r) with l' in Hc1, HR1, Hlow.
  set (m1 := cut_mem _ _ _ _ _) in *. unfold move_next. unfold mem_next at 1. step_pure. rewrite Hnn. step_pure. rewrite Hl.
  set (s1 := set_lfree (ram + lowest 0 l') s).
  match goal with |- context [bind ?k _ s] => assert (k s = Ret tt s1) as E end.
  { pose proof (lowest_lt _ _ _ _ Hs) as Hlt. fold c in Hlt. rewrite lowest_app, Z.add_0_l. fold c. cbn [lowest]. subst s1. rewrite Hlow.
    rewrite lowest_app, Z.add_0_l in Hl. fold c in Hl. cbn [lowest] in Hl.
    destruct (forallb fst l1); [by rewrite Z.eqb_refl, Z.add_assoc|]. specialize (Hlt eq_refl).
    destruct (Z.eqb_spec (ram + lowest 0 l1) (ram + (c + n))); [lia|]. rewrite <-Hl. by destruct s. }
  step_with E. cbv zeta. unfold set_used. step_pure. change (hm s1) with (hm s). consts. rewrite cut_stores by lia. fold m1.
  eexists. split; [done|]. split; [done|]. split; [|done]. split; [done|done| |done|done].
  apply no_adj_app in Ha as (Ha1 & Ha2 & Ha3). apply no_adj_app. cbn in Ha2 |- *. tauto.
Qed.

Lemma split_rest_run s l1 n l2 k :
  heap_ok (set_sem 1 s) (l1 ++ (true, n) :: l2) → hd_used l2 = true → 12 ≤ k → k mod 4 = 0 → k + 36 ≤ n →
  let c := total l1 in let l' := l1 ++ shrink k n l2 in
  ∃ s', split_rest ram_heap (ram + c) c (c + 12 + k) s = Ret tt s' ∧
    mem_sem s' = mem_sem s ∧ heap_ok (set_sem 1 s') l' ∧ respects l' s s'.
Proof.
  intros Hok Hh Hk Hk4 Hkn c l'. pose proof Hok as [Hb H Ha Hl _]. cbn [hm lfree set_sem] in Hb, H, Hl.
  destruct (chain_at _ _ _ _ _ H) as (Hs & H0 & Hc4 & H24 & Hn4 & Hmax & Hnext & Hprev & Hu & Hch).
  fold c in H0, Hc4, Hmax, Hnext, Hprev, Hu, Hch. destruct (chain_seg _ _ _ _ Hch) as [Hs2 _].
  destruct (cut_used s l1 n _ k (c + n) l2 c Hok Hk Hk4) as (Hb1 & Hc1 & HR1 & Hlow); [lia|fold c; lia|Z.div_mod_to_equations; lia|done|].
  fold c in Hb1, Hc1, HR1, Hlow. replace (c + n - (c + 12 + k)) with (n - 12 - k) in Hc1, HR1, Hlow by lia.
  assert (shrink k n l2 = (true, 12 + k) :: (false, n - 12 - k) :: l2) as El.
  { unfold shrink. destruct (Z.leb_spec (k + 36) n); [|lia]. by destruct l2 as [|[[] ?] ?]. }
  rewrite <-El in Hc1, HR1, Hlow. fold l' in Hc1, HR1, Hlow. set (m1 := cut_mem _ _ _ _ _) in *. unfold split_rest. cbv zeta. step_pure. rewrite Hl.
  set (s1 := set_lfree (ram + lowest 0 l') s).
  match goal with |- context [bind ?k _ s] => assert (k s = Ret tt s1) as E end.
  { pose proof (lowest_lt _ _ _ _ Hs) as Hlt. fold c in Hlt. pose proof (lowest_range _ _ _ _ Hs2). subst s1. rewrite Hlow.
    rewrite lowest_app, Z.add_0_l in Hl |- *. fold c in Hl |- *. cbn [lowest] in Hl |- *. destruct (forallb fst l1).
    - destruct (Z.ltb_spec (ram + (c + 12 + k)) (ram + lowest (c + n) l2)); [done|lia].
    - specialize (Hlt eq_refl). destruct (Z.ltb_spec (ram + (c + 12 + k)) (ram + lowest 0 l1)); [lia|]. rewrite <-Hl. by destruct s. }
  step_with E. unfold set_used. step_pure. change (hm s1) with (hm s). unfold mem_next at 1. step_pure. cbn [hm set_hm].
  rewrite ld32_wrb_ne, Hnext by lia. consts. rewrite cut_stores by lia. fold m1.
  eexists. split; [done|]. split; [done|]. split; [|done]. split; [done|done| |done|done].
  apply no_adj_app in Ha as (Ha1 & Ha2 & Ha3). apply no_adj_app. rewrite El. cbn in Ha2 |- *. rewrite Hh, orb_true_r. tauto.
Qed.

Definition realloc_blocks (k n : Z) (l2 : list block) : list block :=
  if k =? n - 12 then (true, n) :: l2 else shrink k n l2.

Lemma mem_realloc_run s l1 n l2 size :
  heap_ok s (l1 ++ (true, n) :: l2) → 0 ≤ size < 2 ^ 32 - 3 → need size ≤ n - 12 →
  let p := ram + total l1 + 12 in let l' := l1 ++ realloc_blocks (need size) n l2 in
  ∃ s', mem_realloc ram_heap p size s = Ret p s' ∧ heap_ok s' l' ∧ respects l' s s'.
Proof.
  intros Hok Hsz Hnd p l'. pose proof Hok as [Hb H Ha Hl Hsem]. pose proof ram_facts as [Hram _].
  destruct (need_facts size Hsz) as (En & Hk & Hk4 & _).
  destruct (chain_at _ _ _ _ _ H) as (Hs & H0 & Hc4 & H24 & Hn4 & Hmax & Hnext & Hprev & Hu & Hch).
  unfold mem_realloc. cbv zeta in En |- *. rewrite En. subst p l'. set (c := total l1) in *. set (k := need size) in *. unfold Lwmem.ram_end. consts.
  destruct (Z.ltb_spec 2228224 k); [lia|].
  destruct (Z.leb_spec ram (ram + c + 12)); [|lia]. destruct (Z.ltb_spec (ram + c + 12) (ram + 2228224)); [|lia]. cbn [andb]. step_assert.
  destruct (Z.ltb_spec (ram + c + 12) ram); [lia|]. destruct (Z.leb_spec (ram + 2228224) (ram + c + 12)); [lia|]. cbn [orb].
  replace (ram + c + 12 - 12) with (ram + c) by lia. replace (ram + c - ram) with c by lia. rewrite (u32_small c) by lia.
  unfold mem_next. step_pure. rewrite Hnext. replace (c + n - c - 12) with (n - 12) by lia. rewrite (u32_small (n - 12)), (u32_small (c + 12 + k)) by lia.
  destruct (Z.leb_spec k (n - 12)); [|lia]. step_assert. destruct (Z.ltb_spec (n - 12) k); [lia|]. unfold realloc_blocks.
  destruct (Z.eqb_spec k (n - 12)) as [E|E]; [exists s; by split_and!|].
  unfold sem_wait. rewrite bind_assoc. step_pure. rewrite Hsem. change (0 <? 1) with true. cbv iota. step_pure.
  unfold mem_used. step_pure. cbn [hm set_sem]. rewrite (next_used _ _ _ _ Hch). set (s0 := set_sem (1 - 1) s).
  assert (heap_ok (set_sem 1 s0) (l1 ++ (true, n) :: l2)) as Hok0 by by split.
  destruct (hd_used l2) eqn:Eh; cbn [Z.b2z Z.eqb].
  - destruct (Z.leb_spec (k + 12 + 12) (n - 12)).
    + destruct (split_rest_run s0 l1 n l2 k Hok0 Eh Hk Hk4) as (s' & E' & Hs' & Hok' & HR); [lia|]. fold c in E'. step_with E'.
      unfold sem_signal. rewrite bind_assoc. do 2 step_pure. rewrite Hs'. eexists. by split_and!.
    + step_pure. unfold sem_signal. rewrite bind_assoc. do 2 step_pure. eexists. split; [done|].
      replace (shrink k n l2) with ((true, n) :: l2); [by split|].
      unfold shrink. destruct (Z.leb_spec (k + 36) n); [lia|]. by destruct l2 as [|[[] ?] ?].
  - destruct l2 as [|[[] x] r]; [done..|].
    destruct (move_next_run s0 l1 n x r k Hok0 Hk Hk4) as (s' & E' & Hs' & Hok' & HR); [lia|]. fold c in E'. step_with E'.
    unfold sem_signal. rewrite bind_assoc. do 2 step_pure. rewrite Hs'. eexists. by split_and!.
Qed.

Lemma mem_init_run s : bytes_ok (hm s) → ∃ s', mem_init ram_heap s = Ret tt s' ∧ heap_ok s' [(false, MEM_SIZE_ALIGNED)] ∧
  respects [(false, MEM_SIZE_ALIGNED)] s s'.
Proof.
  intros Hb. unfold mem_init. change (Z.land SIZEOF_STRUCT_MEM (MEM_ALIGNMENT - 1) =? 0) with true. step_assert.
  unfold set_next, set_prev, set_used, Lwmem.ram_end. do 7 step_pure. eexists. split; [done|]. consts. split.
  - split; cbn [hm lfree mem_sem set_hm set_lfree set_sem]; [|cbn [chain]; rewrite !Z.add_0_l, ?Z.add_0_r|done|cbn; lia|done].
    + repeat (apply bytes_ok_st32 || apply bytes_ok_wrb). done.
    + consts. split_and!; try done; msimp; done.
  - intros a [[[? _]|[]]|Ha]; [done|]. unfold Lwmem.ram_end in Ha. consts. cbn [hm set_hm set_lfree set_sem]. by msimp.
Qed.

(** ** The heap as a map of live chunks *)

Fixpoint used_blocks (c : Z) (l : list block) : list (Z * Z) :=
  match l with [] => [] | (b, n) :: l' => (if b then [(c, n)] else []) ++ used_blocks (c + n) l' end.

Lemma used_app c l1 l2 : used_blocks c (l1 ++ l2) = used_blocks c l1 ++ used_blocks (c + total l1) l2.
Proof.
  revert c. induction l1 as [|[b n] l1 IH]; intros c; cbn [app used_blocks total]; [by rewrite Z.add_0_r|].
  by rewrite IH, <-app_assoc, Z.add_assoc.
Qed.
Lemma used_coal c l : used_blocks c (coal l) = used_blocks c l.
Proof.
  revert c. induction l as [|[b n] l IH]; intros c; [done|]. cbn [coal used_blocks]. rewrite <-IH.
  destruct (coal l) as [|[[] k] r]; [done..|]. destruct b; cbn [used_blocks app]; [done|]. by rewrite Z.add_assoc.
Qed.
Lemma used_range m p c l c' n' : seg m p c l → (c', n') ∈ used_blocks c l →
  c ≤ c' ∧ c' + n' ≤ c + total l ∧ 24 ≤ n' ∧ n' mod 4 = 0.
Proof.
  revert p c. induction l as [|[b n] l IH]; intros p c H Hin; cbn [seg used_blocks total] in *; [by apply not_elem_of_nil in Hin|].
  destruct H as (? & ? & _ & _ & _ & H). destruct (seg_total _ _ _ _ H) as [? _].
  apply elem_of_app in Hin as [Hin|Hin].
  - destruct b; [|by apply not_elem_of_nil in Hin]. apply list_elem_of_singleton in Hin. simplify_eq. lia.
  - specialize (IH _ _ H Hin). lia.
Qed.
Lemma used_owned c l c' n' x : (c', n') ∈ used_blocks c l → c' + 12 ≤ x < c' + n' → owned c l (ram + x).
Proof.
  revert c. induction l as [|[b n] l IH]; intros c Hin Hx; cbn [used_blocks owned] in *; [by apply not_elem_of_nil in Hin|].
  apply elem_of_app in Hin as [Hin|Hin]; [|right; by apply IH].
  destruct b; [|by apply not_elem_of_nil in Hin]. apply list_elem_of_singleton in Hin. simplify_eq. left. split; [done|lia].
Qed.

Lemma used_apart m p c l c1 n1 c2 n2 : seg m p c l → (c1, n1) ∈ used_blocks c l → (c2, n2) ∈ used_blocks c l → c2 ≠ c1 →
  c2 + n2 ≤ c1 ∨ c1 + n1 ≤ c2.
Proof.
  revert p c. induction l as [|[b n] l IH]; intros p c H H1 H2 Hne; cbn [seg used_blocks] in *; [by apply not_elem_of_nil in H1|].
  destruct H as (? & _ & _ & _ & _ & H). apply elem_of_app in H1 as [H1|H1], H2 as [H2|H2]; [| | |by eapply IH];
    destruct b; try (by apply not_elem_of_nil in H1); try (by apply not_elem_of_nil in H2);
    try (apply list_elem_of_singleton in H1; simplify_eq); try (apply list_elem_of_singleton in H2; simplify_eq); try done;
    [pose proof (used_range _ _ _ _ _ _ H H2)|pose proof (used_range _ _ _ _ _ _ H H1)]; lia.
Qed.

(** The live chunks, by the pointer their user has. *)
Notation chunks := (gmap Z (list Z)).
Implicit Types ch : chunks.

Definition data_at (m : bytes) (p : Z) (d : list Z) : Prop := ∀ (i : nat) b, d !! i = Some b → rdb m (p + Z.of_nat i) = b.

Record holds (s : lheap) (l : list block) (ch : chunks) : Prop := {
  hd_ok : heap_ok s l;
  hd_live c n : (c, n) ∈ used_blocks 0 l →
    ∃ d, ch !! (ram + c + 12) = Some d ∧ Z.of_nat (length d) = n - 12 ∧ data_at (hm s) (ram + c + 12) d;
  hd_only p : is_Some (ch !! p) → ∃ c n, (c, n) ∈ used_blocks 0 l ∧ p = ram + c + 12
}.

Lemma used_split c0 l c n : (c, n) ∈ used_blocks c0 l → ∃ l1 l2, l = l1 ++ (true, n) :: l2 ∧ c = c0 + total l1.
Proof.
  revert c0. induction l as [|[b k] l IH]; intros c0 Hin; cbn [used_blocks] in Hin; [by apply not_elem_of_nil in Hin|].
  apply elem_of_app in Hin as [Hin|Hin].
  - destruct b; [|by apply not_elem_of_nil in Hin]. apply list_elem_of_singleton in Hin. simplify_eq.
    exists [], l. cbn. split; [done|lia].
  - destruct (IH _ Hin) as (l1 & l2 & -> & ->). exists ((b, k) :: l1), l2. cbn. split; [done|lia].
Qed.

(** The block of a live pointer. *)
Lemma live_block s l ch p d : holds s l ch → ch !! p = Some d →
  ∃ l1 n l2, l = l1 ++ (true, n) :: l2 ∧ p = ram + total l1 + 12 ∧ Z.of_nat (length d) = n - 12 ∧ data_at (hm s) p d ∧
    (∀ c' n', (c', n') ∈ used_blocks 0 l1 ++ used_blocks (total l1 + n) l2 → (c' + n' ≤ total l1 ∨ total l1 + n ≤ c') ∧ 24 ≤ n').
Proof.
  intros [Hok Hlive Honly] Hp. destruct (Honly p) as (c & n & Hin & ->); [by rewrite Hp|].
  destruct (Hlive c n Hin) as (d' & Hd' & Hlen & Hdat). rewrite Hp in Hd'. simplify_eq. pose proof (ho_chain _ _ Hok) as H.
  destruct (used_split _ _ _ _ Hin) as (l1 & l2 & -> & ->). rewrite Z.add_0_l in *. exists l1, n, l2. split_and!; try done.
  destruct (chain_at _ _ _ _ _ H) as (Hs & H0 & Hc4 & H24 & Hn4 & Hmax & Hnext & Hprev & Hu & Hch). destruct (chain_seg _ _ _ _ Hch) as [Hs2 _].
  intros c' n' [Hc|Hc]%elem_of_app; [pose proof (used_range _ _ _ _ _ _ Hs Hc)|pose proof (used_range _ _ _ _ _ _ Hs2 Hc)]; lia.
Qed.

(** The chunks that stay live keep their data. *)
Lemma data_kept s s' l' c n d : respects l' s s' → (c, n) ∈ used_blocks 0 l' → Z.of_nat (length d) ≤ n - 12 →
  data_at (hm s) (ram + c + 12) d → data_at (hm s') (ram + c + 12) d.
Proof.
  intros HR Hin Hlen Hd i b Hi. rewrite <-(Hd i b Hi). apply HR. left. pose proof (lookup_lt_Some _ _ _ Hi).
  replace (ram + c + 12 + Z.of_nat i) with (ram + (c + 12 + Z.of_nat i)) by lia. eapply used_owned; [done|lia].
Qed.

(** The chunks of [l'] are those of [l] but for the one at [c], which becomes [o]. *)
Lemma holds_change s s' l l' ch c o :
  holds s l ch → heap_ok s' l' → respects l' s s' →
  (∀ c' n', c' ≠ c → (c', n') ∈ used_blocks 0 l' ↔ (c', n') ∈ used_blocks 0 l) →
  match o with
  | None => ∀ n, (c, n) ∉ used_blocks 0 l'
  | Some d => (∃ n, (c, n) ∈ used_blocks 0 l') ∧ ∀ n, (c, n) ∈ used_blocks 0 l' →
      Z.of_nat (length d) = n - 12 ∧ data_at (hm s') (ram + c + 12) d
  end →
  holds s' l' (partial_alter (λ _, o) (ram + c + 12) ch).
Proof.
  intros [Hok Hlive Honly] Hok' HR Hsame Ho. split; [done| |].
  - intros c' n' Hin. destruct (decide (c' = c)) as [->|Hc].
    + rewrite lookup_partial_alter_eq. destruct o as [d|]; [|by apply Ho in Hin]. exists d. split; [done|]. by apply Ho.
    + rewrite lookup_partial_alter_ne by lia. destruct (Hlive c' n') as (d & H1 & H2 & H3); [by apply Hsame|].
      exists d. split_and!; [done|done|]. eapply data_kept; [done|done|lia|done].
  - intros p Hp. destruct (decide (p = ram + c + 12)) as [->|Hne].
    + rewrite lookup_partial_alter_eq in Hp. destruct o as [d|]; [|by destruct Hp]. destruct Ho as [[n Hn] _]. eauto.
    + rewrite lookup_partial_alter_ne in Hp by done. destruct (Honly p Hp) as (c' & n' & Hin & ->).
      exists c', n'. split; [|done]. apply Hsame; [|done]. intros ->. done.
Qed.

Definition chunk_of (m : bytes) (p n : Z) : list Z := (λ i, rdb m (p + Z.of_nat i)) <$> seq 0 (Z.to_nat n).

Lemma chunk_of_at m p n : 0 ≤ n → Z.of_nat (length (chunk_of m p n)) = n ∧ data_at m p (chunk_of m p n).
Proof.
  intros Hn. unfold chunk_of. rewrite length_fmap, length_seq. split; [lia|]. intros i b Hi.
  rewrite list_lookup_fmap in Hi. apply fmap_Some in Hi as (j & Hj & ->). apply lookup_seq in Hj as [-> _]. done.
Qed.

(** A block of [l1 ++ _ ++ l2] lies in [l1] or in [l2], or is the one between. *)
Lemma used_between m l1 l2 n : seg m 0 0 l1 → chain m (total l1) (total l1 + n) l2 → 0 < n →
  ∀ n', (total l1, n') ∉ used_blocks 0 l1 ++ used_blocks (total l1 + n) l2.
Proof.
  intros Hs Hc Hn n' [Hin|Hin]%elem_of_app.
  - pose proof (used_range _ _ _ _ _ _ Hs Hin). lia.
  - destruct (chain_seg _ _ _ _ Hc) as [Hs2 _]. pose proof (used_range _ _ _ _ _ _ Hs2 Hin). lia.
Qed.

(** The block at [total l1] is replaced: [r] holds the blocks that take its place. *)
Lemma holds_replace s s' l1 b n l2 r ch o :
  holds s (l1 ++ (b, n) :: l2) ch → heap_ok s' r → respects r s s' →
  used_blocks 0 r = used_blocks 0 l1 ++ match o with Some (n', _) => [(total l1, n')] | None => [] end ++ used_blocks (total l1 + n) l2 →
  match o with Some (n', d) => Z.of_nat (length d) = n' - 12 ∧ data_at (hm s') (ram + total l1 + 12) d | None => True end →
  holds s' r (partial_alter (λ _, snd <$> o) (ram + total l1 + 12) ch).
Proof.
  intros Hh Hok HR Hu Ho. pose proof (ho_chain _ _ (hd_ok _ _ _ Hh)) as H.
  destruct (chain_at _ _ _ _ _ H) as (Hs & _ & _ & H24 & _ & _ & _ & _ & _ & Hch).
  pose proof (used_between _ _ _ n Hs Hch ltac:(lia)) as Hb.
  apply (holds_change s s' (l1 ++ (b, n) :: l2) r); [done..| |].
  - intros c' n' Hne. rewrite Hu, used_app. cbn [used_blocks]. rewrite Z.add_0_l, !elem_of_app.
    destruct o as [[k d]|], b; rewrite ?list_elem_of_singleton, ?elem_of_nil; naive_solver.
  - destruct o as [[k d]|]; cbn.
    + rewrite Hu. split; [exists k; set_solver|]. intros k' Hk'. assert (k' = k) as ->; [|done].
      specialize (Hb k'). rewrite !elem_of_app, list_elem_of_singleton in Hk'. rewrite elem_of_app in Hb. naive_solver.
    + intros k. rewrite Hu. apply Hb.
Qed.

Lemma used_new c size n : used_blocks c (new_blocks size n) = [(c, if size + 36 <=? n then 12 + size else n)] ∧
  total (new_blocks size n) = n.
Proof. unfold new_blocks. destruct (size + 36 <=? n); cbn; (split; [done|lia]). Qed.

Lemma find_none_all size c l : find size c l = None → ∀ k, (false, k) ∈ l → k < 12 + size.
Proof.
  revert c. induction l as [|[b n] l IH]; intros c Hf k Hk; [by apply not_elem_of_nil in Hk|].
  cbn [find] in Hf. destruct (negb b && (12 + size <=? n)) eqn:E; [done|]. apply elem_of_cons in Hk as [Hk|Hk]; [|by eapply IH].
  simplify_eq. cbn in E. apply Z.leb_gt in E. lia.
Qed.

(** A chunk apart from all live ones. *)
Definition apart (ch : chunks) (p n : Z) : Prop :=
  ∀ q d, ch !! q = Some d → q + Z.of_nat (length d) ≤ p ∨ p + n ≤ q.

Definition fresh (ch : chunks) (p size : Z) (d : list Z) : Prop :=
  p ≠ 0 ∧ p mod 4 = 0 ∧ ram ≤ p ∧ p + Z.of_nat (length d) ≤ ram_end ∧ size ≤ Z.of_nat (length d) ∧
  apart ch p (Z.of_nat (length d)).

Lemma malloc_holds s l ch size : holds s l ch → 0 < size < 2 ^ 32 - 3 →
  (mem_malloc ram_heap size s = Ret 0 s ∧ ∀ k, (false, k) ∈ l → k < 12 + need size) ∨
  ∃ p d s' l', mem_malloc ram_heap size s = Ret p s' ∧ holds s' l' (<[p := d]> ch) ∧ fresh ch p size d ∧ respects l' s s'.
Proof.
  intros Hh Hsz. pose proof (hd_ok _ _ _ Hh) as Hok. pose proof ram_facts as [Hram Hram4].
  destruct (need_facts size) as (_ & Hn12 & Hn4 & Hns); [lia|]. pose proof (mem_malloc_run s l size Hok Hsz) as HM.
  destruct (find (need size) 0 l) as [c|] eqn:Ef; [right|left; split; [done|by eapply find_none_all]].
  destruct HM as (s' & E & Hok' & HR). destruct (fit_split _ _ _ _ Ef) as (l1 & n & l2 & -> & -> & Hn & Efit). fold (new_blocks (need size) n) in Efit.
  rewrite Efit in Hok', HR. rewrite Z.add_0_l in E. destruct (used_new (total l1) (need size) n) as [Eu Et].
  set (k := if need size + 36 <=? n then 12 + need size else n) in *.
  assert (12 + need size ≤ k ≤ n) as Hk by (subst k; zcases; lia).
  destruct (chain_at _ _ _ _ _ (ho_chain _ _ Hok)) as (Hs & H0 & Hc4 & H24 & Hnm & Hmax & _ & _ & _ & Hch).
  set (p := ram + total l1 + 12) in *. destruct (chunk_of_at (hm s') p (k - 12)) as [Hlen Hdat]; [lia|].
  exists p, (chunk_of (hm s') p (k - 12)), s', (l1 ++ new_blocks (need size) n ++ l2). split_and!; [done| | |done].
  - apply (holds_replace s s' l1 false n l2 _ ch (Some (k, _))); try done.
    rewrite !used_app, Z.add_0_l, Eu, Et. done.
  - unfold fresh. rewrite Hlen. unfold Lwmem.ram_end. subst p. split_and!; try lia; [Z.div_mod_to_equations; lia|].
    intros q d Hq. destruct (hd_only _ _ _ Hh q) as (c' & n' & Hin & ->); [by rewrite Hq|].
    destruct (hd_live _ _ _ Hh _ _ Hin) as (d' & Hd' & Hl' & _). rewrite Hq in Hd'. simplify_eq. rewrite Hl'.
    rewrite used_app in Hin. cbn [used_blocks app] in Hin. rewrite Z.add_0_l in Hin. apply elem_of_app in Hin as [Hin|Hin].
    + pose proof (used_range _ _ _ _ _ _ Hs Hin). lia.
    + destruct (chain_seg _ _ _ _ Hch) as [Hs2 _]. pose proof (used_range _ _ _ _ _ _ Hs2 Hin). lia.
Qed.

Lemma free_holds s l ch p d : holds s l ch → ch !! p = Some d →
  ∃ s' l', mem_free ram_heap p s = Ret tt s' ∧ holds s' l' (delete p ch) ∧ respects l' s s'.
Proof.
  intros Hh Hp. destruct (live_block _ _ _ _ _ Hh Hp) as (l1 & n & l2 & -> & -> & _ & _ & _).
  destruct (mem_free_run s l1 n l2 (hd_ok _ _ _ Hh)) as (s' & E & Hok' & HR).
  eexists s', _. split_and!; [done| |done]. apply (holds_replace s s' l1 true n l2 _ ch None); try done.
  rewrite used_coal, used_app. cbn [used_blocks app]. by rewrite Z.add_0_l.
Qed.

Lemma used_realloc c k n l2 : 12 ≤ k → 12 + k ≤ n →
  ∃ n', used_blocks c (realloc_blocks k n l2) = (c, n') :: used_blocks (c + n) l2 ∧ 12 + k ≤ n' ≤ n.
Proof.
  intros Hk Hn. unfold realloc_blocks, shrink. destruct (Z.eqb_spec k (n - 12)).
  - exists n. split; [done|lia].
  - assert (∃ n', used_blocks c (if k + 36 <=? n then (true, 12 + k) :: (false, n - 12 - k) :: l2 else (true, n) :: l2) =
      (c, n') :: used_blocks (c + n) l2 ∧ 12 + k ≤ n' ≤ n) as Hsplit.
    { destruct (Z.leb_spec (k + 36) n); cbn [used_blocks app]; [|exists n; split; [done|lia]].
      replace (c + (12 + k) + (n - 12 - k)) with (c + n) by lia. exists (12 + k). split; [done|lia]. }
    destruct l2 as [|[[] x] r]; [done..|]. cbn [used_blocks app].
    replace (c + (12 + k) + (n + x - 12 - k)) with (c + n + x) by lia. exists (12 + k). split; [done|lia].
Qed.

Lemma realloc_holds s l ch p d size : holds s l ch → ch !! p = Some d → 0 ≤ size ≤ Z.of_nat (length d) →
  ∃ s' l' k, mem_realloc ram_heap p size s = Ret p s' ∧ size ≤ Z.of_nat k ∧ (k ≤ length d)%nat ∧
    holds s' l' (<[p := take k d]> ch) ∧ respects l' s s'.
Proof.
  intros Hh Hp Hsz. destruct (live_block _ _ _ _ _ Hh Hp) as (l1 & n & l2 & -> & -> & Hlen & Hdat & _).
  pose proof (hd_ok _ _ _ Hh) as Hok.
  destruct (chain_at _ _ _ _ _ (ho_chain _ _ Hok)) as (Hs & H0 & Hc4 & H24 & Hn4 & Hmax & _ & _ & _ & Hch). consts.
  destruct (need_facts size) as (_ & Hk & Hk4 & Hks); [lia|].
  assert (need size ≤ n - 12) as Hnd by (unfold need; Z.div_mod_to_equations; lia).
  destruct (mem_realloc_run s l1 n l2 size Hok) as (s' & E & Hok' & HR); [lia|done|].
  destruct (used_realloc (total l1) (need size) n l2) as (n' & Eu & Hn'); [lia|lia|].
  assert (used_blocks 0 (l1 ++ realloc_blocks (need size) n l2) = used_blocks 0 l1 ++ [(total l1, n')] ++ used_blocks (total l1 + n) l2) as Hu
    by (by rewrite used_app, Z.add_0_l, Eu).
  exists s', (l1 ++ realloc_blocks (need size) n l2), (Z.to_nat (n' - 12)). split_and!; [done|lia|lia| |done].
  assert (Z.of_nat (length (take (Z.to_nat (n' - 12)) d)) = n' - 12) as Hl by (rewrite length_take; lia).
  apply (holds_replace s s' l1 true n l2 _ ch (Some (n', take (Z.to_nat (n' - 12)) d))); try done. split; [done|].
  apply (data_kept s s' _ _ n' _ HR); [rewrite Hu; set_solver|lia|].
  intros i b Hi. apply lookup_take_Some in Hi as [Hi _]. by apply Hdat.
Qed.

(** Writes of a user to a chunk of theirs. *)
Lemma write_chain m p c l c' n' a v : chain m p c l → (c', n') ∈ used_blocks c l → ram + c' + 12 ≤ a < ram + c' + n' →
  chain (wrb m a v) p c l.
Proof.
  intros H Hin Ha. destruct (used_split _ _ _ _ Hin) as (l1 & l2 & -> & ->). rewrite chain_app in H |- *.
  destruct H as [Hs H]. cbn [chain] in *. destruct H as (H1 & H2 & H3 & H4 & H5 & H). split.
  { apply (seg_frame m); [|done]. intros x Hx. apply rdb_wrb_ne. lia. }
  split_and!; [done|done| | | |].
  - by rewrite ld32_wrb_ne by lia.
  - by rewrite ld32_wrb_ne by lia.
  - by rewrite rdb_wrb_ne by lia.
  - apply (chain_relink m _ (c + total l1)); [intros x Hx _; apply rdb_wrb_ne; lia| |done].
    intros Hl. rewrite ld32_wrb_ne by lia. destruct l2 as [|[] ?]; [done|]. cbn in H. tauto.
Qed.

Lemma write_holds s l ch p d (i : nat) v : holds s l ch → ch !! p = Some d → (i < length d)%nat → 0 ≤ v < 256 →
  let s' := set_hm (wrb (hm s) (p + Z.of_nat i) v) s in
  holds s' l (<[p := <[i := v]> d]> ch) ∧ ∀ a, ¬ (ram ≤ a < ram_end) → rdb (hm s') a = rdb (hm s) a.
Proof.
  intros Hh Hp Hi Hv s'. pose proof Hh as [Hok Hlive Honly]. destruct (Honly p) as (c & n & Hin & ->); [by rewrite Hp|].
  destruct (Hlive c n Hin) as (d' & Hd' & Hlen & Hdat). rewrite Hp in Hd'. simplify_eq. destruct Hok as [Hb H Ha Hl Hsem].
  destruct (chain_seg _ _ _ _ H) as [Hs Ht]. pose proof (used_range _ _ _ _ _ _ Hs Hin) as (? & ? & ? & _).
  split; [split|].
  - split; cbn [hm lfree mem_sem set_hm s']; [by apply bytes_ok_wrb| |done|done|done]. eapply write_chain; [done|done|lia].
  - intros c' n' Hin'. destruct (decide (c' = c)) as [->|Hne].
    + exists (<[i := v]> d'). rewrite lookup_insert_eq, length_insert. split_and!; [done| |].
      * destruct (Hlive c n' Hin') as (d2 & Hd2 & Hlen2 & _). rewrite Hp in Hd2. by simplify_eq.
      * intros j b Hj. cbn [hm set_hm s']. rewrite rdb_wrb. destruct (decide (j = i)) as [->|Hj'].
        -- rewrite list_lookup_insert_eq in Hj by done. simplify_eq. rewrite decide_True by done. by apply Z.mod_small.
        -- rewrite list_lookup_insert_ne in Hj by done. rewrite decide_False by lia. by apply Hdat.
    + destruct (Hlive c' n' Hin') as (d2 & Hd2 & Hlen2 & Hdat2). exists d2. rewrite lookup_insert_ne by lia. split_and!; [done|done|].
      intros j b Hj. rewrite <-(Hdat2 j b Hj). cbn [hm set_hm s']. apply rdb_wrb_ne.
      pose proof (lookup_lt_Some _ _ _ Hj). destruct (used_apart _ _ _ _ _ _ _ _ Hs Hin Hin'); lia.
  - intros q Hq. apply Honly. destruct (decide (q = ram + c + 12)) as [->|]; [by rewrite Hp|].
    by rewrite lookup_insert_ne in Hq.
  - intros a Ha'. unfold Lwmem.ram_end in Ha'. cbn [hm set_hm s']. apply rdb_wrb_ne. lia.
Qed.

(** [memset] with zeros from index [j] of a chunk. *)
Lemma memset_holds k : ∀ s l ch p d (j : nat), holds s l ch → ch !! p = Some d → (j + k ≤ length d)%nat →
  let s' := set_hm (memset_loop k (hm s) (p + Z.of_nat j) 0) s in
  ∃ d', holds s' l (<[p := d']> ch) ∧ length d' = length d ∧ (∀ a, ¬ (ram ≤ a < ram_end) → rdb (hm s') a = rdb (hm s) a) ∧
    ∀ i, d' !! i = if decide (j ≤ i < j + k)%nat then Some 0 else d !! i.
Proof.
  induction k as [|k IH]; intros s l ch p d j Hh Hp Hj; cbv zeta; cbn [memset_loop].
  { exists d. rewrite insert_id by done. split_and!; [by destruct s|done|done|]. intros i. by rewrite decide_False by lia. }
  destruct (write_holds _ _ _ _ _ j 0 Hh Hp) as [Hh1 Hf1]; [lia|lia|].
  edestruct (IH _ l _ p (<[j := 0]> d) (S j) Hh1) as (d' & Hh2 & Hlen & Hf2 & Hz); [apply lookup_insert_eq|rewrite length_insert; lia|].
  rewrite insert_insert_eq in Hh2. rewrite length_insert in Hlen.
  replace (p + Z.of_nat (S j)) with (p + Z.of_nat j + 1) in Hh2, Hf2 by lia.
  exists d'. split_and!; [exact Hh2|done|intros a Ha; rewrite <-Hf1 by done; by apply Hf2|].
  intros i. rewrite Hz. destruct (decide (i = j)) as [->|].
  - rewrite decide_False, decide_True, list_lookup_insert_eq by lia. done.
  - rewrite list_lookup_insert_ne by done. repeat case_decide; done || lia.
Qed.

(** What the users of the heap do. *)
Inductive lop :=
  | LMalloc (size : Z) | LCalloc (count size : Z) | LFree (p : Z) | LRealloc (p newsize : Z)
  | LWrite (p : Z) (i : nat) (b : Z) | LRead (p : Z) (i : nat).

Definition lstep (o : lop) : LM Z :=
  match o with
  | LMalloc size => mem_malloc ram_heap size
  | LCalloc count size => mem_calloc ram_heap count size
  | LFree p => mem_free ram_heap p ;;; ret 0
  | LRealloc p newsize => mem_realloc ram_heap p newsize
  | LWrite p i b => modify (λ s, set_hm (wrb (hm s) (p + Z.of_nat i) b) s) ;;; ret 0
  | LRead p i => gets (λ s, rdb (hm s) (p + Z.of_nat i))
  end.

(** A user frees, shrinks and touches only what they were given. *)
Definition llegal (ch : chunks) (o : lop) : Prop :=
  match o with
  | LMalloc size => 0 < size < 2 ^ 32 - 3
  | LCalloc count size => 0 < count * size < 2 ^ 32 - 3
  | LFree p => is_Some (ch !! p)
  | LRealloc p newsize => ∃ d, ch !! p = Some d ∧ 0 ≤ newsize ≤ Z.of_nat (length d)
  | LWrite p i b => 0 ≤ b < 256 ∧ ∃ d, ch !! p = Some d ∧ (i < length d)%nat
  | LRead p i => ∃ d, ch !! p = Some d ∧ (i < length d)%nat
  end.

(** What the heap promises. *)
Inductive cstep : chunks → lop → Z → chunks → Prop :=
  | c_malloc_null ch size : cstep ch (LMalloc size) 0 ch
  | c_malloc ch size p d : fresh ch p size d → cstep ch (LMalloc size) p (<[p := d]> ch)
  | c_calloc_null ch count size : cstep ch (LCalloc count size) 0 ch
  | c_calloc ch count size p d : fresh ch p (count * size) d → (∀ i : nat, Z.of_nat i < count * size → d !! i = Some 0) →
      cstep ch (LCalloc count size) p (<[p := d]> ch)
  | c_free ch p : cstep ch (LFree p) 0 (delete p ch)
  | c_realloc ch p newsize d k : ch !! p = Some d → newsize ≤ Z.of_nat k → (k ≤ length d)%nat →
      cstep ch (LRealloc p newsize) p (<[p := take k d]> ch)
  | c_write ch p i b d : ch !! p = Some d → cstep ch (LWrite p i b) 0 (<[p := <[i := b]> d]> ch)
  | c_read ch p i b d : ch !! p = Some d → d !! i = Some b → cstep ch (LRead p i) b ch.

Definition asks (o : lop) : option Z :=
  match o with LMalloc size => Some size | LCalloc count size => Some (count * size) | _ => None end.

Lemma calloc_holds s l ch count size : holds s l ch → 0 < count * size < 2 ^ 32 - 3 →
  (mem_calloc ram_heap count size s = Ret 0 s ∧ ∀ k, (false, k) ∈ l → k < 12 + need (count * size)) ∨
  ∃ p d s' l', mem_calloc ram_heap count size s = Ret p s' ∧ holds s' l' (<[p := d]> ch) ∧ fresh ch p (count * size) d ∧
    (∀ i : nat, Z.of_nat i < count * size → d !! i = Some 0) ∧
    ∀ a, ¬ (ram ≤ a < ram_end + 12) → rdb (hm s') a = rdb (hm s) a.
Proof.
  intros Hh Hsz. unfold mem_calloc. rewrite u32_small by lia.
  destruct (malloc_holds s l ch _ Hh Hsz) as [[E Hn]|(p & d & s1 & l' & E & Hh1 & (F1 & F2 & F3 & F4 & F5 & F6) & HR)].
  { left. step_with E. rewrite Z.eqb_refl. cbn [negb]. by step_pure. }
  right. step_with E. destruct (Z.eqb_spec p 0); [done|]. cbn [negb]. step_pure. unfold memset.
  unfold Lwmem.ram_end in F4. consts. rewrite i32_small by lia.
  destruct (memset_holds (Z.to_nat (count * size)) s1 l' _ p d 0%nat Hh1) as (d' & Hh2 & Hlen & Hf & Hz); [apply lookup_insert_eq|lia|].
  rewrite insert_insert_eq, Z.add_0_r in Hh2. rewrite Z.add_0_r in Hf. eexists p, d', _, l'. split_and!; [done|exact Hh2| | |].
  - unfold fresh. rewrite Hlen. unfold Lwmem.ram_end. consts. by split_and!.
  - intros i Hi. rewrite Hz, decide_True by lia. done.
  - intros a Ha. rewrite Hf by (unfold Lwmem.ram_end in *; lia). apply HR. by right.
Qed.

Lemma lstep_run s l ch o : holds s l ch → llegal ch o →
  ∃ r s' l' ch', lstep o s = Ret r s' ∧ holds s' l' ch' ∧ cstep ch o r ch' ∧
    (∀ a, ¬ (ram ≤ a < ram_end + 12) → rdb (hm s') a = rdb (hm s) a) ∧
    (r = 0 → ∀ n, asks o = Some n → ∀ k, (false, k) ∈ l → k < 12 + need n).
Proof.
  intros Hh Ho. destruct o as [size|count size|p|p newsize|p i b|p i]; cbn [llegal lstep asks] in *.
  - destruct (malloc_holds _ _ _ _ Hh Ho) as [[E Hn]|(p & d & s' & l' & E & Hh' & Hf & HR)].
    + exists 0, s, l, ch. split_and!; [done|done|constructor|done|]. by intros _ n [= <-].
    + exists p, s', l', (<[p := d]> ch). split_and!; [done|done|by constructor|intros a Ha; apply HR; by right|]. by destruct Hf.
  - destruct (calloc_holds _ _ _ _ _ Hh Ho) as [[E Hn]|(p & d & s' & l' & E & Hh' & Hf & Hz & HR)].
    + exists 0, s, l, ch. split_and!; [done|done|constructor|done|]. by intros _ n [= <-].
    + exists p, s', l', (<[p := d]> ch). split_and!; [done|done|by constructor|done|]. by destruct Hf.
  - destruct Ho as [d Hd]. destruct (free_holds _ _ _ _ _ Hh Hd) as (s' & l' & E & Hh' & HR).
    exists 0, s', l', (delete p ch). split_and!; [by step_with E|done|constructor|intros a Ha; apply HR; by right|done].
  - destruct Ho as (d & Hd & Hn). destruct (realloc_holds _ _ _ _ _ _ Hh Hd Hn) as (s' & l' & k & E & H1 & H2 & Hh' & HR).
    exists p, s', l', (<[p := take k d]> ch). split_and!; [done|done|by econstructor|intros a Ha; apply HR; by right|done].
  - destruct Ho as (Hb & d & Hd & Hi). destruct (write_holds _ _ _ _ _ _ _ Hh Hd Hi Hb) as [Hh' Hf].
    eexists 0, _, l, _. split_and!; [done|exact Hh'|by constructor| |done].
    intros a Ha. apply Hf. unfold Lwmem.ram_end in *. consts. lia.
  - destruct Ho as (d & Hd & Hi). destruct (lookup_lt_is_Some_2 _ _ Hi) as [b Hb].
    destruct (live_block _ _ _ _ _ Hh Hd) as (_ & _ & _ & _ & _ & _ & Hdat & _).
    exists b, s, l, ch. split_and!; [|done|by econstructor|done|done]. unfold gets. by rewrite (Hdat i b Hb).
Qed.

(** ** Users that know only what they asked for *)

(** The pointers a user holds, with the sizes asked for. *)
Notation ledger := (gmap Z Z).

Definition ulegal (led : ledger) (o : lop) : Prop :=
  match o with
  | LMalloc size => 0 < size < 2 ^ 32 - 3
  | LCalloc count size => 0 < count * size < 2 ^ 32 - 3
  | LFree p => is_Some (led !! p)
  | LRealloc p newsize => ∃ k, led !! p = Some k ∧ 0 ≤ newsize ≤ k
  | LWrite p i b => 0 ≤ b < 256 ∧ ∃ k, led !! p = Some k ∧ Z.of_nat i < k
  | LRead p i => ∃ k, led !! p = Some k ∧ Z.of_nat i < k
  end.

Definition record (led : ledger) (o : lop) (r : Z) : ledger :=
  match o with
  | LMalloc size => if r =? 0 then led else <[r := size]> led
  | LCalloc count size => if r =? 0 then led else <[r := count * size]> led
  | LFree p => delete p led
  | LRealloc p newsize => <[p := newsize]> led
  | _ => led
  end.

Inductive reached : ledger → lheap → Prop :=
  | reached_init s s' : bytes_ok (hm s) → mem_init ram_heap s = Ret tt s' → reached ∅ s'
  | reached_step led s o r s' : reached led s → ulegal led o → lstep o s = Ret r s' → reached (record led o r) s'.

Definition covers (led : ledger) (ch : chunks) : Prop :=
  (∀ p k, led !! p = Some k → ∃ d, ch !! p = Some d ∧ k ≤ Z.of_nat (length d)) ∧ (∀ p, is_Some (ch !! p) → is_Some (led !! p)).

Lemma ulegal_llegal led ch o : covers led ch → ulegal led o → llegal ch o.
Proof.
  intros [H _] Ho. destruct o; cbn in *; try done.
  - destruct Ho as [k Hk]. destruct (H _ _ Hk) as (d & -> & _). by eexists.
  - destruct Ho as (k & Hk & ?). destruct (H _ _ Hk) as (d & ? & ?). exists d. split; [done|lia].
  - destruct Ho as (? & k & Hk & ?). destruct (H _ _ Hk) as (d & ? & ?). split; [done|]. exists d. split; [done|lia].
  - destruct Ho as (k & Hk & ?). destruct (H _ _ Hk) as (d & ? & ?). exists d. split; [done|lia].
Qed.

Lemma covers_insert led ch p k d : covers led ch → k ≤ Z.of_nat (length d) → covers (<[p := k]> led) (<[p := d]> ch).
Proof.
  intros [H1 H2] Hk. split.
  - intros q k'. destruct (decide (q = p)) as [->|Hq]; [rewrite !lookup_insert_eq; intros [= <-]; by exists d|].
    rewrite !lookup_insert_ne by done. apply H1.
  - intros q. destruct (decide (q = p)) as [->|Hq]; [by rewrite !lookup_insert_eq|rewrite !lookup_insert_ne by done; apply H2].
Qed.

Lemma covers_step led ch o r ch' : covers led ch → ulegal led o → cstep ch o r ch' → covers (record led o r) ch'.
Proof.
  intros Hc Ho H. destruct H as [ch size|ch size p d Hf|ch count size|ch count size p d Hf _|ch p|ch p newsize d k Hd H1 H2|ch p i b d Hd|ch p i b d Hd Hb];
    cbn [record]; try done.
  - destruct Hf as (Hp & _ & _ & _ & Hs & _). destruct (Z.eqb_spec p 0); [done|]. by apply covers_insert.
  - destruct Hf as (Hp & _ & _ & _ & Hs & _). destruct (Z.eqb_spec p 0); [done|]. by apply covers_insert.
  - destruct Hc as [H1 H2]. split.
    + intros q k Hq. destruct (decide (q = p)) as [->|]; [by rewrite lookup_delete_eq in Hq|].
      rewrite lookup_delete_ne in Hq by done. rewrite lookup_delete_ne by done. by apply H1.
    + intros q Hq. destruct (decide (q = p)) as [->|]; [rewrite lookup_delete_eq in Hq; by destruct Hq|].
      rewrite lookup_delete_ne in Hq by done. rewrite lookup_delete_ne by done. by apply H2.
  - apply covers_insert; [done|]. rewrite length_take. lia.
  - destruct Hc as [H1 H2]. split.
    + intros q k Hq. destruct (H1 q k Hq) as (d' & Hd' & Hk). destruct (decide (q = p)) as [->|].
      * rewrite lookup_insert_eq. rewrite Hd in Hd'. simplify_eq. eexists. split; [done|]. by rewrite length_insert.
      * rewrite lookup_insert_ne by done. by exists d'.
    + intros q Hq. apply H2. destruct (decide (q = p)) as [->|]; [by rewrite Hd|by rewrite lookup_insert_ne in Hq].
Qed.

Lemma reached_holds led s : reached led s → ∃ l ch, holds s l ch ∧ covers led ch.
Proof.
  induction 1 as [s s' Hb E|led s o r s' _ (l & ch & Hh & Hc) Ho E].
  - destruct (mem_init_run s Hb) as (s1 & E1 & Hok & _). rewrite E in E1. simplify_eq. exists [(false, MEM_SIZE_ALIGNED)], ∅.
    split; [split; [done| |]|split].
    + intros c n Hin. by apply not_elem_of_nil in Hin.
    + intros p [d Hd]. by rewrite lookup_empty in Hd.
    + intros p k Hk. by rewrite lookup_empty in Hk.
    + intros p [d Hd]. by rewrite lookup_empty in Hd.
  - destruct (lstep_run s l ch o Hh (ulegal_llegal _ _ _ Hc Ho)) as (r1 & s1 & l1 & ch1 & E1 & Hh1 & Hs1 & _).
    rewrite E in E1. simplify_eq. exists l1, ch1. split; [done|]. by eapply covers_step.
Qed.
End blocks.

(** ** What the heap does *)

(** C11  The heap of lwIP implements a map of live chunks.  Whatever a user that
    frees, shrinks and touches only what it was given does next, the call returns:
    [mem_malloc] and [mem_calloc] give null only when no free block has the room,
    else a 4-aligned chunk inside the heap, at least as long as asked for and apart
    from every live chunk, for [mem_calloc] filled with zeros; reads give what was last
    written to the chunk; [mem_free] takes the chunk out; [mem_realloc] keeps the
    chunk where it is and a prefix of its data; no byte outside the heap changes. *)
Theorem mem_heap_refines (ram_heap : Z) (s : lheap) (l : list block) (ch : gmap Z (list Z)) (o : lop)
    (Hheap : 0 < ram_heap < 2 ^ 63) (H : holds ram_heap s l ch) (Ho : llegal ch o) :
  ∃ r s' l' ch', lstep ram_heap o s = Ret r s' ∧ holds ram_heap s' l' ch' ∧ cstep ram_heap ch o r ch' ∧
    (∀ a, ¬ (ram ram_heap ≤ a < ram_end ram_heap + 12) → rdb (hm s') a = rdb (hm s) a) ∧
    (r = 0 → ∀ n, asks o = Some n → ∀ k, (false, k) ∈ l → k < 12 + need n).
Proof. exact (lstep_run ram_heap Hheap s l ch o H Ho). Qed.

(** C23  Well-formedness and progress of the heap of lwIP.  Users know the sizes they
    asked for and keep to them.  Then after [mem_init] and any sequence of calls and
    accesses the headers form a list of adjacent blocks that fills the heap, each
    pointing to its neighbours, no two free blocks are adjacent, [lfree] is the lowest
    free block, every pointer handed out and not freed heads the data of a block in
    use of at least the size asked for; and no call panics on one of its assertions,
    blocks, or runs on for ever. *)
Theorem mem_heap_safe (ram_heap : Z) (led : gmap Z Z) (s : lheap)
    (Hheap : 0 < ram_heap < 2 ^ 63) (H : reached ram_heap led s) :
  (∃ l, heap_ok ram_heap s l ∧ ∀ p k, led !! p = Some k →
     ∃ c n, (c, n) ∈ used_blocks 0 l ∧ p = ram ram_heap + c + 12 ∧ k ≤ n - 12) ∧
  ∀ o, ulegal led o → ∃ r s', lstep ram_heap o s = Ret r s'.
Proof.
  destruct (reached_holds _ Hheap _ _ H) as (l & ch & Hh & Hc). split.
  - exists l. split; [apply Hh|]. intros p k Hk. destruct Hc as [Hc _]. destruct (Hc p k Hk) as (d & Hd & Hlen).
    destruct (hd_only _ _ _ _ Hh p) as (c & n & Hin & ->); [by rewrite Hd|]. exists c, n. split_and!; [done|done|].
    destruct (hd_live _ _ _ _ Hh _ _ Hin) as (d' & Hd' & Hl & _). rewrite Hd in Hd'. simplify_eq. lia.
  - intros o Ho. destruct (lstep_run _ Hheap s l ch o Hh (ulegal_llegal _ _ _ Hc Ho)) as (r & s' & _ & _ & E & _). eauto.
Qed.

(** C27  The blocks after each call.  [mem_malloc], which searches from [lfree] only,
    is a first fit over the whole heap that splits a block when the rest can hold
    another one; [mem_free] marks the block and leaves the list with all
    neighbouring free blocks put together; [mem_realloc] gives the end of the block
    back, joined to a free block behind it.  None of them writes to the data of a
    block in use or outside the heap. *)
Theorem mem_layout_correct (ram_heap : Z) (s : lheap) (l1 l2 : list block) (n size : Z)
    (Hheap : 0 < ram_heap < 2 ^ 63) (H : heap_ok ram_heap s (l1 ++ (true, n) :: l2)) (Hsize : 0 < size < 2 ^ 32 - 3) :
  let l := l1 ++ (true, n) :: l2 in let p := ram ram_heap + total l1 + 12 in
  match find (need size) 0 l with
  | None => mem_malloc ram_heap size s = Ret 0 s
  | Some c => ∃ s', mem_malloc ram_heap size s = Ret (ram ram_heap + c + 12) s' ∧
      heap_ok ram_heap s' (fit (need size) l) ∧ respects ram_heap (fit (need size) l) s s'
  end ∧
  (∃ s', let l' := coal (l1 ++ (false, n) :: l2) in
     mem_free ram_heap p s = Ret tt s' ∧ heap_ok ram_heap s' l' ∧ respects ram_heap l' s s') ∧
  (need size ≤ n - 12 → ∃ s', let l' := l1 ++ realloc_blocks (need size) n l2 in
     mem_realloc ram_heap p size s = Ret p s' ∧ heap_ok ram_heap s' l' ∧ respects ram_heap l' s s').
Proof.
  intros l p. split_and!; [by apply mem_malloc_run|by apply mem_free_run|].
  intros Hn. apply mem_realloc_run; [done|done|lia|done].
Qed.

(** ** Examples *)

Definition ex_heap : lheap := mkHeap ∅ 0 0.
Lemma ex_heap_init : ∃ s, mem_init 0x1000 ex_heap = Ret tt s ∧ holds 0x1000 s [(false, MEM_SIZE_ALIGNED)] ∅.
Proof.
  destruct (mem_init_run 0x1000 ex_heap) as (s & E & Hok & _); [intros a; cbn; unfold rdb; rewrite lookup_empty; cbn; lia|].
  exists s. split; [exact E|]. split; [exact Hok| |].
  - intros c n Hin. by apply not_elem_of_nil in Hin.
  - intros p [d Hd]. by rewrite lookup_empty in Hd.
Qed.

(** A chunk of 10 bytes on the fresh heap. *)
Lemma ex_heap_taken : ∃ s, heap_ok 0x1000 s [(true, 24); (false, MEM_SIZE_ALIGNED - 24)].
Proof.
  destruct ex_heap_init as (s & _ & Hh).
  destruct (mem_malloc_run 0x1000 ltac:(lia) s _ 10 (hd_ok _ _ _ _ Hh) ltac:(lia)) as (s' & _ & Hok & _). by exists s'.
Qed.

Lemma mem_heap_refines_witness :
  ∃ s r s', mem_init 0x1000 ex_heap = Ret tt s ∧ lstep 0x1000 (LMalloc 10) s = Ret r s' ∧ r ≠ 0.
Proof.
  destruct ex_heap_init as (s & E & Hh). exists s.
  destruct (mem_heap_refines 0x1000 s _ ∅ (LMalloc 10) ltac:(lia) Hh) as (r & s' & _ & _ & E' & _ & _ & _ & Hn); [simpl; lia|].
  exists r, s'. split; [exact E|]. split; [exact E'|]. intros ->.
  specialize (Hn eq_refl 10 eq_refl MEM_SIZE_ALIGNED (list_elem_of_here _ _)). discriminate Hn.
Defined.

Lemma mem_heap_safe_witness :
  ∃ s r s' r' s'', mem_init 0x1000 ex_heap = Ret tt s ∧ lstep 0x1000 (LCalloc 5 4) s = Ret r s' ∧
    lstep 0x1000 (LMalloc 100) s' = Ret r' s''.
Proof.
  destruct ex_heap_init as (s & E & Hh). exists s.
  assert (H : reached 0x1000 ∅ s).
  { eapply reached_init; [|exact E]. intros a. unfold rdb. cbn. rewrite lookup_empty. cbn. lia. }
  destruct (mem_heap_safe 0x1000 ∅ s ltac:(lia) H) as [_ Hp]. destruct (Hp (LCalloc 5 4)) as (r & s' & E1); [simpl; lia|].
  destruct (mem_heap_safe 0x1000 _ s' ltac:(lia) (reached_step _ _ _ (LCalloc 5 4) _ _ H ltac:(simpl; lia) E1)) as [_ Hp'].
  destruct (Hp' (LMalloc 100)) as (r' & s'' & E2); [simpl; lia|].
  exists r, s', r', s''. split; [exact E|]. split; [exact E1|exact E2].
Defined.

Lemma mem_layout_correct_witness :
  ∃ s s1 s2, heap_ok 0x1000 s [(true, 24); (false, MEM_SIZE_ALIGNED - 24)] ∧
    mem_malloc 0x1000 12 s = Ret (ram 0x1000 + 24 + 12) s1 ∧ mem_free 0x1000 (ram 0x1000 + 0 + 12) s = Ret tt s2 ∧
    heap_ok 0x1000 s2 [(false, MEM_SIZE_ALIGNED)].
Proof.
  destruct ex_heap_taken as (s & Hok).
  destruct (mem_layout_correct 0x1000 s [] [(false, MEM_SIZE_ALIGNED - 24)] 24 12 ltac:(lia) Hok ltac:(lia))
    as ((s1 & E1 & _) & (s2 & E2 & Hok2 & _) & _).
  exists s, s1, s2. split; [exact Hok|]. split; [exact E1|]. split; [exact E2|exact Hok2].
Defined.

(** ** Sizes that wrap around *)

(** Rounding up a size wraps around: a request for almost 4 GiB is served as one for
    12 bytes; so does the product in [mem_calloc]. *)
Lemma mem_malloc_wraps ram_heap s : mem_malloc ram_heap (2 ^ 32 - 1) s = mem_malloc ram_heap 12 s.
Proof. reflexivity. Qed.
Lemma mem_calloc_wraps ram_heap s : mem_calloc ram_heap 65537 65537 s = mem_calloc ram_heap 131073 1 s.
Proof. reflexivity. Qed.
