(* ===== verification/Sysarch.v ===== *)
(** * Semaphores and mailboxes of the network server: net/lwip/jos/arch/sys_arch.c

    The threads of the network server (net/lwip/jos/arch/thread.c) are switched only
    where one of them waits.  A call that waits is therefore modelled in pieces: what
    it does up to the wait, and what it does when the thread runs again.  The
    theorem says that a mailbox is a bounded queue in every interleaving of the
    threads that post to it and fetch from it, and that no wake-up is lost. *)

From S2P Require Import Prelude.

(** ** State *)

Definition NSEM : Z := 256.
Definition NMBOX : Z := 128.
Definition MBOXSLOTS : Z := 32.
Definition SYS_MBOX_NULL : Z := -1.
Definition SYS_SEM_NULL : Z := -1.
Definition SYS_ARCH_NOWAIT : Z := 0xfffffffe.
Definition SYS_ARCH_TIMEOUT : Z := 0xffffffff.
Definition ERR_OK : Z := 0.
Definition ERR_MEM : Z := -1.

Record sys_sem_entry := mkSem { s_freed : bool; gen : Z; counter : Z; waiters : Z }.
Record sys_mbox_entry := mkMbox { m_freed : bool; head : Z; nextq : Z; msg : gmap Z Z; queued_msg : Z; free_msg : Z }.

(** The arrays, the lists of free entries, and for every thread in [thread_wait] the
    semaphore it waits on and its flag [tc_wakeup]. *)
Record sys := mkSys {
  sems : gmap Z sys_sem_entry;
  sem_free : list Z;
  mboxes : gmap Z sys_mbox_entry;
  mbox_free : list Z;
  waiting : gmap Z (Z * bool)
}.
Definition SM (A : Type) : Type := M sys A.

Definition set_sems f (s : sys) : sys := mkSys (f (sems s)) (sem_free s) (mboxes s) (mbox_free s) (waiting s).
Definition set_sem_free f (s : sys) : sys := mkSys (sems s) (f (sem_free s)) (mboxes s) (mbox_free s) (waiting s).
Definition set_mboxes f (s : sys) : sys := mkSys (sems s) (sem_free s) (f (mboxes s)) (mbox_free s) (waiting s).
Definition set_mbox_free f (s : sys) : sys := mkSys (sems s) (sem_free s) (mboxes s) (f (mbox_free s)) (waiting s).
Definition set_waiting f (s : sys) : sys := mkSys (sems s) (sem_free s) (mboxes s) (mbox_free s) (f (waiting s)).

(** An entry of an array; an index outside it is undefined. *)
Definition sem_at (k : Z) : SM sys_sem_entry := e <- gets (λ s, sems s !! k) ;; deref e.
Definition mbox_at (b : Z) : SM sys_mbox_entry := e <- gets (λ s, mboxes s !! b) ;; deref e.
Definition put_sem (k : Z) (e : sys_sem_entry) : SM unit := modify (set_sems <[k := e]>).
Definition put_mbox (b : Z) (e : sys_mbox_entry) : SM unit := modify (set_mboxes <[b := e]>).

(** The word [v] of the union. *)
Definition sem_v (e : sys_sem_entry) : Z := counter e + 2 ^ 16 * waiters e.

(** ** Semaphores *)

Definition sys_sem_new (count : Z) : SM Z :=
  l <- gets sem_free ;;
  match l with
  | [] => ret SYS_SEM_NULL
  | k :: l' =>
      modify (set_sem_free (λ _, l')) ;;;
      e <- sem_at k ;;
      assert_ (s_freed e) ;;;
      put_sem k (mkSem false (i32 (gen e + 1)) (u8 count) (waiters e)) ;;;
      ret k
  end.

Definition sys_sem_free (k : Z) : SM unit :=
  e <- sem_at k ;;
  assert_ (negb (s_freed e)) ;;;
  put_sem k (mkSem true (i32 (gen e + 1)) (counter e) (waiters e)) ;;;
  modify (set_sem_free (cons k)).

(** [thread_wakeup] of thread.c. *)
Definition thread_wakeup (k : Z) : SM unit :=
  modify (set_waiting (fmap (λ w, if w.1 =? k then (w.1, true) else w))).

Definition sys_sem_signal (k : Z) : SM unit :=
  e <- sem_at k ;;
  assert_ (negb (s_freed e)) ;;;
  let e := mkSem (s_freed e) (gen e) (u16 (counter e + 1)) (waiters e) in
  put_sem k e ;;;
  if negb (waiters e =? 0) then
    put_sem k (mkSem (s_freed e) (gen e) (counter e) 0) ;;; thread_wakeup k
  else ret tt.

(** The outcome of a piece of [sys_arch_sem_wait]: its return value, or the thread
    waits for [v] to change. *)
Inductive wres := Got (r : Z) | Waits (v : Z).

(** From the test of the loop on, by thread [t], which has waited [waited]. *)
Definition wait_round (t k tm_msec waited : Z) : SM wres :=
  if (tm_msec =? 0) || (waited <? tm_msec) then
    e <- sem_at k ;;
    if 0 <? counter e then
      put_sem k (mkSem (s_freed e) (gen e) (counter e - 1) (waiters e)) ;;; ret (Got waited)
    else if tm_msec =? SYS_ARCH_NOWAIT then ret (Got SYS_ARCH_TIMEOUT)
    else
      let e := mkSem (s_freed e) (gen e) (counter e) 1 in
      put_sem k e ;;;
      modify (set_waiting <[t := (k, false)]>) ;;;
      ret (Waits (sem_v e))
  else ret (Got SYS_ARCH_TIMEOUT).

(** [sys_arch_sem_wait] up to its end or the first wait; [gen] is kept. *)
Definition wait_begin (t k tm_msec : Z) : SM (wres * Z) :=
  e <- sem_at k ;;
  assert_ (negb (s_freed e)) ;;;
  r <- wait_round t k tm_msec 0 ;;
  ret (r, gen e).

(** The thread runs again after [dt] milliseconds. *)
Definition wait_resume (t k tm_msec waited g dt : Z) : SM wres :=
  modify (set_waiting (delete t)) ;;;
  e <- sem_at k ;;
  if negb (g =? gen e) then ret (Got SYS_ARCH_TIMEOUT)
  else wait_round t k tm_msec (u32 (waited + dt)).

(** What [thread_wait] waits for. *)
Definition runnable (s : sys) (t k v : Z) : Prop :=
  (∃ j, waiting s !! t = Some (j, true)) ∨ ∃ e, sems s !! k = Some e ∧ sem_v e ≠ v.

(** ** Mailboxes *)

Definition sys_mbox_free (b : Z) : SM unit :=
  e <- mbox_at b ;;
  assert_ (negb (m_freed e)) ;;;
  sys_sem_free (queued_msg e) ;;;
  sys_sem_free (free_msg e) ;;;
  modify (set_mbox_free (cons b)) ;;;
  put_mbox b (mkMbox true (head e) (nextq e) (msg e) (queued_msg e) (free_msg e)).

Definition sys_mbox_new (size : Z) : SM Z :=
  assert_ (size <? MBOXSLOTS) ;;;
  l <- gets mbox_free ;;
  match l with
  | [] => ret SYS_MBOX_NULL
  | b :: l' =>
      modify (set_mbox_free (λ _, l')) ;;;
      e <- mbox_at b ;;
      assert_ (m_freed e) ;;;
      q <- sys_sem_new 0 ;;
      f <- sys_sem_new MBOXSLOTS ;;
      put_mbox b (mkMbox false (-1) 0 (msg e) q f) ;;;
      if (q =? SYS_SEM_NULL) || (f =? SYS_SEM_NULL) then sys_mbox_free b ;;; ret SYS_MBOX_NULL
      else ret b
  end.

Definition sys_init : SM unit :=
  for_loop 256 0 (λ i,
    e <- sem_at i ;;
    put_sem i (mkSem true (gen e) (counter e) (waiters e)) ;;;
    modify (set_sem_free (cons i))) ;;;
  for_loop 128 0 (λ i,
    e <- mbox_at i ;;
    put_mbox i (mkMbox true (head e) (nextq e) (msg e) (queued_msg e) (free_msg e)) ;;;
    modify (set_mbox_free (cons i))).

(** [sys_mbox_trypost] behind its wait. *)
Definition trypost_rest (b m : Z) : SM Z :=
  e <- mbox_at b ;;
  if nextq e =? head e then ret ERR_MEM else
  let slot := nextq e in
  put_mbox b (mkMbox (m_freed e) (if head e =? -1 then slot else head e) (Z.rem (slot + 1) MBOXSLOTS)
                (<[slot := m]> (msg e)) (queued_msg e) (free_msg e)) ;;;
  sys_sem_signal (queued_msg e) ;;;
  ret ERR_OK.

(** [sys_arch_mbox_fetch] behind its wait: the message. *)
Definition fetch_rest (b : Z) : SM Z :=
  e <- mbox_at b ;;
  let slot := head e in
  if slot =? -1 then panic else
  m <- deref (msg e !! slot) ;;
  let h := Z.rem (slot + 1) MBOXSLOTS in
  put_mbox b (mkMbox (m_freed e) (if h =? nextq e then -1 else h) (nextq e) (msg e) (queued_msg e) (free_msg e)) ;;;
  sys_sem_signal (free_msg e) ;;;
  ret m.

(** ** Calls and their waits *)

(** [sys_mbox_post] and [sys_arch_mbox_fetch]. *)
Inductive call := Post (b m : Z) | Fetch (b tm_msec : Z).
Inductive res := Posted | Fetched (m : Z) | TimedOut.
(** A thread inside [thread_wait]: its call, the semaphore, and its local variables
    [waited], [gen] and [cur_v]. *)
Record wrec := mkW { w_call : call; w_sem : Z; w_waited : Z; w_gen : Z; w_v : Z }.

Definition call_box (c : call) : Z := match c with Post b _ | Fetch b _ => b end.
Definition call_tm (c : call) : Z := match c with Post _ _ => 0 | Fetch _ tm => tm end.
Definition call_sem (c : call) (e : sys_mbox_entry) : Z :=
  match c with Post _ _ => free_msg e | Fetch _ _ => queued_msg e end.

(** The rest of a call whose wait returned [r]; [sys_mbox_post] asserts [ERR_OK]. *)
Definition finish (c : call) (r : Z) : SM res :=
  match c with
  | Post b m => x <- trypost_rest b m ;; assert_ (x =? ERR_OK) ;;; ret Posted
  | Fetch b _ => if r =? SYS_ARCH_TIMEOUT then ret TimedOut else m <- fetch_rest b ;; ret (Fetched m)
  end.

Definition begin_call (t : Z) (c : call) : SM (res + wrec) :=
  e <- mbox_at (call_box c) ;;
  assert_ (negb (m_freed e)) ;;;
  w <- wait_begin t (call_sem c e) (call_tm c) ;;
  match w with
  | (Got r, _) => x <- finish c r ;; ret (inl x)
  | (Waits v, g) => ret (inr (mkW c (call_sem c e) 0 g v))
  end.

Definition resume_call (t : Z) (w : wrec) (dt : Z) : SM (res + wrec) :=
  r <- wait_resume t (w_sem w) (call_tm (w_call w)) (w_waited w) (w_gen w) dt ;;
  match r with
  | Got r => x <- finish (w_call w) r ;; ret (inl x)
  | Waits v => ret (inr (mkW (w_call w) (w_sem w) (u32 (w_waited w + dt)) (w_gen w) v))
  end.

(** ** Mailboxes in use *)

Section boxes.
(** The mailboxes in use, and the two semaphores of each. *)
Context (L : list Z) (Q F : Z → Z).
Context (HQ : ∀ b b', b ∈ L → b' ∈ L → Q b = Q b' → b = b').
Context (HF : ∀ b b', b ∈ L → b' ∈ L → F b = F b' → b = b').
Context (HQF : ∀ b b', b ∈ L → b' ∈ L → Q b ≠ F b').

Definition sem_of (c : call) : Z := match c with Post b _ => F b | Fetch b _ => Q b end.

Definition sem_ok (s : sys) (k n : Z) : Prop :=
  ∃ e, sems s !! k = Some e ∧ s_freed e = false ∧ counter e = n ∧ 0 ≤ waiters e ≤ 1.

(** The ring holds [q]. *)
Record ring (e : sys_mbox_entry) (q : list Z) : Prop := {
  rg_len : Z.of_nat (length q) ≤ 32;
  rg_nextq : 0 ≤ nextq e < 32;
  rg_head : if bool_decide (q = []) then head e = -1
            else 0 ≤ head e < 32 ∧ nextq e = (head e + Z.of_nat (length q)) mod 32;
  rg_msg (i : nat) m : q !! i = Some m → msg e !! ((head e + Z.of_nat i) mod 32) = Some m
}.

Record box_ok (s : sys) (b : Z) (q : list Z) : Prop := {
  bx_entry : ∃ e, mboxes s !! b = Some e ∧ m_freed e = false ∧ queued_msg e = Q b ∧ free_msg e = F b ∧ ring e q;
  bx_queued : sem_ok s (Q b) (Z.of_nat (length q));
  bx_free : sem_ok s (F b) (32 - Z.of_nat (length q))
}.

Definition boxes_ok (s : sys) (qs : Z → list Z) : Prop := ∀ b, b ∈ L → box_ok s b (qs b).

(** A thread that waits and has not been woken waits on a semaphore whose word is
    still the one it saw. *)
Definition waiters_ok (s : sys) (pcs : gmap Z wrec) : Prop := ∀ t w, pcs !! t = Some w →
  call_box (w_call w) ∈ L ∧ w_sem w = sem_of (w_call w) ∧ 0 ≤ w_waited w < SYS_ARCH_TIMEOUT ∧
  ∃ e x, sems s !! w_sem w = Some e ∧ w_gen w = gen e ∧ waiting s !! t = Some (w_sem w, x) ∧
    (x = false → counter e = 0 ∧ waiters e = 1 ∧ w_v w = 2 ^ 16).

Definition step_queue (qs : Z → list Z) (c : call) (r : res) : Z → list Z :=
  match c, r with
  | Post b m, Posted => λ x, if decide (x = b) then qs b ++ [m] else qs x
  | Fetch b _, Fetched _ => λ x, if decide (x = b) then tail (qs b) else qs x
  | _, _ => qs
  end.

(** *** Rings *)

Lemma ring_slot h n i : 0 ≤ h < 32 → (i < n)%nat → Z.of_nat n ≤ 31 →
  (h + Z.of_nat i) mod 32 ≠ (h + Z.of_nat n) mod 32.
Proof. intros. Z.div_mod_to_equations. lia. Qed.

Lemma ring_post e q m : ring e q → Z.of_nat (length q) < 32 →
  nextq e ≠ head e ∧
  ring (mkMbox (m_freed e) (if head e =? -1 then nextq e else head e) (Z.rem (nextq e + 1) MBOXSLOTS)
          (<[nextq e := m]> (msg e)) (queued_msg e) (free_msg e)) (q ++ [m]).
Proof.
  intros [H1 H2 H3 H4] Hlen. rewrite Z.rem_mod_nonneg by (unfold MBOXSLOTS; lia). change MBOXSLOTS with 32.
  destruct (decide (q = [])) as [->|Hq].
  - rewrite bool_decide_true in H3 by done. split; [lia|]. rewrite H3, Z.eqb_refl.
    split; cbn [nextq head msg app length]; [lia|apply Z.mod_pos_bound; lia| |].
    + rewrite bool_decide_false by done. split; [lia|done].
    + intros [|i] m' Hi; [|done]. cbn in Hi. simplify_eq. rewrite Z.add_0_r, Z.mod_small by lia. apply lookup_insert_eq.
  - rewrite bool_decide_false in H3 by done. destruct H3 as [H3 H5].
    assert (0 < Z.of_nat (length q)) by (destruct q; [done|simpl; lia]).
    split; [rewrite H5; Z.div_mod_to_equations; lia|]. destruct (Z.eqb_spec (head e) (-1)); [lia|].
    split; cbn [nextq head msg]; rewrite ?length_app; cbn [length]; [lia|apply Z.mod_pos_bound; lia| |].
    + rewrite bool_decide_false by (by destruct q). split; [lia|]. rewrite H5, Zplus_mod_idemp_l. f_equal. lia.
    + intros i m' Hi. apply lookup_snoc_Some in Hi as [[Hi Hm]|[-> ->]].
      * rewrite lookup_insert_ne; [by apply H4|]. rewrite H5. symmetry. apply ring_slot; lia.
      * rewrite H5. apply lookup_insert_eq.
Qed.

Lemma ring_fetch e m q : ring e (m :: q) →
  head e ≠ -1 ∧ msg e !! head e = Some m ∧
  ring (mkMbox (m_freed e) (if Z.rem (head e + 1) MBOXSLOTS =? nextq e then -1 else Z.rem (head e + 1) MBOXSLOTS)
          (nextq e) (msg e) (queued_msg e) (free_msg e)) q.
Proof.
  intros [H1 H2 H3 H4]. rewrite bool_decide_false in H3 by done. destruct H3 as [H3 H5].
  rewrite Z.rem_mod_nonneg by (unfold MBOXSLOTS; lia). change MBOXSLOTS with 32. cbn [length] in *.
  split; [lia|]. split; [rewrite <-(H4 0%nat m eq_refl), Z.add_0_r, Z.mod_small by lia; done|].
  pose proof (Z.mod_pos_bound (head e + 1) 32).
  destruct (decide (q = [])) as [->|Hq].
  - cbn in H5. rewrite H5, Z.eqb_refl. split; cbn; [lia|lia|done|done].
  - assert (0 < Z.of_nat (length q)) by (destruct q; [done|simpl; lia]).
    destruct (Z.eqb_spec ((head e + 1) mod 32) (nextq e)) as [E|E].
    { exfalso. rewrite H5 in E. Z.div_mod_to_equations. lia. }
    split; cbn [nextq head msg]; [lia|done| |].
    + rewrite bool_decide_false by done. split; [lia|]. rewrite H5, Zplus_mod_idemp_l. f_equal. lia.
    + intros i m' Hi. rewrite Zplus_mod_idemp_l. rewrite <-(H4 (S i) m' Hi). do 2 f_equal. lia.
Qed.

(** *** Changes of one semaphore *)

Definition woken (s : sys) (k : Z) (e : sys_sem_entry) : gmap Z (Z * bool) :=
  if waiters e =? 0 then waiting s else (λ w, if w.1 =? k then (w.1, true) else w) <$> waiting s.

Lemma signal_run s k e : sems s !! k = Some e → s_freed e = false → 0 ≤ counter e < 2 ^ 16 - 1 →
  sys_sem_signal k s =
  Ret tt (mkSys (<[k := mkSem false (gen e) (counter e + 1) 0]> (sems s)) (sem_free s) (mboxes s) (mbox_free s) (woken s k e)).
Proof.
  intros He Hf Hc. unfold sys_sem_signal, sem_at, put_sem, thread_wakeup, woken. rewrite bind_assoc. step_pure. rewrite He.
  step_with (eq_refl : deref (Some e) s = Ret e s). rewrite Hf. step_with (eq_refl : assert_ (negb false) s = Ret tt s).
  cbn [s_freed gen counter waiters]. rewrite u16_small by lia. step_pure.
  destruct (Z.eqb_spec (waiters e) 0) as [E|E]; cbn [negb]; [by rewrite E; destruct s|].
  step_pure. unfold modify, set_waiting, set_sems. cbn. by rewrite insert_insert_eq.
Qed.

Lemma waiters_signal s k e pcs fr mb mf : waiters_ok s pcs → sems s !! k = Some e →
  waiters_ok (mkSys (<[k := mkSem false (gen e) (counter e + 1) 0]> (sems s)) fr mb mf (woken s k e)) pcs.
Proof.
  intros H Hk t w Hw. destruct (H t w Hw) as (H1 & H2 & Hwt & e0 & x & H3 & H4 & H5 & H6).
  split_and!; [done|done|apply Hwt|apply Hwt|]. cbn [sems waiting]. unfold woken.
  destruct (decide (w_sem w = k)) as [E|E].
  - rewrite E, lookup_insert_eq. rewrite E, Hk in H3. simplify_eq. eexists _, true. split; [done|]. split; [done|].
    split; [|done]. destruct (Z.eqb_spec (waiters e0) 0) as [Z|Z].
    + destruct x; [done|]. destruct (H6 eq_refl) as (_ & ? & _). lia.
    + rewrite lookup_fmap, H5. cbn. by rewrite Z.eqb_refl.
  - exists e0, x. rewrite lookup_insert_ne by done. split_and!; [done|done| |done].
    destruct (waiters e =? 0); [done|]. rewrite lookup_fmap, H5. cbn. by destruct (Z.eqb_spec (w_sem w) k).
Qed.

Definition taken (s : sys) (k : Z) (e : sys_sem_entry) : sys :=
  set_sems <[k := mkSem (s_freed e) (gen e) (counter e - 1) (waiters e)]> s.

Lemma waiters_taken s k e pcs : waiters_ok s pcs → sems s !! k = Some e → 0 < counter e → waiters_ok (taken s k e) pcs.
Proof.
  intros H Hk Hc t w Hw. destruct (H t w Hw) as (H1 & H2 & Hwt & e0 & x & H3 & H4 & H5 & H6).
  split_and!; [done|done|apply Hwt|apply Hwt|]. cbn [sems waiting taken set_sems]. destruct (decide (w_sem w = k)) as [E|E].
  - rewrite E, lookup_insert_eq. rewrite E, Hk in H3. simplify_eq. eexists _, x. split; [done|]. split; [done|].
    split; [done|]. intros Hx. destruct (H6 Hx). lia.
  - exists e0, x. by rewrite lookup_insert_ne.
Qed.

(** *** The pieces of a call *)

Lemma box_frame s s' b q : mboxes s' !! b = mboxes s !! b → sems s' !! Q b = sems s !! Q b → sems s' !! F b = sems s !! F b →
  box_ok s b q → box_ok s' b q.
Proof.
  intros E1 E2 E3 [H1 H2 H3]. split; [by rewrite E1| |].
  - destruct H2 as (e & H & ?). exists e. by rewrite E2.
  - destruct H3 as (e & H & ?). exists e. by rewrite E3.
Qed.

Lemma post_rest_run s qs pcs b m e0 : boxes_ok s qs → waiters_ok s pcs → b ∈ L →
  sems s !! F b = Some e0 → 0 < counter e0 →
  ∃ s', trypost_rest b m (taken s (F b) e0) = Ret ERR_OK s' ∧ boxes_ok s' (step_queue qs (Post b m) Posted) ∧ waiters_ok s' pcs.
Proof.
  intros HB HW Hb He0 Hc. destruct (HB b Hb) as [(e & He & Hf & Eq & Ef & Hr) (eq & Heq & Hqf & Hqc & Hqw) (ef & Hef & Hff & Hfc & Hfw)].
  rewrite He0 in Hef. simplify_eq. pose proof (rg_len _ _ Hr). destruct (ring_post e (qs b) m Hr) as [Hne Hr']; [lia|].
  unfold trypost_rest, mbox_at, put_mbox. rewrite bind_assoc. step_pure. cbn [mboxes taken set_sems]. rewrite He.
  step_with (eq_refl : deref (Some e) (taken s (F b) ef) = Ret e (taken s (F b) ef)).
  destruct (Z.eqb_spec (nextq e) (head e)); [done|]. cbv zeta. step_pure. rewrite Eq, Ef in Hr' |- *.
  pose proof (HQF b b Hb Hb) as HQFb. set (e' := mkMbox _ _ _ _ _ _).
  set (s1 := set_mboxes <[b := e']> (taken s (F b) ef)).
  assert (sems s1 !! Q b = Some eq) as Hs1 by (cbn; by rewrite lookup_insert_ne).
  step_with (signal_run s1 (Q b) eq Hs1 Hqf ltac:(lia)).
  eexists. split; [done|]. split; [|apply waiters_signal; [|done]; by apply waiters_taken].
  intros b' Hb'. cbn [step_queue]. case_decide as Hbb; [subst b'|].
  - split; cbn [sems mboxes]; unfold sem_ok; rewrite ?length_app; cbn [sems length].
    + exists e'. split; [apply lookup_insert_eq|]. by split_and!.
    + eexists. rewrite lookup_insert_eq. split; [done|]. cbn. split_and!; [done|lia|lia|lia].
    + eexists. rewrite lookup_insert_ne by done. cbn. rewrite lookup_insert_eq. split; [done|]. cbn. split_and!; [done|lia|lia|lia].
  - apply (box_frame s); [..|by apply HB]; cbn [sems mboxes s1 taken set_sems set_mboxes].
    + by rewrite lookup_insert_ne.
    + rewrite !lookup_insert_ne; [done| |]; intros E; [by apply (HQF b' b)|apply Hbb; symmetry; by apply HQ].
    + rewrite !lookup_insert_ne; [done| |]; intros E; [apply Hbb; symmetry; by apply HF|by apply (HQF b b')].
Qed.

Lemma fetch_rest_run s qs pcs b tm e0 : boxes_ok s qs → waiters_ok s pcs → b ∈ L →
  sems s !! Q b = Some e0 → 0 < counter e0 →
  ∃ m q s', qs b = m :: q ∧ fetch_rest b (taken s (Q b) e0) = Ret m s' ∧
    boxes_ok s' (step_queue qs (Fetch b tm) (Fetched m)) ∧ waiters_ok s' pcs.
Proof.
  intros HB HW Hb He0 Hc. destruct (HB b Hb) as [(e & He & Hf & Eq & Ef & Hr) (eq & Heq & Hqf & Hqc & Hqw) (ef & Hef & Hff & Hfc & Hfw)].
  rewrite He0 in Heq. simplify_eq. destruct (qs b) as [|m q] eqn:Eqs; [cbn in Hqc; lia|]. pose proof (rg_len _ _ Hr) as Hlen. cbn in Hlen, Hfc, Hqc.
  destruct (ring_fetch e m q Hr) as (Hne & Hm & Hr'). exists m, q.
  unfold fetch_rest, mbox_at, put_mbox. rewrite bind_assoc. step_pure. cbn [mboxes taken set_sems]. rewrite He.
  step_with (eq_refl : deref (Some e) (taken s (Q b) eq) = Ret e (taken s (Q b) eq)). cbv zeta.
  destruct (Z.eqb_spec (head e) (-1)); [done|]. rewrite Hm.
  step_with (eq_refl : deref (Some m) (taken s (Q b) eq) = Ret m (taken s (Q b) eq)). step_pure. rewrite Eq, Ef in Hr' |- *.
  pose proof (HQF b b Hb Hb) as HQFb. set (e' := mkMbox _ _ _ _ _ _).
  set (s1 := set_mboxes <[b := e']> (taken s (Q b) eq)).
  assert (sems s1 !! F b = Some ef) as Hs1 by (cbn; by rewrite lookup_insert_ne).
  step_with (signal_run s1 (F b) ef Hs1 Hff ltac:(lia)).
  eexists. split; [done|]. split; [done|]. split; [|apply waiters_signal; [|done]; by apply waiters_taken].
  intros b' Hb'. cbn [step_queue]. case_decide as Hbb; [subst b'|].
  - rewrite Eqs. cbn [tail]. split; cbn [sems mboxes]; unfold sem_ok; cbn [sems].
    + exists e'. split; [apply lookup_insert_eq|]. by split_and!.
    + eexists. rewrite lookup_insert_ne by done. cbn. rewrite lookup_insert_eq. split; [done|]. cbn. split_and!; [done|lia|lia|lia].
    + eexists. rewrite lookup_insert_eq. split; [done|]. cbn. split_and!; [done|lia|lia|lia].
  - apply (box_frame s); [..|by apply HB]; cbn [sems mboxes s1 taken set_sems set_mboxes].
    + by rewrite lookup_insert_ne.
    + rewrite !lookup_insert_ne; [done| |]; intros E; [apply Hbb; symmetry; by apply HQ|by apply (HQF b' b)].
    + rewrite !lookup_insert_ne; [done| |]; intros E; [by apply (HQF b b')|apply Hbb; symmetry; by apply HF].
Qed.

Lemma sem_of_ok s qs c : boxes_ok s qs → call_box c ∈ L → ∃ e, sems s !! sem_of c = Some e ∧ s_freed e = false ∧ 0 ≤ counter e ∧
  0 ≤ waiters e ≤ 1 ∧ ∃ eb, mboxes s !! call_box c = Some eb ∧ m_freed eb = false ∧ call_sem c eb = sem_of c.
Proof.
  intros HB Hb. destruct (HB _ Hb) as [(e & He & Hf & Eq & Ef & Hr) (eq & Heq & Hqf & Hqc & Hqw) (ef & Hef & Hff & Hfc & Hfw)].
  pose proof (rg_len _ _ Hr). destruct c; cbn in *; [exists ef|exists eq]; (split_and!; [done|done|lia|lia|lia|eauto]).
Qed.

(** A thread goes to wait. *)
Lemma block_ok s qs pcs t c e waited : boxes_ok s qs → waiters_ok s pcs → call_box c ∈ L → pcs !! t = None →
  sems s !! sem_of c = Some e → counter e = 0 → 0 ≤ waited < SYS_ARCH_TIMEOUT →
  let e' := mkSem (s_freed e) (gen e) (counter e) 1 in
  let s' := set_waiting <[t := (sem_of c, false)]> (set_sems <[sem_of c := e']> s) in
  boxes_ok s' qs ∧ waiters_ok s' (<[t := mkW c (sem_of c) waited (gen e) (sem_v e')]> pcs).
Proof.
  intros HB HW Hb Ht He Hc Hwt e' s'. split.
  - intros b Hb'. destruct (HB b Hb') as [H1 (eq & Heq & Hqf & Hqc & Hqw) (ef & Hef & Hff & Hfc & Hfw)]. split; [done| |].
    + destruct (decide (Q b = sem_of c)) as [E|E]; cbn; unfold sem_ok; cbn; [rewrite E, lookup_insert_eq; rewrite E, He in Heq|rewrite lookup_insert_ne by done].
      * simplify_eq. exists e'. cbn. split_and!; [done|done|done|lia|lia].
      * by exists eq.
    + destruct (decide (F b = sem_of c)) as [E|E]; cbn; unfold sem_ok; cbn; [rewrite E, lookup_insert_eq; rewrite E, He in Hef|rewrite lookup_insert_ne by done].
      * simplify_eq. exists e'. cbn. split_and!; [done|done|done|lia|lia].
      * by exists ef.
  - intros t' w Hw. destruct (decide (t' = t)) as [->|Hne].
    + rewrite lookup_insert_eq in Hw. simplify_eq. cbn. split_and!; [done|done|apply Hwt|apply Hwt|]. exists e', false.
      rewrite !lookup_insert_eq. split_and!; try done. intros _. unfold sem_v. cbn. split_and!; [done|done|]. lia.
    + rewrite lookup_insert_ne in Hw by done. destruct (HW t' w Hw) as (H1 & H2 & Hwt' & e0 & x & H3 & H4 & H5 & H6).
      split_and!; [done|done|apply Hwt'|apply Hwt'|]. cbn. rewrite (lookup_insert_ne (waiting s)) by done.
      destruct (decide (w_sem w = sem_of c)) as [E|E].
      * rewrite E, lookup_insert_eq. rewrite E, He in H3. simplify_eq. exists e', x. rewrite <-E. split_and!; try done.
        intros Hx. destruct (H6 Hx) as (? & _ & ?). done.
      * exists e0, x. by rewrite lookup_insert_ne.
Qed.

(** What the result of a call says of the queue. *)
Definition res_ok (qs : Z → list Z) (c : call) (r : res) : Prop :=
  match c, r with
  | Post b _, Posted => True
  | Fetch b _, Fetched m => hd_error (qs b) = Some m
  | Fetch b _, TimedOut => True
  | _, _ => False
  end.

(** A call that could go on would not wait. *)
Definition can_go (qs : Z → list Z) (c : call) : Prop :=
  match c with Post b _ => Z.of_nat (length (qs b)) < 32 | Fetch b _ => qs b ≠ [] end.

Definition outcome_ok (s' : sys) (qs : Z → list Z) (pcs : gmap Z wrec) (t : Z) (c : call) (o : res + wrec) : Prop :=
  match o with
  | inl r => res_ok qs c r ∧ boxes_ok s' (step_queue qs c r) ∧ waiters_ok s' pcs
  | inr w => w_call w = c ∧ boxes_ok s' qs ∧ waiters_ok s' (<[t := w]> pcs)
  end.

(** From the loop of [sys_arch_sem_wait] on. *)
Definition go_on (t : Z) (c : call) (waited g : Z) : SM (res + wrec) :=
  r <- wait_round t (sem_of c) (call_tm c) waited ;;
  match r with
  | Got r => x <- finish c r ;; ret (inl x)
  | Waits v => ret (inr (mkW c (sem_of c) waited g v))
  end.

Lemma finish_run s qs pcs c e waited : boxes_ok s qs → waiters_ok s pcs → call_box c ∈ L →
  sems s !! sem_of c = Some e → 0 < counter e → waited ≠ SYS_ARCH_TIMEOUT →
  ∃ r s', finish c waited (taken s (sem_of c) e) = Ret r s' ∧ r ≠ TimedOut ∧
    res_ok qs c r ∧ boxes_ok s' (step_queue qs c r) ∧ waiters_ok s' pcs.
Proof.
  intros HB HW Hb He Hc Hwt. destruct c as [b m|b tm]; cbn [finish sem_of call_box] in *.
  - destruct (post_rest_run s qs pcs b m e HB HW Hb He Hc) as (s' & E & HB' & HW').
    exists Posted, s'. step_with E. by split_and!.
  - destruct (fetch_rest_run s qs pcs b tm e HB HW Hb He Hc) as (m & q & s' & Eq & E & HB' & HW').
    exists (Fetched m), s'. destruct (Z.eqb_spec waited SYS_ARCH_TIMEOUT); [done|]. step_with E. split_and!; [done|done|by cbn; rewrite Eq|done|done].
Qed.

Lemma can_go_counter s qs c e : boxes_ok s qs → call_box c ∈ L → sems s !! sem_of c = Some e → can_go qs c ↔ 0 < counter e.
Proof.
  intros HB Hb He. destruct (HB _ Hb) as [_ (eq & Heq & _ & Hqc & _) (ef & Hef & _ & Hfc & _)].
  destruct c; cbn in *; simplify_eq; rewrite ?Hfc, ?Hqc; [lia|]. destruct (qs b); cbn; split; intros; (done || lia).
Qed.

Lemma go_on_run s qs pcs t c waited e : boxes_ok s qs → waiters_ok s pcs → call_box c ∈ L → pcs !! t = None →
  sems s !! sem_of c = Some e → 0 ≤ waited < SYS_ARCH_TIMEOUT →
  ∃ o s', go_on t c waited (gen e) s = Ret o s' ∧ outcome_ok s' qs pcs t c o ∧
    (can_go qs c → call_tm c = 0 ∨ waited < call_tm c → ∃ r, o = inl r ∧ r ≠ TimedOut).
Proof.
  intros HB HW Hb Ht He Hwt. pose proof (can_go_counter _ _ _ _ HB Hb He) as Hgo. unfold go_on, wait_round.
  assert (∃ o s', (x <- finish c SYS_ARCH_TIMEOUT ;; ret (inl x)) s = Ret o s' ∧ outcome_ok s' qs pcs t c o ∨ call_tm c = 0) as HT.
  { destruct c as [b m|b tm]; [exists (inl Posted), s; by right|]. exists (inl TimedOut), s. by left. }
  destruct ((call_tm c =? 0) || (waited <? call_tm c)) eqn:Ecnd.
  2:{ apply orb_false_iff in Ecnd as [E1 E2]. apply Z.eqb_neq in E1. apply Z.ltb_ge in E2. step_pure.
      destruct HT as (o & s' & [[E Ho]|?]); [|done]. exists o, s'. split_and!; [done|done|]. intros _ [?|?]; lia. }
  unfold sem_at, put_sem. rewrite !bind_assoc. step_pure. rewrite He. step_with (eq_refl : deref (Some e) s = Ret e s).
  destruct (Z.ltb_spec 0 (counter e)) as [Hc|Hc].
  - rewrite bind_assoc. do 2 step_pure. destruct (finish_run s qs pcs c e waited HB HW Hb He Hc) as (r & s' & E & Hr & H1); [lia|].
    fold (taken s (sem_of c) e). step_with E. exists (inl r), s'. split_and!; [done|done|]. eauto.
  - assert (counter e = 0) as Hc0. { destruct (sem_of_ok s qs c HB Hb) as (e1 & He1 & _ & ? & _). rewrite He in He1. simplify_eq. lia. }
    destruct (Z.eqb_spec (call_tm c) SYS_ARCH_NOWAIT) as [E1|E1].
    + step_pure. destruct HT as (o & s' & [[E Ho]|?]); [|by rewrite E1 in *]. exists o, s'. split_and!; [done|done|]. intros Hg. apply Hgo in Hg. lia.
    + rewrite bind_assoc. step_pure. rewrite bind_assoc. do 2 step_pure. destruct (block_ok s qs pcs t c e waited HB HW Hb Ht He Hc0 Hwt) as [H1 H2].
      eexists _, _. split; [done|]. split; [by split_and!|]. intros Hg. apply Hgo in Hg. lia.
Qed.

Lemma begin_run s qs pcs t c : boxes_ok s qs → waiters_ok s pcs → call_box c ∈ L → pcs !! t = None →
  ∃ o s', begin_call t c s = Ret o s' ∧ outcome_ok s' qs pcs t c o.
Proof.
  intros HB HW Hb Ht. destruct (sem_of_ok s qs c HB Hb) as (e & He & Hf & _ & _ & eb & Heb & Hbf & Ecs).
  destruct (go_on_run s qs pcs t c 0 e HB HW Hb Ht He ltac:(done)) as (o & s' & E & Ho & _). exists o, s'. split; [|done].
  rewrite <-E. unfold begin_call, mbox_at, wait_begin, sem_at, go_on. rewrite bind_assoc. step_pure. rewrite Heb.
  step_with (eq_refl : deref (Some eb) s = Ret eb s). rewrite Hbf. step_with (eq_refl : assert_ (negb false) s = Ret tt s). rewrite Ecs.
  rewrite !bind_assoc. step_pure. rewrite He. step_with (eq_refl : deref (Some e) s = Ret e s). rewrite Hf.
  rewrite bind_assoc. step_with (eq_refl : assert_ (negb false) s = Ret tt s). rewrite bind_assoc.
  unfold bind. by destruct (wait_round _ _ _ _ s) as [[]| | |].
Qed.

Lemma waiters_delete s pcs t : waiters_ok s pcs → waiters_ok (set_waiting (delete t) s) (delete t pcs).
Proof.
  intros H t' w Hw. apply lookup_delete_Some in Hw as [Hne Hw]. destruct (H t' w Hw) as (H1 & H2 & Hwt & e & x & H3 & H4 & H5 & H6).
  split_and!; [done|done|apply Hwt|apply Hwt|]. exists e, x. cbn. rewrite lookup_delete_ne by done. done.
Qed.

Lemma resume_run s qs pcs t w dt : boxes_ok s qs → waiters_ok s pcs → pcs !! t = Some w →
  0 ≤ dt → w_waited w + dt < SYS_ARCH_TIMEOUT →
  ∃ o s', resume_call t w dt s = Ret o s' ∧ outcome_ok s' qs (delete t pcs) t (w_call w) o ∧
    (can_go qs (w_call w) → runnable s t (w_sem w) (w_v w) ∧
       (call_tm (w_call w) = 0 ∨ w_waited w + dt < call_tm (w_call w) → ∃ r, o = inl r ∧ r ≠ TimedOut)).
Proof.
  intros HB HW Hw Hdt Hsum. destruct (HW t w Hw) as (Hb & Es & Hwt & e & x & He & Hg & Hx & Hv).
  set (s1 := set_waiting (delete t) s). assert (boxes_ok s1 qs) as HB1.
  { intros b Hb'. apply (box_frame s); [done..|by apply HB]. }
  assert (0 ≤ w_waited w + dt < SYS_ARCH_TIMEOUT) as Hr by lia. unfold SYS_ARCH_TIMEOUT in *.
  pose proof (waiters_delete _ _ t HW) as HW1. rewrite Es in He.
  destruct (go_on_run s1 qs (delete t pcs) t (w_call w) (w_waited w + dt) e HB1 HW1 Hb) as (o & s' & E & Ho & Hgo);
    [apply lookup_delete_eq|done|unfold SYS_ARCH_TIMEOUT; lia|]. exists o, s'. split_and!; [|done|].
  - rewrite <-E. unfold resume_call, wait_resume, go_on, sem_at. rewrite bind_assoc. step_pure. fold s1. rewrite !bind_assoc. step_pure.
    change (sems s1) with (sems s). rewrite Es, He. step_with (eq_refl : deref (Some e) s1 = Ret e s1).
    rewrite Hg, Z.eqb_refl, u32_small by lia. done.
  - intros Hcan. split; [|by apply Hgo]. destruct x; [left; by exists (w_sem w)|]. destruct (Hv eq_refl) as [Hc _].
    apply (can_go_counter s qs _ e) in Hcan; [lia|done|done|done].
Qed.

(** ** Interleavings *)

Record conf := mkC { c_sys : sys; c_pcs : gmap Z wrec }.
(** A call returned, or its thread went to wait. *)
Inductive event := Done (c : call) (r : res) | Blocked (t : Z).

(** A thread may also run again without a reason, when its time is up or the clock
    says so; the time waited stays below 2^32 - 1 ms. *)
Inductive step : conf → event → conf → Prop :=
  | begin_done C t c r s' : c_pcs C !! t = None → call_box c ∈ L → begin_call t c (c_sys C) = Ret (inl r) s' →
      step C (Done c r) (mkC s' (c_pcs C))
  | begin_block C t c w s' : c_pcs C !! t = None → call_box c ∈ L → begin_call t c (c_sys C) = Ret (inr w) s' →
      step C (Blocked t) (mkC s' (<[t := w]> (c_pcs C)))
  | resume_done C t w dt r s' : c_pcs C !! t = Some w → 0 ≤ dt → w_waited w + dt < SYS_ARCH_TIMEOUT →
      resume_call t w dt (c_sys C) = Ret (inl r) s' → step C (Done (w_call w) r) (mkC s' (delete t (c_pcs C)))
  | resume_block C t w dt w' s' : c_pcs C !! t = Some w → 0 ≤ dt → w_waited w + dt < SYS_ARCH_TIMEOUT →
      resume_call t w dt (c_sys C) = Ret (inr w') s' → step C (Blocked t) (mkC s' (<[t := w']> (delete t (c_pcs C)))).

Inductive steps : conf → list event → conf → Prop :=
  | steps_nil C : steps C [] C
  | steps_snoc C tr C1 ev C2 : steps C tr C1 → step C1 ev C2 → steps C (tr ++ [ev]) C2.

(** The messages posted to and fetched from mailbox [b], in order. *)
Definition posted (b : Z) (tr : list event) : list Z :=
  omap (λ ev, match ev with Done (Post b' m) Posted => if decide (b' = b) then Some m else None | _ => None end) tr.
Definition fetched (b : Z) (tr : list event) : list Z :=
  omap (λ ev, match ev with Done (Fetch b' _) (Fetched m) => if decide (b' = b) then Some m else None | _ => None end) tr.

Definition inv (tr : list event) (C : conf) (qs : Z → list Z) : Prop :=
  boxes_ok (c_sys C) qs ∧ waiters_ok (c_sys C) (c_pcs C) ∧ ∀ b, b ∈ L → posted b tr = fetched b tr ++ qs b.

Lemma inv_done tr qs c r s' pcs : (∀ b, b ∈ L → posted b tr = fetched b tr ++ qs b) → call_box c ∈ L →
  res_ok qs c r → boxes_ok s' (step_queue qs c r) → waiters_ok s' pcs →
  inv (tr ++ [Done c r]) (mkC s' pcs) (step_queue qs c r).
Proof.
  intros Hq Hb Hr HB HW. split_and!; [done|done|]. intros b Hb'. unfold posted, fetched. rewrite !omap_app.
  fold (posted b tr) (fetched b tr). rewrite (Hq b Hb'). destruct c as [b' m|b' tm], r; cbn in *; try done.
  - destruct (decide (b' = b)) as [->|]; [rewrite decide_True by done|rewrite decide_False by done]; cbn; by rewrite ?app_nil_r, ?app_assoc.
  - destruct (decide (b' = b)) as [->|]; [rewrite decide_True by done|rewrite decide_False by done]; cbn; rewrite ?app_nil_r; [|done].
    destruct (qs b) as [|m' q]; [done|]. cbn in *. simplify_eq. by rewrite <-app_assoc.
  - by rewrite !app_nil_r.
Qed.

Lemma inv_step tr C qs ev C' : inv tr C qs → step C ev C' → ∃ qs', inv (tr ++ [ev]) C' qs'.
Proof.
  intros (HB & HW & Hq) H. assert (∀ t b, b ∈ L → posted b (tr ++ [Blocked t]) = fetched b (tr ++ [Blocked t]) ++ qs b) as Hblk.
  { intros t b Hb. unfold posted, fetched. rewrite !omap_app. cbn. rewrite !app_nil_r. by apply Hq. }
  destruct H as [C t c r s' Ht Hb E|C t c w s' Ht Hb E|C t w dt r s' Hw Hdt Hs E|C t w dt w' s' Hw Hdt Hs E].
  - destruct (begin_run _ qs _ t c HB HW Hb Ht) as (o & s1 & E1 & Ho). rewrite E in E1. simplify_eq. destruct Ho as (H1 & H2 & H3).
    eexists. by apply inv_done.
  - destruct (begin_run _ qs _ t c HB HW Hb Ht) as (o & s1 & E1 & Ho). rewrite E in E1. simplify_eq. destruct Ho as (H1 & H2 & H3).
    exists qs. split_and!; [done|done|apply Hblk].
  - destruct (resume_run _ qs _ t w dt HB HW Hw Hdt Hs) as (o & s1 & E1 & Ho & _). rewrite E in E1. simplify_eq. destruct Ho as (H1 & H2 & H3).
    eexists. apply inv_done; try done. by apply (HW t w Hw).
  - destruct (resume_run _ qs _ t w dt HB HW Hw Hdt Hs) as (o & s1 & E1 & Ho & _). rewrite E in E1. simplify_eq. destruct Ho as (H1 & H2 & H3).
    exists qs. split_and!; [done|done|apply Hblk].
Qed.

Lemma inv_steps s0 tr C : boxes_ok s0 (λ _, []) → steps (mkC s0 ∅) tr C → ∃ qs, inv tr C qs.
Proof.
  intros H0 H. remember (mkC s0 ∅) as C0 eqn:E. induction H as [C|C tr C1 ev C2 H IH Hs]; subst.
  - exists (λ _, []). split_and!; [done| |done]. intros t w Hw. cbn in Hw. by rewrite lookup_empty in Hw.
  - destruct (IH eq_refl) as [qs Hi]. by eapply inv_step.
Qed.
End boxes.

(** C18  Mailboxes (net/lwip/jos/arch/sys_arch.c) are bounded queues in every
    interleaving of any number of threads that post and fetch.  For every mailbox the
    messages fetched so far are the messages posted so far, in order, up to at most
    32 still inside; no call fails: the assertion of [sys_mbox_post] holds, a fetch
    never finds the ring empty behind its semaphore.  And no wake-up is lost: a
    thread that waits to fetch from a mailbox that is not empty, or to post to one
    that is not full, is runnable, and when it runs before its time is up its call
    succeeds. *)
Theorem mbox_fifo (L : list Z) (Q F : Z → Z) (s0 : sys) (tr : list event) (C : conf)
    (HQ : ∀ b b', b ∈ L → b' ∈ L → Q b = Q b' → b = b') (HF : ∀ b b', b ∈ L → b' ∈ L → F b = F b' → b = b')
    (HQF : ∀ b b', b ∈ L → b' ∈ L → Q b ≠ F b')
    (H0 : boxes_ok L Q F s0 (λ _, [])) (Hs : steps L (mkC s0 ∅) tr C) :
  ∃ qs, (∀ b, b ∈ L → posted b tr = fetched b tr ++ qs b ∧ Z.of_nat (length (qs b)) ≤ 32) ∧
    (∀ t c, c_pcs C !! t = None → call_box c ∈ L → ∃ o s', begin_call t c (c_sys C) = Ret o s') ∧
    (∀ t w dt, c_pcs C !! t = Some w → 0 ≤ dt → w_waited w + dt < SYS_ARCH_TIMEOUT →
       ∃ o s', resume_call t w dt (c_sys C) = Ret o s' ∧
         (can_go qs (w_call w) → runnable (c_sys C) t (w_sem w) (w_v w) ∧
            (call_tm (w_call w) = 0 ∨ w_waited w + dt < call_tm (w_call w) → ∃ r, o = inl r ∧ r ≠ TimedOut))).
Proof.
  destruct (inv_steps L Q F HQ HF HQF s0 tr C H0 Hs) as (qs & HB & HW & Hq). exists qs. split_and!.
  - intros b Hb. split; [by apply Hq|]. destruct (HB b Hb) as [(e & _ & _ & _ & _ & Hr) _ _]. apply Hr.
  - intros t c Ht Hb. destruct (begin_run L Q F HQ HF HQF _ qs _ t c HB HW Hb Ht) as (o & s' & E & _). eauto.
  - intros t w dt Hw Hdt Hsum. destruct (resume_run L Q F HQ HF HQF _ qs _ t w dt HB HW Hw Hdt Hsum) as (o & s' & E & _ & Hgo). eauto.
Qed.

(** One mailbox; thread 1 waits for a message, thread 2 posts one. *)
Definition ex_box : sys :=
  mkSys {[ 0 := mkSem false 1 0 0; 1 := mkSem false 1 32 0 ]} [] {[ 5 := mkMbox false (-1) 0 ∅ 0 1 ]} [] ∅.

Lemma ex_box_ok : boxes_ok [5] (λ _, 0) (λ _, 1) ex_box (λ _, []).
Proof.
  intros b Hb. apply list_elem_of_singleton in Hb as ->. split.
  - eexists. split; [reflexivity|]. split_and!; [done|done|done|]. split; [done|done|done|done].
  - eexists. split; [reflexivity|]. done.
  - eexists. split; [reflexivity|]. done.
Qed.

Lemma mbox_fifo_witness :
  ∃ s1 w s2, begin_call 1 (Fetch 5 0) ex_box = Ret (inr w) s1 ∧ begin_call 2 (Post 5 77) s1 = Ret (inl Posted) s2 ∧
    runnable s2 1 (w_sem w) (w_v w) ∧ ∃ r s3, resume_call 1 w 10 s2 = Ret (inl r) s3 ∧ r ≠ TimedOut.
Proof.
  destruct (begin_call 1 (Fetch 5 0) ex_box) as [[|w] s1| | |] eqn:E1; try (vm_compute in E1; discriminate E1).
  destruct (begin_call 2 (Post 5 77) s1) as [[r|] s2| | |] eqn:E2; try (vm_compute in E1; injection E1 as <- <-; vm_compute in E2; discriminate E2).
  assert (r = Posted) as -> by (vm_compute in E1; injection E1 as <- <-; vm_compute in E2; by injection E2).
  exists s1, w, s2.
  assert (Hst : steps [5] (mkC ex_box ∅) ([Blocked 1] ++ [Done (Post 5 77) Posted]) (mkC s2 {[ 1 := w ]})).
  { apply (steps_snoc _ _ [Blocked 1] (mkC s1 {[ 1 := w ]})).
    - apply (steps_snoc _ _ [] (mkC ex_box ∅)); [constructor|].
      apply (begin_block [5] (mkC ex_box ∅) 1 (Fetch 5 0)); [reflexivity|by apply list_elem_of_singleton|exact E1].
    - exact (begin_done [5] (mkC s1 {[ 1 := w ]}) 2 (Post 5 77) Posted s2 eq_refl (list_elem_of_here _ _) E2). }
  destruct (mbox_fifo [5] (λ _, 0) (λ _, 1) ex_box _ _ ltac:(set_solver) ltac:(set_solver) ltac:(done) ex_box_ok Hst) as (qs & H1 & _ & H3).
  destruct (H1 5) as [Hq _]; [by apply list_elem_of_singleton|]. cbn in Hq.
  assert (Ew : w_call w = Fetch 5 0 ∧ w_waited w = 0) by (vm_compute in E1; by injection E1 as <- _).
  destruct (H3 1 w 10) as (o & s3 & E3 & Hgo); [reflexivity|lia|destruct Ew as [_ ->]; vm_compute; reflexivity|].
  destruct Hgo as [Hrun Hok]; [destruct Ew as [-> _]; cbn; by rewrite <-Hq|].
  split; [reflexivity|]. split; [exact E2|]. split; [exact Hrun|].
  destruct Hok as (r & -> & Hr); [left; by destruct Ew as [-> _]|]. exists r, s3. split; [exact E3|exact Hr].
Defined.

(** ** Allocation *)

(** The free lists hold free entries, and the mailboxes in use and their semaphores
    are not in them. *)
Record alloc_ok (s : sys) (L : list Z) (Q F : Z → Z) : Prop := {
  al_sems : NoDup (sem_free s);
  al_sem k : k ∈ sem_free s → k ≠ SYS_SEM_NULL ∧ ∃ e, sems s !! k = Some e ∧ s_freed e = true ∧ 0 ≤ waiters e ≤ 1;
  al_boxes : NoDup (mbox_free s);
  al_box b : b ∈ mbox_free s → b ∉ L ∧ ∃ e, mboxes s !! b = Some e ∧ m_freed e = true;
  al_used b : b ∈ L → Q b ∉ sem_free s ∧ F b ∉ sem_free s
}.

Lemma sem_new_run s k l count e : sem_free s = k :: l → sems s !! k = Some e → s_freed e = true →
  sys_sem_new count s = Ret k (set_sems <[k := mkSem false (i32 (gen e + 1)) (u8 count) (waiters e)]> (set_sem_free (λ _, l) s)).
Proof.
  intros E He Hf. unfold sys_sem_new, sem_at, put_sem. step_pure. rewrite E. step_pure. rewrite bind_assoc. step_pure.
  cbn [sems set_sem_free]. rewrite He. step_with (eq_refl : deref (Some e) (set_sem_free (λ _, l) s) = Ret e _).
  rewrite Hf. by step_with (eq_refl : assert_ true (set_sem_free (λ _, l) s) = Ret tt _).
Qed.

(** A new mailbox is empty and has two semaphores of its own; the others stay. *)
Theorem mbox_new_correct (L : list Z) (Q F : Z → Z) (s : sys) (qs : Z → list Z) (size b k1 k2 : Z) (lb ls : list Z)
    (Ha : alloc_ok s L Q F) (HB : boxes_ok L Q F s qs) (Hsize : size < 32)
    (Eb : mbox_free s = b :: lb) (Es : sem_free s = k1 :: k2 :: ls) :
  let upd {A} (f : Z → A) (x : A) := λ b', if decide (b' = b) then x else f b' in
  ∃ s', sys_mbox_new size s = Ret b s' ∧ waiting s' = waiting s ∧
    alloc_ok s' (b :: L) (upd Q k1) (upd F k2) ∧ boxes_ok (b :: L) (upd Q k1) (upd F k2) s' (upd qs []).
Proof.
  intros upd. destruct Ha as [A1 A2 A3 A4 A5]. rewrite Es in A1, A2, A5. rewrite Eb in A3, A4.
  destruct (A2 k1) as (Hk1 & e1 & He1 & Hf1 & Hw1); [set_solver|]. destruct (A2 k2) as (Hk2 & e2 & He2 & Hf2 & Hw2); [set_solver|].
  destruct (A4 b) as (HbL & e & He & Hf); [set_solver|].
  apply NoDup_cons in A1 as [N1 A1]. apply NoDup_cons in A1 as [N2 A1]. apply NoDup_cons in A3 as [N3 A3].
  assert (k1 ≠ k2) as Hk12 by set_solver.
  unfold sys_mbox_new, mbox_at, put_mbox. change MBOXSLOTS with 32. destruct (Z.ltb_spec size 32); [|lia].
  step_with (eq_refl : assert_ true s = Ret tt s). step_pure. rewrite Eb. step_pure. rewrite bind_assoc. step_pure.
  cbn [mboxes set_mbox_free]. rewrite He. set (s1 := set_mbox_free (λ _, lb) s).
  step_with (eq_refl : deref (Some e) s1 = Ret e s1). rewrite Hf. step_with (eq_refl : assert_ true s1 = Ret tt s1).
  step_with (sem_new_run s1 k1 (k2 :: ls) 0 e1 Es He1 Hf1). set (s2 := set_sems _ _).
  assert (sems s2 !! k2 = Some e2) as He2' by (cbn; by rewrite lookup_insert_ne).
  step_with (sem_new_run s2 k2 ls 32 e2 eq_refl He2' Hf2). step_pure.
  unfold SYS_SEM_NULL in *. destruct (Z.eqb_spec k1 (-1)); [done|]. destruct (Z.eqb_spec k2 (-1)); [done|]. cbn [orb].
  eexists. split; [done|]. split; [done|]. split.
  - split; cbn [sem_free mbox_free sems mboxes set_mboxes set_sems set_sem_free set_mbox_free s2 s1]; [done| |done| |].
    + intros k Hk. destruct (A2 k) as (? & e' & He' & ?); [set_solver|]. split; [done|]. exists e'.
      rewrite !lookup_insert_ne by (intros ->; set_solver). done.
    + intros b' Hb'. destruct (A4 b') as (? & e' & He' & ?); [set_solver|]. split; [set_solver|]. exists e'.
      rewrite lookup_insert_ne by (intros ->; set_solver). done.
    + intros b' Hb'. unfold upd. case_decide; [set_solver|]. destruct (A5 b'); set_solver.
  - intros b' Hb'. unfold upd. case_decide as Hbb.
    + subst b'. split; cbn [mboxes sems set_mboxes set_sems set_sem_free set_mbox_free s2 s1].
      * eexists. rewrite lookup_insert_eq, !decide_True by done. split; [done|]. split_and!; [done|done|done|]. split; [cbn; lia|cbn; lia|done|done].
      * eexists. cbn. rewrite decide_True, lookup_insert_ne, lookup_insert_eq by done. split_and!; [done|done|done|cbn; lia|cbn; lia].
      * eexists. cbn. rewrite decide_True, lookup_insert_eq by done. split_and!; [done|done|done|cbn; lia|cbn; lia].
    + apply elem_of_cons in Hb' as [?|Hb']; [done|]. destruct (A5 b' Hb') as [H1 H2]. destruct (HB b' Hb') as [G1 G2 G3].
      split; cbn [mboxes sems set_mboxes set_sems set_sem_free set_mbox_free s2 s1].
      * destruct G1 as (e' & G1). exists e'. by rewrite lookup_insert_ne, !decide_False by done.
      * destruct G2 as (e' & G2). exists e'. cbn. rewrite decide_False, !lookup_insert_ne by set_solver. done.
      * destruct G3 as (e' & G3). exists e'. cbn. rewrite decide_False, !lookup_insert_ne by set_solver. done.
Qed.

(** With a semaphore missing, the error path of [sys_mbox_new] frees semaphore -1,
    outside the array. *)
Lemma mbox_new_without_sem s size b lb e :
  size < 32 → mbox_free s = b :: lb → mboxes s !! b = Some e → m_freed e = true → sem_free s = [] → sems s !! (-1) = None →
  sys_mbox_new size s = Undef.
Proof.
  intros Hs Eb He Hf Es Hn. unfold sys_mbox_new. change MBOXSLOTS with 32. destruct (Z.ltb_spec size 32); [|lia].
  unfold bind, assert_, ret, gets, mbox_at, sys_sem_new. cbv beta iota. rewrite Eb. cbn. rewrite He. cbn. rewrite Hf. cbn. rewrite Es. cbn. rewrite Es. cbn.
  unfold sys_mbox_free, sys_sem_free, sem_at, mbox_at, bind, gets, deref. cbn. rewrite lookup_insert_eq. cbn. change SYS_SEM_NULL with (-1). by rewrite Hn.
Qed.
