(* ===== verification/Pbuf.v ===== *)
(** * Packet buffers of lwIP: net/lwip/core/pbuf.c

    All operations on chains of packet buffers.  A [struct pbuf] is a record in a map
    from pointers, the data is a memory of bytes; an access to a buffer that was
    freed is undefined.  The pools of memp.c and the heap of mem.c appear through the
    class [BufMem].  The theorems say what the operations do to the bytes of a chain
    laid end to end, to its length fields and to its reference counts. *)

From S2P Require Import Prelude Strings Chksum Lwmem.

(** ** Data *)

Inductive pbuf_type := PBUF_RAM | PBUF_ROM | PBUF_REF | PBUF_POOL.
Inductive pbuf_layer := PBUF_TRANSPORT | PBUF_IP | PBUF_LINK | PBUF_RAW.
#[export] Instance pbuf_type_eq : EqDecision pbuf_type.
Proof. solve_decision. Defined.

Definition PBUF_TRANSPORT_HLEN : Z := 20.
Definition PBUF_IP_HLEN : Z := 20.
Definition PBUF_LINK_HLEN : Z := 14.
Definition PBUF_POOL_BUFSIZE_ALIGNED : Z := Eval cbv in LWIP_MEM_ALIGN_SIZE 2000.
Definition SIZEOF_STRUCT_PBUF : Z := Eval cbv in LWIP_MEM_ALIGN_SIZE 24.
Definition ERR_OK : Z := 0.
Definition ERR_VAL : Z := -9.
Definition ERR_ARG : Z := -10.

(** [struct pbuf]; a null [next] is 0. *)
Record buf := mkBuf { next : Z; payload : Z; tot_len : Z; len : Z; type : pbuf_type; flags : Z; ref : Z }.
Definition set_next v b := mkBuf v (payload b) (tot_len b) (len b) (type b) (flags b) (ref b).
Definition set_payload v b := mkBuf (next b) v (tot_len b) (len b) (type b) (flags b) (ref b).
Definition set_tot v b := mkBuf (next b) (payload b) v (len b) (type b) (flags b) (ref b).
Definition set_len v b := mkBuf (next b) (payload b) (tot_len b) v (type b) (flags b) (ref b).
Definition set_ref v b := mkBuf (next b) (payload b) (tot_len b) (len b) (type b) (flags b) v.

Record pst := mkPst { bufs : gmap Z buf; dat : bytes }.
Definition PM (A : Type) : Type := M pst A.
Definition set_bufs f (s : pst) : pst := mkPst (f (bufs s)) (dat s).
Definition set_dat f (s : pst) : pst := mkPst (bufs s) (f (dat s)).

Definition get (p : Z) : PM buf := b <- gets (λ s, bufs s !! p) ;; deref b.
Definition put (p : Z) (b : buf) : PM unit := modify (set_bufs <[p := b]>).
Definition upd (p : Z) (f : buf → buf) : PM unit := b <- get p ;; put p (f b).

(** What the operations need of memory: [memp_malloc] from the two pools of buffers
    and [mem_malloc] give a new aligned element or null; [mem_realloc] to a size that
    is no larger leaves the element where it is. *)
Class BufMem := {
  memp_malloc : pbuf_type → pst → option Z;
  mem_malloc : Z → pst → option Z;
  mem_realloc : Z → Z → pst → Z;
  memp_fresh ty s p : memp_malloc ty s = Some p → bufs s !! p = None ∧ 0 < p ∧ p mod 4 = 0 ∧ p + 4096 < 2 ^ 64;
  mem_fresh n s p : mem_malloc n s = Some p → bufs s !! p = None ∧ 0 < p ∧ p mod 4 = 0 ∧ p + 2 ^ 17 < 2 ^ 64;
  mem_stays p b n s : bufs s !! p = Some b → n ≤ payload b - p + len b → mem_realloc p n s = p
}.

Section pbuf.
Context `{BufMem}.

(** [memp_free] and [mem_free]. *)
Definition release (p : Z) : PM unit := modify (set_bufs (delete p)).

(** ** Reference counts *)

Fixpoint pfree_loop (fuel : nat) (p count : Z) : PM Z :=
  match fuel with
  | O => noret
  | S fuel' =>
      if p =? 0 then ret count else
      b <- get p ;;
      assert_ (0 <? ref b) ;;;
      let ref := u16 (ref b - 1) in
      put p (set_ref ref b) ;;;
      if ref =? 0 then release p ;;; pfree_loop fuel' (next b) (u8 (count + 1))
      else pfree_loop fuel' 0 count
  end.

(** The loop takes a buffer out in every round but the last two. *)
Definition pbuf_free (p : Z) : PM Z :=
  assert_ (negb (p =? 0)) ;;;
  get p ;;;
  n <- gets (λ s, size (bufs s)) ;;
  pfree_loop (S (S n)) p 0.

Fixpoint clen_loop (fuel : nat) (p n : Z) : PM Z :=
  match fuel with
  | O => noret
  | S fuel' => if p =? 0 then ret n else b <- get p ;; clen_loop fuel' (next b) (u8 (n + 1))
  end.
Definition pbuf_clen (p : Z) : PM Z := n <- gets (λ s, size (bufs s)) ;; clen_loop (S n) p 0.

Definition pbuf_ref (p : Z) : PM unit :=
  if negb (p =? 0) then upd p (λ b, set_ref (u16 (ref b + 1)) b) else ret tt.

(** ** Chains *)

(** To the last buffer of the chain. *)
Fixpoint cat_loop (fuel : nat) (p t : Z) : PM Z :=
  match fuel with
  | O => noret
  | S fuel' =>
      b <- get p ;;
      if negb (next b =? 0) then
        tb <- get t ;;
        upd p (λ b, set_tot (u16 (tot_len b + tot_len tb)) b) ;;;
        b <- get p ;;
        cat_loop fuel' (next b) t
      else ret p
  end.

Definition pbuf_cat (h t : Z) : PM unit :=
  assert_ (negb (h =? 0) && negb (t =? 0)) ;;;
  n <- gets (λ s, size (bufs s)) ;;
  p <- cat_loop n h t ;;
  b <- get p ;;
  assert_ (tot_len b =? len b) ;;;
  assert_ (next b =? 0) ;;;
  tb <- get t ;;
  upd p (λ b, set_tot (u16 (tot_len b + tot_len tb)) b) ;;;
  upd p (set_next t).

Definition pbuf_chain (h t : Z) : PM unit := pbuf_cat h t ;;; pbuf_ref t.

Definition pbuf_dechain (p : Z) : PM Z :=
  b <- get p ;;
  let q := next b in
  tail_gone <- (if negb (q =? 0) then
      qb <- get q ;;
      assert_ (tot_len qb =? tot_len b - len b) ;;;
      upd q (set_tot (u16 (tot_len b - len b))) ;;;
      upd p (set_next 0) ;;;
      upd p (λ b, set_tot (len b) b) ;;;
      pbuf_free q
    else ret 1) ;;
  b <- get p ;;
  assert_ (tot_len b =? len b) ;;;
  ret (if 0 <? tail_gone then 0 else q).

(** ** Allocation *)

Definition layer_offset (l : pbuf_layer) : Z :=
  match l with
  | PBUF_TRANSPORT => PBUF_TRANSPORT_HLEN + PBUF_IP_HLEN + PBUF_LINK_HLEN
  | PBUF_IP => PBUF_IP_HLEN + PBUF_LINK_HLEN
  | PBUF_LINK => PBUF_LINK_HLEN
  | PBUF_RAW => 0
  end.

(** The rest of a chain from the pool, behind [r]; [false] when the pool is empty. *)
Fixpoint pool_loop (fuel : nat) (p r rem_len : Z) : PM bool :=
  match fuel with
  | O => noret
  | S fuel' =>
      if 0 <? rem_len then
        o <- gets (memp_malloc PBUF_POOL) ;;
        match o with
        | None => pbuf_free p ;;; ret false
        | Some q =>
            upd r (set_next q) ;;;
            assert_ (rem_len <? 0xffff) ;;;
            let n := Z.min (u16 rem_len) PBUF_POOL_BUFSIZE_ALIGNED in
            put q (mkBuf 0 (q + SIZEOF_STRUCT_PBUF) (u16 rem_len) n PBUF_POOL 0 1) ;;;
            assert_ ((q + SIZEOF_STRUCT_PBUF) mod MEM_ALIGNMENT =? 0) ;;;
            pb <- get p ;;
            assert_ (payload pb + len pb <=? p + SIZEOF_STRUCT_PBUF + PBUF_POOL_BUFSIZE_ALIGNED) ;;;
            pool_loop fuel' p q (rem_len - n)
        end
      else ret true
  end.

(** The flags of the first buffer are set at the end; no caller of the steps between
    reads them, so they are set at once. *)
Definition pbuf_alloc (layer : pbuf_layer) (length : Z) (ty : pbuf_type) : PM Z :=
  let offset := layer_offset layer in
  match ty with
  | PBUF_POOL =>
      o <- gets (memp_malloc PBUF_POOL) ;;
      match o with
      | None => ret 0
      | Some p =>
          let payload := LWIP_MEM_ALIGN (p + (SIZEOF_STRUCT_PBUF + offset)) in
          assert_ (payload mod MEM_ALIGNMENT =? 0) ;;;
          let n := Z.min length (PBUF_POOL_BUFSIZE_ALIGNED - LWIP_MEM_ALIGN_SIZE offset) in
          assert_ (payload + n <=? p + SIZEOF_STRUCT_PBUF + PBUF_POOL_BUFSIZE_ALIGNED) ;;;
          put p (mkBuf 0 payload length n PBUF_POOL 0 1) ;;;
          ok <- pool_loop (S (Z.to_nat (length - n))) p p (length - n) ;;
          ret (if (ok : bool) then p else 0)
      end
  | PBUF_RAM =>
      o <- gets (mem_malloc (u32 (LWIP_MEM_ALIGN_SIZE (SIZEOF_STRUCT_PBUF + offset) + LWIP_MEM_ALIGN_SIZE length))) ;;
      match o with
      | None => ret 0
      | Some p =>
          let payload := LWIP_MEM_ALIGN (p + SIZEOF_STRUCT_PBUF + offset) in
          put p (mkBuf 0 payload length length PBUF_RAM 0 1) ;;;
          assert_ (payload mod MEM_ALIGNMENT =? 0) ;;;
          ret p
      end
  | _ =>
      o <- gets (memp_malloc ty) ;;
      match o with
      | None => ret 0
      | Some p => put p (mkBuf 0 0 length length ty 0 1) ;;; ret p
      end
  end.

(** ** Changes of length *)

(** Over the buffers that stay; gives the last one and the length left for it. *)
Fixpoint realloc_loop (fuel : nat) (q rem_len grow : Z) : PM (Z * Z) :=
  match fuel with
  | O => noret
  | S fuel' =>
      b <- get q ;;
      if len b <? rem_len then
        assert_ (grow <? 0xffff) ;;;
        put q (set_tot (u16 (tot_len b + u16 grow)) b) ;;;
        assert_ (negb (next b =? 0)) ;;;
        realloc_loop fuel' (next b) (u16 (rem_len - len b)) grow
      else ret (q, rem_len)
  end.

(** [q] becomes the last buffer, with [rem_len] bytes. *)
Definition cut_last (q rem_len : Z) : PM unit :=
  b <- get q ;;
  q <- (if bool_decide (type b = PBUF_RAM) && negb (rem_len =? len b)
        then q <- gets (mem_realloc q (payload b - q + rem_len)) ;; assert_ (negb (q =? 0)) ;;; ret q
        else ret q) ;;
  upd q (set_len rem_len) ;;;
  upd q (λ b, set_tot (len b) b) ;;;
  b <- get q ;;
  (if negb (next b =? 0) then pbuf_free (next b) ;;; ret tt else ret tt) ;;;
  upd q (set_next 0).

Definition pbuf_realloc (p new_len : Z) : PM unit :=
  assert_ (negb (p =? 0)) ;;;
  b <- get p ;;
  if tot_len b <=? new_len then ret tt else
  n <- gets (λ s, size (bufs s)) ;;
  r <- realloc_loop (S n) p new_len (new_len - tot_len b) ;;
  let '(q, rem_len) := r in
  cut_last q rem_len.

(** The result is 0 for success. *)
Definition pbuf_header (p inc : Z) : PM Z :=
  assert_ (negb (p =? 0)) ;;;
  if inc =? 0 then ret 0 else
  b <- get p ;;
  assert_ (negb (inc <? 0) || (- inc <=? len b)) ;;;
  let finish pl := put p (set_tot (u16 (tot_len b + inc)) (set_len (u16 (len b + inc)) (set_payload pl b))) ;;; ret 0 in
  match type b with
  | PBUF_RAM | PBUF_POOL =>
      if payload b - inc <? p + SIZEOF_STRUCT_PBUF then ret 1 else finish (payload b - inc)
  | PBUF_REF | PBUF_ROM =>
      if (inc <? 0) && (- inc <=? len b) then finish (payload b - inc) else ret 1
  end.

(** ** Copies *)

Definition no_queue (p : Z) : PM unit :=
  if negb (p =? 0) then
    b <- get p ;;
    if len b =? tot_len b then assert_ (next b =? 0) else ret tt
  else ret tt.

Fixpoint copy_loop (fuel : nat) (p_to p_from offset_to offset_from : Z) : PM Z :=
  match fuel with
  | O => noret
  | S fuel' =>
      assert_ (negb (p_to =? 0)) ;;;
      bt <- get p_to ;;
      bf <- get p_from ;;
      let n := if len bf - offset_from <=? len bt - offset_to then len bf - offset_from else len bt - offset_to in
      modify (set_dat (λ m, memcpy m (payload bt + offset_to) (payload bf + offset_from) n)) ;;;
      let offset_to := u16 (offset_to + n) in
      let offset_from := u16 (offset_from + n) in
      assert_ (offset_to <=? len bt) ;;;
      let '(p_to, offset_to) := if offset_to =? len bt then (next bt, 0) else (p_to, offset_to) in
      assert_ (offset_from <=? len bf) ;;;
      let '(p_from, offset_from) := if len bf <=? offset_from then (next bf, 0) else (p_from, offset_from) in
      no_queue p_from ;;;
      no_queue p_to ;;;
      if negb (p_from =? 0) then copy_loop fuel' p_to p_from offset_to offset_from else ret ERR_OK
  end.

(** Every round ends one of the two buffers. *)
Definition pbuf_copy (p_to p_from : Z) : PM Z :=
  assert_ (negb (p_to =? 0) && negb (p_from =? 0)) ;;;
  bt <- get p_to ;;
  bf <- get p_from ;;
  assert_ (tot_len bf <=? tot_len bt) ;;;
  n <- gets (λ s, size (bufs s)) ;;
  copy_loop (S (n + n)) p_to p_from 0 0.

Fixpoint copy_out_loop (fuel : nat) (p dataptr left len_ offset copied : Z) : PM Z :=
  match fuel with
  | O => noret
  | S fuel' =>
      if negb (len_ =? 0) && negb (p =? 0) then
        b <- get p ;;
        if negb (offset =? 0) && (len b <=? offset) then
          copy_out_loop fuel' (next b) dataptr left len_ (u16 (offset - len b)) copied
        else
          let n := u16 (len b - offset) in
          let n := if len_ <? n then len_ else n in
          modify (set_dat (λ m, memcpy m (dataptr + left) (payload b + offset) n)) ;;;
          copy_out_loop fuel' (next b) dataptr (u16 (left + n)) (u16 (len_ - n)) 0 (u16 (copied + n))
      else ret copied
  end.

Definition pbuf_copy_partial (b dataptr len_ offset : Z) : PM Z :=
  assert_ (negb (b =? 0)) ;;;
  assert_ (negb (dataptr =? 0)) ;;;
  n <- gets (λ s, size (bufs s)) ;;
  copy_out_loop (S n) b dataptr 0 len_ offset 0.

(** ** Chains of buffers *)

Notation cell := (Z * buf)%type.
Implicit Types (m : gmap Z buf) (L : list cell) (s : pst).

Fixpoint lseg (m : gmap Z buf) (p : Z) (L : list cell) (q : Z) : Prop :=
  match L with
  | [] => p = q
  | (a, b) :: L' => p = a ∧ a ≠ 0 ∧ m !! a = Some b ∧ lseg m (next b) L' q
  end.
Definition chain (m : gmap Z buf) (p : Z) (L : list cell) : Prop := lseg m p L 0.

Lemma lseg_app m p L1 L2 q : lseg m p (L1 ++ L2) q ↔ ∃ r, lseg m p L1 r ∧ lseg m r L2 q.
Proof.
  revert p. induction L1 as [|[a b] L1 IH]; intros p; cbn [app lseg].
  - split; [by exists p|]. by intros (r & -> & ?).
  - rewrite IH. naive_solver.
Qed.

Lemma lseg_lookup m p L q a b : lseg m p L q → (a, b) ∈ L → m !! a = Some b ∧ a ≠ 0.
Proof.
  revert p. induction L as [|[a' b'] L IH]; intros p HL Hin; [by apply not_elem_of_nil in Hin|].
  destruct HL as (_ & H0 & H1 & HL). apply elem_of_cons in Hin as [E|Hin]; [by simplify_eq|by eapply IH].
Qed.

Lemma chain_det m p L1 L2 : chain m p L1 → chain m p L2 → L1 = L2.
Proof.
  unfold chain. revert p L2. induction L1 as [|[a b] L1 IH]; intros p L2 H1 H2.
  - destruct L2 as [|[a' b'] L2]; [done|]. cbn in *. naive_solver.
  - destruct L2 as [|[a' b'] L2]; cbn in *; [naive_solver|]. destruct H1 as (-> & ? & Ha & H1), H2 as (-> & ? & Ha' & H2).
    rewrite Ha in Ha'. simplify_eq. f_equal. by eapply IH.
Qed.

Lemma chain_nodup m p L : chain m p L → NoDup L.*1.
Proof.
  revert p. induction L as [|[a b] L IH]; intros p Hc; [constructor|]. pose proof Hc as (-> & H0 & Ha & Hn).
  constructor; [|by eapply IH]. intros Hin. apply list_elem_of_fmap in Hin as ([a' b'] & E & Hin). cbn in E. subst a'.
  apply list_elem_of_split in Hin as (L1 & L2 & ->). apply lseg_app in Hn as (r & _ & Hr).
  assert (r = a) as -> by (by destruct Hr). pose proof (chain_det _ _ _ _ Hc Hr) as E. apply (f_equal length) in E.
  cbn in E. rewrite length_app in E. cbn in E. lia.
Qed.

Lemma chain_size m p L : chain m p L → (length L ≤ size m)%nat.
Proof.
  intros Hc. rewrite <-(length_fmap fst L), <-(size_list_to_set (C := gset Z) (L.*1)) by (by eapply chain_nodup).
  rewrite <-(size_dom (D := gset Z)). apply subseteq_size. intros a Ha. apply elem_of_list_to_set in Ha.
  apply list_elem_of_fmap in Ha as ([a' b] & -> & Hin). apply elem_of_dom. destruct (lseg_lookup _ _ _ _ _ _ Hc Hin) as [E _]. by exists b.
Qed.

Lemma lseg_ext m m' p L q : (∀ a, a ∈ L.*1 → m' !! a = m !! a) → lseg m p L q → lseg m' p L q.
Proof.
  revert p. induction L as [|[a b] L IH]; intros p He HL; [done|]. destruct HL as (-> & H0 & H1 & HL). cbn.
  rewrite He by (cbn; left). split_and!; [done|done|done|]. apply IH; [|done]. intros a' Ha'. apply He. cbn. by right.
Qed.

(** Cells stored into the map. *)
Fixpoint writes (L : list cell) (m : gmap Z buf) : gmap Z buf :=
  match L with [] => m | (a, b) :: L' => <[a := b]> (writes L' m) end.

Lemma writes_out L m a : a ∉ L.*1 → writes L m !! a = m !! a.
Proof.
  induction L as [|[a' b'] L IH]; intros Ha; [done|]. cbn in *. apply not_elem_of_cons in Ha as [? Ha].
  by rewrite lookup_insert_ne, IH.
Qed.
Lemma writes_in L m a b : NoDup L.*1 → (a, b) ∈ L → writes L m !! a = Some b.
Proof.
  induction L as [|[a' b'] L IH]; intros Hn Hin; [by apply not_elem_of_nil in Hin|]. cbn in *. apply NoDup_cons in Hn as [Hn1 Hn2].
  apply elem_of_cons in Hin as [E|Hin]; [simplify_eq; apply lookup_insert_eq|].
  rewrite lookup_insert_ne; [by apply IH|]. intros ->. apply Hn1. apply list_elem_of_fmap. by exists (a, b).
Qed.

(** Lengths and contents. *)
Fixpoint total (L : list cell) : Z := match L with [] => 0 | (_, b) :: L' => len b + total L' end.
Fixpoint tot_ok (L : list cell) : Prop :=
  match L with [] => True | (_, b) :: L' => 0 ≤ len b ∧ tot_len b = len b + total L' ∧ tot_ok L' end.
Definition view (c : cell) : Chksum.pbuf := Pbuf (payload c.2) (len c.2).
(** The bytes of a chain laid end to end. *)
Definition octs (d : bytes) (L : list cell) : list Z := chain_octets d (view <$> L).

Lemma cells_app L1 L2 : total (L1 ++ L2) = total L1 + total L2.
Proof. induction L1 as [|[a b] L1 IH]; cbn; lia. Qed.
Lemma octs_app d L1 L2 : octs d (L1 ++ L2) = octs d L1 ++ octs d L2.
Proof. unfold octs, chain_octets. by rewrite fmap_app, bind_app. Qed.
Lemma tot_ok_total L : tot_ok L → 0 ≤ total L ∧ Z.of_nat (length (octs (∅ : bytes) L)) = total L.
Proof.
  induction L as [|[a b] L IH]; [done|]. cbn [tot_ok total]. intros (H1 & _ & H2). destruct (IH H2) as [IH1 IH2].
  split; [lia|]. unfold octs, chain_octets in *. cbn [fmap list_fmap view mbind list_bind]. rewrite length_app, length_octets. cbn. lia.
Qed.

Lemma get_run s p b : bufs s !! p = Some b → get p s = Ret b s.
Proof. intros E. unfold get. step_pure. by rewrite E. Qed.
Lemma upd_run s p b f : bufs s !! p = Some b → upd p f s = Ret tt (set_bufs <[p := f b]> s).
Proof. intros E. unfold upd. by step_with (get_run s p b E). Qed.

(** ** Freeing *)

Definition refs_ok (L : list cell) : Prop := Forall (λ c, 0 < ref c.2 < 2 ^ 16) L.

(** The buffers at the head of the chain that nothing else refers to. *)
Fixpoint dead (L : list cell) : list cell :=
  match L with (a, b) :: L' => if ref b =? 1 then (a, b) :: dead L' else [] | [] => [] end.

(** They go, and the first one behind them loses a reference. *)
Fixpoint free_effect (L : list cell) (m : gmap Z buf) : gmap Z buf :=
  match L with
  | [] => m
  | (a, b) :: L' => if ref b =? 1 then free_effect L' (delete a m) else <[a := set_ref (ref b - 1) b]> m
  end.

Lemma pfree_loop_run L : ∀ fuel p s count, chain (bufs s) p L → refs_ok L → (length L + 1 < fuel)%nat → 0 ≤ count < 256 →
  pfree_loop fuel p count s = Ret (u8 (count + Z.of_nat (length (dead L)))) (set_bufs (free_effect L) s).
Proof.
  induction L as [|[a b] L IH]; intros fuel p s count Hc Hr Hf Hn; (destruct fuel as [|fuel]; [lia|]); cbn [pfree_loop].
  - cbn in Hc. subst p. rewrite Z.eqb_refl. cbn. unfold u8. rewrite Z.add_0_r, (Z.mod_small count) by lia. by destruct s.
  - pose proof Hc as (-> & H0 & Ha & Hnx). apply Forall_cons in Hr as [Hb Hr]. cbn [snd] in Hb.
    destruct (Z.eqb_spec a 0); [done|]. step_with (get_run s a b Ha). destruct (Z.ltb_spec 0 (ref b)); [|lia].
    step_with (eq_refl : assert_ true s = Ret tt s). cbv zeta. rewrite u16_small by lia. unfold put. step_pure.
    cbn [dead free_effect]. destruct (Z.eqb_spec (ref b - 1) 0) as [E|E], (Z.eqb_spec (ref b) 1) as [E'|E']; try lia.
    + unfold release. step_pure. pose proof (chain_nodup _ _ _ Hc) as Hnd. cbn in Hnd. apply NoDup_cons in Hnd as [Hnd _].
      rewrite IH; [|cbn; rewrite delete_insert_eq; apply (lseg_ext (bufs s)); [|done]|done|cbn in Hf; lia|apply Z.mod_pos_bound; lia].
      * cbn [length]. unfold u8. rewrite Zplus_mod_idemp_l. unfold set_bufs. cbn [bufs dat]. rewrite delete_insert_eq. f_equal. f_equal. lia.
      * intros a' Ha'. apply lookup_delete_ne. intros ->. done.
    + destruct fuel as [|fuel]; [cbn in Hf; lia|]. cbn. unfold u8. by rewrite Z.add_0_r, (Z.mod_small count) by lia.
Qed.

Lemma pbuf_free_run s p L : chain (bufs s) p L → L ≠ [] → refs_ok L →
  pbuf_free p s = Ret (u8 (Z.of_nat (length (dead L)))) (set_bufs (free_effect L) s).
Proof.
  intros Hc Hne Hr. destruct L as [|[a b] L]; [done|]. pose proof Hc as (-> & H0 & Ha & _). unfold pbuf_free.
  destruct (Z.eqb_spec a 0); [done|]. step_with (eq_refl : assert_ true s = Ret tt s). step_with (get_run s a b Ha). step_pure.
  pose proof (chain_size _ _ _ Hc). rewrite (pfree_loop_run _ _ _ _ _ Hc Hr) by (done || lia). by rewrite Z.add_0_l.
Qed.

Lemma free_effect_out L m a : a ∉ L.*1 → free_effect L m !! a = m !! a.
Proof.
  revert m. induction L as [|[a' b] L IH]; intros m Ha; [done|]. cbn in *. apply not_elem_of_cons in Ha as [? Ha].
  destruct (ref b =? 1); [rewrite IH by done; by rewrite lookup_delete_ne|by rewrite lookup_insert_ne].
Qed.

(** All of a chain goes when nothing else refers to a buffer of it. *)
Lemma free_effect_all L m : Forall (λ c, ref c.2 = 1) L → (∀ a, a ∈ L.*1 → m !! a = None) → NoDup L.*1 →
  free_effect L (writes L m) = m.
Proof.
  revert m. induction L as [|[a b] L IH]; intros m Hr Hm Hn; [done|]. cbn in *. apply Forall_cons in Hr as [Hb Hr]. cbn in Hb. rewrite Hb.
  apply NoDup_cons in Hn as [Hn1 Hn2]. rewrite Z.eqb_refl, delete_insert_id; [apply IH; [done| |done]|].
  - intros a' Ha'. apply Hm. by right.
  - rewrite writes_out by done. apply Hm. by left.
Qed.

(** ** Concatenation *)

Definition add_tot (n : Z) (c : cell) : cell := (c.1, set_tot (u16 (tot_len c.2 + n)) c.2).
(** The cells of [H] and the last one [c], with [n] bytes from [t] on behind them. *)
Definition cat_cells (H0 : list cell) (c : cell) (t n : Z) : list cell :=
  (add_tot n <$> H0) ++ [(c.1, set_next t (set_tot (u16 (tot_len c.2 + n)) c.2))].

Lemma keys_cat H0 c t n : (cat_cells H0 c t n).*1 = (H0 ++ [c]).*1.
Proof. unfold cat_cells. rewrite !fmap_app. f_equal. rewrite <-list_fmap_compose. by apply list_fmap_ext. Qed.

Lemma writes_insert L m a b : a ∉ L.*1 → writes L (<[a := b]> m) = <[a := b]> (writes L m).
Proof.
  induction L as [|[a' b'] L IH]; intros Ha; [done|]. cbn in *. apply not_elem_of_cons in Ha as [? Ha].
  rewrite IH by done. by apply insert_insert_ne.
Qed.

Lemma cat_loop_run H0 : ∀ fuel h s z bz t tb, chain (bufs s) h (H0 ++ [(z, bz)]) → bufs s !! t = Some tb → t ∉ H0.*1 →
  (length H0 < fuel)%nat → cat_loop fuel h t s = Ret z (set_bufs (writes (add_tot (tot_len tb) <$> H0)) s).
Proof.
  induction H0 as [|[a b] H0 IH]; intros fuel h s z bz t tb Hc Ht Hnt Hf; (destruct fuel as [|fuel]; [cbn in Hf; lia|]); cbn [cat_loop].
  - destruct Hc as (-> & H1 & Hz & Hn). cbn in Hn. step_with (get_run s z bz Hz). rewrite Hn, Z.eqb_refl. cbn. by destruct s.
  - pose proof (chain_nodup _ _ _ Hc) as Hnd. cbn in Hnd. apply NoDup_cons in Hnd as [Hnd _]. rewrite fmap_app in Hnd.
    destruct Hc as (-> & H1 & Ha & Hc). cbn in Hnt. apply not_elem_of_cons in Hnt as [Hta Hnt]. step_with (get_run s a b Ha).
    assert (next b ≠ 0) as Hnb. { destruct H0 as [|[a' b'] H0]; cbn in Hc; [destruct Hc as (-> & ? & _)|destruct Hc as (-> & ? & _)]; done. }
    destruct (Z.eqb_spec (next b) 0); [done|]. cbn [negb]. step_with (get_run s t tb Ht). step_with (upd_run s a b (λ b, set_tot (u16 (tot_len b + tot_len tb)) b) Ha).
    set (b' := set_tot _ b). set (s1 := set_bufs <[a := b']> s).
    step_with (get_run s1 a b' (lookup_insert_eq _ _ _)). change (next b') with (next b).
    assert (a ∉ H0.*1) as HaH by set_solver.
    rewrite (IH fuel (next b) s1 z bz t tb); [|apply (lseg_ext (bufs s)); [|done]|by cbn; rewrite lookup_insert_ne|done|cbn in Hf; lia].
    + unfold s1, set_bufs. cbn [bufs dat fmap list_fmap add_tot writes fst snd]. do 2 f_equal. apply writes_insert.
      rewrite <-list_fmap_compose. rewrite (list_fmap_ext _ fst H0) by done. done.
    + intros a' Ha'. apply lookup_insert_ne. rewrite fmap_app in Ha'. set_solver.
Qed.

Lemma pbuf_cat_run s h t H0 z bz tb : chain (bufs s) h (H0 ++ [(z, bz)]) → bufs s !! t = Some tb → t ≠ 0 →
  t ∉ (H0 ++ [(z, bz)]).*1 → tot_len bz = len bz →
  pbuf_cat h t s = Ret tt (set_bufs (writes (cat_cells H0 (z, bz) t (tot_len tb))) s).
Proof.
  intros Hc Ht Ht0 Hnt Hz. rewrite fmap_app in Hnt. pose proof (chain_size _ _ _ Hc) as Hsz. rewrite length_app in Hsz. cbn in Hsz.
  pose proof (chain_nodup _ _ _ Hc) as Hnd. rewrite fmap_app in Hnd. apply NoDup_app in Hnd as (_ & Hnd & _).
  assert (h ≠ 0) as Hh by (destruct H0 as [|[] ?]; cbn in Hc; destruct Hc as (-> & ? & _); done).
  assert (bufs s !! z = Some bz ∧ next bz = 0) as [Ez En].
  { apply lseg_app in Hc as (r & _ & Hr). cbn in Hr. destruct Hr as (-> & _ & ? & ?). done. }
  unfold pbuf_cat. destruct (Z.eqb_spec h 0); [done|]. destruct (Z.eqb_spec t 0); [done|]. cbn [negb andb].
  step_with (eq_refl : assert_ true s = Ret tt s). step_pure.
  step_with (cat_loop_run H0 (size (bufs s)) h s z bz t tb Hc Ht ltac:(set_solver) ltac:(lia)).
  set (s1 := set_bufs _ s). assert (z ∉ (add_tot (tot_len tb) <$> H0).*1) as HzH.
  { rewrite <-list_fmap_compose. rewrite (list_fmap_ext _ fst H0) by done. set_solver. }
  assert (t ∉ (add_tot (tot_len tb) <$> H0).*1) as HtH.
  { rewrite <-list_fmap_compose. rewrite (list_fmap_ext _ fst H0) by done. set_solver. }
  assert (bufs s1 !! z = Some bz) as Ez1 by (cbn; by rewrite writes_out).
  assert (bufs s1 !! t = Some tb) as Et1 by (cbn; by rewrite writes_out).
  step_with (get_run s1 z bz Ez1). rewrite Hz, Z.eqb_refl. step_with (eq_refl : assert_ true s1 = Ret tt s1).
  rewrite En. step_with (eq_refl : assert_ true s1 = Ret tt s1). step_with (get_run s1 t tb Et1).
  step_with (upd_run s1 z bz (λ b, set_tot (u16 (tot_len b + tot_len tb)) b) Ez1).
  erewrite upd_run by (cbn; apply lookup_insert_eq). unfold s1, set_bufs. cbn [bufs dat]. do 2 f_equal.
  rewrite insert_insert_eq. unfold cat_cells. cbn [fst snd]. rewrite Hz.
  clear -HzH. induction (add_tot (tot_len tb) <$> H0) as [|[a b] L IH]; [done|]. cbn in *.
  rewrite insert_insert_ne by set_solver. rewrite IH by set_solver. done.
Qed.

Lemma tot_ok_app L1 L2 : tot_ok (L1 ++ L2) → tot_ok L2.
Proof. induction L1 as [|[a b] L1 IH]; [done|]. cbn. naive_solver. Qed.
Lemma octs_view d L1 L2 : view <$> L1 = view <$> L2 → octs d L1 = octs d L2.
Proof. intros E. unfold octs. by rewrite E. Qed.

Lemma cat_cells_chain m h H0 c t n L2 : chain m h (H0 ++ [c]) → chain m t L2 → (∀ a, a ∈ L2.*1 → a ∉ (H0 ++ [c]).*1) →
  chain (writes (cat_cells H0 c t n) m) h (cat_cells H0 c t n ++ L2).
Proof.
  intros Hc Ht Hd. pose proof (chain_nodup _ _ _ Hc) as Hnd. apply lseg_app. exists t. split.
  - assert (∀ a b, (a, b) ∈ cat_cells H0 c t n → writes (cat_cells H0 c t n) m !! a = Some b) as Hin.
    { intros a b. apply writes_in. by rewrite keys_cat. }
    revert Hc Hin. generalize (writes (cat_cells H0 c t n) m) as m'. clear. unfold cat_cells. revert h.
    induction H0 as [|[a b] H0 IH]; intros h m' Hc Hin.
    + destruct c as [z bz]. destruct Hc as (-> & H1 & _). cbn. split_and!; [done|done|apply Hin; left|done].
    + destruct Hc as (-> & H1 & _ & Hc). cbn. split_and!; [done|done|apply Hin; left|]. apply IH; [done|]. intros a' b' Hi. apply Hin. by right.
  - apply (lseg_ext m); [|done]. intros a Ha. apply writes_out. rewrite keys_cat. by apply Hd.
Qed.

Lemma cat_cells_view H0 c t n : view <$> cat_cells H0 c t n = view <$> (H0 ++ [c]).
Proof. unfold cat_cells. rewrite !fmap_app. f_equal. rewrite <-list_fmap_compose. by apply list_fmap_ext. Qed.
Lemma cat_cells_total H0 c t n : total (cat_cells H0 c t n) = total (H0 ++ [c]).
Proof.
  unfold cat_cells. rewrite !cells_app. f_equal; [|by destruct c]. induction H0 as [|[a b] H0 IH]; [done|]. cbn in *. by rewrite IH.
Qed.

Lemma cat_cells_tot H0 c t n L2 : tot_ok (H0 ++ [c]) → tot_ok L2 → total L2 = n → total (H0 ++ [c]) + n < 2 ^ 16 →
  tot_ok (cat_cells H0 c t n ++ L2).
Proof.
  intros H1 H2 <- Hb. assert (0 ≤ total L2) by (by apply tot_ok_total). induction H0 as [|[a b] H0 IH].
  - destruct c as [z bz]. cbn in *. destruct H1 as (? & E & _). rewrite u16_small by lia. split_and!; [done|lia|done].
  - cbn [cat_cells fmap list_fmap app add_tot tot_ok fst snd total] in *. destruct H1 as (? & E & H1).
    destruct (tot_ok_total _ H1). change (_ ++ L2) with (cat_cells H0 c t (total L2) ++ L2).
    rewrite u16_small by (rewrite E; lia). cbn [set_tot len tot_len]. rewrite cells_app.
    change ((add_tot (total L2) <$> H0) ++ _) with (cat_cells H0 c t (total L2)).
    rewrite cat_cells_total. split_and!; [done|lia|]. apply IH; [done|lia].
Qed.

(** [pbuf_cat] puts the chain [t] behind the chain [h]: the call succeeds, the
    chain from [h] then has the bytes of the first followed by those of the second,
    [tot_len] of every buffer is the number of bytes from it to the end, and no buffer
    outside the first chain is changed. *)
Theorem pbuf_cat_correct s h t L1 L2 (Hh : chain (bufs s) h L1) (Ht : chain (bufs s) t L2) (N1 : L1 ≠ []) (N2 : L2 ≠ [])
    (Hd : ∀ a, a ∈ L2.*1 → a ∉ L1.*1) (K1 : tot_ok L1) (K2 : tot_ok L2) (Hb : total L1 + total L2 < 2 ^ 16) :
  ∃ s' L, pbuf_cat h t s = Ret tt s' ∧ chain (bufs s') h L ∧ tot_ok L ∧ L.*1 = L1.*1 ++ L2.*1 ∧
    octs (dat s') L = octs (dat s) L1 ++ octs (dat s) L2 ∧
    dat s' = dat s ∧ (∀ a, a ∉ L1.*1 → bufs s' !! a = bufs s !! a).
Proof.
  destruct (exists_last N1) as (H0 & [z bz] & ->). destruct L2 as [|[a tb] L2]; [done|].
  pose proof Ht as (-> & Ha0 & Ha & _). pose proof K2 as (Hl & Htl & _).
  assert (tot_len bz = len bz) as Hz. { apply tot_ok_app in K1. cbn in K1. lia. }
  set (L' := cat_cells H0 (z, bz) a (tot_len tb)).
  exists (set_bufs (writes L') s), (L' ++ (a, tb) :: L2). split_and!.
  - apply pbuf_cat_run; [done|done|done|apply Hd; left|done].
  - by apply cat_cells_chain.
  - apply cat_cells_tot; [done|done|done|]. rewrite Htl. done.
  - rewrite fmap_app. unfold L'. by rewrite keys_cat.
  - rewrite octs_app. f_equal. apply octs_view, cat_cells_view.
  - done.
  - intros a' Ha'. apply writes_out. unfold L'. by rewrite keys_cat.
Qed.

(** [pbuf_dechain] of a chain with a tail: the first buffer stands alone, and the tail
    loses the reference that the first buffer had. *)
Lemma pbuf_dechain_run s p b L : chain (bufs s) p ((p, b) :: L) → L ≠ [] → tot_ok ((p, b) :: L) → tot_len b < 2 ^ 16 → refs_ok L →
  pbuf_dechain p s = Ret (if 0 <? u8 (Z.of_nat (length (dead L))) then 0 else next b)
    (set_bufs (λ m, free_effect L (<[p := set_tot (len b) (set_next 0 b)]> m)) s).
Proof.
  intros Hc HN Hk Hb Hr. destruct L as [|[q qb] L]; [done|]. pose proof (chain_nodup _ _ _ Hc) as Hnd. cbn in Hnd.
  apply NoDup_cons in Hnd as [Hnd _]. destruct Hc as (_ & Hp0 & Ep & Eq & Hq0 & Hq & Hn). destruct Hk as (Hl & Ht & Hlq & Htq & Hk).
  cbn in Ht. destruct (tot_ok_total _ Hk) as [Htot _]. assert (p ≠ q) as Hpq by set_solver.
  unfold pbuf_dechain. step_with (get_run s p b Ep). cbv zeta. rewrite Eq. destruct (Z.eqb_spec q 0); [done|]. cbn [negb].
  rewrite bind_assoc. step_with (get_run s q qb Hq). rewrite bind_assoc. destruct (Z.eqb_spec (tot_len qb) (tot_len b - len b)); [|lia].
  step_with (eq_refl : assert_ true s = Ret tt s). rewrite bind_assoc. step_with (upd_run s q qb (set_tot (u16 (tot_len b - len b))) Hq).
  rewrite u16_small by lia. replace (set_tot (tot_len b - len b) qb) with qb by (destruct qb; unfold set_tot; cbn in *; f_equal; lia).
  replace (set_bufs <[q := qb]> s) with s by (destruct s; unfold set_bufs; cbn in *; by rewrite insert_id).
  rewrite bind_assoc. step_with (upd_run s p b (set_next 0) Ep). set (s1 := set_bufs <[p := set_next 0 b]> s).
  rewrite bind_assoc. step_with (upd_run s1 p (set_next 0 b) (λ b, set_tot (len b) b) (lookup_insert_eq _ _ _)).
  set (b' := set_tot _ _). set (s2 := set_bufs <[p := b']> s1).
  assert (bufs s2 = <[p := b']> (bufs s)) as E2 by (cbn; apply insert_insert_eq).
  assert (chain (bufs s2) q ((q, qb) :: L)) as Hc2.
  { rewrite E2. apply (lseg_ext (bufs s)); [|done]. intros a Ha. apply lookup_insert_ne. set_solver. }
  step_with (pbuf_free_run s2 q _ Hc2 ltac:(done) Hr). set (s3 := set_bufs _ s2).
  assert (bufs s3 !! p = Some b') as E3 by (unfold s3; unfold set_bufs at 1; cbn [bufs]; rewrite E2, free_effect_out by done; apply lookup_insert_eq).
  step_with (get_run s3 p b' E3). unfold b' at 1 2. cbn [tot_len len set_tot set_next]. rewrite Z.eqb_refl.
  step_with (eq_refl : assert_ true s3 = Ret tt s3). unfold s3, set_bufs. rewrite E2. done.
Qed.

(** [pbuf_dechain] undoes [pbuf_chain] on a single buffer: it gives the tail back,
    with every length, pointer and reference count as before. *)
Theorem pbuf_chain_dechain s h t hb L2 (Hh : chain (bufs s) h [(h, hb)]) (Ht : chain (bufs s) t L2) (N2 : L2 ≠ [])
    (Hd : h ∉ L2.*1) (K1 : tot_ok [(h, hb)]) (K2 : tot_ok L2) (Hr : Forall (λ c, 0 < ref c.2 < 2 ^ 16 - 1) L2)
    (Hb : len hb + total L2 < 2 ^ 16) :
  (pbuf_chain h t ;;; pbuf_dechain h) s = Ret t s.
Proof.
  destruct L2 as [|[a tb] L2]; [done|]. pose proof Hh as (_ & Hh0 & Eh & Hn). pose proof Ht as (-> & Ha0 & Ea & Hn2).
  cbn in Hn, Hd. apply not_elem_of_cons in Hd as [Hd1 Hd2]. pose proof K2 as (Hl & Htl & _). cbn in Htl.
  pose proof K1 as (Hl1 & Htl1 & _). cbn in Htl1. apply Forall_cons in Hr as [Hra Hr]. cbn in Hra.
  destruct (tot_ok_total _ K2) as [Htot _]. cbn in Htot, Hb. pose proof (chain_nodup _ _ _ Ht) as Hnd. cbn in Hnd. apply NoDup_cons in Hnd as [Hnd _].
  unfold pbuf_chain. rewrite bind_assoc.
  step_with (pbuf_cat_run s h a [] h hb tb Hh Ea Ha0 ltac:(cbn; set_solver) ltac:(lia)).
  cbn [cat_cells fmap list_fmap app writes fst snd]. set (hb' := set_next a _). set (s1 := set_bufs _ s).
  assert (bufs s1 !! a = Some tb) as Ea1 by (cbn; by rewrite lookup_insert_ne).
  unfold pbuf_ref. destruct (Z.eqb_spec a 0); [done|]. cbn [negb]. step_with (upd_run s1 a tb (λ b, set_ref (u16 (ref b + 1)) b) Ea1).
  rewrite u16_small by lia. set (tb' := set_ref _ tb). set (s2 := set_bufs _ s1).
  assert (bufs s2 !! h = Some hb') as Eh2 by (cbn; rewrite lookup_insert_ne by done; apply lookup_insert_eq).
  assert (bufs s2 !! a = Some tb') as Ea2 by (cbn; apply lookup_insert_eq).
  rewrite (pbuf_dechain_run s2 h hb' ((a, tb') :: L2)); [|cbn; split_and!; try done|done|cbn; rewrite u16_small by lia; cbn in K2; naive_solver lia|cbn; rewrite u16_small by lia; lia|].
  - cbn [dead ref tb' set_ref free_effect]. destruct (Z.eqb_spec (ref tb + 1) 1); [lia|]. cbn. f_equal.
    destruct s as [m d]. cbn in *. unfold set_bufs. cbn. f_equal.
    replace (set_tot (len hb) (set_next 0 hb')) with hb by (destruct hb; unfold hb', set_tot, set_next; cbn in *; f_equal; lia).
    replace (set_ref (ref tb + 1 - 1) tb') with tb by (destruct tb; unfold tb', set_ref; cbn in *; f_equal; lia).
    rewrite (insert_insert_ne m a h) by done. rewrite insert_insert_eq, (insert_insert_ne m h a), insert_insert_eq by done.
    by rewrite (insert_id m h hb), insert_id.
  - apply (lseg_ext (bufs s)); [|done]. intros a' Ha'. cbn. rewrite !lookup_insert_ne; [done|set_solver..].
  - constructor; [cbn; lia|]. eapply Forall_impl; [done|]. cbn. lia.
Qed.

(** ** Copies to flat memory *)

Lemma octets_at n (m m' : bytes) p p' : (∀ i, 0 ≤ i < Z.of_nat n → rdb m' (p' + i) = rdb m (p + i)) → octets n m' p' = octets n m p.
Proof.
  revert p p'. induction n as [|n IH]; intros p p' Hm; cbn [octets]; [done|]. f_equal.
  - specialize (Hm 0 ltac:(lia)). by rewrite !Z.add_0_r in Hm.
  - apply IH. intros i Hi. rewrite <-!Z.add_assoc. apply (Hm (1 + i)). lia.
Qed.
Lemma drop_octets k n (m : bytes) p : (k ≤ n)%nat → drop k (octets n m p) = octets (n - k) m (p + Z.of_nat k).
Proof.
  intros Hk. replace n with (k + (n - k))%nat at 1 by lia. rewrite octets_plus.
  rewrite <-(length_octets k m p) at 1. apply drop_app_length.
Qed.
Lemma octets_copied n (m : bytes) d q : bytes_ok m → octets n (memcpy m d q (Z.of_nat n)) d = octets n m q.
Proof. intros Hm. apply octets_at. intros i Hi. unfold memcpy. rewrite memmove_spec by (done || lia). rewrite decide_True by lia. f_equal. lia. Qed.

(** No byte of the chain lies in the [n] bytes at [d]. *)
Definition apart (d n : Z) (L : list cell) : Prop :=
  Forall (λ c, payload c.2 + len c.2 ≤ d ∨ d + n ≤ payload c.2) L.
Definition lens_ok (L : list cell) : Prop := Forall (λ c, 0 ≤ len c.2 < 2 ^ 16) L.

Lemma octs_apart (m m' : bytes) d n L : lens_ok L → apart d n L → (∀ a, a < d ∨ d + n ≤ a → rdb m' a = rdb m a) → octs m' L = octs m L.
Proof.
  intros Hl Ha Hm. unfold octs, chain_octets. induction L as [|[a b] L IH]; [done|].
  apply Forall_cons in Hl as [Hb Hl], Ha as [Hab Ha]. cbn in *. rewrite IH by done. f_equal. apply octets_ext. intros i Hi. apply Hm. lia.
Qed.

(** The bytes that a copy of [n] bytes from [offset] on takes. *)
Definition slice (m : bytes) (L : list cell) (n offset : Z) : list Z := take (Z.to_nat n) (drop (Z.to_nat offset) (octs m L)).

Lemma slice_skip (m : bytes) a b L n offset : 0 ≤ len b → len b ≤ offset → slice m ((a, b) :: L) n offset = slice m L n (offset - len b).
Proof.
  intros Hb Ho. unfold slice, octs, chain_octets. cbn [fmap list_fmap mbind list_bind view]. f_equal.
  rewrite drop_app_ge; rewrite length_octets; cbn; [|lia]. f_equal. lia.
Qed.
Lemma slice_cons (m : bytes) a b L n offset : 0 ≤ offset ≤ len b → 0 ≤ n → let k := Z.min n (len b - offset) in
  slice m ((a, b) :: L) n offset = octets (Z.to_nat k) m (payload b + offset) ++ slice m L (n - k) 0.
Proof.
  intros Ho Hn k. unfold slice, octs, chain_octets. change (Z.to_nat 0) with O. rewrite drop_0. cbn [fmap list_fmap mbind list_bind view Chksum.payload plen snd].
  rewrite drop_app_le, drop_octets by (rewrite ?length_octets; lia). rewrite Z2Nat.id by lia. destruct (Z.le_gt_cases n (len b - offset)).
  - rewrite take_app_le, take_octets by (rewrite ?length_octets; lia). replace (Z.to_nat (n - k)) with O by lia. cbn. rewrite app_nil_r. f_equal. lia.
  - rewrite take_app_ge by (rewrite length_octets; lia). rewrite length_octets. f_equal; [f_equal; lia|]. f_equal. lia.
Qed.

Lemma copy_out_run L : ∀ fuel p s dp left n offset copied, chain (bufs s) p L → (length L < fuel)%nat → lens_ok L → bytes_ok (dat s) →
  0 ≤ n → 0 ≤ left → left + n < 2 ^ 16 → 0 ≤ copied → copied + n < 2 ^ 16 → 0 ≤ offset < 2 ^ 16 → apart (dp + left) n L →
  let w := slice (dat s) L n offset in
  ∃ m' : bytes, copy_out_loop fuel p dp left n offset copied s = Ret (copied + Z.of_nat (length w)) (set_dat (λ _, m') s) ∧
    octets (length w) m' (dp + left) = w ∧ (∀ a, a < dp + left ∨ dp + left + Z.of_nat (length w) ≤ a → rdb m' a = rdb (dat s) a) ∧ bytes_ok m'.
Proof.
  induction L as [|[p' b] L IH]; intros fuel p s dp left n offset copied Hc Hf Hl Hm Hn Hlf Hln Hcp Hcn Ho Ha; (destruct fuel as [|fuel]; [lia|]); cbn [copy_out_loop].
  - cbn in Hc. subst p. set (w := slice _ _ _ _); assert (w = []) as -> by (unfold w, slice; cbn; by rewrite drop_nil, take_nil).
    exists (dat s). rewrite Z.eqb_refl, andb_false_r. split_and!; [cbn; rewrite Z.add_0_r; by destruct s|done|done|done].
  - destruct Hc as (-> & Hp0 & Hp & Hc). apply Forall_cons in Hl as [Hb Hl]. pose proof Ha as [Hab HaL]%Forall_cons. cbn [snd] in Hb, Hab. cbn in Hf.
    destruct (Z.eqb_spec n 0) as [->|Hn0].
    { set (w := slice _ _ _ _); assert (w = []) as -> by done. exists (dat s). cbn. rewrite Z.add_0_r. split_and!; try done. by destruct s. }
    destruct (Z.eqb_spec p' 0); [done|]. cbn [negb andb]. step_with (get_run s p' b Hp).
    destruct (negb (offset =? 0) && (len b <=? offset)) eqn:E.
    + apply andb_true_iff in E as [_ E%Z.leb_le]. rewrite slice_skip by lia. rewrite u16_small by lia. apply IH; try done; lia.
    + assert (offset ≤ len b) as Hob. { apply andb_false_iff in E as [E|E]; [apply negb_false_iff, Z.eqb_eq in E|apply Z.leb_gt in E]; lia. }
      rewrite (u16_small (len b - offset)) by lia. rewrite slice_cons by lia. cbv zeta. set (k := Z.min n (len b - offset)).
      replace (if n <? len b - offset then n else len b - offset) with k by (unfold k; destruct (Z.ltb_spec n (len b - offset)); lia).
      step_pure. set (m1 := memcpy (dat s) (dp + left) (payload b + offset) k). set (s1 := set_dat (λ _, m1) s).
      assert (∀ a, rdb m1 a = if decide (dp + left ≤ a < dp + left + k) then rdb (dat s) (payload b + offset + (a - (dp + left))) else rdb (dat s) a) as Hm1.
      { intros a. apply memmove_spec; [done|lia]. }
      assert (bytes_ok m1) as Hm1ok by (apply bytes_ok_memmove; [done|lia]).
      assert (slice m1 L (n - k) 0 = slice (dat s) L (n - k) 0) as Ep.
      { unfold slice. f_equal. f_equal. apply (octs_apart _ _ (dp + left) n); [done|done|]. intros a Ha'. rewrite Hm1. apply decide_False. lia. }
      rewrite (u16_small (left + k)), (u16_small (n - k)), (u16_small (copied + k)) by lia.
      destruct (IH fuel (next b) s1 dp (left + k) (n - k) 0 (copied + k)) as (m' & E1 & E2 & E3 & E4); try done; try lia.
      { eapply Forall_impl; [done|]. cbn. lia. }
      change (dat s1) with m1 in *. rewrite Ep in *. set (w := slice _ _ _ _) in *.
      rewrite length_app, length_octets. exists m'. split_and!; [|rewrite octets_plus; f_equal| |done].
      * etrans; [exact E1|]. unfold s1, set_dat. cbn. f_equal. lia.
      * rewrite (octets_at _ m1 m' (dp + left) (dp + left)).
        { rewrite <-(octets_copied (Z.to_nat k) (dat s) (dp + left)) by done. unfold m1. by rewrite Z2Nat.id by lia. }
        intros i Hi. apply E3. lia.
      * rewrite Z2Nat.id by lia. by rewrite <-Z.add_assoc.
      * intros a Ha'. rewrite E3, Hm1 by lia. apply decide_False. lia.
Qed.

(** [pbuf_copy_partial] copies the bytes [offset] to [offset + n] of the chain, or
    as many of them as there are, to [dataptr], changes no other byte and returns how
    many it copied, however the bytes are split over the buffers. *)
Theorem pbuf_copy_partial_correct s p L dataptr n offset (Hc : chain (bufs s) p L) (HN : L ≠ []) (Hl : lens_ok L) (Hm : bytes_ok (dat s))
    (Hd : dataptr ≠ 0) (Hn : 0 ≤ n < 2 ^ 16) (Ho : 0 ≤ offset < 2 ^ 16) (Ha : apart dataptr n L) :
  let w := take (Z.to_nat n) (drop (Z.to_nat offset) (octs (dat s) L)) in
  ∃ m' : bytes, pbuf_copy_partial p dataptr n offset s = Ret (Z.of_nat (length w)) (set_dat (λ _, m') s) ∧
    octets (length w) m' dataptr = w ∧
    (∀ a, a < dataptr ∨ dataptr + Z.of_nat (length w) ≤ a → rdb m' a = rdb (dat s) a).
Proof.
  intros w. unfold pbuf_copy_partial. assert (p ≠ 0) as Hp by (destruct L as [|[] ?]; [done|by destruct Hc as (-> & ? & _)]).
  destruct (Z.eqb_spec p 0), (Z.eqb_spec dataptr 0); try done. do 2 step_with (eq_refl : assert_ true s = Ret tt s). step_pure.
  pose proof (chain_size _ _ _ Hc) as Hs.
  destruct (copy_out_run L (S (size (bufs s))) p s dataptr 0 n offset 0) as (m' & E1 & E2 & E3 & _); try done; try lia.
  { by rewrite Z.add_0_r. }
  rewrite Z.add_0_l, Z.add_0_r in *. by exists m'.
Qed.

(** ** A chain from the pool *)

(** Cells linked to each other, wherever they are stored. *)
Fixpoint linked (p : Z) (L : list cell) (q : Z) : Prop :=
  match L with [] => p = q | (a, b) :: L' => p = a ∧ a ≠ 0 ∧ linked (next b) L' q end.

Lemma linked_app p L1 L2 q : linked p (L1 ++ L2) q ↔ ∃ r, linked p L1 r ∧ linked r L2 q.
Proof.
  revert p. induction L1 as [|[a b] L1 IH]; intros p; cbn [app linked].
  - split; [by exists p|]. by intros (r & -> & ?).
  - rewrite IH. naive_solver.
Qed.
Lemma linked_lseg m p L q : linked p L q → (∀ a b, (a, b) ∈ L → m !! a = Some b) → lseg m p L q.
Proof.
  revert p. induction L as [|[a b] L IH]; intros p HL Hm; [done|]. destruct HL as (-> & H0 & HL). cbn.
  split_and!; [done|done|apply Hm; left|]. apply IH; [done|]. intros a' b' Hi. apply Hm. by right.
Qed.
Lemma linked_chain m p L q : linked p L q → NoDup L.*1 → lseg (writes L m) p L q.
Proof. intros HL Hn. apply linked_lseg; [done|]. intros a b. by apply writes_in. Qed.
Lemma writes_app L1 L2 m : writes (L1 ++ L2) m = writes L1 (writes L2 m).
Proof. induction L1 as [|[a b] L1 IH]; [done|]. cbn. by rewrite IH. Qed.
Lemma writes_last L m a b b' : a ∉ L.*1 → <[a := b']> (writes (L ++ [(a, b)]) m) = writes (L ++ [(a, b')]) m.
Proof. intros Ha. rewrite !writes_app. rewrite <-writes_insert by done. cbn. by rewrite insert_insert_eq. Qed.
Lemma writes_snoc L m a b : a ∉ L.*1 → <[a := b]> (writes L m) = writes (L ++ [(a, b)]) m.
Proof. intros Ha. rewrite writes_app. by rewrite <-writes_insert. Qed.

(** Every buffer counts its bytes, those of the buffers behind it and [r] more. *)
Fixpoint tot_with (r : Z) (L : list cell) : Prop :=
  match L with [] => True | (_, b) :: L' => tot_len b = len b + total L' + r ∧ tot_with r L' end.

(** A buffer as the pool gives it out: its bytes lie inside its element. *)
Definition new_cell (c : cell) : Prop :=
  type c.2 = PBUF_POOL ∧ ref c.2 = 1 ∧ 0 ≤ len c.2 ∧ c.1 + SIZEOF_STRUCT_PBUF ≤ payload c.2 ∧
  payload c.2 + len c.2 ≤ c.1 + SIZEOF_STRUCT_PBUF + PBUF_POOL_BUFSIZE_ALIGNED.

Record taken (m : gmap Z buf) (p : Z) (L : list cell) (r : Z) : Prop := Taken {
  tk_linked : linked p L 0;
  tk_nodup : NoDup L.*1;
  tk_fresh : ∀ a, a ∈ L.*1 → m !! a = None;
  tk_new : Forall new_cell L;
  tk_tot : tot_with r L
}.

Lemma tot_with_ok L : Forall new_cell L → tot_with 0 L → tot_ok L.
Proof.
  induction L as [|[a b] L IH]; [done|]. intros [Hn HL]%Forall_cons [Ht Hw]. destruct Hn as (_ & _ & ? & _). cbn in *.
  split_and!; [done|lia|by apply IH].
Qed.
Lemma tot_with_snoc L r q qb k : tot_with r L → len qb = k → tot_len qb = r → tot_with (r - k) (L ++ [(q, qb)]).
Proof.
  intros HL Hk Hr. induction L as [|[a b] L IH]; cbn in *; [split; [lia|done]|]. destruct HL as [Ht HL]. rewrite cells_app. cbn.
  split; [lia|]. by apply IH.
Qed.
Lemma tot_with_last r L a b b' : tot_with r (L ++ [(a, b)]) → len b' = len b → tot_len b' = tot_len b → tot_with r (L ++ [(a, b')]).
Proof.
  intros HL E1 E2. induction L as [|[a' b''] L IH]; cbn in *; [split; [destruct HL; lia|done]|].
  destruct HL as [Ht HL]. rewrite !cells_app in *. cbn in *. split; [lia|]. by apply IH.
Qed.

(** One more buffer at the end. *)
Lemma taken_snoc m p L a b q qb r : taken m p (L ++ [(a, b)]) r → m !! q = None → q ∉ (L ++ [(a, b)]).*1 → q ≠ 0 →
  new_cell (q, qb) → next qb = 0 → tot_len qb = r → taken m p (L ++ [(a, set_next q b)] ++ [(q, qb)]) (r - len qb).
Proof.
  intros [T1 T2 T3 T4 T5] Hq Hnq Hq0 Hnew Hnx Ht.
  assert ((L ++ [(a, set_next q b)] ++ [(q, qb)]).*1 = (L ++ [(a, b)]).*1 ++ [q]) as Ek by (rewrite !fmap_app, <-app_assoc; done).
  apply linked_app in T1 as (x & Hx & Hx'). cbn in Hx'. destruct Hx' as (-> & Ha0 & _). constructor.
  - apply linked_app. exists a. split; [done|]. cbn. done.
  - rewrite Ek. apply NoDup_app. split_and!; [done| |apply NoDup_singleton]. intros y Hy Hy'. apply list_elem_of_singleton in Hy' as ->. done.
  - rewrite Ek. intros y [Hy|Hy]%elem_of_app; [by apply T3|]. apply list_elem_of_singleton in Hy as ->. done.
  - apply Forall_app in T4 as [T4 T4']. apply Forall_app. split; [done|]. apply Forall_cons in T4' as [T4' _].
    apply Forall_app. split; apply Forall_singleton; done.
  - rewrite app_assoc. apply tot_with_snoc; [|done|done]. by eapply tot_with_last.
Qed.

Lemma taken_free m p L r (d : bytes) : taken m p L r → L ≠ [] →
  pbuf_free p (mkPst (writes L m) d) = Ret (u8 (Z.of_nat (length (dead L)))) (mkPst m d).
Proof.
  intros [T1 T2 T3 T4 _] HN. assert (Forall (λ c : cell, ref c.2 = 1) L) as Hr.
  { eapply Forall_impl; [done|]. intros c (_ & ? & _). done. }
  rewrite (pbuf_free_run (mkPst (writes L m) d) p L).
  - unfold set_bufs. cbn [bufs dat]. by rewrite free_effect_all.
  - by apply linked_chain.
  - done.
  - eapply Forall_impl; [done|]. cbn. intros c ->. lia.
Qed.

Lemma linked_head p L q : linked p L q → L ≠ [] → ∃ b, (p, b) ∈ L.
Proof. destruct L as [|[a b] L]; [done|]. intros (-> & _) _. exists b. left. Qed.
Lemma writes_None L m a : writes L m !! a = None → NoDup L.*1 → m !! a = None ∧ a ∉ L.*1.
Proof.
  intros Ha Hn. assert (a ∉ L.*1) as Hna; [|by rewrite writes_out in Ha].
  intros ([a' b] & -> & Hin)%list_elem_of_fmap. rewrite (writes_in _ _ _ _ Hn Hin) in Ha. done.
Qed.

Ltac pconsts := change PBUF_POOL_BUFSIZE_ALIGNED with 2000 in *; change SIZEOF_STRUCT_PBUF with 24 in *; change MEM_ALIGNMENT with 4 in *.

(** What an allocation leaves: all of it, or nothing. *)
Definition alloc_post (m : gmap Z buf) (d : bytes) (p n : Z) (ok : bool) (s' : pst) : Prop :=
  if ok then ∃ L, L ≠ [] ∧ taken m p L 0 ∧ total L = n ∧ s' = mkPst (writes L m) d else s' = mkPst m d.

Lemma pool_loop_run m (d : bytes) p fuel : ∀ L a b r, taken m p (L ++ [(a, b)]) r → 0 ≤ r < 0xffff → (Z.to_nat r < fuel)%nat →
  ∃ ok s', pool_loop fuel p a r (mkPst (writes (L ++ [(a, b)]) m) d) = Ret ok s' ∧ alloc_post m d p (total L + len b + r) ok s'.
Proof.
  induction fuel as [|fuel IH]; intros L a b r HT Hr Hf; [lia|]. cbn [pool_loop]. set (s := mkPst _ d).
  assert (L ++ [(a, b)] ≠ []) as HN by (by destruct L).
  destruct (Z.ltb_spec 0 r) as [Hr0|Hr0].
  2:{ assert (r = 0) as -> by lia. exists true, s. split; [done|]. exists (L ++ [(a, b)]). split_and!; [done|done|rewrite cells_app; cbn; lia|done]. }
  step_pure. destruct (memp_malloc PBUF_POOL s) as [q|] eqn:Eq.
  2:{ step_with (taken_free m p _ r d HT HN). exists false, (mkPst m d). done. }
  destruct (memp_fresh _ _ _ Eq) as (Hq & Hq0 & Hq4 & _). pose proof (tk_nodup _ _ _ _ HT) as Hnd.
  apply (writes_None _ _ _) in Hq as [Hq Hnq]; [|done]. assert (a ∉ L.*1) as HaL.
  { rewrite fmap_app in Hnd. apply NoDup_app in Hnd as (_ & Hnd & _). intros Ha. apply (Hnd a Ha). left. }
  assert (bufs s !! a = Some b) as Ha by (apply writes_in; [done|apply elem_of_app; right; left]).
  step_with (upd_run s a b (set_next q) Ha). destruct (Z.ltb_spec r 0xffff); [|lia].
  set (s1 := set_bufs _ s). step_with (eq_refl : assert_ true s1 = Ret tt s1). cbv zeta. rewrite u16_small by lia. pconsts.
  set (n := Z.min r 2000). set (qb := mkBuf 0 (q + 24) r n PBUF_POOL 0 1). unfold put. step_pure.
  set (L' := L ++ [(a, set_next q b)]). set (s2 := mkPst (writes (L' ++ [(q, qb)]) m) d).
  assert (set_bufs <[q := qb]> s1 = s2) as E2.
  { unfold s1, s, s2, set_bufs. cbn [bufs dat]. f_equal. rewrite writes_last by done. apply writes_snoc.
    unfold L'. rewrite fmap_app in *. done. }
  rewrite E2. replace ((q + 24) mod 4) with 0 by (Z.div_mod_to_equations; lia). step_with (eq_refl : assert_ true s2 = Ret tt s2).
  assert (taken m p (L' ++ [(q, qb)]) (r - n)) as HT2.
  { unfold L'. rewrite <-app_assoc. apply (taken_snoc m p L a b q qb r); try done; [lia|]. unfold new_cell. pconsts. cbn. split_and!; done || lia. }
  destruct (linked_head _ _ _ (tk_linked _ _ _ _ HT2)) as [pb Hpb]; [by destruct L'|].
  assert (bufs s2 !! p = Some pb) as Ep by (apply writes_in; [by eapply tk_nodup|done]).
  step_with (get_run s2 p pb Ep).
  pose proof (proj1 (Forall_forall _ _) (tk_new _ _ _ _ HT2) _ Hpb) as (_ & _ & _ & _ & Hfit). cbn in Hfit. pconsts.
  destruct (Z.leb_spec (payload pb + len pb) (p + 24 + 2000)); [|lia]. step_with (eq_refl : assert_ true s2 = Ret tt s2).
  destruct (IH L' q qb (r - n)) as (ok & s' & E & HE); [done|lia|lia|]. exists ok, s'. split; [done|].
  replace (total L + len b + r) with (total L' + len qb + (r - n)); [done|]. unfold L'. rewrite cells_app. cbn. lia.
Qed.

Lemma layer_aligned l p : 0 < p → p mod 4 = 0 → p + 4096 < 2 ^ 64 → ∃ o, 0 ≤ o ≤ 56 ∧ o mod 4 = 0 ∧
  LWIP_MEM_ALIGN (p + (SIZEOF_STRUCT_PBUF + layer_offset l)) = p + SIZEOF_STRUCT_PBUF + o ∧ LWIP_MEM_ALIGN_SIZE (layer_offset l) = o.
Proof.
  intros H0 H1 H2. exists (LWIP_MEM_ALIGN_SIZE (layer_offset l)). unfold LWIP_MEM_ALIGN. pconsts.
  assert (0 ≤ layer_offset l ≤ 54) as Hl by (by destruct l).
  rewrite (u64_small (p + (24 + layer_offset l) + 4 - 1)) by (unfold is_u64; lia). change (4 - 1) with 3. unfold u64. rewrite align_mask by lia.
  destruct l; (split_and!; [done|done|done| |done]).
  - change (layer_offset PBUF_TRANSPORT) with 54. change (LWIP_MEM_ALIGN_SIZE 54) with 56. Z.div_mod_to_equations; lia.
  - change (layer_offset PBUF_IP) with 34. change (LWIP_MEM_ALIGN_SIZE 34) with 36. Z.div_mod_to_equations; lia.
  - change (layer_offset PBUF_LINK) with 14. change (LWIP_MEM_ALIGN_SIZE 14) with 16. Z.div_mod_to_equations; lia.
  - change (layer_offset PBUF_RAW) with 0. change (LWIP_MEM_ALIGN_SIZE 0) with 0. Z.div_mod_to_equations; lia.
Qed.

(** C25  [pbuf_alloc] from the pool gives all or nothing: either null with every buffer
    as before, or a chain of new buffers, each with one reference and its bytes inside
    its own element, whose lengths add up to [length]; no other buffer is changed. *)
Theorem pbuf_alloc_pool_correct s layer length (Hl : 0 ≤ length < 2 ^ 16) :
  pbuf_alloc layer length PBUF_POOL s = Ret 0 s ∨
  ∃ p s' L, pbuf_alloc layer length PBUF_POOL s = Ret p s' ∧ p ≠ 0 ∧ chain (bufs s') p L ∧ tot_ok L ∧ total L = length ∧
    Forall new_cell L ∧ dat s' = dat s ∧ (∀ a, a ∈ L.*1 → bufs s !! a = None) ∧ (∀ a, a ∉ L.*1 → bufs s' !! a = bufs s !! a).
Proof.
  unfold pbuf_alloc. step_pure. destruct (memp_malloc PBUF_POOL s) as [p|] eqn:Eq; [|by left].
  destruct (memp_fresh _ _ _ Eq) as (Hq & Hq0 & Hq4 & Hq64). destruct (layer_aligned layer p Hq0 Hq4 Hq64) as (o & Ho & Ho4 & -> & ->).
  cbv zeta. pconsts. replace ((p + 24 + o) mod 4) with 0 by (Z.div_mod_to_equations; lia).
  step_with (eq_refl : assert_ true s = Ret tt s). set (n := Z.min length (2000 - o)).
  destruct (Z.leb_spec (p + 24 + o + n) (p + 24 + 2000)); [|lia]. step_with (eq_refl : assert_ true s = Ret tt s).
  unfold put. step_pure. set (b := mkBuf 0 (p + 24 + o) length n PBUF_POOL 0 1). destruct s as [m d].
  assert (taken m p [(p, b)] (length - n)) as HT.
  { constructor; [cbn; split_and!; lia|apply NoDup_singleton|intros a ->%list_elem_of_singleton; done| |cbn; split; [lia|done]].
    apply Forall_singleton. unfold new_cell. pconsts. cbn. split_and!; done || lia. }
  destruct (pool_loop_run m d p (S (Z.to_nat (length - n))) [] p b (length - n)) as ([] & s' & E & Hs'); [done|lia|lia| |].
  all: cbn [app writes] in E; unfold set_bufs; cbn [bufs dat]; step_with E.
  - destruct Hs' as (L & HN & HL & Hn & ->). right. exists p, (mkPst (writes L m) d), L. destruct HL as [T1 T2 T3 T4 T5].
    split_and!; [done|lia|by apply linked_chain|by apply tot_with_ok|cbn in Hn; lia|done|done|done|intros a Ha; by apply writes_out].
  - left. by rewrite Hs'.
Qed.

(** ** Cutting a chain *)

Definition cut_cell (g : Z) (c : cell) : cell := (c.1, set_tot (tot_len c.2 + g) c.2).

Lemma keys_cut g L : (cut_cell g <$> L).*1 = L.*1.
Proof. rewrite <-list_fmap_compose. by apply list_fmap_ext. Qed.
Lemma free_effect_ext L m1 m2 a : m1 !! a = m2 !! a → free_effect L m1 !! a = free_effect L m2 !! a.
Proof.
  revert m1 m2. induction L as [|[a' b] L IH]; intros m1 m2 E; [done|]. cbn. destruct (ref b =? 1).
  - apply IH. destruct (decide (a' = a)) as [->|Hne]; [by rewrite !lookup_delete_eq|by rewrite !lookup_delete_ne].
  - destruct (decide (a' = a)) as [->|Hne]; [by rewrite !lookup_insert_eq|by rewrite !lookup_insert_ne].
Qed.

(** Where the chain is cut: the buffers before, the one that becomes the last one and
    those behind it. *)
Lemma realloc_loop_run L : ∀ fuel q s r g, chain (bufs s) q L → (length L < fuel)%nat → L ≠ [] → tot_ok L → total L < 2 ^ 16 → 0 ≤ r → r = total L + g → g < 0 →
  ∃ K z bz R, L = K ++ (z, bz) :: R ∧ total K ≤ r ≤ total K + len bz ∧
    realloc_loop fuel q r g s = Ret (z, r - total K) (set_bufs (writes (cut_cell g <$> K)) s).
Proof.
  induction L as [|[a b] L IH]; intros fuel q s r g Hc Hf HN Hk Hb Hr Hg Hg0; [done|]. destruct fuel as [|fuel]; [lia|]. cbn [realloc_loop].
  pose proof (chain_nodup _ _ _ Hc) as Hnd. cbn in Hnd. apply NoDup_cons in Hnd as [Hnd _].
  destruct Hc as (-> & Ha0 & Ha & Hc). destruct Hk as (Hl & Ht & Hk). cbn [total] in *. destruct (tot_ok_total _ Hk) as [HtL _].
  step_with (get_run s a b Ha). destruct (Z.ltb_spec (len b) r) as [Hlt|Hge].
  2:{ exists [], a, b, L. cbn. split_and!; [done|lia|lia|]. rewrite Z.sub_0_r. by destruct s. }
  destruct (Z.ltb_spec g 0xffff); [|lia]. step_with (eq_refl : assert_ true s = Ret tt s). unfold put. step_pure.
  assert (u16 (tot_len b + u16 g) = tot_len b + g) as ->. { unfold u16. rewrite Zplus_mod_idemp_r. apply Z.mod_small. lia. }
  assert (L ≠ []) as HNL by (intros ->; cbn in *; lia).
  assert (next b ≠ 0) as Hn0 by (destruct L as [|[] ?]; [done|by destruct Hc as (-> & ? & _)]).
  destruct (Z.eqb_spec (next b) 0); [done|]. set (s1 := set_bufs _ s). step_with (eq_refl : assert_ true s1 = Ret tt s1).
  rewrite u16_small by lia.
  destruct (IH fuel (next b) s1 (r - len b) g) as (K & z & bz & R & -> & Hz & E); try done; try lia.
  { apply (lseg_ext (bufs s)); [|done]. intros a' Ha'. apply lookup_insert_ne. set_solver. }
  { cbn in Hf. lia. }
  exists ((a, b) :: K), z, bz, R. cbn [total app]. split_and!; [done|lia|lia|]. rewrite E.
  replace (r - (len b + total K)) with (r - len b - total K) by lia. f_equal. unfold s1, set_bufs. cbn [bufs dat]. f_equal.
  apply writes_insert. rewrite keys_cut. rewrite fmap_app in Hnd. set_solver.
Qed.

(** The buffers that stay, with their new lengths. *)
Definition cut_cells (g : Z) (K : list cell) (z : Z) (bz : buf) (r : Z) : list cell :=
  (cut_cell g <$> K) ++ [(z, set_next 0 (set_tot r (set_len r bz)))].

Lemma keys_cut_cells g K z bz r : (cut_cells g K z bz r).*1 = K.*1 ++ [z].
Proof. unfold cut_cells. by rewrite fmap_app, keys_cut. Qed.

Lemma cut_cells_linked g m p K z bz R r q : lseg m p (K ++ (z, bz) :: R) q → linked p (cut_cells g K z bz r) 0.
Proof.
  revert p. induction K as [|[a b] K IH]; intros p; cbn.
  - by intros (-> & ? & _).
  - intros (-> & ? & _ & HK). split_and!; [done|done|by apply IH].
Qed.

Lemma total_cut g K : total (cut_cell g <$> K) = total K.
Proof. induction K as [|[a b] K IH]; [done|]. cbn in *. by rewrite IH. Qed.
Lemma cut_cells_tot g K z bz R r : tot_ok (K ++ (z, bz) :: R) → 0 ≤ r → total (K ++ (z, bz) :: R) + g = total K + r →
  tot_ok (cut_cells g K z bz r).
Proof.
  intros Hk Hr Hg. induction K as [|[a b] K IH]; [cbn in *; split_and!; [lia|lia|done]|].
  cbn [app tot_ok total] in Hk, Hg. destruct Hk as (? & Ht & Hk).
  change (tot_ok ((a, set_tot (tot_len b + g) b) :: cut_cells g K z bz r)). cbn [tot_ok set_tot len tot_len].
  split_and!; [done| |apply IH; [done|lia]]. unfold cut_cells. rewrite cells_app, total_cut. cbn. lia.
Qed.

Lemma tot_ok_lens L : tot_ok L → total L < 2 ^ 16 → lens_ok L.
Proof.
  induction L as [|[a b] L IH]; [constructor|]. intros (H0 & _ & Hk) Hb. cbn in Hb. destruct (tot_ok_total _ Hk).
  constructor; [cbn; lia|]. apply IH; [done|lia].
Qed.
Lemma length_octs d L : lens_ok L → Z.of_nat (length (octs d L)) = total L.
Proof.
  unfold octs, chain_octets. induction L as [|[a b] L IH]; [done|]. intros [Hb HL]%Forall_cons. cbn in *.
  rewrite length_app, length_octets. rewrite Nat2Z.inj_add, IH by done. lia.
Qed.

Lemma cut_cells_octs d g K z bz R r : lens_ok (K ++ (z, bz) :: R) → 0 ≤ r ≤ len bz →
  octs d (cut_cells g K z bz r) = take (Z.to_nat (total K + r)) (octs d (K ++ (z, bz) :: R)).
Proof.
  intros Hl Hr. apply Forall_app in Hl as [HK HR]. pose proof (length_octs d K HK) as Hlen.
  unfold cut_cells. rewrite !octs_app. rewrite (octs_view d (cut_cell g <$> K) K) by (rewrite <-list_fmap_compose; by apply list_fmap_ext).
  rewrite take_app_ge by lia. f_equal. replace (Z.to_nat (total K + r) - _)%nat with (Z.to_nat r) by lia.
  unfold octs, chain_octets. cbn. rewrite app_nil_r, take_app_le by (rewrite length_octets; lia). by rewrite take_octets by lia.
Qed.

Lemma cut_last_run s z bz R r : bufs s !! z = Some bz → z ≠ 0 → chain (bufs s) (next bz) R → z ∉ R.*1 → refs_ok R → r ≤ len bz →
  cut_last z r s = Ret tt (set_bufs (λ m, <[z := set_next 0 (set_tot r (set_len r bz))]> (free_effect R (<[z := set_tot r (set_len r bz)]> m))) s).
Proof.
  intros Ez Hz0 Hc HzR Hr Hrl. unfold cut_last. step_with (get_run s z bz Ez).
  match goal with |- bind ?f _ _ = _ => assert (f s = Ret z s) as Ef end.
  { destruct (bool_decide _ && negb _); [|done]. step_pure. rewrite (mem_stays z bz) by (done || lia). by destruct (Z.eqb_spec z 0). }
  step_with Ef. clear Ef. step_with (upd_run s z bz (set_len r) Ez). set (s1 := set_bufs _ s).
  step_with (upd_run s1 z (set_len r bz) (λ b, set_tot (len b) b) (lookup_insert_eq _ _ _)). set (s2 := set_bufs _ s1).
  change (len (set_len r bz)) with r in s2. set (b2 := set_tot r (set_len r bz)) in *.
  assert (bufs s2 = <[z := b2]> (bufs s)) as E2 by (cbn; apply insert_insert_eq).
  step_with (get_run s2 z b2 (lookup_insert_eq _ _ _)). change (next b2) with (next bz).
  assert (chain (bufs s2) (next bz) R) as Hc2.
  { rewrite E2. apply (lseg_ext (bufs s)); [|done]. intros a Ha. apply lookup_insert_ne. set_solver. }
  set (s3 := set_bufs (free_effect R) s2).
  match goal with |- bind ?f _ _ = _ => assert (f s2 = Ret tt s3) as Ef end.
  { destruct R as [|[a b] R]; [cbn in Hc; rewrite Hc; done|]. destruct (Z.eqb_spec (next bz) 0) as [E|E]; [cbn in Hc; naive_solver|].
    cbn [negb]. by step_with (pbuf_free_run s2 (next bz) _ Hc2 ltac:(done) Hr). }
  step_with Ef. assert (bufs s3 !! z = Some b2) as E3.
  { unfold s3. unfold set_bufs at 1. cbn [bufs]. rewrite E2, free_effect_out by done. apply lookup_insert_eq. }
  rewrite (upd_run s3 z b2 _ E3). unfold s3, set_bufs. cbn [bufs dat]. by rewrite E2.
Qed.

(** What the buffers of a cut chain are in the end. *)
Lemma cut_lookup g K z bz R r b2 m a : NoDup (K.*1 ++ z :: R.*1) → let C := cut_cells g K z bz r in
  let m' := <[z := set_next 0 (set_tot r (set_len r bz))]> (free_effect R (<[z := b2]> (writes (cut_cell g <$> K) m))) in
  (∀ b, (a, b) ∈ C → m' !! a = Some b) ∧ (a ∉ C.*1 → m' !! a = free_effect R m !! a).
Proof.
  intros Hnd C m'. apply NoDup_app in Hnd as (Hnd1 & Hnd2 & Hnd3). apply NoDup_cons in Hnd3 as [Hzr _]. split.
  - intros b [Hin|Hin]%elem_of_app; unfold m'.
    + assert (a ∈ K.*1) as Ha by (rewrite <-(keys_cut g); apply list_elem_of_fmap; by exists (a, b)). specialize (Hnd2 a Ha).
      rewrite lookup_insert_ne, free_effect_out, lookup_insert_ne by set_solver. apply writes_in; [by rewrite keys_cut|done].
    + apply list_elem_of_singleton in Hin. simplify_eq. apply lookup_insert_eq.
  - unfold C. rewrite keys_cut_cells. intros Ha. unfold m'. rewrite lookup_insert_ne by set_solver. apply free_effect_ext.
    rewrite lookup_insert_ne by set_solver. apply writes_out. rewrite keys_cut. set_solver.
Qed.

(** The state when the loop and the stores into the new last buffer are over. *)
Lemma pbuf_realloc_run s p L n : chain (bufs s) p L → L ≠ [] → tot_ok L → total L < 2 ^ 16 → refs_ok L → 0 ≤ n < total L →
  ∃ K z bz R, L = K ++ (z, bz) :: R ∧ total K ≤ n ≤ total K + len bz ∧
    let g := n - total L in let C := cut_cells g K z bz (n - total K) in
    ∃ m', pbuf_realloc p n s = Ret tt (mkPst m' (dat s)) ∧ chain m' p C ∧ (∀ a, a ∉ C.*1 → m' !! a = free_effect R (bufs s) !! a).
Proof.
  intros Hc HN Hk Hb Hr Hn. pose proof (chain_size _ _ _ Hc) as Hsz. pose proof (chain_nodup _ _ _ Hc) as Hnd.
  destruct (realloc_loop_run L (S (size (bufs s))) p s n (n - total L)) as (K & z & bz & R & -> & Hz & E); try done; try lia.
  exists K, z, bz, R. split_and!; [done|lia|lia|]. cbv zeta. set (g := n - total _) in *.
  assert (p ≠ 0 ∧ ∃ b, bufs s !! p = Some b ∧ tot_len b = total (K ++ (z, bz) :: R)) as (Hp & b & Eb & Etb).
  { destruct K as [|[a b] K]; cbn in Hc, Hk |- *; destruct Hc as (-> & ? & ? & _), Hk as (_ & ? & _); eauto. }
  rewrite fmap_app in Hnd. pose proof Hnd as Hnd0. apply NoDup_app in Hnd as (Hnd1 & Hnd2 & Hnd3). cbn in Hnd2, Hnd3. apply NoDup_cons in Hnd3 as [Hzr Hnd3].
  unfold pbuf_realloc. destruct (Z.eqb_spec p 0); [done|]. step_with (eq_refl : assert_ true s = Ret tt s). step_with (get_run s p b Eb).
  destruct (Z.leb_spec (tot_len b) n); [lia|]. rewrite Etb. fold g. step_pure. step_with E. set (s1 := set_bufs _ s). cbv beta iota.
  assert (z ∉ K.*1) as HzK by set_solver.
  assert (bufs s1 !! z = Some bz ∧ z ≠ 0) as [Ez Hz0].
  { destruct (lseg_lookup _ _ _ _ z bz Hc) as [? ?]; [apply elem_of_app; right; left|]. split; [|done]. cbn. rewrite writes_out; [done|by rewrite keys_cut]. }
  assert (chain (bufs s1) (next bz) R) as HcR.
  { apply lseg_app in Hc as (x & _ & _ & _ & _ & Hc). apply (lseg_ext (bufs s)); [|done]. intros a Ha. apply writes_out. rewrite keys_cut. set_solver. }
  assert (refs_ok R) as HrR by (apply Forall_app in Hr as [_ [_ Hr]%Forall_cons]; done).
  set (r := n - total K). rewrite (cut_last_run s1 z bz R r Ez Hz0 HcR Hzr HrR ltac:(lia)). unfold s1, set_bufs. cbn [bufs dat].
  eexists. split_and!; [done| |].
  - apply linked_lseg; [by eapply cut_cells_linked|]. intros a b'. by apply (cut_lookup g K z bz R r _ _ a).
  - intros a. by apply (cut_lookup g K z bz R r _ _ a).
Qed.

(** C26  [pbuf_realloc] to fewer bytes than the chain has: the chain from [p] keeps
    exactly the first [new_len] bytes, its [tot_len] fields are right for the new
    length, and the buffers behind the new end lose the reference the chain had to
    them.  The buffers that stay change in [tot_len] only, the last of them also in
    [len] and [next]; payload, type, flags and reference count stay, and so do all
    other buffers and the data.  Asked for as many bytes or more it does nothing. *)
Theorem pbuf_realloc_correct s p L new_len (Hc : chain (bufs s) p L) (HN : L ≠ []) (Hk : tot_ok L) (Hb : total L < 2 ^ 16)
    (Hr : refs_ok L) (Hn : 0 ≤ new_len < 2 ^ 16) :
  (total L ≤ new_len → pbuf_realloc p new_len s = Ret tt s) ∧
  (new_len < total L → ∃ m' C K z bz R, pbuf_realloc p new_len s = Ret tt (mkPst m' (dat s)) ∧ chain m' p C ∧ tot_ok C ∧
    L = K ++ (z, bz) :: R ∧
    C = ((λ c, (c.1, set_tot (tot_len c.2 + (new_len - total L)) c.2)) <$> K) ++
        [(z, set_next 0 (set_tot (new_len - total K) (set_len (new_len - total K) bz)))] ∧
    octs (dat s) C = take (Z.to_nat new_len) (octs (dat s) L) ∧
    (∀ a, a ∉ C.*1 → m' !! a = free_effect R (bufs s) !! a)).
Proof.
  split.
  - intros Hle. destruct L as [|[a b] L]; [done|]. destruct Hc as (-> & Ha0 & Ha & _), Hk as (_ & Ht & _). cbn in Hle. unfold pbuf_realloc.
    destruct (Z.eqb_spec a 0); [done|]. step_with (eq_refl : assert_ true s = Ret tt s). step_with (get_run s a b Ha).
    destruct (Z.leb_spec (tot_len b) new_len); [done|lia].
  - intros Hlt. destruct (pbuf_realloc_run s p L new_len) as (K & z & bz & R & -> & Hz & m' & E & Hm & Ho); try done; try lia.
    exists m', (cut_cells (new_len - total (K ++ (z, bz) :: R)) K z bz (new_len - total K)), K, z, bz, R. split_and!; try done.
    + apply (cut_cells_tot _ K z bz R); [done|lia|lia].
    + rewrite (cut_cells_octs _ _ K z bz R) by (lia || by apply tot_ok_lens). do 2 f_equal. lia.
Qed.

(** ** From chain to chain *)

(** The addresses of the bytes of a chain. *)
Definition addrs (L : list cell) : list Z := L ≫= λ c, seqZ (payload c.2) (len c.2).
Definition positive (L : list cell) : Prop := Forall (λ c, 0 < len c.2) L.

Lemma octs_addrs (d : bytes) L : lens_ok L → octs d L = rdb d <$> addrs L.
Proof.
  unfold octs, chain_octets, addrs. induction L as [|[a b] L IH]; [done|]. intros [Hb HL]%Forall_cons. cbn in *.
  rewrite fmap_app, IH by done. f_equal. replace (len b) with (Z.of_nat (Z.to_nat (len b))) at 2 by lia.
  generalize (payload b) as q. induction (Z.to_nat (len b)) as [|n IHn]; intros q; [done|]. rewrite seqZ_cons by lia. cbn.
  f_equal. rewrite IHn. by replace (Z.pred (Z.of_nat (S n))) with (Z.of_nat n) by lia.
Qed.

(** The bytes at [B], in order, are stored at [A]; nothing else changes. *)
Definition moved_to (A B : list Z) (d d' : bytes) : Prop :=
  (∀ i a b, A !! i = Some a → B !! i = Some b → rdb d' a = rdb d b) ∧
  (∀ a, a ∉ take (length B) A → rdb d' a = rdb d a).

Lemma moved_memcpy (d : bytes) x y n : bytes_ok d → 0 ≤ n → moved_to (seqZ x n) (seqZ y n) d (memcpy d x y n).
Proof.
  intros Hd Hn. unfold memcpy. split.
  - intros i a b Ha Hb. apply lookup_seqZ in Ha as [-> Hi], Hb as [-> _]. rewrite memmove_spec by done. rewrite decide_True by lia. f_equal. lia.
  - intros a Ha. rewrite length_seqZ, take_ge in Ha by (rewrite length_seqZ; lia). rewrite elem_of_seqZ in Ha.
    rewrite memmove_spec by done. by apply decide_False.
Qed.

Lemma moved_app A1 A2 B1 B2 d d1 d2 : moved_to A1 B1 d d1 → moved_to A2 B2 d1 d2 → length A1 = length B1 →
  NoDup (A1 ++ A2) → (∀ a, a ∈ A1 ++ A2 → a ∉ B1 ++ B2) → moved_to (A1 ++ A2) (B1 ++ B2) d d2.
Proof.
  intros [M1 M2] [N1 N2] Hl Hnd Hd. apply NoDup_app in Hnd as (_ & Hnd & _). split.
  - intros i a b Ha Hb. destruct (decide (i < length A1)%nat) as [Hi|Hi].
    + rewrite lookup_app_l in Ha by done. rewrite lookup_app_l in Hb by lia. rewrite N2; [by eapply M1|].
      intros Hin. apply (Hnd a); [by eapply list_elem_of_lookup_2|]. by apply (subseteq_take (length B2)).
    + rewrite lookup_app_r in Ha by lia. rewrite lookup_app_r in Hb by lia. rewrite <-Hl in Hb. rewrite (N1 _ _ _ Ha Hb). apply M2.
      intros Hin. apply subseteq_take in Hin. apply (Hd b); [set_solver|]. apply elem_of_app. right. by eapply list_elem_of_lookup_2.
  - intros a Ha. rewrite length_app, <-Hl, take_app_add in Ha. rewrite N2 by set_solver. apply M2. rewrite <-Hl, take_ge by done. set_solver.
Qed.

(** A place in a chain of [k] buffers, with the addresses from there on. *)
Definition cursor (m : gmap Z buf) (k : nat) (p o : Z) (A : list Z) : Prop :=
  ∃ L, chain m p L ∧ length L = k ∧ positive L ∧ tot_ok L ∧ total L < 2 ^ 16 ∧ A = drop (Z.to_nat o) (addrs L) ∧ 0 ≤ o ∧
    match L with [] => o = 0 | (_, b) :: _ => o < len b end.

Lemma cursor_end m k p o A : cursor m k p o A → p = 0 ↔ A = [].
Proof.
  intros (L & Hc & _ & Hp & _ & _ & -> & Ho & Hm). destruct L as [|[a b] L]; [split; [by rewrite Hm|done]|].
  destruct Hc as (-> & Ha & _). apply Forall_cons in Hp as [Hb _]. cbn in Hb. split; [done|]. intros E. apply (f_equal length) in E.
  rewrite length_drop in E. unfold addrs in E. cbn in E. rewrite length_app, length_seqZ in E. lia.
Qed.

Lemma cursor_no_queue s k p o A : cursor (bufs s) k p o A → no_queue p s = Ret tt s.
Proof.
  intros (L & Hc & _ & Hp & Hk & _). unfold no_queue. destruct L as [|[a b] L]; [cbn in Hc; by rewrite Hc|].
  destruct Hc as (-> & Ha & Eb & Hn). destruct (Z.eqb_spec a 0); [done|]. cbn [negb]. step_with (get_run s a b Eb).
  destruct (Z.eqb_spec (len b) (tot_len b)) as [E|]; [|done]. destruct Hk as (_ & Ht & Hk). destruct L as [|[a' b'] L]; [cbn in Hn; by rewrite Hn|].
  apply Forall_cons in Hp as [_ [Hb' _]%Forall_cons]. cbn in Hb', Ht. destruct Hk as (_ & _ & Hk). destruct (tot_ok_total _ Hk). lia.
Qed.

Lemma drop_seqZ x n k : 0 ≤ k ≤ n → drop (Z.to_nat k) (seqZ x n) = seqZ (x + k) (n - k).
Proof.
  intros Hk. assert (seqZ x n = seqZ x k ++ seqZ (x + k) (n - k)) as ->; [rewrite <-seqZ_app by lia; f_equal; lia|].
  apply drop_app_length'. rewrite length_seqZ. lia.
Qed.

(** One step of the cursor: to the next buffer when this one is used up. *)
Definition stepped (b : buf) (p o n : Z) : Z * Z := if o + n =? len b then (next b, 0) else (p, o + n).

Lemma cursor_step m k p o A : cursor m k p o A → p ≠ 0 → ∃ b, m !! p = Some b ∧ 0 ≤ o < len b ∧ len b < 2 ^ 16 ∧
  len b - o ≤ Z.of_nat (length A) ∧
  ∀ n, 0 ≤ n ≤ len b - o → ∃ k' A2, A = seqZ (payload b + o) n ++ A2 ∧ cursor m k' (stepped b p o n).1 (stepped b p o n).2 A2 ∧
    (if o + n =? len b then k = S k' else k = k').
Proof.
  intros (L & Hc & Hk & Hp & Ht & Hb & -> & Ho & Hm) Hp0. destruct L as [|[a b] L]; [by cbn in Hc|]. pose proof Hc as (-> & Ha & Eb & Hn).
  pose proof Hp as [Hlb HpL]%Forall_cons. cbn in Hlb. pose proof Ht as (_ & Etb & HtL). destruct (tot_ok_total _ HtL) as [HL _]. cbn [total] in Hb.
  exists b. assert (drop (Z.to_nat o) (addrs ((a, b) :: L)) = seqZ (payload b + o) (len b - o) ++ addrs L) as EA.
  { unfold addrs. cbn. rewrite drop_app_le by (rewrite length_seqZ; lia). f_equal.
    apply drop_seqZ. lia. }
  rewrite EA. split_and!; [done|lia|lia|lia|rewrite length_app, length_seqZ; lia|]. intros n Hn'.
  assert (seqZ (payload b + o) (len b - o) = seqZ (payload b + o) n ++ seqZ (payload b + o + n) (len b - o - n)) as ->.
  { rewrite <-seqZ_app by lia. f_equal. lia. }
  rewrite <-app_assoc.
  unfold stepped. destruct (Z.eqb_spec (o + n) (len b)) as [E|E]; cbn [fst snd].
  - exists (length L), (addrs L). replace (len b - o - n) with 0 by lia. split_and!; [done| |done]. exists L. split_and!; try done; try lia.
    destruct L as [|[a' b'] L]; [done|]. by apply Forall_cons in HpL as [? _].
  - exists k, (seqZ (payload b + o + n) (len b - o - n) ++ addrs L). split_and!; [done| |done]. exists ((a, b) :: L). split_and!; try done; try lia.
    unfold addrs at 2. cbn. rewrite drop_app_le by (rewrite length_seqZ; lia). fold (addrs L). f_equal.
    rewrite drop_seqZ by lia. f_equal; lia.
Qed.

Lemma copy_loop_run fuel : ∀ kt kf pt pf ot fo A B s, cursor (bufs s) kt pt ot A → cursor (bufs s) kf pf fo B → pf ≠ 0 →
  (length B ≤ length A)%nat → (kt + kf ≤ fuel)%nat → bytes_ok (dat s) → NoDup A → (∀ a, a ∈ A → a ∉ B) →
  ∃ d', copy_loop fuel pt pf ot fo s = Ret ERR_OK (set_dat (λ _, d') s) ∧ moved_to A B (dat s) d'.
Proof.
  induction fuel as [|fuel IH]; intros kt kf pt pf ot fo A B s HA HB Hpf Hlen Hf Hd Hnd Hdis.
  { exfalso. apply Hpf. destruct HB as (L & Hc & HL & _). destruct L; [done|cbn in HL; lia]. }
  assert (pt ≠ 0) as Hpt.
  { intros E. apply (cursor_end _ _ _ _ _ HA) in E as ->. apply Hpf, (cursor_end _ _ _ _ _ HB). destruct B; [done|cbn in Hlen; lia]. }
  destruct (cursor_step _ _ _ _ _ HA Hpt) as (bt & Et & Hot & Hbt & HlA & SA), (cursor_step _ _ _ _ _ HB Hpf) as (bf & Ef & Hof & Hbf & HlB & SB).
  cbn [copy_loop]. destruct (Z.eqb_spec pt 0) as [|_]; [done|]. step_with (eq_refl : assert_ true s = Ret tt s).
  step_with (get_run s pt bt Et). step_with (get_run s pf bf Ef). cbv zeta. set (n := if _ <=? _ then _ else _).
  assert (n = Z.min (len bf - fo) (len bt - ot)) as En by (unfold n; destruct (Z.leb_spec (len bf - fo) (len bt - ot)); lia). clearbody n.
  destruct (SA n ltac:(lia)) as (kt' & A2 & -> & CA & KA), (SB n ltac:(lia)) as (kf' & B2 & -> & CB & KB). clear SA SB.
  step_pure. set (d1 := memcpy (dat s) (payload bt + ot) (payload bf + fo) n). set (s1 := set_dat (λ _, d1) s).
  change (set_dat (λ d, memcpy d (payload bt + ot) (payload bf + fo) n) s) with s1. rewrite !u16_small by lia.
  destruct (Z.leb_spec (ot + n) (len bt)); [|lia]. step_with (eq_refl : assert_ true s1 = Ret tt s1).
  change (if ot + n =? len bt then (next bt, 0) else (pt, ot + n)) with (stepped bt pt ot n).
  assert ((if len bf <=? fo + n then (next bf, 0) else (pf, fo + n)) = stepped bf pf fo n) as ->.
  { unfold stepped. destruct (Z.leb_spec (len bf) (fo + n)), (Z.eqb_spec (fo + n) (len bf)); done || lia. }
  destruct (stepped bt pt ot n) as [pt' ot'], (Z.leb_spec (fo + n) (len bf)); [|lia]. step_with (eq_refl : assert_ true s1 = Ret tt s1).
  destruct (stepped bf pf fo n) as [pf' fo']. cbn [fst snd] in *. change (bufs s) with (bufs s1) in *.
  step_with (cursor_no_queue s1 _ _ _ _ CB). step_with (cursor_no_queue s1 _ _ _ _ CA).
  pose proof (moved_memcpy (dat s) (payload bt + ot) (payload bf + fo) n Hd ltac:(lia)) as M1. fold d1 in M1.
  assert (bytes_ok d1) as Hd1 by (apply bytes_ok_memmove; [done|lia]). rewrite !length_app, !length_seqZ in Hlen.
  assert (∃ d', (if negb (pf' =? 0) then copy_loop fuel pt' pf' ot' fo' else ret ERR_OK) s1 = Ret ERR_OK (set_dat (λ _, d') s1) ∧ moved_to A2 B2 d1 d')
    as (d' & E & M2); [|exists d'; split; [exact E|apply (moved_app _ _ _ _ _ d1); try done; by rewrite !length_seqZ]].
  destruct (Z.eqb_spec pf' 0) as [E|E]; cbn [negb].
  - apply (cursor_end _ _ _ _ _ CB) in E as ->. exists d1. split; [done|]. by split.
  - apply (IH kt' kf' pt' pf' ot' fo' A2 B2 s1); try done; [lia| |by apply NoDup_app in Hnd as (_ & _ & ?)|intros a Ha Hb; apply (Hdis a); set_solver].
    destruct (Z.eqb_spec (ot + n) (len bt)), (Z.eqb_spec (fo + n) (len bf)); lia.
Qed.

Lemma cursor_start m p L : chain m p L → positive L → tot_ok L → total L < 2 ^ 16 → cursor m (length L) p 0 (addrs L).
Proof.
  intros Hc Hp Hk Hb. exists L. split_and!; try done. destruct L as [|[a b] L]; [done|]. by apply Forall_cons in Hp as [? _].
Qed.

Lemma first_cell m p L : chain m p L → tot_ok L → L ≠ [] → p ≠ 0 ∧ ∃ b, m !! p = Some b ∧ tot_len b = total L.
Proof. destruct L as [|[a b] L]; [done|]. intros (-> & ? & ? & _) (_ & ? & _) _. eauto. Qed.

(** The bytes at [A] after the move. *)
Lemma list_eq_moved A B d d' n : moved_to A B d d' → NoDup A → (length B ≤ length A)%nat → Z.of_nat (length B) = n →
  rdb d' <$> A = (rdb d <$> B) ++ drop (Z.to_nat n) (rdb d <$> A).
Proof.
  intros [M1 M2] Hnd Hl <-. rewrite Nat2Z.id. rewrite <-(take_drop (length B) A) at 1. rewrite fmap_app, <-fmap_drop. f_equal.
  - apply list_eq. intros i. rewrite !list_lookup_fmap. destruct (B !! i) as [b|] eqn:Eb.
    + assert (i < length B)%nat as Hi by (by eapply lookup_lt_Some). destruct (lookup_lt_is_Some_2 A i ltac:(lia)) as [a Ea].
      rewrite lookup_take_lt by done. rewrite Ea. cbn. f_equal. by eapply M1.
    + rewrite lookup_take_ge by (by apply lookup_ge_None). done.
  - apply list_fmap_ext. intros i a Hi. apply M2. intros Hin. rewrite <-(take_drop (length B) A) in Hnd.
    apply NoDup_app in Hnd as (_ & Hnd & _). apply (Hnd a Hin). by eapply list_elem_of_lookup_2.
Qed.

(** C24  [pbuf_copy] from a chain into one that is at least as long and does not overlap it,
    both of non-empty buffers: the call succeeds, the first bytes of the target become those of the source, and
    its other bytes, the source and the rest of memory stay. *)
Theorem pbuf_copy_correct s pt pf Lt Lf (Ht : chain (bufs s) pt Lt) (Hf : chain (bufs s) pf Lf) (NF : Lf ≠ [])
    (Pt : positive Lt) (Pf : positive Lf) (Kt : tot_ok Lt) (Kf : tot_ok Lf) (Hle : total Lf ≤ total Lt) (Hb : total Lt < 2 ^ 16)
    (Hm : bytes_ok (dat s)) (Hnd : NoDup (addrs Lt)) (Hdis : ∀ a, a ∈ addrs Lt → a ∉ addrs Lf) :
  ∃ d' : bytes, pbuf_copy pt pf s = Ret ERR_OK (set_dat (λ _, d') s) ∧
    octs d' Lt = octs (dat s) Lf ++ drop (Z.to_nat (total Lf)) (octs (dat s) Lt) ∧
    (∀ a, a ∉ addrs Lt → rdb d' a = rdb (dat s) a).
Proof.
  assert (lens_ok Lt) as HLt by (by apply tot_ok_lens). assert (lens_ok Lf) as HLf by (apply tot_ok_lens; [done|lia]).
  assert (Z.of_nat (length (addrs Lt)) = total Lt) as Ht'. { rewrite <-(length_octs (dat s)), octs_addrs by done. by rewrite length_fmap. }
  assert (Z.of_nat (length (addrs Lf)) = total Lf) as Hf'. { rewrite <-(length_octs (dat s)), octs_addrs by done. by rewrite length_fmap. }
  pose proof (chain_size _ _ _ Ht). pose proof (chain_size _ _ _ Hf).
  assert (0 < total Lf) as Hf0.
  { destruct Lf as [|[a b] L]; [done|]. apply Forall_cons in Pf as [Pb _]. destruct Kf as (_ & _ & K). destruct (tot_ok_total _ K). cbn in *. lia. }
  destruct (copy_loop_run (S (size (bufs s) + size (bufs s))) (length Lt) (length Lf) pt pf 0 0 (addrs Lt) (addrs Lf) s) as (d' & E & M1 & M2);
    try done; try lia; try (apply cursor_start; done || lia).
  { destruct Lf as [|[] ?]; [done|by destruct Hf as (-> & ? & _)]. }
  exists d'. split_and!.
  - assert (pt ≠ 0 ∧ ∃ b, bufs s !! pt = Some b ∧ tot_len b = total Lt) as (Hp & b & Eb & Etb) by (apply first_cell; [done|done|intros ->; cbn in *; lia]).
    destruct (first_cell (bufs s) pf Lf Hf Kf NF) as (Hp' & b' & Eb' & Etb').
    unfold pbuf_copy. destruct (Z.eqb_spec pt 0), (Z.eqb_spec pf 0); try done. cbn [negb andb]. step_with (eq_refl : assert_ true s = Ret tt s).
    step_with (get_run s pt b Eb). step_with (get_run s pf b' Eb'). destruct (Z.leb_spec (tot_len b') (tot_len b)); [|lia].
    step_with (eq_refl : assert_ true s = Ret tt s). by step_pure.
  - rewrite !octs_addrs by done. apply (list_eq_moved (addrs Lt) (addrs Lf)); try done; lia.
  - intros a Ha. apply M2. intros Hin%subseteq_take. done.
Qed.

(** ** Counts of 256 *)

(** The count of freed buffers has eight bits: with a tail of 256 buffers that all go,
    [pbuf_dechain] returns the tail it has just freed. *)
Lemma pbuf_dechain_wraps s p b L : chain (bufs s) p ((p, b) :: L) → tot_ok ((p, b) :: L) → tot_len b < 2 ^ 16 →
  Forall (λ c, ref c.2 = 1) L → length L = 256%nat →
  ∃ s', pbuf_dechain p s = Ret (next b) s' ∧ next b ≠ 0 ∧ bufs s' !! next b = None.
Proof.
  intros Hc Hk Hb Hr Hl. assert (L ≠ []) as HN by (by intros ->). assert (dead L = L) as Hd.
  { clear -Hr. induction L as [|[a b'] L IH]; [done|]. apply Forall_cons in Hr as [E Hr]. cbn in *. rewrite E. cbn. by rewrite IH. }
  assert (refs_ok L) as Hro by (eapply Forall_impl; [done|]; cbn; intros c ->; lia).
  eexists. split_and!; [rewrite (pbuf_dechain_run s p b L) by done; by rewrite Hd, Hl| |].
  - destruct L as [|[a b'] L]; [done|]. by destruct Hc as (_ & _ & _ & -> & ? & _).
  - pose proof (chain_nodup _ _ _ Hc) as Hnd. destruct L as [|[a b'] L]; [done|]. destruct Hc as (_ & _ & _ & -> & _).
    apply Forall_cons in Hr as [E _]. cbn in E, Hnd. apply NoDup_cons in Hnd as [_ [Hna _]%NoDup_cons].
    cbn [bufs set_bufs free_effect]. rewrite E. cbn [Z.eqb Pos.eqb]. rewrite free_effect_out by done. apply lookup_delete_eq.
Qed.

(** ** Headers *)

Definition moved (k : Z) (b : buf) : buf := set_tot (tot_len b + k) (set_len (len b + k) (set_payload (payload b - k) b)).

(** A move that stays inside the element. *)
Lemma pbuf_header_run s p b k : bufs s !! p = Some b → p ≠ 0 → k ≠ 0 → 0 ≤ len b + k < 2 ^ 16 → 0 ≤ tot_len b + k < 2 ^ 16 →
  type b = PBUF_RAM ∨ type b = PBUF_POOL → p + SIZEOF_STRUCT_PBUF ≤ payload b - k →
  pbuf_header p k s = Ret 0 (set_bufs <[p := moved k b]> s).
Proof.
  intros Eb Hp Hk H1 H2 Hty Hpl. unfold pbuf_header. destruct (Z.eqb_spec p 0), (Z.eqb_spec k 0); try done.
  step_with (eq_refl : assert_ true s = Ret tt s). step_with (get_run s p b Eb).
  assert (negb (k <? 0) || (- k <=? len b) = true) as ->. { destruct (Z.ltb_spec k 0), (Z.leb_spec (- k) (len b)); done || lia. }
  step_with (eq_refl : assert_ true s = Ret tt s). rewrite !u16_small by lia.
  destruct (Z.ltb_spec (payload b - k) (p + SIZEOF_STRUCT_PBUF)); [lia|]. by destruct Hty as [-> | ->].
Qed.

(** Hiding a header of [k] bytes in a buffer of the pool or the heap and showing it
    again gives the buffer back. *)
Theorem pbuf_header_undo s p b k (Eb : bufs s !! p = Some b) (Hp : p ≠ 0) (Hk : 0 < k ≤ len b) (Hl : len b ≤ tot_len b < 2 ^ 16)
    (Hty : type b = PBUF_RAM ∨ type b = PBUF_POOL) (Hpl : p + SIZEOF_STRUCT_PBUF ≤ payload b) :
  (pbuf_header p (- k) ;;; pbuf_header p k) s = Ret 0 s.
Proof.
  step_with (pbuf_header_run s p b (- k) Eb Hp ltac:(lia) ltac:(lia) ltac:(lia) Hty ltac:(lia)). set (s1 := set_bufs _ s).
  rewrite (pbuf_header_run s1 p (moved (- k) b) k (lookup_insert_eq _ _ _) Hp) by (cbn; done || lia). f_equal.
  destruct s as [m d]. unfold s1, set_bufs. cbn [bufs dat] in *. f_equal. rewrite insert_insert_eq.
  replace (moved k (moved (- k) b)) with b; [by apply insert_id|]. destruct b. unfold moved, set_tot, set_len, set_payload. cbn. f_equal; lia.
Qed.
End pbuf.

(** ** A memory of buffers *)

(** Elements of 128 KiB given out in order of address. *)
Definition elements : list Z := (λ i, 2 ^ 17 * i) <$> seqZ 1 300.
Definition first_free (s : pst) : option Z := snd <$> list_find (λ a, bufs s !! a = None) elements.

Lemma first_free_fresh s p : first_free s = Some p → bufs s !! p = None ∧ 0 < p ∧ p mod 4 = 0 ∧ p + 2 ^ 17 < 2 ^ 64.
Proof.
  unfold first_free. intros E. apply fmap_Some in E as ([i q] & E & ->). apply list_find_Some in E as (Hi & Hq & _). split; [done|].
  apply list_elem_of_lookup_2 in Hi. apply list_elem_of_fmap in Hi as (j & -> & Hj%elem_of_seqZ). cbn [snd]. Z.div_mod_to_equations. lia.
Qed.

#[export, refine] Instance element_mem : BufMem :=
  {| memp_malloc _ := first_free; mem_malloc _ := first_free; mem_realloc p _ _ := p |}.
Proof.
  - intros _ s p E. destruct (first_free_fresh s p E) as (? & ? & ? & ?). split_and!; done || lia.
  - intros _ s p. apply first_free_fresh.
  - done.
Defined.

(** Two buffers with the bytes 1 2 3 and 4 5, and one alone. *)
Definition ex_first : buf := mkBuf 0x40 1000 5 3 PBUF_RAM 0 1.
Definition ex_second : buf := mkBuf 0 2000 2 2 PBUF_REF 0 1.
Definition ex_alone : buf := mkBuf 0 3000 4 4 PBUF_ROM 0 1.
Definition ex_dat : bytes := {[1000 := 1; 1001 := 2; 1002 := 3; 2000 := 4; 2001 := 5]}.
Definition ex_state : pst := mkPst {[0x20 := ex_first; 0x40 := ex_second; 0x60 := ex_alone]} ex_dat.
Definition ex_chain : list (Z * buf) := [(0x20, ex_first); (0x40, ex_second)].

Lemma ex_dat_ok : bytes_ok ex_dat.
Proof. apply bytes_ok_sound. apply (bool_decide_unpack _). by vm_compute. Qed.

Lemma pbuf_chain_dechain_witness : (pbuf_chain 0x60 0x20 ;;; pbuf_dechain 0x60) ex_state = Ret 0x20 ex_state.
Proof.
  apply (pbuf_chain_dechain ex_state 0x60 0x20 ex_alone ex_chain); cbn; try done.
  - set_solver.
  - repeat constructor; cbn; lia.
Defined.

(** The five bytes into a target of four and two. *)
Definition ex_copy : pst :=
  mkPst (<[0x80 := mkBuf 0xa0 4000 6 4 PBUF_POOL 0 1]> (<[0xa0 := mkBuf 0 6000 2 2 PBUF_POOL 0 1]> (bufs ex_state))) ex_dat.
Definition ex_target : list (Z * buf) := [(0x80, mkBuf 0xa0 4000 6 4 PBUF_POOL 0 1); (0xa0, mkBuf 0 6000 2 2 PBUF_POOL 0 1)].

Lemma pbuf_copy_witness : ∃ d' : bytes, pbuf_copy 0x80 0x20 ex_copy = Ret ERR_OK (set_dat (λ _, d') ex_copy) ∧
  octs d' ex_target = [1; 2; 3; 4; 5] ++ [0] ∧ (∀ a, a ∉ [4000; 4001; 4002; 4003; 6000; 6001] → rdb d' a = rdb ex_dat a).
Proof.
  apply (pbuf_copy_correct ex_copy 0x80 0x20 ex_target ex_chain); try done; try (by repeat constructor).
  - apply ex_dat_ok.
  - apply (bool_decide_unpack _). by vm_compute.
  - change (addrs ex_target) with [4000; 4001; 4002; 4003; 6000; 6001]. change (addrs ex_chain) with [1000; 1001; 1002; 2000; 2001].
    intros a. set_solver by lia.
Defined.

(** Cut to two bytes the chain keeps only its first buffer. *)
Lemma pbuf_realloc_witness : ∃ m' C K z bz R, pbuf_realloc 0x20 2 ex_state = Ret tt (mkPst m' ex_dat) ∧ chain m' 0x20 C ∧ tot_ok C ∧
  ex_chain = K ++ (z, bz) :: R ∧
  C = ((λ c, (c.1, set_tot (tot_len c.2 + (2 - 5)) c.2)) <$> K) ++ [(z, set_next 0 (set_tot (2 - total K) (set_len (2 - total K) bz)))] ∧
  octs ex_dat C = [1; 2] ∧ (∀ a, a ∉ C.*1 → m' !! a = free_effect R (bufs ex_state) !! a).
Proof.
  apply (pbuf_realloc_correct ex_state 0x20 ex_chain 2); try done.
  - repeat constructor; cbn; lia.
Defined.

(** 5000 bytes for a transport layer take three buffers. *)
Lemma pbuf_alloc_pool_witness :
  pbuf_alloc PBUF_TRANSPORT 5000 PBUF_POOL ex_state = Ret 0 ex_state ∨
  ∃ p s' L, pbuf_alloc PBUF_TRANSPORT 5000 PBUF_POOL ex_state = Ret p s' ∧ p ≠ 0 ∧ chain (bufs s') p L ∧ tot_ok L ∧ total L = 5000 ∧
    Forall new_cell L ∧ dat s' = ex_dat ∧ (∀ a, a ∈ L.*1 → bufs ex_state !! a = None) ∧
    (∀ a, a ∉ L.*1 → bufs s' !! a = bufs ex_state !! a).
Proof. apply (pbuf_alloc_pool_correct ex_state PBUF_TRANSPORT 5000). lia. Defined.
