(* ===== verification/Malloc.v ===== *)
(** * The heap of user programs: lib/riscv/malloc.c

    [malloc] and [free] over the page mappings of one environment.  A mapped page
    has its permissions and its 4096 bytes; heap pages are private to the program,
    which gets them with [sys_page_alloc]; the kernel's free pages and the page tables
    are counted as in [Fork].  The loops of the code are bounded by the size of the
    heap: the bounds used here are shown to be enough.  The refinement is to a map
    from the addresses of live chunks to their contents. *)

From S2P Require Import Prelude Mmu Strings Words Fork.

Record page := mkPage { pperm : Z; pdata : bytes }.
(** [hfree] and [htabs] are the kernel's free pages and the program's page tables. *)
Record hp := mkHp { hpages : gmap Z page; mptr : Z; hfree : Z; htabs : gset (Z * Z * Z) }.
Definition set_pages (m : gmap Z page) (s : hp) : hp := mkHp m (mptr s) (hfree s) (htabs s).
Definition set_mptr (a : Z) (s : hp) : hp := mkHp (hpages s) a (hfree s) (htabs s).
Definition set_hkern (n : Z) (T : gset (Z * Z * Z)) (s : hp) : hp := mkHp (hpages s) (mptr s) n T.
Definition HM (A : Type) : Type := M hp A.

Definition MAXMALLOC : Z := 1024 * 1024.
Definition PTE_CONTINUED : Z := 0x100.
Definition mbegin : Z := 0x08000000.
Definition mend : Z := 0x10000000.

(** ** The system calls and the accesses of the program *)

Definition sys_uvpt_pte (va : Z) : HM Z :=
  gets (λ s, match hpages s !! (va / PGSIZE) with Some p => Z.lor (pperm p) PTE_V | None => 0 end).
(** A page given back when page [n] is unmapped or replaced. *)
Definition back (n : Z) (s : hp) : Z := if decide (is_Some (hpages s !! n)) then 1 else 0.
(** With no free page the kernel works on a null page; with too few for the tables it
    gives the page back. *)
Definition sys_page_alloc (va perm : Z) : HM Z := λ s,
  if bad_va va then Ret (- E_INVAL) s else
  if negb (Z.land perm (Z.lnot PTE_SYSCALL) =? 0) then Ret (- E_INVAL) s else
  if hfree s <=? 0 then Undef else
  let n := va / PGSIZE in
  let '(ok, v) := make_tables 0 n (mkVm ∅ ∅ ∅ (hfree s - 1) (htabs s)) in
  if ok : bool then Ret 0 (set_hkern (kfree v + back n s) (ktabs v) (set_pages (<[n := mkPage perm ∅]> (hpages s)) s))
  else Ret (- E_NO_MEM) (set_hkern (kfree v + 1) (ktabs v) s).
Definition sys_page_unmap (va : Z) : HM Z := λ s,
  if bad_va va then Ret (- E_INVAL) s
  else let n := va / PGSIZE in Ret 0 (set_hkern (hfree s + back n s) (htabs s) (set_pages (delete n (hpages s)) s)).

(** Loads and stores of words within a page; an access to a page that is not mapped
    ends the program. *)
Definition hld32 (va : Z) : HM Z := λ s,
  match hpages s !! (va / PGSIZE) with
  | Some p => Ret (ld32 (pdata p) (va mod PGSIZE)) s
  | None => Undef
  end.
Definition on_page (va : Z) (f : bytes → Z → bytes) : HM unit := λ s,
  match hpages s !! (va / PGSIZE) with
  | Some p =>
      if writable (pperm p)
      then Ret tt (set_pages (<[va / PGSIZE := mkPage (pperm p) (f (pdata p) (va mod PGSIZE))]> (hpages s)) s)
      else Undef
  | None => Undef
  end.
Definition hst32 (va v : Z) : HM unit := on_page va (λ m a, st32 m a v).
Definition hread (va : Z) : HM Z := λ s,
  match hpages s !! (va / PGSIZE) with
  | Some p => Ret (rdb (pdata p) (va mod PGSIZE)) s
  | None => Undef
  end.
Definition hwrite (va b : Z) : HM unit := on_page va (λ m a, wrb m a b).

(** ** The code *)

(** Enough for the pages of the largest chunk, and of the heap scanned thrice. *)
Definition CHUNK_FUEL : nat := 258.
Definition HEAP_FUEL : nat := Z.to_nat 98400.

(** [for (va = v; va < end_va; va += PGSIZE) pte = sys_uvpt_pte(va);]: the test
    below it in the source is not part of the loop. *)
Fixpoint isfree_loop (fuel : nat) (va end_va pte : Z) : HM (Z * Z) :=
  match fuel with
  | O => undef
  | S fuel' =>
      if va <? end_va then
        pte <- sys_uvpt_pte va ;; isfree_loop fuel' (u64 (va + PGSIZE)) end_va pte
      else ret (va, pte)
  end.
Definition isfree (v n : Z) : HM bool :=
  r <- isfree_loop CHUNK_FUEL v (u64 (v + n)) 0 ;;
  ret (negb ((mend <=? fst r) || negb (Z.land (snd r) PTE_V =? 0))).

Definition free_ref (c : Z) : HM unit :=
  let ref := u64 (c + PGSIZE - 4) in
  r <- hld32 ref ;;
  hst32 ref (u32 (r - 1)) ;;;
  if u32 (r - 1) =? 0 then sys_page_unmap c ;;; ret tt else ret tt.

(** [while (sys_uvpt_pte(c) & PTE_CONTINUED)]; gives [c]. *)
Fixpoint free_loop (fuel : nat) (c : Z) : HM Z :=
  match fuel with
  | O => undef
  | S fuel' =>
      pte <- sys_uvpt_pte c ;;
      if negb (Z.land pte PTE_CONTINUED =? 0) then
        sys_page_unmap c ;;;
        assert_ ((mbegin <=? u64 (c + PGSIZE)) && (u64 (c + PGSIZE) <? mend)) ;;;
        free_loop fuel' (u64 (c + PGSIZE))
      else ret c
  end.

Definition free (v : Z) : HM unit :=
  if v =? 0 then ret tt else
  assert_ ((mbegin <=? v) && (v <? mend)) ;;;
  c <- free_loop HEAP_FUEL (ROUNDDOWN v PGSIZE) ;;
  free_ref c.

(** [while (1)]: whether an address was found. *)
Fixpoint search (fuel : nat) (n nwrap : Z) : HM bool :=
  match fuel with
  | O => undef
  | S fuel' =>
      p <- gets mptr ;;
      b <- isfree p (u64 (n + 4)) ;;
      if b : bool then ret true else
      modify (set_mptr (u64 (p + PGSIZE))) ;;;
      if u64 (p + PGSIZE) =? mend then
        modify (set_mptr mbegin) ;;;
        if nwrap + 1 =? 2 then ret false else search fuel' n (nwrap + 1)
      else search fuel' n nwrap
  end.

(** [for (; i >= 0; i -= PGSIZE) sys_page_unmap(0, mptr + i);] *)
Fixpoint unmap_down (fuel : nat) (p i : Z) : HM unit :=
  match fuel with
  | O => undef
  | S fuel' =>
      if 0 <=? i then sys_page_unmap (u64 (p + i)) ;;; unmap_down fuel' p (i - PGSIZE) else ret tt
  end.

Definition HEAP_PERM : Z := Z.lor (Z.lor (Z.lor PTE_V PTE_U) PTE_W) PTE_R.

(** The loop that allocates the pages: the final [i], nothing when it gave up. *)
Fixpoint alloc_loop (fuel : nat) (p n i : Z) : HM (option Z) :=
  match fuel with
  | O => undef
  | S fuel' =>
      if i <? u64 (n + 4) then
        let cont := if i + PGSIZE <? u64 (n + 4) then PTE_CONTINUED else 0 in
        r <- sys_page_alloc (u64 (p + i)) (Z.lor HEAP_PERM cont) ;;
        if r <? 0 then unmap_down CHUNK_FUEL p i ;;; ret None
        else alloc_loop fuel' p n (i + PGSIZE)
      else ret (Some i)
  end.

(** From the search on. *)
Definition new_chunk (n : Z) : HM Z :=
  found <- search HEAP_FUEL n 0 ;;
  if negb found then ret 0 else
  p <- gets mptr ;;
  o <- alloc_loop CHUNK_FUEL p n 0 ;;
  match o with
  | None => ret 0
  | Some i =>
      hst32 (u64 (p + i - 4)) 2 ;;;
      modify (set_mptr (u64 (p + n))) ;;;
      ret p
  end.

Definition malloc (n : Z) : HM Z :=
  p <- gets mptr ;;
  (if p =? 0 then modify (set_mptr mbegin) else ret tt) ;;;
  let n := ROUNDUP n 8 in
  if MAXMALLOC <=? n then ret 0 else
  p <- gets mptr ;;
  if negb (p mod PGSIZE =? 0) then
    let ref := u64 (ROUNDUP p PGSIZE - 4) in
    if p / PGSIZE =? u64 (p + n - 1 + 4) / PGSIZE then
      r <- hld32 ref ;;
      hst32 ref (u32 (r + 1)) ;;;
      modify (set_mptr (u64 (p + n))) ;;;
      ret p
    else
      free p ;;;
      modify (set_mptr (ROUNDDOWN (p + PGSIZE) PGSIZE)) ;;;
      new_chunk n
  else new_chunk n.
(** ** Pages and reference counts *)

Definition LO : Z := mbegin / PGSIZE.
Definition HI : Z := mend / PGSIZE.
Definition in_heap (n : Z) : Prop := LO ≤ n < HI.

(** The heap's pages carry the reference counts [r]: a page with none is unmapped. *)
Definition pages_ok (r : Z → nat) (m : gmap Z page) : Prop := ∀ n, in_heap n →
  match m !! n with
  | None => r n = 0%nat
  | Some p => pperm p = HEAP_PERM ∧ (0 < r n)%nat ∧ ld32 (pdata p) (PGSIZE - 4) = Z.of_nat (r n)
  end.

Definition dat (m : gmap Z page) (n i : Z) : Z :=
  match m !! n with Some p => rdb (pdata p) i | None => 0 end.

(** The bytes in front of the count of the pages still mapped are the same. *)
Definition same_data (m m' : gmap Z page) : Prop :=
  ∀ n i, in_heap n → 0 ≤ i < PGSIZE - 4 → is_Some (m' !! n) → dat m' n i = dat m n i.

(** Nothing outside the heap changes. *)
Definition same_outside (m m' : gmap Z page) : Prop := ∀ n, ¬ in_heap n → m' !! n = m !! n.

Lemma heap_bounds n : in_heap n → 0x8000 ≤ n < 0x10000.
Proof. unfold in_heap, LO, HI, mbegin, mend. change PGSIZE with 4096. by vm_compute (_ / _). Qed.

Lemma page_off n i : 0 ≤ i < PGSIZE → (n * PGSIZE + i) / PGSIZE = n ∧ (n * PGSIZE + i) mod PGSIZE = i.
Proof.
  change PGSIZE with 4096. intros Hi. Z.div_mod_to_equations. lia.
Qed.

Lemma heap_va n i : in_heap n → 0 ≤ i ≤ PGSIZE → is_u64 (n * PGSIZE + i).
Proof. intros Hn%heap_bounds. unfold is_u64. change PGSIZE with 4096. lia. Qed.

Lemma heap_page_va n : in_heap n → bad_va (n * PGSIZE) = false.
Proof.
  intros Hn%heap_bounds. unfold bad_va. rewrite Z.mod_mul by done. change (negb (0 =? 0)) with false.
  rewrite orb_false_r. apply Z.leb_gt. change PGSIZE with 4096. 
  assert (0x10000000 < UTOP) by (vm_compute; done). lia.
Qed.

Lemma sys_page_unmap_heap s n : in_heap n →
  sys_page_unmap (n * PGSIZE) s = Ret 0 (set_hkern (hfree s + back n s) (htabs s) (set_pages (delete n (hpages s)) s)).
Proof. intros Hn. unfold sys_page_unmap. rewrite heap_page_va, Z.div_mul by done. done. Qed.

Lemma back_bound n s : 0 ≤ back n s ≤ 1.
Proof. unfold back. case_decide; lia. Qed.

(** A page allocated, or the tables' pages not there. *)
Lemma sys_page_alloc_heap s n perm : in_heap n → (Z.land perm (Z.lnot PTE_SYSCALL) =? 0) = true → 0 < hfree s →
  (∃ k T, sys_page_alloc (n * PGSIZE) perm s = Ret 0 (set_hkern k T (set_pages (<[n := mkPage perm ∅]> (hpages s)) s)) ∧
     hfree s - 4 ≤ k) ∨
  (∃ T, sys_page_alloc (n * PGSIZE) perm s = Ret (- E_NO_MEM) (set_hkern 1 T s) ∧ hfree s < 4).
Proof.
  intros Hn Hp Hk. unfold sys_page_alloc. rewrite heap_page_va, Hp, Z.div_mul by done. cbn [negb].
  rewrite (proj2 (Z.leb_gt _ _)) by done. unfold make_tables. set (v := mkVm _ _ _ _ _).
  assert (Z.of_nat (length (missing 0 n v)) ≤ 3) as Hm.
  { pose proof (length_filter (λ t, t ∉ ktabs v) (tables 0 n)) as Hl. unfold missing. cbn [length tables] in Hl. lia. }
  change (kfree v) with (hfree s - 1). pose proof (back_bound n s).
  destruct (Z.leb_spec (Z.of_nat (length (missing 0 n v))) (hfree s - 1)) as [Hle|Hgt].
  - left. eexists _, _. split; [reflexivity|]. cbn [kfree set_kern]. lia.
  - right. eexists. split; [|lia]. cbn [kfree ktabs set_kern]. rewrite (Z.min_r _ (hfree s - 1)) by lia.
    rewrite Z.sub_diag. reflexivity.
Qed.

Lemma hld32_page s n i p : 0 ≤ i < PGSIZE → hpages s !! n = Some p →
  hld32 (n * PGSIZE + i) s = Ret (ld32 (pdata p) i) s.
Proof. intros Hi Hp. destruct (page_off n i Hi) as [E1 E2]. unfold hld32. by rewrite E1, E2, Hp. Qed.

Lemma on_page_page s n i p f : 0 ≤ i < PGSIZE → hpages s !! n = Some p → pperm p = HEAP_PERM →
  on_page (n * PGSIZE + i) f s = Ret tt (set_pages (<[n := mkPage HEAP_PERM (f (pdata p) i)]> (hpages s)) s).
Proof.
  intros Hi Hp Hw. destruct (page_off n i Hi) as [E1 E2]. unfold on_page. by rewrite E1, E2, Hp, Hw.
Qed.

Lemma dat_insert m n p k i : dat (<[n := p]> m) k i = if decide (n = k) then rdb (pdata p) i else dat m k i.
Proof. unfold dat. case_decide; [subst; by rewrite lookup_insert_eq|by rewrite lookup_insert_ne]. Qed.

(** Storing a count keeps the data. *)
Lemma same_data_count m n p c : m !! n = Some p →
  same_data m (<[n := mkPage HEAP_PERM (st32 (pdata p) (PGSIZE - 4) c)]> m).
Proof.
  intros Hp k i Hk Hi _. rewrite dat_insert. case_decide as E; [|done]. subst k. simpl.
  unfold dat. rewrite Hp. apply rdb_st32_out. lia.
Qed.

Lemma same_outside_insert m n p : in_heap n → same_outside m (<[n := p]> m).
Proof. intros Hn k Hk. apply lookup_insert_ne. by intros ->. Qed.

Lemma pages_ok_count r m n p c : pages_ok r m → m !! n = Some p → (0 < c)%nat → Z.of_nat c < 2 ^ 32 →
  pages_ok (λ k, if decide (k = n) then c else r k)
    (<[n := mkPage HEAP_PERM (st32 (pdata p) (PGSIZE - 4) (Z.of_nat c))]> m).
Proof.
  intros Hok Hp Hc Hb k Hk. specialize (Hok k Hk). case_decide as E.
  - subst k. rewrite lookup_insert_eq. simpl. rewrite ld32_st32_eq, u32_small by lia. done.
  - by rewrite lookup_insert_ne by done.
Qed.

Lemma free_ref_spec s n r :
  pages_ok r (hpages s) → in_heap n → (0 < r n)%nat → Z.of_nat (r n) < 2 ^ 32 →
  ∃ s', free_ref (n * PGSIZE) s = Ret tt s' ∧ mptr s' = mptr s ∧ hfree s ≤ hfree s' ∧
    pages_ok (λ k, if decide (k = n) then r n - 1 else r k)%nat (hpages s') ∧
    same_data (hpages s) (hpages s') ∧ same_outside (hpages s) (hpages s').
Proof.
  intros Hok Hn Hr Hb. pose proof (Hok n Hn) as Hp.
  destruct (hpages s !! n) as [p|] eqn:E; [destruct Hp as (Hw & _ & Hl)|lia].
  unfold free_ref. replace (n * PGSIZE + PGSIZE - 4) with (n * PGSIZE + (PGSIZE - 4)) by lia.
  rewrite u64_small by (by apply heap_va). step_with (hld32_page s n (PGSIZE - 4) p ltac:(done) E).
  rewrite Hl, u32_small by lia.
  step_with (on_page_page s n (PGSIZE - 4) p (λ m a, st32 m a (Z.of_nat (r n) - 1)) ltac:(done) E Hw).
  destruct (Z.eqb_spec (Z.of_nat (r n) - 1) 0) as [E1|E1].
  - step_with (sys_page_unmap_heap (set_pages (<[n := mkPage HEAP_PERM (st32 (pdata p) (PGSIZE - 4) (Z.of_nat (r n) - 1))]> (hpages s)) s) n Hn).
    match goal with |- context [back n ?v] => pose proof (back_bound n v) end.
    eexists. split; [done|]. simpl. rewrite delete_insert_eq. split_and!; [done|lia|..].
    + intros k Hk. specialize (Hok k Hk). case_decide as Ek; [subst k; rewrite lookup_delete_eq; lia|].
      by rewrite lookup_delete_ne.
    + intros k i Hk Hi [q Hq]. unfold dat. apply lookup_delete_Some in Hq as [Hne Hq].
      by rewrite lookup_delete_ne.
    + intros k Hk. rewrite lookup_delete_ne; [done|]. by intros ->.
  - eexists. split; [done|]. simpl. replace (Z.of_nat (r n) - 1) with (Z.of_nat (r n - 1)) by lia.
    split_and!; [done|lia|by apply pages_ok_count; [..|lia|lia]|by apply same_data_count|by apply same_outside_insert].
Qed.

(** ** Live chunks *)

Notation chunks := (gmap Z (list Z)).

Definition on_page_of (a : chunks) (n : Z) : gset Z := filter (λ v, v / PGSIZE = n) (dom a).
Definition cur (p n : Z) : nat := if decide (p mod PGSIZE ≠ 0 ∧ p / PGSIZE = n) then 1 else 0.
(** References to page [n]: its live chunks, and [mptr] when it is inside. *)
Definition refs (a : chunks) (p n : Z) : nat := (size (on_page_of a n) + cur p n)%nat.

Lemma on_page_bound a n : (size (on_page_of a n) ≤ 4096)%nat.
Proof.
  assert (on_page_of a n ⊆ list_to_set (seqZ (n * 4096) 4096)) as Hs.
  { intros v. unfold on_page_of. rewrite elem_of_filter, elem_of_list_to_set, elem_of_seqZ.
    change PGSIZE with 4096. intros [<- _]. Z.div_mod_to_equations. lia. }
  apply subseteq_size in Hs. rewrite size_list_to_set, length_seqZ in Hs by apply NoDup_seqZ. lia.
Qed.

Lemma refs_bound a p n : Z.of_nat (refs a p n) < 2 ^ 31.
Proof. unfold refs, cur. pose proof (on_page_bound a n). case_decide; lia. Qed.

Lemma on_page_insert a v l n : a !! v = None →
  size (on_page_of (<[v := l]> a) n) =
  ((if decide ((v / PGSIZE)%Z = n) then 1 else 0) + size (on_page_of a n))%nat.
Proof.
  intros Hv. apply not_elem_of_dom in Hv. unfold on_page_of. rewrite dom_insert_L. case_decide as E.
  - assert (filter (λ v, v / PGSIZE = n) ({[v]} ∪ dom a) =
      {[v]} ∪ filter (λ v, v / PGSIZE = n) (dom a)) as -> by (apply set_eq; intros x; set_solver).
    rewrite size_union, size_singleton; [done|]. set_solver.
  - simpl. f_equal. apply set_eq. intros x. set_solver.
Qed.

Lemma on_page_delete a v l n : a !! v = Some l →
  size (on_page_of a n) = ((if decide ((v / PGSIZE)%Z = n) then 1 else 0) + size (on_page_of (delete v a) n))%nat.
Proof.
  intros Hv. rewrite <-(insert_delete_id a v l) at 1 by done.
  apply on_page_insert, lookup_delete_eq.
Qed.

Lemma on_page_update a v l l' n : a !! v = Some l → on_page_of (<[v := l']> a) n = on_page_of a n.
Proof. intros Hv. unfold on_page_of. by rewrite dom_insert_lookup_L by eauto. Qed.

Lemma on_page_pos a v l : a !! v = Some l → (0 < size (on_page_of a (v / PGSIZE)%Z))%nat.
Proof. intros Hv. rewrite (on_page_delete a v l _ Hv), decide_True by done. lia. Qed.

Record heap_inv (a : chunks) (s : hp) : Prop := {
  hi_ptr : mptr s = 0 ∨
    (mbegin ≤ mptr s < mend ∧ mptr s mod 8 = 0 ∧ (mptr s mod PGSIZE ≠ 0 → mptr s / PGSIZE + 1 < HI));
  hi_pages : pages_ok (refs a (mptr s)) (hpages s);
  hi_chunk v l : a !! v = Some l →
    mbegin ≤ v < mend ∧ (0 < length l)%nat ∧ v mod PGSIZE + Z.of_nat (length l) ≤ PGSIZE - 4 ∧
    ∀ i c, l !! i = Some c → dat (hpages s) (v / PGSIZE) (v mod PGSIZE + Z.of_nat i) = c;
  hi_disj v v' l l' : a !! v = Some l → a !! v' = Some l' → v < v' → v + Z.of_nat (length l) ≤ v';
  hi_cur : mptr s mod PGSIZE ≠ 0 →
    (∀ v l, a !! v = Some l → v / PGSIZE = mptr s / PGSIZE → v + Z.of_nat (length l) ≤ mptr s) ∧
    (∀ i, mptr s mod PGSIZE ≤ i < PGSIZE - 4 → dat (hpages s) (mptr s / PGSIZE) i = 0);
  hi_align v l : a !! v = Some l → v mod 8 = 0
}.

Lemma va_in_heap v : mbegin ≤ v < mend → in_heap (v / PGSIZE).
Proof.
  unfold in_heap, LO, HI, mbegin, mend. change PGSIZE with 4096. intros Hv.
  Z.div_mod_to_equations. lia.
Qed.

Lemma chunk_mapped a v l m r : a !! v = Some l → mbegin ≤ v < mend → pages_ok r m →
  (size (on_page_of a (v / PGSIZE)%Z) ≤ r (v / PGSIZE)%Z)%nat → is_Some (m !! (v / PGSIZE)).
Proof.
  intros Hv Hb Hok Hr. pose proof (on_page_pos a v l Hv). specialize (Hok _ (va_in_heap v Hb)).
  destruct (m !! (v / PGSIZE)); [by eexists|lia].
Qed.

(** Chunks keep their contents when their pages keep their data. *)
Lemma chunk_data a s m v l : heap_inv a s → a !! v = Some l →
  same_data (hpages s) m → is_Some (m !! (v / PGSIZE)) →
  mbegin ≤ v < mend ∧ (0 < length l)%nat ∧ v mod PGSIZE + Z.of_nat (length l) ≤ PGSIZE - 4 ∧
  ∀ i c, l !! i = Some c → dat m (v / PGSIZE) (v mod PGSIZE + Z.of_nat i) = c.
Proof.
  intros I Hv Hs Hr. destruct (hi_chunk _ _ I v l Hv) as (Hb & Hl & Hf & Hd). split_and!; [lia..|].
  intros i c Hi. apply lookup_lt_Some in Hi as Hlt. rewrite Hs; [by apply Hd|by apply va_in_heap| |done].
  pose proof (Z.mod_pos_bound v PGSIZE). change PGSIZE with 4096 in *. lia.
Qed.

(** Fewer chunks, the same pointer or one at the start of a page. *)
Lemma heap_inv_shrink a a' s s' :
  heap_inv a s → a' ⊆ a → same_data (hpages s) (hpages s') →
  pages_ok (refs a' (mptr s')) (hpages s') →
  mptr s' = mptr s ∨ (mbegin ≤ mptr s' < mend ∧ mptr s' mod PGSIZE = 0) → heap_inv a' s'.
Proof.
  intros I Ha Hs Hok Hm.
  assert (∀ v l, a' !! v = Some l → a !! v = Some l) as Hsub by (intros v l Hv; by apply (lookup_weaken a')).
  assert (mptr s' mod PGSIZE ≠ 0 → mptr s' = mptr s) as Hne by (destruct Hm; [done|lia]).
  split; [|done|..].
  - destruct Hm as [-> | [Hb H0]]; [apply I|]. right. split_and!; [lia..| |done].
    change PGSIZE with 4096 in H0. Z.div_mod_to_equations. lia.
  - intros v l Hv. apply (chunk_data a s); [done|by apply Hsub|done|].
    eapply chunk_mapped; [done|by eapply hi_chunk, Hsub|done|]. unfold refs. lia.
  - intros v v' l l' Hv Hv'. by apply (hi_disj _ _ I v v' l l'); apply Hsub.
  - intros H0. pose proof (Hne H0) as Em. rewrite Em in H0, Hok |- *. destruct (hi_cur _ _ I H0) as [H1 H2]. split.
    + intros v l Hv. by apply H1, Hsub.
    + destruct (hi_ptr _ _ I) as [E|(Hb & _)]; [by rewrite E in H0|].
      intros i Hi. pose proof (va_in_heap _ Hb) as Hh. pose proof (Z.mod_pos_bound (mptr s) PGSIZE).
      rewrite Hs; [by apply H2|done|change PGSIZE with 4096 in *; lia|].
      specialize (Hok _ Hh). destruct (hpages s' !! _); [by eexists|].
      unfold refs, cur in Hok. rewrite decide_True in Hok by done. lia.
  - intros v l Hv. by eapply (hi_align _ _ I), Hsub.
Qed.

Lemma HEAP_FUEL_S : HEAP_FUEL = S (Z.to_nat 98399).
Proof. unfold HEAP_FUEL. rewrite <-Z2Nat.inj_succ by lia. done. Qed.

#[local] Opaque HEAP_FUEL.

Lemma heap_rounddown v : mbegin ≤ v < mend → ROUNDDOWN v PGSIZE = v / PGSIZE * PGSIZE.
Proof.
  unfold mbegin, mend. intros Hv. unfold ROUNDDOWN. rewrite u64_small by (unfold is_u64; lia).
  rewrite (Z.div_mod v PGSIZE) at 1 by done. lia.
Qed.

(** [free] of an address in a page with references drops one of them. *)
Lemma free_spec s v r :
  pages_ok r (hpages s) → mbegin ≤ v < mend → (0 < r (v / PGSIZE)%Z)%nat → Z.of_nat (r (v / PGSIZE)) < 2 ^ 32 →
  ∃ s', free v s = Ret tt s' ∧ mptr s' = mptr s ∧ hfree s ≤ hfree s' ∧
    pages_ok (λ k, if decide (k = (v / PGSIZE)%Z) then r (v / PGSIZE)%Z - 1 else r k)%nat (hpages s') ∧
    same_data (hpages s) (hpages s') ∧ same_outside (hpages s) (hpages s').
Proof.
  intros Hok Hv Hr Hb. pose proof (va_in_heap v Hv) as Hn. unfold free.
  destruct (Z.eqb_spec v 0) as [->|_]; [unfold mbegin in Hv; lia|].
  rewrite (proj2 (Z.leb_le _ _)), (proj2 (Z.ltb_lt _ _)) by lia. step_with (eq_refl : assert_ (true && true) s = Ret tt s).
  rewrite heap_rounddown, HEAP_FUEL_S by done. cbn [free_loop]. rewrite bind_assoc.
  pose proof (Hok _ Hn) as Hp. destruct (hpages s !! (v / PGSIZE)) as [p|] eqn:E; [|lia].
  unfold sys_uvpt_pte at 1. step_pure. rewrite Z.div_mul, E by done. destruct Hp as (-> & _).
  change (negb (Z.land (Z.lor HEAP_PERM PTE_V) PTE_CONTINUED =? 0)) with false. cbv iota. step_pure.
  by apply free_ref_spec.
Qed.

(** A chunk freed. *)
Lemma free_correct a s v l : heap_inv a s → a !! v = Some l →
  ∃ s', free v s = Ret tt s' ∧ heap_inv (delete v a) s' ∧ same_outside (hpages s) (hpages s').
Proof.
  intros I Hv. destruct (hi_chunk _ _ I v l Hv) as (Hb & _). pose proof (refs_bound a (mptr s) (v / PGSIZE)).
  pose proof (on_page_pos a v l Hv).
  destruct (free_spec s v (refs a (mptr s))) as (s' & E & Hm & _ & Hok & Hs & Ho); [apply I|done|unfold refs; lia|lia|].
  exists s'. split_and!; [done| |done]. apply (heap_inv_shrink a _ s); [done|apply delete_subseteq|done| |by left].
  rewrite Hm. intros n Hn. specialize (Hok n Hn). unfold refs in *.
  rewrite !(on_page_delete a v l _ Hv), (decide_True (P := v / PGSIZE = v / PGSIZE)) in Hok by done.
  destruct (decide (n = v / PGSIZE)) as [->|Hne]; [|by rewrite decide_False in Hok by congruence].
  destruct (hpages s' !! (v / PGSIZE)) as [p|]; [|lia].
  by replace (1 + _ + _ - 1)%nat with (size (on_page_of (delete v a) (v / PGSIZE)%Z) + cur (mptr s) (v / PGSIZE)%Z)%nat in Hok by lia.
Qed.

(** ** The search for a free page *)

Definition usable (s : hp) (n : Z) : Prop := n + 1 < HI ∧ hpages s !! n = None.
#[export] Instance usable_dec s n : Decision (usable s n).
Proof. apply and_dec; [apply _|]. destruct (hpages s !! n); [right|left]; done. Defined.

Lemma CHUNK_FUEL_S : ∃ f, CHUNK_FUEL = S (S f).
Proof. by exists 256%nat. Qed.

Lemma isfree_page s n k : in_heap n → 0 < k ≤ PGSIZE →
  isfree (n * PGSIZE) k s = Ret (bool_decide (usable s n)) s.
Proof.
  intros Hn Hk. pose proof (heap_bounds n Hn). unfold isfree. destruct CHUNK_FUEL_S as [f ->].
  cbn [isfree_loop]. change PGSIZE with 4096 in *. rewrite !u64_small by (unfold is_u64; lia).
  destruct (Z.ltb_spec (n * 4096) (n * 4096 + k)); [|lia]. rewrite !bind_assoc.
  unfold sys_uvpt_pte at 1. step_pure. destruct (Z.ltb_spec (n * 4096 + 4096) (n * 4096 + k)); [lia|].
  step_pure. change PGSIZE with 4096. rewrite Z.div_mul by done. unfold ret. f_equal.
  unfold mend. cbn [fst snd]. case_bool_decide as Hu; unfold usable in Hu; change HI with 0x10000 in Hu;
    destruct (Z.leb_spec 0x10000000 (n * 4096 + 4096)); try done; try lia.
  - destruct Hu as [? ->]. done.
  - destruct (hpages s !! n) as [p|] eqn:E; [|destruct Hu; split; [lia|done]].
    destruct (Z.eqb_spec (Z.land (Z.lor (pperm p) PTE_V) PTE_V) 0) as [E0|]; [|done].
    by apply lor_PTE_V_valid in E0.
Qed.

(** From page [n] up: the first usable page, or the wrap at the end. *)
Lemma search_up (j fuel : nat) s n k nwrap :
  in_heap n → mptr s = n * PGSIZE → HI - n = Z.of_nat j → (j < fuel)%nat → 0 < k → k + 4 ≤ PGSIZE →
  (∃ n', n ≤ n' ∧ in_heap n' ∧ usable s n' ∧ search fuel k nwrap s = Ret true (set_mptr (n' * PGSIZE) s)) ∨
  ((∀ n', n ≤ n' < HI → ¬ usable s n') ∧
   search fuel k nwrap s =
     if nwrap + 1 =? 2 then Ret false (set_mptr mbegin s)
     else search (fuel - j) k (nwrap + 1) (set_mptr mbegin s)).
Proof.
  revert fuel s n. induction j as [|j IH]; intros fuel s n Hn Hp Hj Hf Hk Hk'; [unfold in_heap in Hn; lia|].
  destruct fuel as [|fuel]; [lia|]. cbn [search]. step_pure. pose proof (heap_bounds n Hn).
  rewrite Hp. rewrite (u64_small (k + 4)) by (unfold is_u64; change PGSIZE with 4096 in *; lia).
  step_with (isfree_page s n (k + 4) Hn ltac:(lia)). case_bool_decide as Hu.
  { left. exists n. split_and!; [lia|done|done|]. unfold ret. f_equal. destruct s. simpl in *. by subst. }
  step_pure. rewrite u64_small by (unfold is_u64; change PGSIZE with 4096 in *; lia).
  destruct (Z.eqb_spec (n * PGSIZE + PGSIZE) mend) as [E|E].
  - right. assert (j = 0%nat) as ->.
    { change HI with 0x10000 in Hj. unfold mend in E. change PGSIZE with 4096 in E. lia. }
    split; [intros n' Hn'; by replace n' with n by lia|]. step_pure.
    case_match; [done|]. simpl. by rewrite Nat.sub_0_r.
  - assert (in_heap (n + 1)) as Hn1.
    { revert Hn E. unfold in_heap, mend. change HI with 0x10000. change PGSIZE with 4096. lia. }
    destruct (IH fuel (set_mptr (n * PGSIZE + PGSIZE) s) (n + 1)) as [(n' & ? & ? & Hu' & E')|(Hno & E')];
      [done|simpl; lia|lia..| |].
    + left. exists n'. split_and!; [lia|done|done|by rewrite E'].
    + right. split; [|by rewrite E'].
      intros n' Hn'. destruct (decide (n' = n)) as [->|]; [done|]. apply (Hno n'). lia.
Qed.

Lemma search_spec s n k :
  in_heap n → mptr s = n * PGSIZE → 0 < k → k + 4 ≤ PGSIZE →
  (∃ n', in_heap n' ∧ usable s n' ∧ search HEAP_FUEL k 0 s = Ret true (set_mptr (n' * PGSIZE) s)) ∨
  ((∀ n', in_heap n' → ¬ usable s n') ∧ search HEAP_FUEL k 0 s = Ret false (set_mptr mbegin s)).
Proof.
  intros Hn Hp Hk Hk'. pose proof (heap_bounds n Hn) as Hb.
  assert (in_heap LO) as HLO by done. assert (mptr (set_mptr mbegin s) = LO * PGSIZE) as Hp0 by done.
  assert (Z.of_nat HEAP_FUEL = 98400) as Hf by (rewrite HEAP_FUEL_S; lia).
  destruct (search_up (Z.to_nat (HI - n)) HEAP_FUEL s n k 0) as [(n' & ? & ? & ? & E)|[Hno E]];
    [done|done|change HI with 0x10000; lia|change HI with 0x10000; lia|lia|lia|by left; eauto|].
  change (0 + 1 =? 2) with false in E. cbv iota in E.
  destruct (search_up (Z.to_nat 0x8000) (HEAP_FUEL - Z.to_nat (HI - n)) _ LO k 1 HLO Hp0)
    as [(n' & ? & ? & ? & E')|[Hno' E']];
    [change HI with 0x10000; change LO with 0x8000; lia|change HI with 0x10000; lia|lia|lia|..].
  - left. exists n'. split_and!; [assumption..|]. rewrite E. exact E'.
  - right. split; [intros n' Hn'; exact (Hno' n' Hn')|]. rewrite E. exact E'.
Qed.

(** ** A new chunk *)

Lemma same_page p w : p / PGSIZE ≠ w / PGSIZE → p < w → (p / PGSIZE + 1) * PGSIZE ≤ w.
Proof. change PGSIZE with 4096. intros. Z.div_mod_to_equations. lia. Qed.

Lemma va_split v : v = v / PGSIZE * PGSIZE + v mod PGSIZE ∧ 0 ≤ v mod PGSIZE < PGSIZE.
Proof. change PGSIZE with 4096. Z.div_mod_to_equations. lia. Qed.

(** The chunk of [k] zero bytes at [p], behind the chunks of its page. *)
Lemma heap_inv_grow a s s' p (k : nat) :
  heap_inv a s → mbegin ≤ p < mend → p / PGSIZE + 1 < HI → p mod 8 = 0 → Z.of_nat k mod 8 = 0 → (0 < k)%nat →
  p mod PGSIZE + Z.of_nat k ≤ PGSIZE - 4 → mptr s' = p + Z.of_nat k →
  (∀ v l, a !! v = Some l → v / PGSIZE = p / PGSIZE → v + Z.of_nat (length l) ≤ p) →
  pages_ok (refs (<[p := replicate k 0]> a) (p + Z.of_nat k)) (hpages s') →
  (∀ v l, a !! v = Some l → ∀ i, 0 ≤ i < PGSIZE - 4 →
     dat (hpages s') (v / PGSIZE) i = dat (hpages s) (v / PGSIZE) i) →
  (∀ i, p mod PGSIZE ≤ i < PGSIZE - 4 → dat (hpages s') (p / PGSIZE) i = 0) →
  heap_inv (<[p := replicate k 0]> a) s'.
Proof.
  intros I Hp Hhi Hp8 Hk8 Hk Hf Hm Hend Hok Hd Hz.
  pose proof (va_split p) as [Ep Hpm].
  assert ((p + Z.of_nat k) / PGSIZE = p / PGSIZE ∧ (p + Z.of_nat k) mod PGSIZE = p mod PGSIZE + Z.of_nat k) as [E1 E2].
  { replace (p + Z.of_nat k) with (p / PGSIZE * PGSIZE + (p mod PGSIZE + Z.of_nat k)) by lia.
    apply page_off. lia. }
  assert (∀ v l, a !! v = Some l → v < p → v + Z.of_nat (length l) ≤ p) as Hbefore.
  { intros v l Hv Hvp. destruct (decide (v / PGSIZE = p / PGSIZE)); [by apply Hend|].
    destruct (hi_chunk _ _ I v l Hv) as (_ & _ & Hvf & _). pose proof (va_split v).
    pose proof (same_page v p ltac:(done) Hvp). lia. }
  assert (∀ v l, a !! v = Some l → p < v → p + Z.of_nat k ≤ v) as Hafter.
  { intros v l Hv Hpv. destruct (decide (v / PGSIZE = p / PGSIZE)) as [E|E].
    - pose proof (Hend v l Hv E). destruct (hi_chunk _ _ I v l Hv). lia.
    - pose proof (same_page p v ltac:(done) Hpv). lia. }
  split; rewrite ?Hm, ?E1, ?E2.
  - right. split_and!; [unfold mbegin in *; lia| |by rewrite Z.add_mod, Hp8, Hk8|done].
    change HI with 0x10000 in Hhi. unfold mend. change PGSIZE with 4096 in *. lia.
  - done.
  - intros v l [[-> <-]|[Hne Hv]]%lookup_insert_Some.
    + rewrite length_replicate. split_and!; [lia..|]. intros i c [-> Hi]%lookup_replicate. apply Hz. lia.
    + destruct (hi_chunk _ _ I v l Hv) as (? & ? & ? & Hc). split_and!; [lia..|].
      intros i c Hi. apply lookup_lt_Some in Hi as Hlt. pose proof (va_split v).
      rewrite (Hd v l Hv) by lia. by apply Hc.
  - intros v v' l l' [[-> <-]|[Hne Hv]]%lookup_insert_Some [[-> <-]|[Hne' Hv']]%lookup_insert_Some Hlt;
      rewrite ?length_replicate; [lia|by eapply Hafter|by eapply Hbefore|by eapply (hi_disj _ _ I)].
  - intros _. split; [|intros i Hi; apply Hz; lia].
    intros v l [[-> <-]|[Hne Hv]]%lookup_insert_Some; [rewrite length_replicate; lia|].
    intros E. pose proof (Hend v l Hv E). lia.
  - intros v l [[-> _]|[_ Hv]]%lookup_insert_Some; [done|]. by eapply (hi_align _ _ I).
Qed.

(** The pointer moves between page starts. *)
Lemma heap_inv_move a s j : heap_inv a s → mptr s mod PGSIZE = 0 → in_heap j →
  heap_inv a (set_mptr (j * PGSIZE) s).
Proof.
  intros I Hp Hj. pose proof (heap_bounds j Hj). apply (heap_inv_shrink a a s); simpl; [done|done|by intros ?| |].
  - intros i Hi. pose proof (hi_pages _ _ I i Hi) as Hok. revert Hok. unfold refs, cur.
    by rewrite Z.mod_mul, !decide_False by (done || naive_solver).
  - right. rewrite Z.mod_mul by done. unfold mbegin, mend. change PGSIZE with 4096. lia.
Qed.

(** The pointer leaves its page, whose reference was dropped. *)
Lemma heap_inv_leave a s s' :
  heap_inv a s → mptr s mod PGSIZE ≠ 0 → mptr s' = (mptr s / PGSIZE + 1) * PGSIZE →
  pages_ok (λ k, if decide (k = (mptr s / PGSIZE)%Z) then refs a (mptr s) (mptr s / PGSIZE)%Z - 1 else refs a (mptr s) k)%nat
    (hpages s') → same_data (hpages s) (hpages s') →
  heap_inv a s' ∧ in_heap (mptr s / PGSIZE + 1).
Proof.
  intros I Hp Hm Hok Hs. destruct (hi_ptr _ _ I) as [E|(Hb & _ & Hl)]; [by rewrite E in Hp|].
  pose proof (va_in_heap _ Hb) as Hh. pose proof (heap_bounds _ Hh). specialize (Hl Hp).
  assert (in_heap (mptr s / PGSIZE + 1)) by (unfold in_heap in *; lia). split; [|done].
  apply (heap_inv_shrink a a s); [done|done|done| |].
  - intros i Hi. specialize (Hok i Hi). rewrite Hm. unfold refs, cur in *. rewrite Z.mod_mul by done.
    rewrite (decide_False (P := 0 ≠ 0 ∧ _)) by naive_solver. rewrite (decide_True (P := _ ∧ _)) in Hok by done.
    destruct (decide (i = mptr s / PGSIZE)) as [->|Hne]; [by rewrite Nat.add_sub, <-(Nat.add_0_r (size _)) in Hok|].
    by rewrite decide_False in Hok by naive_solver.
  - right. rewrite Hm, Z.mod_mul by done. change HI with 0x10000 in Hl.
    unfold mbegin, mend in *. change PGSIZE with 4096 in *. lia.
Qed.

(** Another chunk on the page of the pointer. *)
Lemma heap_inv_bump a s (k : nat) p x T :
  heap_inv a s → mptr s mod PGSIZE ≠ 0 → hpages s !! (mptr s / PGSIZE) = Some p →
  Z.of_nat k mod 8 = 0 → (0 < k)%nat → mptr s mod PGSIZE + Z.of_nat k ≤ PGSIZE - 4 →
  a !! mptr s = None ∧
  heap_inv (<[mptr s := replicate k 0]> a)
    (mkHp (<[mptr s / PGSIZE := mkPage HEAP_PERM
              (st32 (pdata p) (PGSIZE - 4) (Z.of_nat (S (refs a (mptr s) (mptr s / PGSIZE)))))]> (hpages s))
          (mptr s + Z.of_nat k) x T).
Proof.
  intros I Hp Ep Hk8 Hk Hf. destruct (hi_ptr _ _ I) as [E|(Hb & H8 & Hl)]; [by rewrite E in Hp|].
  destruct (hi_cur _ _ I Hp) as [C1 C2]. pose proof (va_in_heap _ Hb) as Hh. pose proof (va_split (mptr s)) as [Es Hpm].
  assert (a !! mptr s = None) as Hnew.
  { destruct (a !! mptr s) as [l|] eqn:E; [|done]. destruct (hi_chunk _ _ I _ l E) as (_ & ? & _).
    pose proof (C1 _ l E eq_refl). lia. }
  pose proof (same_data_count _ _ p (Z.of_nat (S (refs a (mptr s) (mptr s / PGSIZE)))) Ep) as Hsd.
  split; [done|]. apply (heap_inv_grow a s); simpl; try done; [by apply Hl|..].
  - pose proof (refs_bound a (mptr s) (mptr s / PGSIZE)).
    pose proof (pages_ok_count _ _ _ p (S (refs a (mptr s) (mptr s / PGSIZE)%Z)) (hi_pages _ _ I) Ep ltac:(lia) ltac:(lia)) as Hok.
    destruct (page_off (mptr s / PGSIZE) (mptr s mod PGSIZE + Z.of_nat k) ltac:(lia)) as [D1 D2].
    rewrite Z.add_assoc, <-Es in D1, D2.
    intros n Hn. specialize (Hok n Hn). revert Hok. unfold refs, cur. rewrite on_page_insert, D1, D2 by done.
    rewrite (decide_True (P := _ ∧ mptr s / PGSIZE = mptr s / PGSIZE)) by done.
    destruct (decide (n = mptr s / PGSIZE)) as [->|Hne].
    + rewrite (decide_True (P := mptr s / PGSIZE = mptr s / PGSIZE)), decide_True by (done || (split; [lia|done])).
      done.
    + rewrite (decide_False (P := mptr s / PGSIZE = n)), !decide_False by naive_solver. done.
  - intros v l Hv i Hi. destruct (hi_chunk _ _ I v l Hv) as (Hvb & _). apply Hsd; [by apply va_in_heap|done|].
    apply lookup_insert_is_Some'. right. eapply chunk_mapped; [done|done|apply I|unfold refs; lia].
  - intros i Hi. rewrite Hsd; [by apply C2|done|lia|]. by rewrite lookup_insert_eq.
Qed.

(** A fresh page with its first chunk. *)
Lemma new_page_inv a s j (k : nat) x T :
  heap_inv a s → in_heap j → usable s j → mptr s mod PGSIZE = 0 →
  Z.of_nat k mod 8 = 0 → (0 < k)%nat → Z.of_nat k + 4 ≤ PGSIZE →
  a !! (j * PGSIZE) = None ∧
  heap_inv (<[j * PGSIZE := replicate k 0]> a)
    (mkHp (<[j := mkPage HEAP_PERM (st32 ∅ (PGSIZE - 4) 2)]> (hpages s)) (j * PGSIZE + Z.of_nat k) x T).
Proof.
  intros I Hj [Hj1 Hj2] Hp Hk8 Hk Hk4. pose proof (heap_bounds j Hj) as Hb.
  pose proof (hi_pages _ _ I j Hj) as Hr. rewrite Hj2 in Hr. unfold refs, cur in Hr.
  assert (size (on_page_of a j) = 0%nat) as Hsz by lia.
  assert (∀ v l, a !! v = Some l → v / PGSIZE ≠ j) as Hnone.
  { intros v l Hv E. pose proof (on_page_pos a v l Hv) as Hpos. rewrite E in Hpos. lia. }
  assert (a !! (j * PGSIZE) = None) as Hnew.
  { destruct (a !! (j * PGSIZE)) eqn:E; [|done]. apply Hnone in E. by rewrite Z.div_mul in E. }
  assert ((j * PGSIZE) / PGSIZE = j ∧ (j * PGSIZE) mod PGSIZE = 0) as [D1 D2]
    by (by rewrite Z.div_mul, Z.mod_mul).
  assert ((j * PGSIZE + Z.of_nat k) / PGSIZE = j ∧ (j * PGSIZE + Z.of_nat k) mod PGSIZE = Z.of_nat k) as [D3 D4]
    by (apply page_off; lia).
  split; [done|]. apply (heap_inv_grow a s); rewrite ?D1, ?D2; simpl; try done.
  - unfold mbegin, mend. change PGSIZE with 4096. lia.
  - change PGSIZE with (512 * 8). by rewrite Z.mul_assoc, Z.mod_mul.
  - lia.
  - intros v l Hv E. by apply Hnone in Hv.
  - intros n Hn. pose proof (hi_pages _ _ I n Hn) as Hok. unfold refs, cur in *.
    rewrite on_page_insert, D1, D3, D4 by done. destruct (decide (j = n)) as [<-|Hne].
    + rewrite lookup_insert_eq, Hsz, decide_True by (split; [lia|done]). simpl.
      split_and!; [done|lia|]. by rewrite ld32_st32_eq.
    + rewrite lookup_insert_ne by done. rewrite (decide_False (P := _ ≠ 0 ∧ j = n)) by naive_solver.
      rewrite decide_False in Hok by naive_solver. done.
  - intros v l Hv i Hi. rewrite dat_insert, decide_False; [done|]. intros E. by apply (Hnone v l Hv).
  - intros i Hi. rewrite dat_insert, decide_True by done. simpl. rewrite rdb_st32_out by lia. done.
Qed.

Lemma alloc_loop_page s n k : in_heap n → hpages s !! n = None → 0 < k → k + 4 ≤ PGSIZE → 0 < hfree s →
  (∃ x T, alloc_loop CHUNK_FUEL (n * PGSIZE) k 0 s =
     Ret (Some PGSIZE) (set_hkern x T (set_pages (<[n := mkPage HEAP_PERM ∅]> (hpages s)) s))) ∨
  (∃ T, alloc_loop CHUNK_FUEL (n * PGSIZE) k 0 s = Ret None (set_hkern 1 T s) ∧ hfree s < 4).
Proof.
  intros Hn Hfree Hk Hk' Hf. pose proof (heap_bounds n Hn) as Hb. destruct CHUNK_FUEL_S as [f E]. rewrite E.
  cbn [alloc_loop]. rewrite (u64_small (k + 4)) by (unfold is_u64; change PGSIZE with 4096 in *; lia).
  rewrite Z.add_0_r, Z.add_0_l. destruct (Z.ltb_spec 0 (k + 4)); [|lia]. destruct (Z.ltb_spec PGSIZE (k + 4)); [lia|].
  rewrite u64_small by (unfold is_u64; change PGSIZE with 4096 in *; lia). change (Z.lor HEAP_PERM 0) with HEAP_PERM.
  destruct (sys_page_alloc_heap s n HEAP_PERM Hn eq_refl Hf) as [(x & T & Ea & _)|(T & Ea & Hlt)]; [left; exists x, T|right; exists T; split; [|done]];
    step_with Ea.
  - change (0 <? 0) with false. cbv iota. by destruct f.
  - change (- E_NO_MEM <? 0) with true. cbv iota. rewrite E. cbn [unmap_down].
    change (0 <=? 0) with true. cbv iota. rewrite !bind_assoc, Z.add_0_r.
    rewrite u64_small by (unfold is_u64; change PGSIZE with 4096 in *; lia).
    step_with (sys_page_unmap_heap (set_hkern 1 T s) n Hn). change (0 <=? 0 - PGSIZE) with false. cbv iota. step_pure.
    unfold back. rewrite decide_False by (intros [? Hx]; simpl in Hx; by rewrite Hfree in Hx).
    unfold set_hkern, set_pages. cbn [hpages mptr hfree htabs]. rewrite delete_id by done. done.
Qed.

(** When [malloc] gives null: the kernel has used up its pages on page tables, or all
    pages of the heap but the last are in use. *)
Definition exhausted (x : Z) (s' : hp) : Prop :=
  (x < 4 ∧ hfree s' = 1) ∨ ∀ j, in_heap j → j + 1 < HI → is_Some (hpages s' !! j).

Lemma new_chunk_spec a s n (k : nat) :
  heap_inv a s → in_heap n → mptr s = n * PGSIZE → Z.of_nat k mod 8 = 0 → (0 < k)%nat → Z.of_nat k + 4 ≤ PGSIZE → 0 < hfree s →
  ∃ v s', new_chunk (Z.of_nat k) s = Ret v s' ∧ same_outside (hpages s) (hpages s') ∧
    ((v ≠ 0 ∧ a !! v = None ∧ heap_inv (<[v := replicate k 0]> a) s') ∨
     (v = 0 ∧ heap_inv a s' ∧ exhausted (hfree s) s')).
Proof.
  intros I Hn Hp Hk8 Hk Hk4 Hf. unfold new_chunk.
  assert (∀ j, in_heap j → heap_inv a (set_mptr (j * PGSIZE) s)) as Imv.
  { intros j Hj. apply heap_inv_move; [done|by rewrite Hp, Z.mod_mul|done]. }
  destruct (search_spec s n (Z.of_nat k)) as [(j & Hj & [Hj1 Hj2] & E)|[Hno E]]; [done|done|lia|done|..].
  2:{ step_with E. simpl. do 2 eexists. split; [done|]. split; [by intros ?|]. right. split; [done|].
      split; [exact (Imv LO ltac:(done))|]. right. intros j Hj Hj1.
      apply not_eq_None_Some. intros E0. by apply (Hno j Hj). }
  step_with E. change (negb true) with false. cbv iota. step_pure.
  set (s1 := set_mptr (j * PGSIZE) s). change (mptr s1) with (j * PGSIZE).
  destruct (alloc_loop_page s1 j (Z.of_nat k) Hj Hj2 ltac:(lia) Hk4 Hf) as [(x & T & Ea)|(T & Ea & Hlt)]; step_with Ea.
  2:{ do 2 eexists. split; [done|]. split; [by intros ?|]. right. split; [done|]. split; [|by left].
      destruct (Imv j Hj) as [I1 I2 I3 I4 I5 I6]. by split. }
  pose proof (heap_bounds j Hj) as Hb. pose proof (page_off j (PGSIZE - 4) ltac:(done)) as [D1 D2].
  replace (j * PGSIZE + PGSIZE - 4) with (j * PGSIZE + (PGSIZE - 4)) by lia.
  rewrite u64_small by (unfold is_u64; change PGSIZE with 4096 in *; lia).
  set (s2 := set_hkern _ _ _).
  assert (hpages s2 !! j = Some (mkPage HEAP_PERM ∅)) as E2 by apply lookup_insert_eq.
  step_with (on_page_page s2 j (PGSIZE - 4) _ (λ m a, st32 m a 2) ltac:(done) E2 eq_refl). step_pure.
  rewrite u64_small by (unfold is_u64; change PGSIZE with 4096 in *; lia).
  do 2 eexists. split; [done|]. simpl. rewrite insert_insert_eq. split; [by apply same_outside_insert|]. left.
  split; [change PGSIZE with 4096; lia|].
  apply (new_page_inv a s j k x T I Hj (conj Hj1 Hj2)); [by rewrite Hp, Z.mod_mul|done..].
Qed.

Lemma roundup8 n : 0 < n → n + 8 ≤ PGSIZE →
  ∃ k : nat, ROUNDUP n 8 = Z.of_nat k ∧ (0 < k)%nat ∧ Z.of_nat k mod 8 = 0 ∧ n ≤ Z.of_nat k ≤ 4088.
Proof.
  change PGSIZE with 4096. intros Hn Hb. exists (Z.to_nat (ROUNDUP n 8)). unfold ROUNDUP, ROUNDDOWN.
  change (u64 8) with 8. rewrite (u64_small n), !(u64_small (n + 8 - 1)) by (unfold is_u64; lia).
  set (x := n + 8 - 1 - (n + 8 - 1) mod 8).
  assert (n ≤ x ≤ 4088 ∧ x mod 8 = 0) by (unfold x; Z.div_mod_to_equations; lia).
  rewrite Z2Nat.id by lia. split_and!; lia.
Qed.

Lemma ref_addr p : p mod PGSIZE ≠ 0 → 0 ≤ p < 2 ^ 40 →
  p / PGSIZE * PGSIZE + (PGSIZE - 4) = u64 (ROUNDUP p PGSIZE - 4).
Proof.
  intros Hp Hb. unfold ROUNDUP, ROUNDDOWN. change (u64 PGSIZE) with 4096.
  rewrite (u64_small p), !(u64_small (p + 4096 - 1)) by (unfold is_u64; lia).
  change PGSIZE with 4096 in *. rewrite u64_small; unfold is_u64; Z.div_mod_to_equations; lia.
Qed.

(** What [malloc] does for requests that fit in a page. *)
Lemma malloc_small a s n :
  heap_inv a s → 0 < n ≤ PGSIZE - 8 → 0 < hfree s →
  ∃ v s', malloc n s = Ret v s' ∧ same_outside (hpages s) (hpages s') ∧
    ((v ≠ 0 ∧ a !! v = None ∧ heap_inv (<[v := replicate (Z.to_nat (ROUNDUP n 8)) 0]> a) s') ∨
     (v = 0 ∧ heap_inv a s' ∧ exhausted (hfree s) s')).
Proof.
  intros I0 [Hn Hb] Hf0. destruct (roundup8 n Hn) as (k & Ek & Hk & Hk8 & Hkn); [lia|]. rewrite Ek, Nat2Z.id. unfold malloc. step_pure.
  assert (∃ s1, (if mptr s =? 0 then modify (set_mptr mbegin) else ret tt) s = Ret tt s1 ∧ heap_inv a s1 ∧
    hpages s1 = hpages s ∧ hfree s1 = hfree s ∧ mptr s1 ≠ 0) as (s1 & E1 & I & Hpg & Hf & Hp0).
  { destruct (Z.eqb_spec (mptr s) 0) as [E|E]; [|by exists s].
    exists (set_mptr mbegin s). split_and!; try done.
    apply (heap_inv_move a s LO); [done|by rewrite E|done]. }
  step_with E1. rewrite <-Hpg, Ek, <-Hf. rewrite <-Hf in Hf0. clear s E1 I0 Hpg Hf.
  destruct (hi_ptr _ _ I) as [?|(Hpb & Hp8 & Hpl)]; [done|]. pose proof (va_in_heap _ Hpb) as Hh.
  pose proof (heap_bounds _ Hh) as Hhb. pose proof (va_split (mptr s1)) as [Es Hpm].
  destruct (Z.leb_spec MAXMALLOC (Z.of_nat k)) as [Hmax|_]; [unfold MAXMALLOC in Hmax; change PGSIZE with 4096 in *; lia|].
  step_pure. destruct (Z.eqb_spec (mptr s1 mod PGSIZE) 0) as [E0|E0]; cbn [negb]; cbv iota zeta.
  { apply (new_chunk_spec a s1 (mptr s1 / PGSIZE)); done || change PGSIZE with 4096 in *; lia. }
  pose proof (hi_pages _ _ I _ Hh) as Hok. pose proof (refs_bound a (mptr s1) (mptr s1 / PGSIZE)) as Hrb.
  assert (0 < refs a (mptr s1) (mptr s1 / PGSIZE)%Z)%nat as Hpos.
  { unfold refs, cur. rewrite decide_True by done. lia. }
  destruct (hpages s1 !! (mptr s1 / PGSIZE)) as [p|] eqn:Ep; [destruct Hok as (Hw & _ & Hld)|lia].
  rewrite (u64_small (mptr s1 + _ - _ + _)) by (unfold is_u64; change PGSIZE with 4096 in *; lia).
  destruct (Z.eqb_spec (mptr s1 / PGSIZE) ((mptr s1 + Z.of_nat k - 1 + 4) / PGSIZE)) as [Ef|Ef].
  - replace (u64 (ROUNDUP (mptr s1) PGSIZE - 4)) with (mptr s1 / PGSIZE * PGSIZE + (PGSIZE - 4)).
    2:{ apply ref_addr; [done|]. change PGSIZE with 4096 in *. lia. }
    step_with (hld32_page s1 _ (PGSIZE - 4) p ltac:(done) Ep). rewrite Hld, u32_small by lia.
    replace (Z.of_nat (refs a (mptr s1) (mptr s1 / PGSIZE)) + 1)
      with (Z.of_nat (S (refs a (mptr s1) (mptr s1 / PGSIZE)))) by lia.
    step_with (on_page_page s1 _ (PGSIZE - 4) p (λ m a0, st32 m a0 (Z.of_nat (S (refs a (mptr s1) (mptr s1 / PGSIZE))))) ltac:(done) Ep Hw).
    step_pure. rewrite u64_small by (unfold is_u64; change PGSIZE with 4096 in *; lia).
    do 2 eexists. split; [done|]. split; [by apply same_outside_insert|]. left. split; [done|].
    apply heap_inv_bump; [done..|]. change PGSIZE with 4096 in *. Z.div_mod_to_equations. lia.
  - destruct (free_spec s1 (mptr s1) (refs a (mptr s1))) as (s2 & E2 & Hm2 & Hf2 & Hok2 & Hs2 & Ho2);
      [apply I|done|done|lia|]. step_with E2. step_pure.
    replace (ROUNDDOWN (mptr s1 + PGSIZE) PGSIZE) with ((mptr s1 / PGSIZE + 1) * PGSIZE).
    2:{ unfold ROUNDDOWN. rewrite u64_small by (unfold is_u64; change PGSIZE with 4096 in *; lia).
        change PGSIZE with 4096. Z.div_mod_to_equations. lia. }
    destruct (heap_inv_leave a s1 (set_mptr ((mptr s1 / PGSIZE + 1) * PGSIZE) s2)) as [I2 Hh2]; [done..|].
    edestruct (new_chunk_spec a _ _ k I2 Hh2) as (v & s3 & E3 & Ho3 & Hc); [done..|change PGSIZE with 4096; lia|cbn; lia|].
    exists v, s3. split_and!; [done|intros j Hj; rewrite (Ho3 j Hj); by apply Ho2|].
    destruct Hc as [Hc|(Hv & Hi & [[Hx Hy]|Hc])]; [by left|right; split_and!; [done|done|left; cbn in Hx; lia]|].
    right. split_and!; [done|done|by right].
Qed.

(** ** The heap as a map of chunks *)

Inductive hop := HMalloc (n : Z) | HFree (v : Z) | HWrite (v : Z) (off : nat) (b : Z) | HRead (v : Z) (off : nat).

Definition hstep (o : hop) : HM Z :=
  match o with
  | HMalloc n => malloc n
  | HFree v => free v ;;; ret 0
  | HWrite v off b => hwrite (v + Z.of_nat off) b ;;; ret 0
  | HRead v off => hread (v + Z.of_nat off)
  end.

(** What a program may do: ask for up to a page less 8 bytes, and use what it has. *)
Definition legal (a : chunks) (o : hop) : Prop :=
  match o with
  | HMalloc n => 0 < n ≤ PGSIZE - 8
  | HFree v => is_Some (a !! v)
  | HWrite v off _ | HRead v off => ∃ l, a !! v = Some l ∧ (off < length l)%nat
  end.

Definition apart (a : chunks) (v k : Z) : Prop :=
  ∀ w l, a !! w = Some l → v + k ≤ w ∨ w + Z.of_nat (length l) ≤ v.

(** What it gets: [malloc] gives null, or a chunk of zero bytes of at least the size,
    8-aligned and apart from the live ones. *)
Inductive astep : chunks → hop → Z → chunks → Prop :=
| a_malloc a n v k : v ≠ 0 → v mod 8 = 0 → n ≤ Z.of_nat k → apart a v (Z.of_nat k) →
    astep a (HMalloc n) v (<[v := replicate k 0]> a)
| a_malloc_null a n : astep a (HMalloc n) 0 a
| a_free a v : astep a (HFree v) 0 (delete v a)
| a_write a v l off b : a !! v = Some l → astep a (HWrite v off b) 0 (<[v := <[off := u8 b]> l]> a)
| a_read a v l off c : a !! v = Some l → l !! off = Some c → astep a (HRead v off) c a.

Lemma chunk_addr a s v l off : heap_inv a s → a !! v = Some l → (off < length l)%nat →
  v + Z.of_nat off = v / PGSIZE * PGSIZE + (v mod PGSIZE + Z.of_nat off) ∧
  0 ≤ v mod PGSIZE + Z.of_nat off < PGSIZE - 4 ∧
  ∃ p, hpages s !! (v / PGSIZE) = Some p ∧ pperm p = HEAP_PERM.
Proof.
  intros I Hv Ho. destruct (hi_chunk _ _ I v l Hv) as (Hb & ? & Hf & _). pose proof (va_split v).
  split_and!; [lia..|]. destruct (chunk_mapped a v l (hpages s) (refs a (mptr s))) as [p Hp];
    [done|done|apply I|unfold refs; lia|].
  exists p. split; [done|]. pose proof (hi_pages _ _ I _ (va_in_heap v Hb)) as Hok. rewrite Hp in Hok. apply Hok.
Qed.

Lemma heap_inv_write a s v l p off b :
  heap_inv a s → a !! v = Some l → (off < length l)%nat → hpages s !! (v / PGSIZE) = Some p →
  heap_inv (<[v := <[off := u8 b]> l]> a)
    (set_pages (<[v / PGSIZE := mkPage HEAP_PERM (wrb (pdata p) (v mod PGSIZE + Z.of_nat off) b)]> (hpages s)) s).
Proof.
  intros I Hv Ho Hp. destruct (chunk_addr a s v l off I Hv Ho) as (Ea & Hb & _).
  assert (∀ n i, dat (<[v / PGSIZE := mkPage HEAP_PERM (wrb (pdata p) (v mod PGSIZE + Z.of_nat off) b)]> (hpages s)) n i =
    if decide (n * PGSIZE + i = v + Z.of_nat off ∧ n = v / PGSIZE) then u8 b else dat (hpages s) n i) as Hd.
  { intros n i. rewrite dat_insert. unfold dat. case_decide as En.
    - subst n. rewrite Hp. simpl. rewrite rdb_wrb. repeat case_decide; done || lia.
    - rewrite decide_False by naive_solver. done. }
  split; simpl.
  - apply I.
  - intros n Hn. pose proof (hi_pages _ _ I n Hn) as Hok. unfold refs in *. rewrite (on_page_update a v l) by done.
    destruct (decide (v / PGSIZE = n)) as [<-|]; [|by rewrite lookup_insert_ne].
    rewrite lookup_insert_eq. rewrite Hp in Hok. destruct Hok as (_ & ? & Hl). split_and!; [done|done|]. simpl.
    rewrite <-Hl. apply ld32_ext. intros x Hx. rewrite rdb_wrb, decide_False by lia. done.
  - intros w k [[<- <-]|[Hne Hw]]%lookup_insert_Some.
    + destruct (hi_chunk _ _ I v l Hv) as (? & ? & ? & Hc). rewrite length_insert. split_and!; [lia..|].
      intros i c Hi. rewrite Hd. destruct (decide (i = off)) as [->|Hio].
      * rewrite list_lookup_insert_eq in Hi by done. simplify_eq. by rewrite decide_True by lia.
      * rewrite list_lookup_insert_ne in Hi by done. rewrite decide_False by lia. by apply Hc.
    + destruct (hi_chunk _ _ I w k Hw) as (? & ? & ? & Hc). split_and!; [lia..|].
      intros i c Hi. apply lookup_lt_Some in Hi as Hlt. rewrite Hd, decide_False; [by apply Hc|].
      intros [E _]. pose proof (va_split w). destruct (decide (v < w)).
      * pose proof (hi_disj _ _ I v w l k Hv Hw). lia.
      * pose proof (hi_disj _ _ I w v k l Hw Hv). lia.
  - intros w w' k k' [[<- <-]|[Hne Hw]]%lookup_insert_Some [[<- <-]|[Hne' Hw']]%lookup_insert_Some;
      rewrite ?length_insert; [lia|..]; by eapply (hi_disj _ _ I).
  - intros Hm. destruct (hi_cur _ _ I Hm) as [C1 C2]. split.
    + intros w k [[<- <-]|[Hne Hw]]%lookup_insert_Some; rewrite ?length_insert; by apply C1.
    + intros i Hi. rewrite Hd, decide_False; [by apply C2|]. intros [E En].
      pose proof (C1 v l Hv (eq_sym En)). pose proof (va_split (mptr s)). lia.
  - intros w k [[<- _]|[_ Hw]]%lookup_insert_Some; by eapply (hi_align _ _ I).
Qed.

Lemma heap_init s : mptr s = 0 → (∀ n, in_heap n → hpages s !! n = None) → heap_inv ∅ s.
Proof.
  intros Hm Hn. split; [by left| |by intros v l []%lookup_empty_Some|by intros v v' l l' []%lookup_empty_Some|
    by rewrite Hm|by intros v l []%lookup_empty_Some].
  intros n Hh. rewrite Hn, Hm by done. unfold refs, cur, on_page_of. rewrite decide_False by naive_solver.
  done.
Qed.

(** C10  [malloc] and [free] (lib/riscv/malloc.c) implement a map of live chunks, for
    requests of 1 to 4088 bytes, a page less 8 bytes, and a kernel with a free page.
    Whatever a program that asks for no more and uses only what it was given does
    next, the call or access returns: [malloc] gives null only when the kernel has
    fewer than four pages, and no page for a page table, or every heap page but the
    last is in use, else a zeroed, 8-aligned chunk apart from all live ones; reads
    give what was last written to that chunk; [free] takes the chunk out; no page
    outside the heap changes; and a heap page is mapped exactly while a live chunk or
    the current pointer is on it. *)
Theorem malloc_refines a s o :
  heap_inv a s → legal a o → (∀ n, o = HMalloc n → 0 < hfree s) →
  ∃ r s' a', hstep o s = Ret r s' ∧ astep a o r a' ∧ heap_inv a' s' ∧
    same_outside (hpages s) (hpages s') ∧
    (∀ n, in_heap n → is_Some (hpages s' !! n) ↔ (0 < refs a' (mptr s') n)%nat) ∧
    (∀ n, o = HMalloc n → r = 0 → exhausted (hfree s) s').
Proof.
  intros I Hl Hf.
  assert (∃ r s' a', hstep o s = Ret r s' ∧ astep a o r a' ∧ heap_inv a' s' ∧
    same_outside (hpages s) (hpages s') ∧ (∀ n, o = HMalloc n → r = 0 → exhausted (hfree s) s'))
    as (r & s' & a' & E & Ha & I' & Ho & Hz).
  2:{ exists r, s', a'. split_and!; try done. intros n Hn. pose proof (hi_pages _ _ I' n Hn) as Hok.
      destruct (hpages s' !! n); split; intros Hs; [lia|by eexists|by destruct Hs|lia]. }
  destruct o as [n|v|v off b|v off]; simpl in *.
  - destruct (malloc_small a s n I Hl (Hf n eq_refl)) as (v & s' & E & Ho & [(Hv & Hn & I')|(-> & I' & Hz)]).
    2:{ exists 0, s', a. split_and!; try done. constructor. }
    exists v, s', (<[v := replicate (Z.to_nat (ROUNDUP n 8)) 0]> a). split_and!; try done.
    destruct (roundup8 n) as (k & Ek & Hk & Hk8 & Hkn); [lia..|]. rewrite Ek, Nat2Z.id in *.
    constructor; [done| |lia|].
    + eapply (hi_align _ _ I'), lookup_insert_eq.
    + intros w l Hw. assert (w ≠ v) by (by intros ->; rewrite Hn in Hw).
      assert ((<[v := replicate k 0]> a) !! w = Some l) as Hw' by (by rewrite lookup_insert_ne).
      assert ((<[v := replicate k 0]> a) !! v = Some (replicate k 0)) as Hv' by apply lookup_insert_eq.
      pose proof (hi_disj _ _ I' v w _ _ Hv' Hw') as D1. pose proof (hi_disj _ _ I' w v _ _ Hw' Hv') as D2.
      rewrite length_replicate in D1. lia.
  - destruct Hl as [l Hv]. destruct (free_correct a s v l I Hv) as (s' & E & I' & Ho).
    exists 0, s', (delete v a). split_and!; [by step_with E|constructor|done..].
  - destruct Hl as (l & Hv & Hoff). destruct (chunk_addr a s v l off I Hv Hoff) as (Ea & Hb & p & Hp & Hw).
    exists 0, (set_pages (<[v / PGSIZE := mkPage HEAP_PERM (wrb (pdata p) (v mod PGSIZE + Z.of_nat off) b)]> (hpages s)) s),
      (<[v := <[off := u8 b]> l]> a).
    split_and!; [|by constructor|by apply heap_inv_write| |done].
    + rewrite Ea. by step_with (on_page_page s (v / PGSIZE) (v mod PGSIZE + Z.of_nat off) p (λ m a0, wrb m a0 b) ltac:(lia) Hp Hw).
    + simpl. apply same_outside_insert, va_in_heap. by eapply hi_chunk.
  - destruct Hl as (l & Hv & Hoff). destruct (chunk_addr a s v l off I Hv Hoff) as (Ea & Hb & p & Hp & Hw).
    destruct (lookup_lt_is_Some_2 l off Hoff) as [c Hc].
    destruct (hi_chunk _ _ I v l Hv) as (_ & _ & _ & Hd). specialize (Hd off c Hc). unfold dat in Hd. rewrite Hp in Hd.
    exists c, s, a. split_and!; [|by econstructor|done|by intros ?|done].
    unfold hread. rewrite Ea. destruct (page_off (v / PGSIZE) (v mod PGSIZE + Z.of_nat off)) as [-> ->]; [lia|].
    by rewrite Hp, Hd.
Qed.

Definition ex_heap : hp := mkHp ∅ 0 100 ∅.

Lemma malloc_refines_witness :
  ∃ r s' a', hstep (HMalloc 100) ex_heap = Ret r s' ∧ astep ∅ (HMalloc 100) r a' ∧ heap_inv a' s' ∧
    same_outside ∅ (hpages s') ∧
    (∀ n, in_heap n → is_Some (hpages s' !! n) ↔ (0 < refs a' (mptr s') n)%nat) ∧
    (∀ n, HMalloc 100 = HMalloc n → r = 0 → exhausted 100 s').
Proof.
  apply (malloc_refines ∅ ex_heap (HMalloc 100)).
  - apply heap_init; [done|]. intros n _. apply lookup_empty.
  - simpl. change PGSIZE with 4096. lia.
  - done.
Defined.

(** Without a free page the first request is not defined; with one, which the tables
    would need, it gives null and the page goes back. *)
Lemma malloc_no_page : malloc 8 (mkHp ∅ 0 0 ∅) = Undef.
Proof. by vm_compute. Qed.
Lemma malloc_no_table : malloc 8 (mkHp ∅ 0 1 ∅) = Ret 0 (mkHp ∅ mbegin 1 ∅).
Proof. by vm_compute. Qed.

(** A chunk of exactly a page ends at the start of its second page, which holds the
    count: the pointer's reference to that page is never dropped, and the page stays
    mapped after the chunk is freed, whatever is allocated and freed later. *)
Lemma malloc_page_leak :
  let s1 := end_state (malloc 4096 ex_heap) ex_heap in
  let s2 := end_state (free mbegin s1) s1 in
  let s3 := end_state (malloc 8 s2) s2 in
  let s4 := end_state (free (mbegin + 8192) s3) s3 in
  hpages s4 !! LO = None ∧ (λ p, ld32 (pdata p) 4092) <$> hpages s4 !! (LO + 1) = Some 1 ∧ mptr s4 = mbegin + 8200.
Proof. vm_compute. done. Qed.

(** A request within 7 bytes of the largest [size_t] wraps to one of no bytes. *)
Lemma malloc_wraps : (∃ s', malloc (2 ^ 64 - 1) ex_heap = Ret mbegin s').
Proof. eexists. vm_compute. done. Qed.

(** ** Requests of a page or more *)

Lemma CHUNK_FUEL_3 : ∃ f, CHUNK_FUEL = S (S (S f)).
Proof. by exists 255%nat. Qed.

(** [isfree] over two pages is the test of the second. *)
Lemma isfree_two s n k : in_heap n → n + 2 < HI → PGSIZE < k ≤ 2 * PGSIZE → hpages s !! (n + 1) = None →
  isfree (n * PGSIZE) k s = Ret true s.
Proof.
  intros Hn Hhi Hk E. pose proof (heap_bounds n Hn). unfold isfree. destruct CHUNK_FUEL_3 as [f ->].
  cbn [isfree_loop]. change HI with 0x10000 in Hhi. change PGSIZE with 4096 in *.
  rewrite (u64_small (n * 4096 + k)), (u64_small (n * 4096 + 4096)) by (unfold is_u64; lia).
  rewrite (u64_small (n * 4096 + 4096 + 4096)) by (unfold is_u64; lia).
  destruct (Z.ltb_spec (n * 4096) (n * 4096 + k)); [|lia]. destruct (Z.ltb_spec (n * 4096 + 4096) (n * 4096 + k)); [|lia].
  destruct (Z.ltb_spec (n * 4096 + 4096 + 4096) (n * 4096 + k)); [lia|].
  rewrite !bind_assoc. unfold sys_uvpt_pte at 1. step_pure. rewrite !bind_assoc. unfold sys_uvpt_pte at 1. step_pure. step_pure.
  change PGSIZE with 4096. replace (n * 4096 + 4096) with ((n + 1) * 4096) by lia. rewrite Z.div_mul, E by done. cbn [fst snd].
  unfold mend. destruct (Z.leb_spec 0x10000000 ((n + 1) * 4096 + 4096)); [lia|]. done.
Qed.

Lemma roundup8_two n : PGSIZE - 8 < n ≤ 2 * PGSIZE - 8 → PGSIZE ≤ ROUNDUP n 8 ≤ 2 * PGSIZE - 8.
Proof.
  change PGSIZE with 4096. intros Hn. unfold ROUNDUP, ROUNDDOWN.
  change (u64 8) with 8. rewrite (u64_small n), !(u64_small (n + 8 - 1)) by (unfold is_u64; lia).
  Z.div_mod_to_equations. lia.
Qed.

(** The two pages are allocated, whatever was on the first. *)
Lemma alloc_loop_two s n k : in_heap n → n + 2 < HI → PGSIZE ≤ k ≤ 2 * PGSIZE - 8 → 8 ≤ hfree s →
  ∃ x T, alloc_loop CHUNK_FUEL (n * PGSIZE) k 0 s = Ret (Some (2 * PGSIZE)) (set_hkern x T (set_pages
    (<[n + 1 := mkPage HEAP_PERM ∅]> (<[n := mkPage (Z.lor HEAP_PERM PTE_CONTINUED) ∅]> (hpages s))) s)).
Proof.
  intros Hn Hhi Hk Hf. pose proof (heap_bounds n Hn) as Hb. destruct CHUNK_FUEL_3 as [f ->].
  assert (in_heap (n + 1)) as Hn1 by (unfold in_heap in *; lia).
  cbn [alloc_loop]. rewrite (u64_small (k + 4)) by (unfold is_u64; change PGSIZE with 4096 in *; lia).
  rewrite Z.add_0_l. destruct (Z.ltb_spec 0 (k + 4)); [|change PGSIZE with 4096 in *; lia].
  destruct (Z.ltb_spec PGSIZE (k + 4)); [|lia]. destruct (Z.ltb_spec (PGSIZE + PGSIZE) (k + 4)); [lia|].
  rewrite Z.add_0_r. replace (n * PGSIZE + PGSIZE) with ((n + 1) * PGSIZE) by lia.
  rewrite !u64_small by (unfold is_u64; change PGSIZE with 4096 in *; lia). change (Z.lor HEAP_PERM 0) with HEAP_PERM.
  destruct (sys_page_alloc_heap s n (Z.lor HEAP_PERM PTE_CONTINUED) Hn eq_refl ltac:(lia)) as [(x & T & Ea & Hx)|(T & _ & Hlt)]; [|lia].
  step_with Ea. change (0 <? 0) with false. cbv iota. set (s1 := set_hkern x T _).
  destruct (sys_page_alloc_heap s1 (n + 1) HEAP_PERM Hn1 eq_refl) as [(x2 & T2 & Eb & _)|(T2 & _ & Hlt)]; [cbn; lia| |cbn in Hlt; lia].
  exists x2, T2. step_with Eb. done.
Qed.

Lemma new_chunk_two s n k : in_heap n → n + 2 < HI → mptr s = n * PGSIZE → PGSIZE ≤ k ≤ 2 * PGSIZE - 8 →
  hpages s !! (n + 1) = None → 8 ≤ hfree s →
  ∃ s', new_chunk k s = Ret (n * PGSIZE) s' ∧ hpages s' !! n = Some (mkPage (Z.lor HEAP_PERM PTE_CONTINUED) ∅).
Proof.
  intros Hn Hhi Hm Hk Hfree Hf. pose proof (heap_bounds n Hn) as Hb.
  assert (search HEAP_FUEL k 0 s = Ret true s) as Esr.
  { rewrite HEAP_FUEL_S. cbn [search]. step_pure. rewrite Hm.
    rewrite (u64_small (k + 4)) by (unfold is_u64; change PGSIZE with 4096 in *; lia).
    by step_with (isfree_two s n (k + 4) Hn Hhi ltac:(lia) Hfree). }
  destruct (alloc_loop_two s n k Hn Hhi Hk Hf) as (x & T & Ea). set (s4 := set_hkern x T _) in Ea.
  assert (hpages s4 !! (n + 1) = Some (mkPage HEAP_PERM ∅)) as E4 by apply lookup_insert_eq.
  pose proof (on_page_page s4 (n + 1) (PGSIZE - 4) _ (λ m a, st32 m a 2) ltac:(done) E4 eq_refl) as Est.
  eexists. split.
  - unfold new_chunk. step_with Esr. change (negb true) with false. cbv iota. step_pure. rewrite Hm. step_with Ea.
    replace (n * PGSIZE + 2 * PGSIZE - 4) with ((n + 1) * PGSIZE + (PGSIZE - 4)) by lia.
    rewrite u64_small by (unfold is_u64; change PGSIZE with 4096 in *; lia). step_with Est. step_pure. reflexivity.
  - simpl. rewrite !lookup_insert_ne by lia. apply lookup_insert_eq.
Qed.

(** C32  [isfree] (lib/riscv/malloc.c) tests only the last page of the run it is asked
    about, so [malloc] can hand out memory that is in use.  On any well-formed heap
    whose pointer is inside a page, the next page of which holds a live chunk while
    the page behind that is free, a request for 4089 to 8184 bytes, two pages,
    returns the start of the page of the live chunk, and all bytes of that chunk are
    zero. *)
Theorem malloc_overlap a s n v l :
  heap_inv a s → mptr s mod PGSIZE ≠ 0 → a !! v = Some l → v / PGSIZE = mptr s / PGSIZE + 1 →
  hpages s !! (mptr s / PGSIZE + 2) = None → mptr s / PGSIZE + 3 < HI → PGSIZE - 8 < n ≤ 2 * PGSIZE - 8 → 8 ≤ hfree s →
  ∃ s', malloc n s = Ret (v / PGSIZE * PGSIZE) s' ∧
    ∀ i, (i < length l)%nat → hread (v + Z.of_nat i) s' = Ret 0 s'.
Proof.
  intros I H0 Hv Hnext Hfree Hhi Hn Hf. pose proof (roundup8_two n Hn) as Hk. set (k := ROUNDUP n 8) in *.
  destruct (hi_ptr _ _ I) as [E|(Hpb & _ & _)]; [by rewrite E in H0|]. pose proof (va_in_heap _ Hpb) as Hh.
  pose proof (heap_bounds _ Hh) as Hb. pose proof (va_split (mptr s)) as [Es Hpm]. set (q := mptr s / PGSIZE) in *.
  assert (0 < refs a (mptr s) q)%nat as Hpos by (unfold refs, cur; rewrite decide_True by done; lia).
  destruct (free_spec s (mptr s) (refs a (mptr s))) as (s2 & E2 & Hm2 & Hf2 & Hok2 & _ & _);
    [apply I|done|done|pose proof (refs_bound a (mptr s) q); fold q; lia|]. fold q in Hok2.
  assert (in_heap (q + 1)) as Hq1 by (unfold in_heap in *; lia). assert (in_heap (q + 2)) as Hq2 by (unfold in_heap in *; lia).
  assert (hpages s2 !! (q + 2) = None) as Hn2.
  { pose proof (Hok2 _ Hq2) as Hok. cbv beta in Hok. destruct (decide (q + 2 = q)); [lia|]. pose proof (hi_pages _ _ I _ Hq2) as Hok'.
    rewrite Hfree in Hok'. destruct (hpages s2 !! (q + 2)); [lia|done]. }
  destruct (new_chunk_two (set_mptr ((q + 1) * PGSIZE) s2) (q + 1) k Hq1) as (s' & E3 & Hp); [lia|done|done|by rewrite <-Z.add_assoc|cbn; lia|].
  exists s'. split.
  - unfold malloc. step_pure. destruct (Z.eqb_spec (mptr s) 0) as [E|_]; [by rewrite E in H0|]. step_pure. fold k.
    destruct (Z.leb_spec MAXMALLOC k) as [Hmax|_]; [unfold MAXMALLOC in Hmax; change PGSIZE with 4096 in *; lia|].
    step_pure. rewrite (proj2 (Z.eqb_neq _ _)) by done. cbn [negb].
    rewrite (u64_small (mptr s + _ - _ + _)) by (unfold is_u64; change PGSIZE with 4096 in *; lia). fold q.
    destruct (Z.eqb_spec q ((mptr s + k - 1 + 4) / PGSIZE)) as [E|_].
    { exfalso. change PGSIZE with 4096 in *. Z.div_mod_to_equations. lia. }
    step_with E2. step_pure.
    replace (ROUNDDOWN (mptr s + PGSIZE) PGSIZE) with ((q + 1) * PGSIZE).
    2:{ unfold ROUNDDOWN. rewrite u64_small by (unfold is_u64; change PGSIZE with 4096 in *; lia).
        change PGSIZE with 4096 in *. Z.div_mod_to_equations. lia. }
    by rewrite Hnext.
  - intros i Hi. destruct (chunk_addr a s v l i I Hv Hi) as (-> & Hoff & _). unfold hread.
    destruct (page_off (v / PGSIZE) (v mod PGSIZE + Z.of_nat i)) as [-> ->]; [lia|]. by rewrite Hnext, Hp.
Qed.

(** A heap after a wrap around: the pointer is on the first page, which it shares with
    a chunk, and the second page holds a chunk that was kept. *)
Definition wrap_heap : hp :=
  mkHp {[ LO := mkPage HEAP_PERM (st32 ∅ 4092 2); LO + 1 := mkPage HEAP_PERM (st32 (wrb ∅ 0 42) 4092 1) ]} (mbegin + 8) 100 ∅.
Definition wrap_chunks : chunks := {[ mbegin := replicate 8 0; mbegin + 4096 := 42 :: replicate 7 0 ]}.

Lemma wrap_chunk v l : wrap_chunks !! v = Some l →
  (v = mbegin ∧ l = replicate 8 0) ∨ (v = mbegin + 4096 ∧ l = 42 :: replicate 7 0).
Proof. unfold wrap_chunks. intros [[<- <-]|[_ [<- <-]%lookup_singleton_Some]]%lookup_insert_Some; [by left|by right]. Qed.

Lemma wrap_heap_inv : heap_inv wrap_chunks wrap_heap.
Proof.
  split.
  - right. split_and!; done.
  - intros n Hn. destruct (decide (n = LO)) as [->|H1]; [vm_compute; split_and!; reflexivity || lia|].
    destruct (decide (n = LO + 1)) as [->|H2]; [vm_compute; split_and!; reflexivity || lia|].
    cbn [hpages wrap_heap]. rewrite lookup_insert_ne, lookup_singleton_ne by done. unfold refs, cur.
    rewrite decide_False by (intros [_ Hx]; vm_compute in Hx; by subst n).
    assert (on_page_of wrap_chunks n = ∅) as ->; [|done]. apply set_eq. intros x. unfold on_page_of.
    rewrite elem_of_filter, elem_of_dom. split; [|set_solver]. intros [Hx [l Hl]]. exfalso.
    apply wrap_chunk in Hl as [[-> _]|[-> _]]; vm_compute in Hx; by subst n.
  - intros v l [[-> ->]|[-> ->]]%wrap_chunk; (split_and!; [done|done|simpl; lia|done|]); intros i c Hi;
      do 8 (destruct i as [|i]; [simpl in Hi; simplify_eq; by vm_compute|]); discriminate Hi.
  - intros v v' l l' [[-> ->]|[-> ->]]%wrap_chunk [[-> ->]|[-> ->]]%wrap_chunk; unfold mbegin; simpl; lia.
  - intros _. split.
    + intros v l [[-> ->]|[-> ->]]%wrap_chunk; vm_compute; done.
    + intros i Hi. unfold dat. cbn [hpages wrap_heap]. change (mptr wrap_heap / PGSIZE) with LO. rewrite lookup_insert_eq. simpl pdata.
      rewrite rdb_st32_out; [done|]. change PGSIZE with 4096 in Hi. lia.
  - intros v l [[-> _]|[-> _]]%wrap_chunk; done.
Qed.

Lemma malloc_overlap_witness :
  ∃ s', malloc 4096 wrap_heap = Ret (mbegin + 4096) s' ∧ ∀ i, (i < 8)%nat → hread (mbegin + 4096 + Z.of_nat i) s' = Ret 0 s'.
Proof.
  apply (malloc_overlap wrap_chunks wrap_heap 4096 (mbegin + 4096) (42 :: replicate 7 0)).
  - exact wrap_heap_inv.
  - done.
  - done.
  - done.
  - done.
  - done.
  - done.
  - done.
Defined.
