(* ===== verification/Spawn.v ===== *)
(** * Starting programs: lib/riscv/spawn.c

    [spawn] on the address spaces of [Fork], the descriptors of [Fd] and the file
    device of [File].  [init_stack] builds the stack page of the child in the
    parent's page UTEMP and [map_segment] loads one segment of the program file.
    The theorems say that the child finds on its stack the argument vector the
    parent passed, at addresses valid in the child, and that a segment's pages hold
    the bytes of the file followed by zeros. *)

From S2P Require Import Prelude Mmu Strings Words Fork Fd.

(** ** Words and strings of the program's memory *)

Section memory.
Context (pick : vm → Z) (e : Z).

Definition ld64u (va : Z) : V Z :=
  b0 <- uread e va ;; b1 <- uread e (va + 1) ;; b2 <- uread e (va + 2) ;; b3 <- uread e (va + 3) ;;
  b4 <- uread e (va + 4) ;; b5 <- uread e (va + 5) ;; b6 <- uread e (va + 6) ;; b7 <- uread e (va + 7) ;;
  ret (b0 + 2 ^ 8 * b1 + 2 ^ 16 * b2 + 2 ^ 24 * b3 + 2 ^ 32 * b4 + 2 ^ 40 * b5 + 2 ^ 48 * b6 + 2 ^ 56 * b7).

Definition word_bytes (v : Z) : list Z :=
  (λ k, v / 2 ^ (8 * Z.of_nat k) mod 256) <$> seq 0 8.
Fixpoint stbytes (va : Z) (l : list Z) : V unit :=
  match l with
  | [] => ret tt
  | b :: l' => uwrite pick e va b ;;; stbytes (va + 1) l'
  end.
Definition st64v (va v : Z) : V unit := stbytes va (word_bytes v).

(** [strlen] and [strcpy] of lib/riscv/string.c on the program's memory. *)
Fixpoint ustrlen (fuel : nat) (p n : Z) : V Z :=
  match fuel with
  | O => noret
  | S fuel' => c <- uread e p ;; if c =? 0 then ret n else ustrlen fuel' (p + 1) (i32 (n + 1))
  end.
Fixpoint ustrcpy (fuel : nat) (dst src : Z) : V unit :=
  match fuel with
  | O => noret
  | S fuel' =>
      c <- uread e src ;;
      uwrite pick e dst c ;;;
      if c =? 0 then ret tt else ustrcpy fuel' (dst + 1) (src + 1)
  end.

(** ** The stack page *)

Definition UTEMP2USTACK (addr : Z) : Z := u64 (addr + (USTACKTOP - PGSIZE) - UTEMP).

(** [argc] and [string_size]. *)
Fixpoint count_args (fuel : nat) (argv argc string_size : Z) : V (Z * Z) :=
  match fuel with
  | O => noret
  | S fuel' =>
      p <- ld64u (u64 (argv + 8 * argc)) ;;
      if p =? 0 then ret (argc, string_size) else
      n <- ustrlen fuel p 0 ;;
      count_args fuel' argv (i32 (argc + 1)) (u64 (string_size + n + 1))
  end.

(** The loop that stores the strings; gives the final [string_store]. *)
Fixpoint store_args (k fuel : nat) (argv argv_store i string_store : Z) : V Z :=
  match k with
  | O => ret string_store
  | S k' =>
      st64v (u64 (argv_store + 8 * i)) (UTEMP2USTACK string_store) ;;;
      p <- ld64u (u64 (argv + 8 * i)) ;;
      ustrcpy fuel string_store p ;;;
      n <- ustrlen fuel p 0 ;;
      store_args k' fuel argv argv_store (i + 1) (u64 (string_store + n + 1))
  end.

Definition PERM_STACK : Z := Z.lor (Z.lor (Z.lor PTE_V PTE_U) PTE_W) PTE_R.

(** The result code and [*init_esp]. *)
Definition init_stack (fuel : nat) (child argv : Z) : V (Z * Z) :=
  a <- count_args fuel argv 0 0 ;;
  let '(argc, string_size) := a in
  let string_store := u64 (UTEMP + PGSIZE - string_size) in
  let argv_store := u64 (ROUNDDOWN string_store 8 - 8 * (argc + 1)) in
  if u64 (argv_store - 16) <? UTEMP then ret (- E_NO_MEM, 0) else
  r <- sys_page_alloc pick e UTEMP PERM_STACK ;;
  if r <? 0 then ret (r, 0) else
  string_store <- store_args (Z.to_nat argc) fuel argv argv_store 0 string_store ;;
  st64v (u64 (argv_store + 8 * argc)) 0 ;;;
  assert_ (string_store =? UTEMP + PGSIZE) ;;;
  st64v (u64 (argv_store - 8)) (UTEMP2USTACK argv_store) ;;;
  st64v (u64 (argv_store - 16)) argc ;;;
  let init_esp := UTEMP2USTACK (u64 (argv_store - 16)) in
  let error r := sys_page_unmap e UTEMP ;;; ret (r, init_esp) in
  r <- sys_page_map e UTEMP child (USTACKTOP - PGSIZE) PERM_STACK ;;
  if r <? 0 then error r else
  r <- sys_page_unmap e UTEMP ;;
  if r <? 0 then error r else ret (0, init_esp).
End memory.

(** ** Segments and the program *)

Section spawn.
Context {X : Type}.
Context (pick : vm → Z) (newenv : vm → option Z) (e : Z).
(** [seek], [readn], [close] and [open] of the descriptor layer. *)
Context (seek : Z → Z → U (X := X) Z) (readn : Z → Z → Z → U (X := X) Z) (close : Z → U (X := X) Z) (open : Z → Z → U (X := X) Z).
Notation U := (U (X := X)).

Fixpoint segment_loop (fuel : nat) (child va memsz fd filesz fileoffset perm i : Z) : U Z :=
  match fuel with
  | O => noret
  | S fuel' =>
      if u64 i <? memsz then
        if filesz <=? u64 i then
          r <- vmop (sys_page_alloc pick child (u64 (va + i)) perm) ;;
          if r <? 0 then ret r
          else segment_loop fuel' child va memsz fd filesz fileoffset perm (i32 (i + PGSIZE))
        else
          r <- vmop (sys_page_alloc pick e UTEMP PERM_STACK) ;;
          if r <? 0 then ret r else
          r <- seek fd (i32 (fileoffset + i)) ;;
          if r <? 0 then ret r else
          r <- readn fd UTEMP (Z.min PGSIZE (u64 (filesz - i))) ;;
          if r <? 0 then ret r else
          r <- vmop (sys_page_map e UTEMP child (u64 (va + i)) perm) ;;
          if r <? 0 then panic else
          vmop (sys_page_unmap e UTEMP) ;;;
          segment_loop fuel' child va memsz fd filesz fileoffset perm (i32 (i + PGSIZE))
      else ret 0
  end.

Definition map_segment (child va memsz fd filesz fileoffset perm : Z) : U Z :=
  let i := i32 (PGOFF va) in
  let '(va, memsz, filesz, fileoffset) :=
    if negb (i =? 0) then (u64 (va - i), u64 (memsz + i), u64 (filesz + i), i32 (fileoffset - i))
    else (va, memsz, filesz, fileoffset) in
  segment_loop (S (Z.to_nat (memsz / PGSIZE + 1))) child va memsz fd filesz fileoffset perm 0.

(** Fields of the headers in the program's memory. *)
Definition ld32v (va : Z) : V Z :=
  b0 <- uread e va ;; b1 <- uread e (va + 1) ;; b2 <- uread e (va + 2) ;; b3 <- uread e (va + 3) ;;
  ret (b0 + 2 ^ 8 * b1 + 2 ^ 16 * b2 + 2 ^ 24 * b3).
Definition ld16v (va : Z) : V Z := b0 <- uread e va ;; b1 <- uread e (va + 1) ;; ret (b0 + 2 ^ 8 * b1).

Definition ELF_MAGIC : Z := 0x464C457F.
Definition ELF_PROG_LOAD : Z := 1.
Definition ELF_PROG_FLAG_EXEC : Z := 1.
Definition ELF_PROG_FLAG_WRITE : Z := 2.
Definition e_magic : Z := 0.
Definition e_entry : Z := 24.
Definition e_phoff : Z := 32.
Definition e_phnum : Z := 56.
Definition p_type : Z := 0.
Definition p_flags : Z := 4.
Definition p_offset : Z := 8.
Definition p_va : Z := 16.
Definition p_filesz : Z := 32.
Definition p_memsz : Z := 40.
Definition sizeof_Proghdr : Z := 56.

(** The loop over the program headers; a negative result takes the error exit. *)
Fixpoint segments (k : nat) (child fd ph : Z) : U Z :=
  match k with
  | O => ret 0
  | S k' =>
      t <- vmop (ld32v (ph + p_type)) ;;
      if negb (t =? ELF_PROG_LOAD) then segments k' child fd (ph + sizeof_Proghdr) else
      flags <- vmop (ld32v (ph + p_flags)) ;;
      let perm := Z.lor (Z.lor PTE_V PTE_U) PTE_R in
      let perm := if negb (Z.land flags ELF_PROG_FLAG_WRITE =? 0) then Z.lor perm PTE_W else perm in
      let perm := if negb (Z.land flags ELF_PROG_FLAG_EXEC =? 0) then Z.lor perm PTE_X else perm in
      va <- vmop (ld64u e (ph + p_va)) ;;
      memsz <- vmop (ld64u e (ph + p_memsz)) ;;
      filesz <- vmop (ld64u e (ph + p_filesz)) ;;
      offset <- vmop (ld64u e (ph + p_offset)) ;;
      r <- map_segment child va memsz fd filesz (i32 offset) perm ;;
      if r <? 0 then ret r else segments k' child fd (ph + sizeof_Proghdr)
  end.

(** System calls on a new environment: creation, and removal.  [env_free] gives back
    the pages, the tables and the directory, but only visits the first entry of the
    directory: the pages and tables above page [2 ^ 27] are lost. *)
Definition exofork : V Z := λ s,
  match newenv s with None => Ret (- E_NO_FREE_ENV) s | Some c => sys_exofork e c s end.
Definition sys_env_destroy (child : Z) : V Z := λ s,
  match spaces s !! child with
  | None => Ret (- E_BAD_ENV) s
  | Some t =>
      let lost := set_space child (filter (λ x : Z * (Z * Z), 2 ^ 27 ≤ x.1) t) s in
      let tabs := filter (λ x : Z * Z * Z, x.1.1 = child) (ktabs s) in
      let low := filter (λ x : Z * Z * Z, x.2 * 2 ^ (27 - 9 * x.1.2) < 2 ^ 27) tabs in
      Ret 0 (mkVm (phys s) (delete child (spaces s)) (delete child (procs s))
        (kfree s + Z.of_nat (size (frames s ∖ frames lost)) + Z.of_nat (size low) + 1) (ktabs s ∖ tabs))
  end.

Definition copy_shared_pages (child : Z) : V Z :=
  r <- sys_copy_shared_pages e child ;; if r <? 0 then ret r else ret 0.

(** The program counter and stack pointer of the child's trap frame, which is
    otherwise the one [sys_exofork] gave it. *)
Record start := mkStart { st_sepc : Z; st_sp : Z }.

(** [elf_buf] is the address of the local buffer, of 512 bytes.  The result comes with the trap frame
    given to [sys_env_set_trapframe]. *)
Definition spawn (fuel : nat) (elf_buf prog argv : Z) : U (Z * option start) :=
  r <- open prog O_RDONLY ;;
  if r <? 0 then ret (r, None) else
  let fd := r in
  n <- readn fd elf_buf 512 ;;
  magic <- (if negb (n =? 512) then ret 0 else vmop (ld32v (elf_buf + e_magic))) ;;
  if negb (n =? 512) || negb (magic =? ELF_MAGIC) then close fd ;;; ret (- E_NOT_EXEC, None) else
  r <- vmop exofork ;;
  if r <? 0 then ret (r, None) else
  let child := r in
  sepc <- vmop (ld64u e (elf_buf + e_entry)) ;;
  a <- vmop (init_stack pick e fuel child argv) ;;
  let '(r, t_sp) := a in
  if r <? 0 then ret (r, None) else
  phoff <- vmop (ld64u e (elf_buf + e_phoff)) ;;
  phnum <- vmop (ld16v (elf_buf + e_phnum)) ;;
  r <- segments (Z.to_nat phnum) child fd (elf_buf + phoff) ;;
  if r <? 0 then vmop (sys_env_destroy child) ;;; close fd ;;; ret (r, None) else
  close fd ;;;
  r <- vmop (copy_shared_pages child) ;;
  if r <? 0 then panic else
  r <- vmop (sys_env_set_status child true) ;;
  if r <? 0 then panic else
  ret (child, Some (mkStart sepc t_sp)).

(** The variable arguments up to the null pointer, which must be there. *)
Fixpoint va_args (vl : list Z) : option (list Z) :=
  match vl with
  | [] => None
  | p :: vl' => if p =? 0 then Some [] else l ← va_args vl'; Some (p :: l)
  end.
Fixpoint store_ptrs (argv i : Z) (l : list Z) : V unit :=
  match l with
  | [] => ret tt
  | p :: l' => st64v pick e (u64 (argv + 8 * i)) p ;;; store_ptrs argv (i + 1) l'
  end.

(** [argv] is the address of the array on the stack, of [argc + 2] pointers. *)
Definition spawnl (fuel : nat) (elf_buf argv prog arg0 : Z) (vl : list Z) : U (Z * option start) :=
  match va_args vl with
  | None => undef
  | Some l =>
      let argc := Z.of_nat (length l) in
      vmop (st64v pick e argv arg0) ;;;
      vmop (st64v pick e (u64 (argv + 8 * (argc + 1))) 0) ;;;
      vmop (store_ptrs argv 1 l) ;;;
      spawn fuel elf_buf prog argv
  end.
End spawn.

(** ** Contents of memory *)

Definition wordm (m : bytes) (a v : Z) : Prop := ∀ k : nat, (k < 8)%nat → rdb m (a + Z.of_nat k) = v / 2 ^ (8 * Z.of_nat k) mod 256.
Definition strm (m : bytes) (a : Z) (l : list Z) : Prop := ∀ (i : nat) c, (l ++ [0]) !! i = Some c → rdb m (a + Z.of_nat i) = c.

Definition word_at (s : vm) (e p v : Z) : Prop :=
  ∀ k : nat, (k < 8)%nat → byte_at s e (p + Z.of_nat k) = Some (v / 2 ^ (8 * Z.of_nat k) mod 256).
Definition str_at (s : vm) (e p : Z) (l : list Z) : Prop :=
  ∀ (i : nat) c, (l ++ [0]) !! i = Some c → byte_at s e (p + Z.of_nat i) = Some c.

(** The vector [argv] of [e] holds the strings [L]. *)
Record argv_at (s : vm) (e argv : Z) (L : list (list Z)) : Prop := {
  av_range : 0 ≤ argv ∧ argv + 8 * Z.of_nat (length L) + 8 ≤ 2 ^ 64;
  av_arg i l : L !! i = Some l →
    ∃ p, 0 < p < 2 ^ 64 ∧ word_at s e (argv + 8 * Z.of_nat i) p ∧ str_at s e p l ∧ Forall (λ c, 0 < c < 256) l;
  av_end : word_at s e (argv + 8 * Z.of_nat (length L)) 0
}.

(** The space the strings take. *)
Fixpoint total (L : list (list Z)) : Z :=
  match L with [] => 0 | l :: L' => Z.of_nat (length l) + 1 + total L' end.

Lemma total_nonneg L : 0 ≤ total L.
Proof. induction L; simpl; lia. Qed.
Lemma total_elem L i l : L !! i = Some l → Z.of_nat (length l) < total L.
Proof.
  revert i. induction L as [|l0 L IH]; intros [|i] H; simplify_eq/=.
  - pose proof (total_nonneg L). lia.
  - specialize (IH i H). lia.
Qed.

Lemma uread_run s e va b : byte_at s e va = Some b → uread e va s = Ret b s.
Proof. unfold byte_at, uread. destruct (place e va s) as [[a p]|]; simpl; [by intros [= <-]|done]. Qed.

Lemma word_value v : 0 ≤ v < 2 ^ 64 →
  v / 2 ^ 0 mod 256 + 2 ^ 8 * (v / 2 ^ 8 mod 256) + 2 ^ 16 * (v / 2 ^ 16 mod 256) + 2 ^ 24 * (v / 2 ^ 24 mod 256) +
  2 ^ 32 * (v / 2 ^ 32 mod 256) + 2 ^ 40 * (v / 2 ^ 40 mod 256) + 2 ^ 48 * (v / 2 ^ 48 mod 256) +
  2 ^ 56 * (v / 2 ^ 56 mod 256) = v.
Proof.
  intros Hv. change (2 ^ 0) with 1. rewrite Z.div_1_r.
  replace (2 ^ 16) with (256 * 2 ^ 8) by done. replace (2 ^ 24) with (256 * 2 ^ 16) by done.
  replace (2 ^ 32) with (256 * 2 ^ 24) by done. replace (2 ^ 40) with (256 * 2 ^ 32) by done.
  replace (2 ^ 48) with (256 * 2 ^ 40) by done. replace (2 ^ 56) with (256 * 2 ^ 48) by done.
  change (2 ^ 8) with 256. Z.div_mod_to_equations. lia.
Qed.

Lemma ld64u_run s e p v : 0 ≤ v < 2 ^ 64 → word_at s e p v → ld64u e p s = Ret v s.
Proof.
  intros Hv H. unfold ld64u.
  pose proof (H 0%nat ltac:(lia)) as H0. rewrite Z.add_0_r in H0. step_with (uread_run _ _ _ _ H0).
  step_with (uread_run _ _ _ _ (H 1%nat ltac:(lia))). step_with (uread_run _ _ _ _ (H 2%nat ltac:(lia))).
  step_with (uread_run _ _ _ _ (H 3%nat ltac:(lia))). step_with (uread_run _ _ _ _ (H 4%nat ltac:(lia))).
  step_with (uread_run _ _ _ _ (H 5%nat ltac:(lia))). step_with (uread_run _ _ _ _ (H 6%nat ltac:(lia))).
  step_with (uread_run _ _ _ _ (H 7%nat ltac:(lia))). unfold ret. f_equal. exact (word_value v Hv).
Qed.

Lemma str_at_cons s e p c l : str_at s e p (c :: l) ↔ byte_at s e p = Some c ∧ str_at s e (p + 1) l.
Proof.
  split.
  - intros H. split; [specialize (H 0%nat c eq_refl); by rewrite Z.add_0_r in H|].
    intros i c' Hi. specialize (H (S i) c' Hi). rewrite <-H. f_equal. lia.
  - intros [H0 H] [|i] c' Hi; simplify_eq/=; [by rewrite Z.add_0_r|]. rewrite <-(H i c' Hi). f_equal. lia.
Qed.

Lemma ustrlen_run fuel s e p l n :
  str_at s e p l → Forall (λ c, 0 < c < 256) l → (length l < fuel)%nat → 0 ≤ n → n + Z.of_nat (length l) < 2 ^ 31 →
  ustrlen e fuel p n s = Ret (n + Z.of_nat (length l)) s.
Proof.
  revert p l n. induction fuel as [|fuel IH]; intros p l n H Hc Hf Hn Hb; [lia|]. simpl.
  destruct l as [|c l].
  - pose proof (H 0%nat 0 eq_refl) as H0. rewrite Z.add_0_r in H0. step_with (uread_run _ _ _ _ H0).
    unfold ret. f_equal. simpl. lia.
  - apply str_at_cons in H as [H0 H]. apply Forall_cons in Hc as [Hc0 Hc]. step_with (uread_run _ _ _ _ H0).
    destruct (Z.eqb_spec c 0); [lia|]. simpl in *. rewrite i32_small by lia. rewrite (IH _ l); [|done|done|lia..].
    f_equal. lia.
Qed.

(** The vector from argument [i] on. *)
Definition args_from (s : vm) (e argv : Z) (i : Z) (L : list (list Z)) : Prop :=
  (∀ j l, L !! j = Some l → ∃ p, 0 < p < 2 ^ 64 ∧ word_at s e (argv + 8 * (i + Z.of_nat j)) p ∧ str_at s e p l ∧
     Forall (λ c, 0 < c < 256) l) ∧
  word_at s e (argv + 8 * (i + Z.of_nat (length L))) 0.

Lemma args_from_cons s e argv i l L : args_from s e argv i (l :: L) →
  (∃ p, 0 < p < 2 ^ 64 ∧ word_at s e (argv + 8 * i) p ∧ str_at s e p l ∧ Forall (λ c, 0 < c < 256) l) ∧
  args_from s e argv (i + 1) L.
Proof.
  intros [H1 H2]. split; [|split].
  - specialize (H1 0%nat l eq_refl). by rewrite Z.add_0_r in H1.
  - intros j k Hj. replace (i + 1 + Z.of_nat j) with (i + Z.of_nat (S j)) by lia. by apply H1.
  - replace (i + 1 + Z.of_nat (length L)) with (i + Z.of_nat (length (l :: L))) by (simpl; lia). done.
Qed.

Lemma argv_args_from s e argv L : argv_at s e argv L → args_from s e argv 0 L.
Proof. intros [_ H1 H2]. by split. Qed.

Lemma count_args_run fuel s e argv L i sz :
  0 ≤ argv → 0 ≤ i → argv + 8 * (i + Z.of_nat (length L)) + 8 ≤ 2 ^ 64 → 0 ≤ sz → sz + total L < 2 ^ 31 →
  i + Z.of_nat (length L) < 2 ^ 31 → total L + Z.of_nat (length L) < Z.of_nat fuel →
  args_from s e argv i L →
  count_args e fuel argv i sz s = Ret (i + Z.of_nat (length L), sz + total L) s.
Proof.
  intros Ha. revert fuel i sz. induction L as [|l L IH]; intros fuel i sz Hi Hr Hs Ht Hc Hf H; destruct fuel as [|fuel];
    [simpl in *; lia|..|pose proof (total_nonneg (l :: L)); lia|]; cbn [count_args].
  - destruct H as [_ H]. simpl in *. rewrite Z.add_0_r in H. rewrite u64_small by (unfold is_u64; lia).
    step_with (ld64u_run s e _ 0 ltac:(lia) H). unfold ret. simpl. do 2 f_equal; lia.
  - apply args_from_cons in H as [(p & Hp & Hw & Hstr & Hch) H]. simpl in Hr, Ht, Hc, Hf. pose proof (total_nonneg L).
    rewrite u64_small by (unfold is_u64; lia). step_with (ld64u_run s e _ p ltac:(lia) Hw).
    destruct (Z.eqb_spec p 0); [lia|]. step_with (ustrlen_run (S fuel) s e p l 0 Hstr Hch ltac:(lia) ltac:(lia) ltac:(lia)).
    rewrite i32_small, u64_small by (unfold is_u64 || idtac; lia). rewrite IH; [|lia..|done].
    simpl. do 2 f_equal; lia.
Qed.

(** ** Stores to a page *)

Fixpoint put (m : bytes) (a : Z) (l : list Z) : bytes :=
  match l with [] => m | c :: l' => put (wrb m a c) (a + 1) l' end.

Lemma rdb_put_out l m a x : ¬ (a ≤ x < a + Z.of_nat (length l)) → rdb (put m a l) x = rdb m x.
Proof.
  revert m a. induction l as [|c l IH]; intros m a H; simpl in *; [done|].
  rewrite IH, rdb_wrb, decide_False by lia. done.
Qed.
Lemma rdb_put_in l m a (i : nat) c : l !! i = Some c → rdb (put m a l) (a + Z.of_nat i) = u8 c.
Proof.
  revert m a i. induction l as [|b l IH]; intros m a [|i] H; simplify_eq/=.
  - rewrite Z.add_0_r, rdb_put_out, rdb_wrb, decide_True by lia. done.
  - replace (a + Z.of_nat (S i)) with (a + 1 + Z.of_nat i) by lia. by apply IH.
Qed.
Lemma bytes_ok_put l m a : bytes_ok m → bytes_ok (put m a l).
Proof. revert m a. induction l as [|c l IH]; intros m a H; simpl; [done|]. apply IH. by apply bytes_ok_wrb. Qed.

Section page.
Context (pick : vm → Z) (e n f perm : Z) (s : vm).
Context (He : entry s e n = Some (f, perm)) (Hw : writable perm = true).

Lemma page_place ph k : 0 ≤ k < PGSIZE → place e (n * PGSIZE + k) (set_phys ph s) = Some (f * PGSIZE + k, perm).
Proof.
  intros Hk. assert ((n * PGSIZE + k) / PGSIZE = n ∧ (n * PGSIZE + k) mod PGSIZE = k) as [E1 E2].
  { change PGSIZE with 4096 in *. Z.div_mod_to_equations. lia. }
  rewrite (place_Some _ _ _ f perm); [by rewrite E2|by rewrite E1].
Qed.

Lemma uwrite_page ph k b : 0 ≤ k < PGSIZE →
  uwrite pick e (n * PGSIZE + k) b (set_phys ph s) = Ret tt (set_phys (wrb ph (f * PGSIZE + k) b) s).
Proof. intros Hk. unfold uwrite, ustore. rewrite page_place, Hw by done. done. Qed.

Lemma stbytes_page l ph k : 0 ≤ k → k + Z.of_nat (length l) ≤ PGSIZE →
  stbytes pick e (n * PGSIZE + k) l (set_phys ph s) = Ret tt (set_phys (put ph (f * PGSIZE + k) l) s).
Proof.
  revert ph k. induction l as [|b l IH]; intros ph k Hk Hl; simpl in *; [done|].
  step_with (uwrite_page ph k b ltac:(lia)). rewrite <-!Z.add_assoc. apply IH; lia.
Qed.

Lemma st64v_page v ph k : 0 ≤ k → k + 8 ≤ PGSIZE →
  st64v pick e (n * PGSIZE + k) v (set_phys ph s) = Ret tt (set_phys (put ph (f * PGSIZE + k) (word_bytes v)) s).
Proof. intros Hk Hl. apply stbytes_page; simpl; lia. Qed.

Lemma ustrcpy_page l fuel ph k src :
  0 ≤ k → k + Z.of_nat (length l) + 1 ≤ PGSIZE → (length l < fuel)%nat → Forall (λ c, 0 < c < 256) l →
  (∀ ph', (∀ a, ¬ (f * PGSIZE ≤ a < f * PGSIZE + PGSIZE) → rdb ph' a = rdb ph a) → str_at (set_phys ph' s) e src l) →
  ustrcpy pick e fuel (n * PGSIZE + k) src (set_phys ph s) =
    Ret tt (set_phys (put ph (f * PGSIZE + k) (l ++ [0])) s).
Proof.
  revert fuel ph k src. induction l as [|c l IH]; intros fuel ph k src Hk Hl Hf Hc Hs; destruct fuel as [|fuel];
    [simpl in Hf; lia| |simpl in Hf; lia|]; cbn [ustrcpy app put].
  - pose proof (Hs ph ltac:(done) 0%nat 0 eq_refl) as H0. rewrite Z.add_0_r in H0. step_with (uread_run _ _ _ _ H0).
    step_with (uwrite_page ph k 0 ltac:(simpl in Hl; lia)). done.
  - apply Forall_cons in Hc as [Hc0 Hc]. simpl in Hl, Hf.
    destruct (proj1 (str_at_cons _ _ _ _ _) (Hs ph ltac:(done))) as [H0 _]. step_with (uread_run _ _ _ _ H0).
    step_with (uwrite_page ph k c ltac:(lia)). destruct (Z.eqb_spec c 0); [lia|].
    rewrite <-!Z.add_assoc. apply IH; [lia..|done|]. intros ph' Hph'.
    apply (str_at_cons _ _ _ c), Hs. intros a Ha. rewrite Hph', rdb_wrb, decide_False by lia. done.
Qed.
End page.

Lemma wordm_put m a v : wordm (put m a (word_bytes v)) a v.
Proof.
  intros k Hk. rewrite (rdb_put_in _ _ _ k (v / 2 ^ (8 * Z.of_nat k) mod 256)).
  - apply u8_small, Z.mod_pos_bound. lia.
  - unfold word_bytes. rewrite list_lookup_fmap, lookup_seq_lt by done. done.
Qed.
Lemma strm_put m a l : Forall (λ c, 0 < c < 256) l → strm (put m a (l ++ [0])) a l.
Proof.
  intros Hl i c Hi. rewrite (rdb_put_in _ _ _ i c Hi). apply u8_small.
  apply lookup_app_Some in Hi as [Hi|[_ Hi]].
  - rewrite Forall_lookup in Hl. specialize (Hl i c Hi). lia.
  - apply list_lookup_singleton_Some in Hi as [_ <-]. lia.
Qed.

Lemma wordm_ext m m' a v : (∀ x, a ≤ x < a + 8 → rdb m' x = rdb m x) → wordm m a v → wordm m' a v.
Proof. intros H Hw k Hk. rewrite H by lia. by apply Hw. Qed.
Lemma strm_ext m m' a l : (∀ x, a ≤ x ≤ a + Z.of_nat (length l) → rdb m' x = rdb m x) → strm m a l → strm m' a l.
Proof.
  intros H Hs i c Hi. apply lookup_lt_Some in Hi as Hlt. rewrite length_app in Hlt. simpl in Hlt.
  rewrite H by lia. by apply Hs.
Qed.

(** Bytes outside the frame [f] are the same. *)
Definition same_but (f : Z) (m m' : bytes) : Prop :=
  ∀ a, ¬ (f * PGSIZE ≤ a < f * PGSIZE + PGSIZE) → rdb m' a = rdb m a.

Lemma same_but_put f m m' k l : same_but f m m' → 0 ≤ k → k + Z.of_nat (length l) ≤ PGSIZE →
  same_but f m (put m' (f * PGSIZE + k) l).
Proof. intros H Hk Hl a Ha. rewrite rdb_put_out by lia. by apply H. Qed.

Section store.
Context (pick : vm → Z) (e n f perm : Z) (s0 s : vm).
Context (He : entry s e n = Some (f, perm)) (Hw : writable perm = true) (Hn : 0 ≤ n * PGSIZE < 2 ^ 62).
(** [s0] is the state before the page was allocated: what was mapped then is still seen. *)
Context (Hkeep : ∀ ph, same_but f (phys s0) ph → ∀ va b, byte_at s0 e va = Some b → byte_at (set_phys ph s) e va = Some b).

Lemma word_at_keep ph p v : same_but f (phys s0) ph → word_at s0 e p v → word_at (set_phys ph s) e p v.
Proof. intros H Hp k Hk. by apply Hkeep, Hp. Qed.
Lemma str_at_keep ph p l : same_but f (phys s0) ph → str_at s0 e p l → str_at (set_phys ph s) e p l.
Proof. intros H Hp i c Hi. by apply Hkeep, Hp. Qed.

(** One argument: its pointer and its string. *)
Lemma store_arg fuel l p A off ph :
  0 ≤ A → A + 8 ≤ off → off + Z.of_nat (length l) + 1 ≤ PGSIZE → (length l < fuel)%nat →
  Forall (λ c, 0 < c < 256) l → str_at s0 e p l → same_but f (phys s0) ph →
  let ph1 := put ph (f * PGSIZE + A) (word_bytes (UTEMP2USTACK (n * PGSIZE + off))) in
  let ph2 := put ph1 (f * PGSIZE + off) (l ++ [0]) in
  ustrcpy pick e fuel (n * PGSIZE + off) p (set_phys ph1 s) = Ret tt (set_phys ph2 s) ∧
  same_but f (phys s0) ph1 ∧ same_but f (phys s0) ph2 ∧
  wordm ph2 (f * PGSIZE + A) (UTEMP2USTACK (n * PGSIZE + off)) ∧ strm ph2 (f * PGSIZE + off) l ∧
  ∀ x, ¬ (A ≤ x < A + 8) → ¬ (off ≤ x < off + Z.of_nat (length l) + 1) →
    rdb ph2 (f * PGSIZE + x) = rdb ph (f * PGSIZE + x).
Proof.
  intros HA Hoff Hpg Hf Hch Hstr Hs ph1 ph2.
  assert (same_but f (phys s0) ph1) as Hs1 by (apply same_but_put; [done|lia|cbn; lia]).
  assert (same_but f (phys s0) ph2) as Hs2 by (apply same_but_put; [done|lia|rewrite length_app; simpl; lia]).
  assert (length (l ++ [0]) = S (length l)) as Hlen by (rewrite length_app; simpl; lia).
  split_and!; [|done|done| |by apply strm_put|].
  - apply (ustrcpy_page pick e n f perm s He Hw); [lia|lia|done|done|].
    intros ph' H'. apply str_at_keep; [|done]. intros a Ha. rewrite (H' a Ha). by apply Hs1.
  - apply (wordm_ext ph1); [|apply wordm_put]. intros x Hx. apply rdb_put_out. lia.
  - intros x H1 H2. unfold ph2, ph1. rewrite !rdb_put_out; [done|cbn; lia|lia].
Qed.

Lemma store_args_run L fuel argv i A off ph :
  0 ≤ argv → 0 ≤ i → argv + 8 * (i + Z.of_nat (length L)) + 8 ≤ 2 ^ 64 → 0 ≤ A →
  A + 8 * (i + Z.of_nat (length L)) ≤ off → off + total L ≤ PGSIZE → total L < Z.of_nat fuel →
  args_from s0 e argv i L → same_but f (phys s0) ph →
  ∃ ph', store_args pick e (length L) fuel argv (n * PGSIZE + A) i (n * PGSIZE + off) (set_phys ph s) =
      Ret (n * PGSIZE + (off + total L)) (set_phys ph' s) ∧ same_but f (phys s0) ph' ∧
    (∀ j l, L !! j = Some l →
      wordm ph' (f * PGSIZE + (A + 8 * (i + Z.of_nat j))) (UTEMP2USTACK (n * PGSIZE + (off + total (take j L)))) ∧
      strm ph' (f * PGSIZE + (off + total (take j L))) l) ∧
    ∀ x, ¬ (A + 8 * i ≤ x < A + 8 * (i + Z.of_nat (length L))) → ¬ (off ≤ x < off + total L) →
      rdb ph' (f * PGSIZE + x) = rdb ph (f * PGSIZE + x).
Proof.
  intros Hv. revert i off ph. induction L as [|l L IH]; intros i off ph Hi Hr HA Hoff Hpg Hf Hargs Hs.
  { exists ph. split; [cbn; unfold ret; f_equal; lia|]. split; [done|]. split; [by intros [] l|done]. }
  cbn [store_args length]. simpl in Hr, Hoff, Hpg, Hf. pose proof (total_nonneg L).
  change PGSIZE with 4096 in Hpg. apply args_from_cons in Hargs as [(p & Hp & Hword & Hstr & Hch) Hargs].
  rewrite (u64_small (n * PGSIZE + A + 8 * i)) by (unfold is_u64; change PGSIZE with 4096 in *; lia).
  rewrite <-(Z.add_assoc (n * PGSIZE) A).
  step_with (st64v_page pick e n f perm s He Hw (UTEMP2USTACK (n * PGSIZE + off)) ph (A + 8 * i) ltac:(lia) ltac:(change PGSIZE with 4096; lia)).
  destruct (store_arg fuel l p (A + 8 * i) off ph ltac:(lia) ltac:(lia) ltac:(change PGSIZE with 4096; lia) ltac:(lia) Hch Hstr Hs)
    as (E2 & Hs1 & Hs2 & W2 & T2 & F2). set (ph1 := put ph _ _) in *. set (ph2 := put ph1 _ _) in *.
  rewrite u64_small by (unfold is_u64; lia). step_with (ld64u_run _ e _ p ltac:(lia) (word_at_keep ph1 _ _ Hs1 Hword)).
  step_with E2. step_with (ustrlen_run fuel (set_phys ph2 s) e p l 0 (str_at_keep _ _ _ Hs2 Hstr) Hch ltac:(lia) ltac:(lia) ltac:(lia)).
  rewrite u64_small by (unfold is_u64; change PGSIZE with 4096 in *; lia).
  replace (n * PGSIZE + off + (0 + Z.of_nat (length l)) + 1) with (n * PGSIZE + (off + (Z.of_nat (length l) + 1))) by lia.
  destruct (IH (i + 1) (off + (Z.of_nat (length l) + 1)) ph2) as (ph' & E & Hs' & Hj & Hout);
    [lia|lia|lia|lia|change PGSIZE with 4096; lia|lia|done|done|].
  exists ph'. split; [rewrite E; f_equal; simpl; lia|]. split; [done|]. split.
  - intros [|j] k Hk; simplify_eq/=.
    + rewrite !Z.add_0_r. split; [apply (wordm_ext ph2)|apply (strm_ext ph2)]; try done.
      * intros x Hx. replace x with (f * PGSIZE + (x - f * PGSIZE)) by lia. apply Hout; lia.
      * intros x Hx. replace x with (f * PGSIZE + (x - f * PGSIZE)) by lia. apply Hout; lia.
    + destruct (Hj j k Hk) as [H1 H2]. replace (i + Z.of_nat (S j)) with (i + 1 + Z.of_nat j) by lia.
      replace (off + (Z.of_nat (length l) + 1 + total (take j L))) with (off + (Z.of_nat (length l) + 1) + total (take j L)) by lia.
      done.
  - intros x H1 H2. simpl in H1, H2. rewrite Hout by lia. apply F2; lia.
Qed.
End store.

(** ** The child's stack *)

Definition STACKBASE : Z := USTACKTOP - PGSIZE.
(** The offset in the page of the word that holds [argc]; negative when the
    arguments do not fit. *)
Definition stack_room (L : list (list Z)) : Z :=
  (PGSIZE - total L) / 8 * 8 - 8 * (Z.of_nat (length L) + 1) - 16.

Lemma utemp_ustack k : 0 ≤ k ≤ PGSIZE → UTEMP2USTACK (UTEMP + k) = STACKBASE + k.
Proof.
  intros Hk. unfold UTEMP2USTACK. change PGSIZE with 4096 in *. change UTEMP with 0x400000.
  change STACKBASE with 0xfffffcffeffff000. change (USTACKTOP - 4096) with 0xfffffcffeffff000.
  rewrite u64_small; unfold is_u64; lia.
Qed.

(** The pointers the code computes. *)
Lemma stack_pointers L : total L + 8 * Z.of_nat (length L) + 32 ≤ UTEMP →
  let ss := u64 (UTEMP + PGSIZE - total L) in
  let av := u64 (ROUNDDOWN ss 8 - 8 * (Z.of_nat (length L) + 1)) in
  ss = UTEMP + (PGSIZE - total L) ∧ av = UTEMP + (stack_room L + 16) ∧ u64 (av - 16) = UTEMP + stack_room L ∧
  stack_room L + 16 + 8 * (Z.of_nat (length L) + 1) ≤ PGSIZE - total L.
Proof.
  pose proof (total_nonneg L) as Ht. intros Hb. change UTEMP with 0x400000 in *. unfold stack_room, ROUNDDOWN.
  change PGSIZE with 4096. rewrite !(u64_small (0x400000 + 4096 - total L)) by (unfold is_u64; lia).
  set (c := Z.of_nat (length L)) in *. assert (0 ≤ c) by lia.
  rewrite (u64_small (0x400000 + 4096 - total L - _ - _)) by (unfold is_u64; Z.div_mod_to_equations; lia).
  rewrite u64_small by (unfold is_u64; Z.div_mod_to_equations; lia).
  split_and!; Z.div_mod_to_equations; lia.
Qed.

(** ** Tables that are missing *)

Lemma missing_le e n s : Z.of_nat (length (missing e n s)) ≤ 3.
Proof.
  pose proof (length_filter (λ t, t ∉ ktabs s) (tables e n)) as Hl. unfold missing. cbn [length tables] in Hl. lia.
Qed.
Lemma insert_enough e n f perm s : Z.of_nat (length (missing e n s)) ≤ kfree s →
  ∃ k, insert_page e n f perm s = (0, map_page e n f perm (set_kern k (list_to_set (missing e n s) ∪ ktabs s) s)) ∧
    kfree s - Z.of_nat (length (missing e n s)) ≤ k ∧ (entry s e n = None → k = kfree s - Z.of_nat (length (missing e n s))).
Proof.
  intros Hk. unfold insert_page, make_tables. rewrite (proj2 (Z.leb_le _ _)) by done.
  rewrite !Z.min_l, Nat2Z.id, firstn_all by done. eexists. split; [reflexivity|].
  change (entry (set_kern _ _ s) e n) with (entry s e n). cbn [kfree set_kern].
  destruct (entry s e n) as [[g p]|]; [|split; [lia|intros _; lia]]. split; [|done]. destruct (g =? f); [lia|].
  match goal with |- context [freed e n ?v] => pose proof (freed_pos e n v) end. lia.
Qed.
Lemma insert_short e n f perm s : kfree s < Z.of_nat (length (missing e n s)) →
  ∃ k T, insert_page e n f perm s = (- E_NO_MEM, set_kern k T s).
Proof. intros Hk. unfold insert_page, make_tables. rewrite (proj2 (Z.leb_gt _ _)) by done. by eexists _, _. Qed.
Lemma filter_ext_in {A} (P Q : A → Prop) `{∀ x, Decision (P x), ∀ x, Decision (Q x)} (l : list A) :
  (∀ x, x ∈ l → P x ↔ Q x) → filter P l = filter Q l.
Proof.
  induction l as [|x l IH]; intros Hl; [done|]. pose proof (Hl x ltac:(left)). rewrite !filter_cons, IH; [|set_solver].
  repeat case_decide; tauto.
Qed.
Lemma missing_other e n d n' s s' : e ≠ d → ktabs s' = list_to_set (missing e n s) ∪ ktabs s → missing d n' s' = missing d n' s.
Proof.
  intros Hne Ht. apply filter_ext_in. intros x Hx. rewrite Ht.
  assert (x ∉ missing e n s); [|set_solver].
  unfold missing. rewrite list_elem_of_filter. intros [_ Hm]. unfold tables in *. set_unfold. naive_solver.
Qed.
Lemma ktabs_map s e n f perm : ktabs (map_page e n f perm s) = ktabs s.
Proof. unfold map_page. by destruct (spaces s !! e). Qed.

(** The temporary page, and the result without it. *)
Lemma alloc_short pick e s : has_space s e → 0 < kfree s → kfree s - 1 < Z.of_nat (length (missing e TEMP s)) →
  ∃ s', sys_page_alloc pick e UTEMP PERM_STACK s = Ret (- E_NO_MEM) s' ∧ spaces s' = spaces s ∧ procs s' = procs s ∧
    same_but (pick s) (phys s) (phys s').
Proof.
  intros [t Ht] Hk Hm. set (m := memset (phys s) (pick s * PGSIZE) 0 PGSIZE).
  destruct (insert_short e TEMP (pick s) PERM_STACK (set_kern (kfree s - 1) (ktabs s) (set_phys m s))) as (k & T & Ei); [done|].
  eexists. unfold sys_page_alloc. rewrite Ht. change (bad_va UTEMP) with false. change (negb _) with false.
  rewrite (proj2 (Z.leb_gt _ _)) by done. change (UTEMP / PGSIZE) with TEMP. fold m. rewrite Ei.
  split; [reflexivity|]. split_and!; [done|done|]. intros a Ha. cbn [phys set_kern set_phys]. unfold m.
  rewrite memset_spec by (unfold PGSIZE; lia). rewrite decide_False by (unfold PGSIZE in *; lia). done.
Qed.

Lemma alloc_temp pick e s : has_space s e → entry s e TEMP = None → 0 < kfree s →
  Z.of_nat (length (missing e TEMP s)) ≤ kfree s - 1 → (∀ e n perm, entry s e n ≠ Some (pick s, perm)) →
  ∃ s1, sys_page_alloc pick e UTEMP PERM_STACK s = Ret 0 s1 ∧
    (∀ e' n', entry s1 e' n' = if decide (e' = e ∧ n' = TEMP) then Some (pick s, PERM_STACK) else entry s e' n') ∧
    same_but (pick s) (phys s) (phys s1) ∧ (∀ x, has_space s x → has_space s1 x) ∧
    kfree s1 = kfree s - 1 - Z.of_nat (length (missing e TEMP s)) ∧ ktabs s1 = list_to_set (missing e TEMP s) ∪ ktabs s ∧
    ∀ ph, same_but (pick s) (phys s) ph → ∀ va b, byte_at s e va = Some b → byte_at (set_phys ph s1) e va = Some b.
Proof.
  intros Hspace Htemp Hk Hm Hf. set (m := memset (phys s) (pick s * PGSIZE) 0 PGSIZE). set (f := pick s) in *.
  destruct (insert_enough e TEMP f PERM_STACK (set_kern (kfree s - 1) (ktabs s) (set_phys m s)) Hm) as (k & Ei & _ & Hk1).
  specialize (Hk1 Htemp). subst k. eexists. split.
  { destruct Hspace as [t Ht]. unfold sys_page_alloc. rewrite Ht. change (bad_va UTEMP) with false. change (negb _) with false.
    rewrite (proj2 (Z.leb_gt _ _)) by done. change (UTEMP / PGSIZE) with TEMP. fold f m. rewrite Ei. reflexivity. }
  set (s1 := map_page _ _ _ _ _).
  assert (∀ e' n', entry s1 e' n' = if decide (e' = e ∧ n' = TEMP) then Some (f, PERM_STACK) else entry s e' n') as He.
  { intros e' n'. unfold s1. rewrite entry_map by done. done. }
  split_and!; [done| | |unfold s1; by rewrite kfree_map|unfold s1; by rewrite ktabs_map|].
  - intros a Ha. unfold s1. rewrite phys_map. cbn [phys set_kern set_phys]. unfold m. rewrite memset_spec by (unfold PGSIZE; lia).
    rewrite decide_False by (unfold PGSIZE in *; lia). done.
  - intros x Hx. by apply has_space_map.
  - intros ph Hs va b Hb. destruct (byte_at_inv _ _ _ _ Hb) as (g & perm & Eg & ->).
    assert (va / PGSIZE ≠ TEMP) as Hv by (intros Ev; rewrite Ev, Htemp in Eg; done).
    rewrite (byte_at_Some (set_phys ph s1) e va g perm).
    2:{ change (entry s1 e (va / PGSIZE) = Some (g, perm)). rewrite He, decide_False by naive_solver. done. }
    f_equal. apply Hs. intros Ha. assert (g = f) as ->; [|by apply Hf in Eg].
    pose proof (Z.mod_pos_bound va PGSIZE ltac:(done)). unfold PGSIZE in *. lia.
Qed.

Lemma page_byte s' c f perm k : entry s' c STACK = Some (f, perm) → 0 ≤ k < PGSIZE →
  byte_at s' c (STACKBASE + k) = Some (rdb (phys s') (f * PGSIZE + k)).
Proof.
  intros He Hk. change STACKBASE with (STACK * PGSIZE).
  assert ((STACK * PGSIZE + k) / PGSIZE = STACK ∧ (STACK * PGSIZE + k) mod PGSIZE = k) as [E1 E2].
  { change PGSIZE with 4096 in *. Z.div_mod_to_equations. lia. }
  rewrite (byte_at_Some s' c _ f perm); [by rewrite E2|by rewrite E1].
Qed.
Lemma page_word s' c f perm k v : entry s' c STACK = Some (f, perm) → 0 ≤ k → k + 8 ≤ PGSIZE →
  wordm (phys s') (f * PGSIZE + k) v → word_at s' c (STACKBASE + k) v.
Proof.
  intros He Hk Hk8 Hw i Hi. rewrite <-(Hw i Hi), <-!Z.add_assoc. apply (page_byte _ _ _ perm); [done|lia].
Qed.
Lemma page_str s' c f perm k l : entry s' c STACK = Some (f, perm) → 0 ≤ k → k + Z.of_nat (length l) + 1 ≤ PGSIZE →
  strm (phys s') (f * PGSIZE + k) l → str_at s' c (STACKBASE + k) l.
Proof.
  intros He Hk Hl Hs i b Hi. apply lookup_lt_Some in Hi as Hlt. rewrite length_app in Hlt. simpl in Hlt.
  rewrite <-(Hs i b Hi), <-!Z.add_assoc. apply (page_byte _ _ _ perm); [done|lia].
Qed.

Lemma total_take L j l : L !! j = Some l → total (take j L) + Z.of_nat (length l) + 1 ≤ total L.
Proof.
  revert j. induction L as [|l0 L IH]; intros [|j] H; simplify_eq/=; [pose proof (total_nonneg L); lia|].
  specialize (IH j H). lia.
Qed.

(** The page as the child finds it. *)
Record stack_page (ph : bytes) (f : Z) (L : list (list Z)) : Prop := {
  sg_argc : wordm ph (f * PGSIZE + stack_room L) (Z.of_nat (length L));
  sg_argv : wordm ph (f * PGSIZE + (stack_room L + 8)) (STACKBASE + (stack_room L + 16));
  sg_arg j l : L !! j = Some l →
    wordm ph (f * PGSIZE + (stack_room L + 16 + 8 * Z.of_nat j)) (STACKBASE + (PGSIZE - total L + total (take j L))) ∧
    strm ph (f * PGSIZE + (PGSIZE - total L + total (take j L))) l;
  sg_end : wordm ph (f * PGSIZE + (stack_room L + 16 + 8 * Z.of_nat (length L))) 0
}.

Lemma stack_page_argv s' c f perm L :
  entry s' c STACK = Some (f, perm) → stack_page (phys s') f L → 0 ≤ stack_room L →
  stack_room L + 16 + 8 * (Z.of_nat (length L) + 1) ≤ PGSIZE - total L →
  (∀ l, l ∈ L → Forall (λ c, 0 < c < 256) l) →
  let sp := STACKBASE + stack_room L in
  word_at s' c sp (Z.of_nat (length L)) ∧ word_at s' c (sp + 8) (sp + 16) ∧ argv_at s' c (sp + 16) L.
Proof.
  intros He [P1 P2 P3 P4] Hr Hfit Hch sp. pose proof (total_nonneg L). unfold sp. rewrite <-!Z.add_assoc.
  split_and!; [apply (page_word _ _ f perm); [done|lia..|done]|apply (page_word _ _ f perm); [done|lia..|done]|].
  split.
  - change STACKBASE with 0xfffffcffeffff000. change PGSIZE with 4096 in *. lia.
  - intros j l Hj. destruct (P3 j l Hj) as [W T]. pose proof (total_take L j l Hj). pose proof (total_nonneg (take j L)).
    apply lookup_lt_Some in Hj as Hlt.
    exists (STACKBASE + (PGSIZE - total L + total (take j L))). split_and!.
    + change STACKBASE with 0xfffffcffeffff000. change PGSIZE with 4096 in *. lia.
    + change STACKBASE with 0xfffffcffeffff000. change PGSIZE with 4096 in *. lia.
    + rewrite <-Z.add_assoc. apply (page_word _ _ f perm); [done|lia|lia|done].
    + apply (page_str _ _ f perm); [done|lia|lia|done].
    + apply Hch. by eapply list_elem_of_lookup_2.
  - rewrite <-Z.add_assoc. apply (page_word _ _ f perm); [done|lia|lia|done].
Qed.

(** From the allocated page to the finished one. *)
Lemma fill_page (pick : vm → Z) e s s1 f L fuel argv (k : V (Z * Z)) :
  entry s1 e TEMP = Some (f, PERM_STACK) → same_but f (phys s) (phys s1) →
  (∀ ph, same_but f (phys s) ph → ∀ va b, byte_at s e va = Some b → byte_at (set_phys ph s1) e va = Some b) →
  argv_at s e argv L → 0 ≤ stack_room L → stack_room L + 16 + 8 * (Z.of_nat (length L) + 1) ≤ PGSIZE - total L →
  total L < Z.of_nat fuel →
  ∃ ph, same_but f (phys s) ph ∧ stack_page ph f L ∧
    (string_store <- store_args pick e (length L) fuel argv (UTEMP + (stack_room L + 16)) 0 (UTEMP + (PGSIZE - total L)) ;;
     st64v pick e (u64 (UTEMP + (stack_room L + 16) + 8 * Z.of_nat (length L))) 0 ;;;
     assert_ (string_store =? UTEMP + PGSIZE) ;;;
     st64v pick e (u64 (UTEMP + (stack_room L + 16) - 8)) (UTEMP2USTACK (UTEMP + (stack_room L + 16))) ;;;
     st64v pick e (u64 (UTEMP + (stack_room L + 16) - 16)) (Z.of_nat (length L)) ;;; k) s1 = k (set_phys ph s1).
Proof.
  intros He Hs Hkeep Ha Hr Hfit Hf. pose proof (total_nonneg L) as Ht.
  destruct (store_args_run pick e TEMP f PERM_STACK s s1 He eq_refl ltac:(done) Hkeep L fuel argv 0
    (stack_room L + 16) (PGSIZE - total L) (phys s1)) as (ph1 & E1 & Hs1 & Hj1 & Ho1);
    [apply Ha|lia|apply Ha|lia|lia|lia|lia|by apply argv_args_from|done|].
  change (TEMP * PGSIZE) with UTEMP in *. replace (set_phys (phys s1) s1) with s1 in E1 by (by destruct s1).
  replace (PGSIZE - total L + total L) with PGSIZE in E1 by lia. step_with E1.
  assert (∀ v ph x, 0 ≤ x → x + 8 ≤ PGSIZE → st64v pick e (u64 (UTEMP + x)) v (set_phys ph s1) =
    Ret tt (set_phys (put ph (f * PGSIZE + x) (word_bytes v)) s1)) as Est.
  { intros v ph x H1 H2. rewrite u64_small by (unfold is_u64; change UTEMP with 0x400000; change PGSIZE with 4096 in *; lia).
    by apply (st64v_page pick e TEMP f PERM_STACK s1 He eq_refl). }
  replace (UTEMP + (stack_room L + 16) + 8 * Z.of_nat (length L)) with (UTEMP + (stack_room L + 16 + 8 * Z.of_nat (length L))) by lia.
  replace (UTEMP + (stack_room L + 16) - 8) with (UTEMP + (stack_room L + 8)) by lia.
  replace (UTEMP + (stack_room L + 16) - 16) with (UTEMP + stack_room L) by lia.
  step_with (Est 0 ph1 (stack_room L + 16 + 8 * Z.of_nat (length L)) ltac:(lia) ltac:(lia)). set (ph2 := put ph1 _ _).
  rewrite Z.eqb_refl. step_with (eq_refl : assert_ true (set_phys ph2 s1) = Ret tt (set_phys ph2 s1)).
  rewrite utemp_ustack by lia.
  step_with (Est (STACKBASE + (stack_room L + 16)) ph2 (stack_room L + 8) ltac:(lia) ltac:(lia)). set (ph3 := put ph2 _ _).
  step_with (Est (Z.of_nat (length L)) ph3 (stack_room L) ltac:(lia) ltac:(lia)). set (ph4 := put ph3 _ _).
  assert (∀ x, stack_room L + 16 ≤ x - f * PGSIZE → ¬ (stack_room L + 16 + 8 * Z.of_nat (length L) ≤ x - f * PGSIZE < stack_room L + 16 + 8 * Z.of_nat (length L) + 8) →
    rdb ph4 x = rdb ph1 x) as Hx.
  { intros x H1 H2. unfold ph4, ph3, ph2. rewrite !rdb_put_out; [done|cbn; lia..]. }
  exists ph4. split; [|split; [|done]].
  - repeat (apply same_but_put; [|lia|cbn; lia]). done.
  - split.
    + apply wordm_put.
    + apply (wordm_ext ph3); [|apply wordm_put]. intros x ?. apply rdb_put_out. cbn. lia.
    + intros j l Hj. apply lookup_lt_Some in Hj as Hlt. destruct (Hj1 j l Hj) as [W T].
      pose proof (total_take L j l Hj). pose proof (total_nonneg (take j L)).
      rewrite utemp_ustack in W by lia. rewrite Z.add_0_l in W.
      split; [apply (wordm_ext ph1)|apply (strm_ext ph1)]; try done; intros x ?; apply Hx; lia.
    + apply (wordm_ext ph2); [|apply wordm_put]. intros x ?. unfold ph4, ph3. rewrite !rdb_put_out; [done|cbn; lia..].
Qed.

(** The page at UTEMP given to the child. *)
Lemma give_temp e child s f p0 va perm :
  has_space s child → child ≠ e → entry s e TEMP = Some (f, p0) → bad_va va = false →
  writable perm && negb (writable p0) = false → Z.of_nat (length (missing child (va / PGSIZE) s)) ≤ kfree s →
  ∃ s3 s4, sys_page_map e UTEMP child va perm s = Ret 0 s3 ∧ sys_page_unmap e UTEMP s3 = Ret 0 s4 ∧
    (∀ e' n', entry s4 e' n' = if decide (e' = child ∧ n' = va / PGSIZE) then Some (f, perm)
       else if decide (e' = e ∧ n' = TEMP) then None else entry s e' n') ∧
    phys s4 = phys s ∧ (∀ x, has_space s x → has_space s4 x) ∧
    kfree s - Z.of_nat (length (missing child (va / PGSIZE) s)) ≤ kfree s4.
Proof.
  intros Hc Hne He Hva Hw Hk. pose proof (entry_space _ _ _ _ He) as Hp.
  destruct (insert_enough child (va / PGSIZE) f perm s Hk) as (k & Ei & Hk1 & _).
  set (s2 := set_kern k _ s) in Ei. set (s3 := map_page child (va / PGSIZE) f perm s2).
  assert (has_space s3 e) as Hs3 by (by apply has_space_map).
  destruct (unmap_run s3 e TEMP Hs3 ltac:(done) ltac:(done)) as (k' & T' & Eu & Hk2). change (TEMP * PGSIZE) with UTEMP in Eu.
  exists s3, (unmap_page e TEMP (set_kern k' T' s3)). split_and!.
  - destruct Hc as [tc Ec], Hp as [tp Ep]. unfold sys_page_map. rewrite Ep, Ec, Hva.
    change (bad_va UTEMP || false) with false. cbv iota. change (UTEMP / PGSIZE) with TEMP. rewrite He, Hw. cbv iota. by rewrite Ei.
  - exact Eu.
  - intros e' n'. rewrite entry_unmap. change (entry (set_kern k' T' s3)) with (entry s3). unfold s3. rewrite entry_map by done.
    change (entry s2) with (entry s). repeat case_decide; done || naive_solver.
  - rewrite phys_unmap, phys_kern. unfold s3. by rewrite phys_map.
  - intros x Hx. by apply has_space_unmap, (has_space_map s2).
  - rewrite kfree_unmap. unfold s3 in Hk2. rewrite kfree_map in Hk2. cbn in *. lia.
Qed.
Lemma give_temp_short e child s f p0 va perm :
  has_space s child → entry s e TEMP = Some (f, p0) → bad_va va = false →
  writable perm && negb (writable p0) = false → kfree s < Z.of_nat (length (missing child (va / PGSIZE) s)) →
  ∃ s3 s4, sys_page_map e UTEMP child va perm s = Ret (- E_NO_MEM) s3 ∧ sys_page_unmap e UTEMP s3 = Ret 0 s4 ∧
    (∀ e' n', entry s4 e' n' = if decide (e' = e ∧ n' = TEMP) then None else entry s e' n') ∧
    phys s4 = phys s.
Proof.
  intros [tc Ec] He Hva Hw Hk. pose proof (entry_space _ _ _ _ He) as Hp.
  destruct (insert_short child (va / PGSIZE) f perm s Hk) as (k & T & Ei).
  destruct (unmap_run (set_kern k T s) e TEMP Hp ltac:(done) ltac:(done)) as (k' & T' & Eu & _). change (TEMP * PGSIZE) with UTEMP in Eu.
  eexists _, _. split; [|split; [exact Eu|split]].
  - destruct Hp as [tp Ep]. unfold sys_page_map. rewrite Ep, Ec, Hva.
    change (bad_va UTEMP || false) with false. cbv iota. change (UTEMP / PGSIZE) with TEMP. rewrite He, Hw. cbv iota. by rewrite Ei.
  - intros e' n'. by rewrite entry_unmap.
  - by rewrite phys_unmap.
Qed.

(** The arguments copied into a page at UTEMP, up to the mapping into the child. *)
Lemma init_stack_head pick e child s argv L fuel :
  has_space s e → entry s e TEMP = None → argv_at s e argv L → total L + 8 * Z.of_nat (length L) + 32 ≤ UTEMP →
  total L + Z.of_nat (length L) < Z.of_nat fuel → (∀ e n perm, entry s e n ≠ Some (pick s, perm)) →
  0 ≤ stack_room L → 0 < kfree s → Z.of_nat (length (missing e TEMP s)) ≤ kfree s - 1 →
  ∃ s2, init_stack pick e fuel child argv s =
    (let sp := STACKBASE + stack_room L in
     r <- sys_page_map e UTEMP child (USTACKTOP - PGSIZE) PERM_STACK ;;
     if r <? 0 then sys_page_unmap e UTEMP ;;; ret (r, sp) else
     r <- sys_page_unmap e UTEMP ;;
     if r <? 0 then sys_page_unmap e UTEMP ;;; ret (r, sp) else ret (0, sp)) s2 ∧
    same_but (pick s) (phys s) (phys s2) ∧ stack_page (phys s2) (pick s) L ∧ (∀ x, has_space s x → has_space s2 x) ∧
    kfree s2 = kfree s - 1 - Z.of_nat (length (missing e TEMP s)) ∧ ktabs s2 = list_to_set (missing e TEMP s) ∪ ktabs s ∧
    ∀ e' n', entry s2 e' n' = if decide (e' = e ∧ n' = TEMP) then Some (pick s, PERM_STACK) else entry s e' n'.
Proof.
  intros Hspace Htemp Hargv Hsize Hfuel Hfresh Hr Hk Hm.
  destruct (stack_pointers L Hsize) as (Ess & Eav & Esp & Hfit). cbv zeta in Ess, Eav, Esp. pose proof (total_nonneg L) as Ht.
  assert (count_args e fuel argv 0 0 s = Ret (Z.of_nat (length L), total L) s) as Ec.
  { rewrite (count_args_run fuel s e argv L 0 0); [done|apply Hargv|lia|apply Hargv|lia|..|by apply argv_args_from];
      change UTEMP with 0x400000 in Hsize; lia. }
  destruct (alloc_temp pick e s Hspace Htemp Hk Hm Hfresh) as (s1 & Ea & He1 & Hsame & Hsp1 & Hk1 & Ht1 & Hkeep).
  destruct (fill_page pick e s s1 (pick s) L fuel argv
    (r <- sys_page_map e UTEMP child (USTACKTOP - PGSIZE) PERM_STACK ;;
     if r <? 0 then sys_page_unmap e UTEMP ;;; ret (r, UTEMP2USTACK (UTEMP + stack_room L)) else
     r <- sys_page_unmap e UTEMP ;;
     if r <? 0 then sys_page_unmap e UTEMP ;;; ret (r, UTEMP2USTACK (UTEMP + stack_room L))
     else ret (0, UTEMP2USTACK (UTEMP + stack_room L)))) as (ph & Hph & Hpage & E); try done; [by rewrite He1, decide_True|lia|].
  exists (set_phys ph s1). split_and!; try done.
  unfold init_stack. step_with Ec. rewrite Esp, Eav, Ess, Nat2Z.id. destruct (Z.ltb_spec (UTEMP + stack_room L) UTEMP); [lia|].
  step_with Ea. change (0 <? 0) with false. cbv iota. cbv zeta in E |- *. rewrite Eav in Esp. rewrite Esp in E.
  rewrite E. by rewrite utemp_ustack by lia.
Qed.

(** C19  [init_stack] (lib/riscv/spawn.c) hands the argument vector over.  For a
    parent whose [argv] holds the strings [L], it returns [-E_NO_MEM] and changes
    nothing when the strings, the vector and the two words do not fit in a page.
    Otherwise it depends on the pages the kernel has.  With none, [sys_page_alloc]
    works on a null page, which C does not define.  With too few for the page tables
    that UTEMP and the child's stack page lack, the result is [-E_NO_MEM], every
    mapping is as before, and of the memory only the page that was taken and given
    back has changed.  With enough, it returns 0 and a stack pointer, 8-aligned and
    inside the child's stack page, at which the child finds [argc], behind it the
    address of a vector, valid in the child, that holds the same strings; only the
    child's stack page is mapped anew, UTEMP is left unmapped, and no other frame is
    touched. *)
Theorem init_stack_correct (pick : vm → Z) (e child : Z) (s : vm) (argv : Z) (L : list (list Z)) (fuel : nat)
    (Hspace : has_space s e) (Hchild : has_space s child) (Hne : child ≠ e)
    (Htemp : entry s e TEMP = None) (Hargv : argv_at s e argv L)
    (Hsize : total L + 8 * Z.of_nat (length L) + 32 ≤ UTEMP)
    (Hfuel : total L + Z.of_nat (length L) < Z.of_nat fuel)
    (Hfresh : ∀ e n perm, entry s e n ≠ Some (pick s, perm)) :
  if bool_decide (0 ≤ stack_room L) then
    if bool_decide (kfree s ≤ 0) then init_stack pick e fuel child argv s = Undef
    else if bool_decide (kfree s - 1 < Z.of_nat (length (missing e TEMP s) + length (missing child STACK s))) then
      ∃ sp s', init_stack pick e fuel child argv s = Ret (- E_NO_MEM, sp) s' ∧
        (∀ e' n', entry s' e' n' = entry s e' n') ∧ same_but (pick s) (phys s) (phys s')
    else
      ∃ sp s', init_stack pick e fuel child argv s = Ret (0, sp) s' ∧
        STACKBASE ≤ sp < USTACKTOP ∧ sp mod 8 = 0 ∧
        word_at s' child sp (Z.of_nat (length L)) ∧ word_at s' child (sp + 8) (sp + 16) ∧
        argv_at s' child (sp + 16) L ∧
        (∀ e' n', entry s' e' n' =
           if decide (e' = child ∧ n' = STACK) then Some (pick s, PERM_STACK) else entry s e' n') ∧
        same_but (pick s) (phys s) (phys s')
  else init_stack pick e fuel child argv s = Ret (- E_NO_MEM, 0) s.
Proof.
  destruct (stack_pointers L Hsize) as (Ess & Eav & Esp & Hfit). cbv zeta in Ess, Eav, Esp. pose proof (total_nonneg L) as Ht.
  assert (count_args e fuel argv 0 0 s = Ret (Z.of_nat (length L), total L) s) as Ec.
  { rewrite (count_args_run fuel s e argv L 0 0); [done|apply Hargv|lia|apply Hargv|lia|..|by apply argv_args_from];
      change UTEMP with 0x400000 in Hsize; lia. }
  case_bool_decide as Hr.
  2:{ unfold init_stack. step_with Ec. rewrite Esp. destruct (Z.ltb_spec (UTEMP + stack_room L) UTEMP); [done|lia]. }
  case_bool_decide as Hk.
  { unfold init_stack. step_with Ec. rewrite Esp. destruct (Z.ltb_spec (UTEMP + stack_room L) UTEMP); [lia|].
    destruct Hspace as [t Et]. unfold sys_page_alloc, bind at 1. rewrite Et. change (bad_va UTEMP) with false.
    change (negb _) with false. by rewrite (proj2 (Z.leb_le _ _)). }
  destruct (decide (kfree s - 1 < Z.of_nat (length (missing e TEMP s)))) as [Hm|Hm].
  { rewrite bool_decide_true by lia. destruct (alloc_short pick e s Hspace ltac:(lia) Hm) as (s' & Ea & Hs & _ & Hb).
    exists 0, s'. split_and!; [|intros; unfold entry; by rewrite Hs|done].
    unfold init_stack. step_with Ec. rewrite Esp. destruct (Z.ltb_spec (UTEMP + stack_room L) UTEMP); [lia|]. by step_with Ea. }
  destruct (init_stack_head pick e child s argv L fuel) as (s2 & -> & Hsame & Hpage & Hsp2 & Hk2 & Ht2 & He2); try done; [lia|lia|].
  cbv zeta. pose proof (missing_other e TEMP child STACK s s2 ltac:(done) Ht2) as Em.
  assert (entry s2 e TEMP = Some (pick s, PERM_STACK)) as Htmp by (by rewrite He2, decide_True).
  case_bool_decide as Hc; exists (STACKBASE + stack_room L).
  - destruct (give_temp_short e child s2 (pick s) PERM_STACK (USTACKTOP - PGSIZE) PERM_STACK) as (s3 & s4 & E3 & E4 & He4 & Hph);
      [by apply Hsp2|done|done|done|change ((USTACKTOP - PGSIZE) / PGSIZE) with STACK; rewrite Em; lia|].
    exists s4. split_and!; [step_with E3; change (- E_NO_MEM <? 0) with true; cbv iota; step_with E4; done| |by rewrite Hph].
    intros e' n'. rewrite He4, He2. repeat case_decide; naive_solver.
  - destruct (give_temp e child s2 (pick s) PERM_STACK (USTACKTOP - PGSIZE) PERM_STACK) as (s3 & s4 & E3 & E4 & He4 & Hph & _);
      [by apply Hsp2|done|done|done|done|change ((USTACKTOP - PGSIZE) / PGSIZE) with STACK; rewrite Em; lia|].
    change ((USTACKTOP - PGSIZE) / PGSIZE) with STACK in He4.
    destruct (stack_page_argv s4 child (pick s) PERM_STACK L) as (W1 & W2 & W3);
      [by rewrite He4, decide_True|by rewrite Hph|done|done| |].
    { intros l (i & Hi)%list_elem_of_lookup_1. by destruct (av_arg _ _ _ _ Hargv i l Hi) as (p & _ & _ & _ & ?). }
    exists s4. split_and!; try done; [step_with E3; no_error; step_with E4; done| | | | |by rewrite Hph].
    + change STACKBASE with 0xfffffcffeffff000. lia.
    + change USTACKTOP with (STACKBASE + PGSIZE). lia.
    + unfold stack_room. change STACKBASE with (0x1fffff9ffdfffe00 * 8). rewrite Z.add_comm, Z.mod_add by lia.
      Z.div_mod_to_equations. lia.
    + intros e' n'. rewrite He4, He2. repeat case_decide; done || naive_solver.
Qed.

(** A parent with the vector of one argument, "ls". *)
Definition ex_parent : vm :=
  mkVm {[ 5 * 4096 + 0 := 0x40; 5 * 4096 + 2 := 0x80; 5 * 4096 + 0x40 := 108; 5 * 4096 + 0x41 := 115 ]}
    {[ 1 := {[ 0x800 := (5, PERM_ALL) ]}; 2 := ∅ ]} ∅ 20 ∅.
Definition ex_pick : vm → Z := λ _, 7.

Lemma ex_argv : argv_at ex_parent 1 0x800000 [[108; 115]].
Proof.
  split; [simpl; lia| |].
  - intros [|i] l H; simplify_eq/=. exists 0x800040. split_and!; [lia|lia| | |repeat constructor; lia].
    + intros k Hk. do 8 (destruct k as [|k]; [by vm_compute|]). lia.
    + intros k c Hk. do 3 (destruct k as [|k]; [simplify_eq/=; by vm_compute|]). discriminate Hk.
  - intros k Hk. do 8 (destruct k as [|k]; [by vm_compute|]). lia.
Qed.

Lemma ex_parent_entry e n f perm : entry ex_parent e n = Some (f, perm) → f = 5.
Proof.
  unfold entry, ex_parent. cbn [spaces]. intros H.
  destruct (decide (e = 1)) as [->|]; [|destruct (decide (e = 2)) as [->|]].
  - rewrite lookup_insert_eq in H. cbn in H. by apply lookup_singleton_Some in H as [_ [= <- _]].
  - by rewrite lookup_insert_ne, lookup_singleton_eq in H by done.
  - by rewrite lookup_insert_ne, lookup_singleton_ne in H by done.
Qed.

Lemma init_stack_correct_witness :
  ∃ sp s', init_stack ex_pick 1 100 2 0x800000 ex_parent = Ret (0, sp) s' ∧ argv_at s' 2 (sp + 16) [[108; 115]].
Proof.
  pose proof (init_stack_correct ex_pick 1 2 ex_parent 0x800000 [[108; 115]] 100) as T.
  rewrite bool_decide_true in T by (by vm_compute). rewrite !bool_decide_false in T by (by vm_compute).
  destruct T as (sp & s' & E & _ & _ & _ & _ & A & _).
  - by eexists.
  - by eexists.
  - done.
  - done.
  - exact ex_argv.
  - by vm_compute.
  - simpl; lia.
  - intros e n perm Hf. by apply ex_parent_entry in Hf.
  - exists sp, s'. exact (conj E A).
Defined.

(** ** Loading a segment

    What [map_segment] needs of a descriptor: seeking and reading put the bytes [F]
    of a file into a page, touching no other page but those of the frames [W], which
    belong to the descriptor layer and the file server; [R] says that the descriptor
    is ready, and is not disturbed by mappings of UTEMP and of the child. *)

Class Loader {X : Type} (e child fd : Z) (seek : Z → Z → U (X := X) Z) (readn : Z → Z → Z → U (X := X) Z)
    (F : Z → Z) (size : Z) (W : Z → Prop) (R : ust (X := X) → Prop) : Prop := {
  ld_load s off n f p : R s → entry (uvm s) e TEMP = Some (f, p) → writable p = true → ¬ W f →
    0 ≤ off → 0 < n ≤ PGSIZE → off + n ≤ size →
    ∃ s1 s2, seek fd off s = Ret 0 s1 ∧ readn fd UTEMP n s1 = Ret n s2 ∧ R s2 ∧ uvm s2 = set_phys (phys (uvm s2)) (uvm s) ∧
      (∀ k, 0 ≤ k < n → rdb (phys (uvm s2)) (f * PGSIZE + k) = F (off + k)) ∧
      (∀ g k, 0 ≤ k < PGSIZE → ¬ W g → (g = f → n ≤ k) →
         rdb (phys (uvm s2)) (g * PGSIZE + k) = rdb (phys (uvm s)) (g * PGSIZE + k));
  ld_stable s v : R s → bytes_ok (phys v) →
    (∀ x n, ¬ (x = e ∧ n = TEMP) → x ≠ child → entry v x n = entry (uvm s) x n) →
    (∀ g k, W g → 0 ≤ k < PGSIZE → rdb (phys v) (g * PGSIZE + k) = rdb (phys (uvm s)) (g * PGSIZE + k)) →
    R (set_uvm v s);
  ld_bytes s : R s → bytes_ok (phys (uvm s));
  ld_frames s g : R s → W g → ∃ x n p, entry (uvm s) x n = Some (g, p)
}.

Lemma byte_place s e n k f p : entry s e n = Some (f, p) → 0 ≤ k < PGSIZE →
  byte_at s e (n * PGSIZE + k) = Some (rdb (phys s) (f * PGSIZE + k)).
Proof.
  intros He Hk. assert ((n * PGSIZE + k) / PGSIZE = n ∧ (n * PGSIZE + k) mod PGSIZE = k) as [E1 E2].
  { change PGSIZE with 4096 in *. Z.div_mod_to_equations. lia. }
  rewrite (byte_at_Some s e _ f p); [by rewrite E2|by rewrite E1].
Qed.

Section segment.
Context {X : Type} (pick : vm → Z) (e child fd : Z).
Context (seek : Z → Z → U (X := X) Z) (readn : Z → Z → Z → U (X := X) Z).
Context (F : Z → Z) (size : Z) (W : Z → Prop) (R : ust (X := X) → Prop).
Context `{!Loader e child fd seek readn F size W R}.
Context (pick_fresh : ∀ s, 0 < kfree s → ∀ e n perm, entry s e n ≠ Some (pick s, perm)).
Context (Hne : child ≠ e).
(** The segment starts at page [n0] of the child and at [off] of the file. *)
Context (n0 memsz filesz off perm : Z).
Context (Hn0 : 0 ≤ n0) (Hmem : 0 ≤ memsz) (Hmax : memsz + PGSIZE < 2 ^ 31) (Htop : n0 * PGSIZE + memsz ≤ UTOP).
Context (Hfile : 0 ≤ filesz) (Hoff : 0 ≤ off) (Hsize : off + filesz ≤ size) (Hsz : size < 2 ^ 31).
Context (Hperm : (Z.land perm (Z.lnot PTE_SYSCALL) =? 0) = true).

(** The byte at offset [x] of the segment. *)
Definition seg_byte (x : Z) : Z := if x <? filesz then F (off + x) else 0.

(** [j] pages are in place; [s0] is the state before the first. *)
Record loaded (s0 s : ust (X := X)) (j : Z) : Prop := {
  lo_ready : R s;
  lo_temp : entry (uvm s) e TEMP = None;
  lo_space : has_space (uvm s) child ∧ has_space (uvm s) e;
  lo_page i : 0 ≤ i < j → ∃ f, entry (uvm s) child (n0 + i) = Some (f, perm) ∧ ¬ W f ∧
    ∀ k, 0 ≤ k < PGSIZE → rdb (phys (uvm s)) (f * PGSIZE + k) = seg_byte (i * PGSIZE + k);
  lo_rest x n : ¬ (x = child ∧ n0 ≤ n < n0 + j) → entry (uvm s) x n = entry (uvm s0) x n;
  lo_keep x n g p k : x ≠ child → entry (uvm s0) x n = Some (g, p) → ¬ W g → 0 ≤ k < PGSIZE →
    rdb (phys (uvm s)) (g * PGSIZE + k) = rdb (phys (uvm s0)) (g * PGSIZE + k)
}.

(** A fresh page, zeroed, for environment [x]. *)
Lemma fresh_page s0 s j x n p :
  loaded s0 s j → has_space (uvm s) x → 0 ≤ n → n * PGSIZE < UTOP → (Z.land p (Z.lnot PTE_SYSCALL) =? 0) = true →
  4 ≤ kfree (uvm s) →
  ∃ f v, vmop (sys_page_alloc pick x (n * PGSIZE) p) s = Ret 0 (set_uvm v s) ∧
    (∀ e n perm, entry (uvm s) e n ≠ Some (f, perm)) ∧ ¬ W f ∧
    (∀ x' n', entry v x' n' = if decide (x' = x ∧ n' = n) then Some (f, p) else entry (uvm s) x' n') ∧
    (∀ y, has_space (uvm s) y → has_space v y) ∧ bytes_ok (phys v) ∧ kfree (uvm s) - 4 ≤ kfree v ∧
    (∀ k, 0 ≤ k < PGSIZE → rdb (phys v) (f * PGSIZE + k) = 0) ∧
    ∀ g k, g ≠ f → 0 ≤ k < PGSIZE → rdb (phys v) (g * PGSIZE + k) = rdb (phys (uvm s)) (g * PGSIZE + k).
Proof.
  intros Lo Ht Hn Hu Hp Hk.
  destruct (alloc_run pick pick_fresh (uvm s) x n p Ht Hn Hu Hp (ld_bytes s (lo_ready _ _ _ Lo)) Hk)
    as (f & v & k0 & T & E & Hfr & Ev & Hk0 & Hb & Hm).
  exists f, v. split_and!; [by apply vmop_Ret|exact Hfr| | | |done|by rewrite Ev, kfree_map| |].
  - intros Hw. destruct (ld_frames s f (lo_ready _ _ _ Lo) Hw) as (x' & n' & p' & E'). by apply Hfr in E'.
  - intros x' n'. rewrite Ev, entry_map by done. done.
  - intros y Hy. rewrite Ev. by apply (has_space_map (set_kern k0 T (set_phys (phys v) (uvm s)))).
  - intros k Hk'. rewrite Hm, decide_True; [done|]. unfold PGSIZE in *. lia.
  - intros g k Hg Hk'. rewrite Hm, decide_False; [done|]. unfold PGSIZE in *. lia.
Qed.

(** One more page. *)
Lemma loaded_add s0 s s' j f :
  loaded s0 s j → 0 ≤ j → R s' → ¬ W f → (∀ e n perm, entry (uvm s) e n ≠ Some (f, perm)) →
  (∀ x n, entry (uvm s') x n = if decide (x = child ∧ n = n0 + j) then Some (f, perm) else entry (uvm s) x n) →
  (∀ y, has_space (uvm s) y → has_space (uvm s') y) →
  (∀ k, 0 ≤ k < PGSIZE → rdb (phys (uvm s')) (f * PGSIZE + k) = seg_byte (j * PGSIZE + k)) →
  (∀ g k, g ≠ f → ¬ W g → 0 ≤ k < PGSIZE → rdb (phys (uvm s')) (g * PGSIZE + k) = rdb (phys (uvm s)) (g * PGSIZE + k)) →
  loaded s0 s' (j + 1).
Proof.
  intros [Lr Lt [Ls1 Ls2] Lp Lx Lk] Hj HR Hf Hfr He Hsp Hdat Hoth. split; [done| |by auto| | |].
  - rewrite He, decide_False; [done|]. intros [? _]. congruence.
  - intros i Hi. destruct (decide (i = j)) as [->|Hij].
    + exists f. by rewrite He, decide_True.
    + destruct (Lp i ltac:(lia)) as (g & Eg & Hg & Hd). exists g. rewrite He, decide_False by lia. split_and!; [done..|].
      intros k Hk. rewrite Hoth; [by apply Hd| |done|done]. intros ->. by apply Hfr in Eg.
  - intros x n Hx. rewrite He, decide_False by (intros [-> ->]; apply Hx; lia). apply Lx. intros [-> ?]. apply Hx. lia.
  - intros x n g p k Hx E Hg Hk. rewrite Hoth; [by apply (Lk x n g p)| |done|done].
    intros ->. rewrite <-Lx in E by (intros [? _]; done). by apply Hfr in E.
Qed.

Lemma blank_page s0 s j :
  loaded s0 s j → 0 ≤ j → j * PGSIZE < memsz → filesz ≤ j * PGSIZE → 7 ≤ kfree (uvm s) →
  ∃ s', vmop (sys_page_alloc pick child ((n0 + j) * PGSIZE) perm) s = Ret 0 s' ∧ loaded s0 s' (j + 1) ∧
    kfree (uvm s) - 7 ≤ kfree (uvm s').
Proof.
  intros Lo Hj Hlt Hge Hk7.
  destruct (fresh_page s0 s j child (n0 + j) perm Lo (proj1 (lo_space _ _ _ Lo))) as
    (f & v & E & Hfr & Hf & He & Hsp & Hb & Hk4 & Hz & Ho); [lia|lia|done|lia|].
  exists (set_uvm v s). split; [done|]. split; [|cbn [uvm set_uvm]; lia]. apply (loaded_add s0 s _ j f); try done.
  - apply ld_stable; [apply Lo|done| |].
    + intros x n _ Hx. rewrite He, decide_False; [done|]. by intros [-> _].
    + intros g k Hg Hk. apply Ho; [|done]. by intros ->.
  - intros k Hk. rewrite Hz by done. unfold seg_byte. destruct (Z.ltb_spec (j * PGSIZE + k) filesz); [lia|done].
  - intros g k Hg _ Hk. by apply Ho.
Qed.

Lemma file_page s0 s j :
  loaded s0 s j → 0 ≤ j → j * PGSIZE < memsz → j * PGSIZE < filesz → 7 ≤ kfree (uvm s) →
  ∃ s1 s2 s3 s4 s', vmop (sys_page_alloc pick e UTEMP PERM_STACK) s = Ret 0 s1 ∧
    seek fd (off + j * PGSIZE) s1 = Ret 0 s2 ∧
    readn fd UTEMP (Z.min PGSIZE (filesz - j * PGSIZE)) s2 = Ret (Z.min PGSIZE (filesz - j * PGSIZE)) s3 ∧
    vmop (sys_page_map e UTEMP child ((n0 + j) * PGSIZE) perm) s3 = Ret 0 s4 ∧
    vmop (sys_page_unmap e UTEMP) s4 = Ret 0 s' ∧ loaded s0 s' (j + 1) ∧ kfree (uvm s) - 7 ≤ kfree (uvm s').
Proof.
  intros Lo Hj Hlt Hge Hk7. set (n := Z.min PGSIZE (filesz - j * PGSIZE)).
  destruct (fresh_page s0 s j e TEMP PERM_STACK Lo (proj2 (lo_space _ _ _ Lo))) as
    (f & v & E & Hfr & Hf & He & Hsp & Hb & Hk4 & Hz & Ho); [done|done|done|lia|]. change (TEMP * PGSIZE) with UTEMP in E.
  assert (R (set_uvm v s)) as HR1.
  { apply ld_stable; [apply Lo|done| |].
    - intros x m Hx _. by rewrite He, decide_False.
    - intros g k Hg Hk. apply Ho; [|done]. by intros ->. }
  destruct (ld_load (set_uvm v s) (off + j * PGSIZE) n f PERM_STACK HR1) as (s2 & s3 & E2 & E3 & HR3 & Hsp3 & Hd3 & Ho3);
    [by cbn [uvm set_uvm]; rewrite He, decide_True|done|done|unfold PGSIZE in *; lia|unfold n, PGSIZE in *; lia|unfold n; lia|].
  assert (∀ x m, entry (uvm s3) x m = entry v x m) as He3 by (intros x m; unfold entry; by rewrite Hsp3).
  assert (kfree (uvm s3) = kfree v) as Hk3 by by rewrite Hsp3.
  pose proof (missing_le child ((n0 + j) * PGSIZE / PGSIZE) (uvm s3)) as Hm3.
  destruct (give_temp e child (uvm s3) f PERM_STACK ((n0 + j) * PGSIZE) perm) as (v3 & v4 & E4 & E5 & He4 & Hph & Hs4 & Hk5).
  { destruct (Hsp child (proj1 (lo_space _ _ _ Lo))) as [t Et]. exists t. by rewrite Hsp3. }
  { done. }
  { by rewrite He3, He, decide_True. }
  { apply good_va; lia. }
  { by rewrite andb_false_r. }
  { lia. }
  rewrite Z.div_mul in He4 by done.
  assert (∀ x m, entry v4 x m = if decide (x = child ∧ m = n0 + j) then Some (f, perm) else entry (uvm s) x m) as He'.
  { intros x m. rewrite He4, He3, He. pose proof (lo_temp _ _ _ Lo) as Et. repeat case_decide; try done; destruct_and?; subst; by rewrite ?Et. }
  exists (set_uvm v s), s2, s3, (set_uvm v3 s3), (set_uvm v4 (set_uvm v3 s3)).
  split_and!; [done|done|done|by apply vmop_Ret|by apply vmop_Ret| |cbn [uvm set_uvm]; lia].
  change (set_uvm v4 (set_uvm v3 s3)) with (set_uvm v4 s3). apply (loaded_add s0 s _ j f); try done.
  - apply ld_stable; [done|rewrite Hph; by apply (ld_bytes s3)| |].
    + intros x m Hx Hc. rewrite He', He3, He, !decide_False; [done|done|naive_solver].
    + intros g k Hg Hk. by rewrite Hph.
  - intros y Hy. apply Hs4. destruct (Hsp y Hy) as [t Et]. exists t. by rewrite Hsp3.
  - intros k Hk. cbn [uvm set_uvm]. rewrite Hph. unfold seg_byte. destruct (Z.ltb_spec (j * PGSIZE + k) filesz).
    + rewrite Hd3 by (unfold n; lia). f_equal. lia.
    + rewrite Ho3; [by apply Hz|done|done|]. unfold n. lia.
  - intros g k Hg Hw Hk. cbn [uvm set_uvm]. rewrite Hph, Ho3; [by apply Ho|done|done|done].
Qed.

Definition seg_pages : Z := (memsz + PGSIZE - 1) / PGSIZE.

Lemma seg_pages_lt j : 0 ≤ j → j * PGSIZE < memsz ↔ j < seg_pages.
Proof. intros Hj. unfold seg_pages. change PGSIZE with 4096. Z.div_mod_to_equations. lia. Qed.

Lemma segment_loop_run fuel s0 s j :
  loaded s0 s j → 0 ≤ j ≤ seg_pages → seg_pages - j < Z.of_nat fuel → 7 * (seg_pages - j) ≤ kfree (uvm s) →
  ∃ s', segment_loop pick e seek readn fuel child (n0 * PGSIZE) memsz fd filesz off perm (j * PGSIZE) s = Ret 0 s' ∧
    loaded s0 s' seg_pages.
Proof.
  revert s j. induction fuel as [|fuel IH]; intros s j Lo Hj Hf Hk; [lia|]. cbn [segment_loop].
  pose proof (seg_pages_lt j (proj1 Hj)) as Hjs.
  assert (j * PGSIZE ≤ memsz + PGSIZE) as Hjb.
  { unfold seg_pages in Hj. change PGSIZE with 4096 in *. Z.div_mod_to_equations. lia. }
  rewrite (u64_small (j * PGSIZE)) by (unfold is_u64; change PGSIZE with 4096 in *; lia).
  destruct (Z.ltb_spec (j * PGSIZE) memsz) as [Hlt|Hge].
  2:{ exists s. split; [done|]. by replace seg_pages with j by lia. }
  assert (n0 * PGSIZE + j * PGSIZE = (n0 + j) * PGSIZE) as Ev by lia.
  assert (UTOP < 2 ^ 64) as Hutop by (vm_compute; done).
  rewrite Ev, (u64_small ((n0 + j) * PGSIZE)) by (unfold is_u64; change PGSIZE with 4096 in *; lia).
  rewrite !(i32_small (j * PGSIZE + PGSIZE)) by (change PGSIZE with 4096 in *; lia).
  replace (j * PGSIZE + PGSIZE) with ((j + 1) * PGSIZE) by lia.
  assert (∀ s', loaded s0 s' (j + 1) → kfree (uvm s) - 7 ≤ kfree (uvm s') → ∃ s'', segment_loop pick e seek readn fuel child (n0 * PGSIZE) memsz fd filesz off perm
     ((j + 1) * PGSIZE) s' = Ret 0 s'' ∧ loaded s0 s'' seg_pages) as IH' by (intros s' Lo' Hk'; apply IH; [done|lia..]).
  destruct (Z.leb_spec filesz (j * PGSIZE)) as [Hfs|Hfs].
  - destruct (blank_page s0 s j Lo ltac:(lia) Hlt Hfs ltac:(lia)) as (s' & E & Lo' & Hk'). step_with E. no_error. by apply IH'.
  - destruct (file_page s0 s j Lo ltac:(lia) Hlt Hfs ltac:(lia)) as (s1 & s2 & s3 & s4 & s' & E1 & E2 & E3 & E4 & E5 & Lo' & Hk').
    step_with E1. no_error. rewrite i32_small by (change PGSIZE with 4096 in *; lia). step_with E2. no_error.
    rewrite u64_small by (unfold is_u64; change PGSIZE with 4096 in *; lia).
    step_with E3. destruct (Z.ltb_spec (Z.min PGSIZE (filesz - j * PGSIZE)) 0); [change PGSIZE with 4096 in *; lia|].
    step_with E4. no_error. step_with E5. by apply IH'.
Qed.
End segment.

(** [map_segment] loads a segment.  For a segment inside the
    user's address space whose file part lies within the file, at any alignment, it
    returns 0, and the child reads at every address of the segment the byte of the
    file that belongs there, and zero from the end of the file part on; all pages
    have the permissions asked for; the mappings of every other environment are as
    before, and so are the bytes in their pages but those of the frames [W]; the
    descriptor stays ready.  Seven pages of the kernel are enough for a page. *)
Lemma map_segment_run {X : Type} (pick : vm → Z) (e child fd : Z)
    (seek : Z → Z → U (X := X) Z) (readn : Z → Z → Z → U (X := X) Z)
    (F : Z → Z) (size : Z) (W : Z → Prop) (R : ust (X := X) → Prop)
    `{!Loader e child fd seek readn F size W R}
    (pick_fresh : ∀ s, 0 < kfree s → ∀ e n perm, entry s e n ≠ Some (pick s, perm)) (Hne : child ≠ e) (s : ust (X := X)) (va memsz filesz off perm : Z)
    (HR : R s) (Htemp : entry (uvm s) e TEMP = None) (Hc : has_space (uvm s) child) (He : has_space (uvm s) e)
    (Hva : 0 ≤ va) (Hmem : 0 ≤ memsz < 2 ^ 30) (Htop : va + memsz ≤ UTOP) (Hfs : 0 ≤ filesz ≤ memsz)
    (Hoff : va mod PGSIZE ≤ off) (Hsize : off + filesz ≤ size) (Hsz : size < 2 ^ 30)
    (Hperm : (Z.land perm (Z.lnot PTE_SYSCALL) =? 0) = true)
    (Hk : 7 * seg_pages (memsz + va mod PGSIZE) ≤ kfree (uvm s)) :
  ∃ s', map_segment pick e seek readn child va memsz fd filesz off perm s = Ret 0 s' ∧ R s' ∧
    (∀ x, va ≤ x < va + memsz → byte_at (uvm s') child x = Some (if x <? va + filesz then F (off + (x - va)) else 0)) ∧
    (∀ x, va ≤ x < va + memsz → ∃ f, entry (uvm s') child (x / PGSIZE) = Some (f, perm)) ∧
    (∀ x n, ¬ (x = child ∧ va / PGSIZE ≤ n < va / PGSIZE + seg_pages (memsz + va mod PGSIZE)) →
       entry (uvm s') x n = entry (uvm s) x n) ∧
    (∀ x n g p k, x ≠ child → entry (uvm s) x n = Some (g, p) → ¬ W g → 0 ≤ k < PGSIZE →
       rdb (phys (uvm s')) (g * PGSIZE + k) = rdb (phys (uvm s)) (g * PGSIZE + k)).
Proof.
  set (d := va mod PGSIZE). set (n0 := va / PGSIZE).
  assert (va = n0 * PGSIZE + d ∧ 0 ≤ d < PGSIZE) as [Eva Hd].
  { unfold n0, d. change PGSIZE with 4096. Z.div_mod_to_equations. lia. }
  assert (0 ≤ n0) by (unfold n0; change PGSIZE with 4096; Z.div_mod_to_equations; lia).
  assert (UTOP < 2 ^ 64) as Hutop by (vm_compute; done). change PGSIZE with 4096 in *.
  assert (map_segment pick e seek readn child va memsz fd filesz off perm s =
    segment_loop pick e seek readn (S (Z.to_nat ((memsz + d) / 4096 + 1))) child (n0 * 4096) (memsz + d) fd (filesz + d) (off - d) perm 0 s) as ->.
  { unfold map_segment, PGOFF. rewrite (land_ones_mod _ 12) by lia. change (2 ^ 12) with 4096. fold d.
    rewrite i32_small by lia. destruct (Z.eqb_spec d 0) as [E0|E0]; cbn [negb].
    - by rewrite E0 in *; rewrite !Z.add_0_r, Z.sub_0_r; rewrite Eva, Z.add_0_r.
    - rewrite !u64_small, i32_small by (unfold is_u64; lia). by replace (va - d) with (n0 * 4096) by lia. }
  assert (loaded e child F W R n0 (filesz + d) (off - d) perm s s 0) as L0.
  { split; try done. lia. }
  destruct (segment_loop_run pick e child fd seek readn F size W R pick_fresh Hne n0 (memsz + d) (filesz + d) (off - d) perm
    ltac:(done) ltac:(lia) ltac:(change PGSIZE with 4096; lia) ltac:(change PGSIZE with 4096; lia) ltac:(lia) ltac:(lia) ltac:(lia) ltac:(lia) Hperm (S (Z.to_nat ((memsz + d) / 4096 + 1))) s s 0 L0)
    as (s' & E & Lo).
  { unfold seg_pages. change PGSIZE with 4096. Z.div_mod_to_equations. lia. }
  { unfold seg_pages. change PGSIZE with 4096. Z.div_mod_to_equations. lia. }
  { by rewrite Z.sub_0_r. }
  assert (∀ x, va ≤ x < va + memsz → ∃ f, entry (uvm s') child (x / 4096) = Some (f, perm) ∧
    ∀ k, 0 ≤ k < 4096 → rdb (phys (uvm s')) (f * 4096 + k) = seg_byte F (filesz + d) (off - d) ((x / 4096 - n0) * 4096 + k)) as Hpg.
  { intros x Hx. destruct (lo_page _ _ _ _ _ _ _ _ _ _ _ _ Lo (x / 4096 - n0)) as (f & Ef & _ & Hf).
    - unfold seg_pages. change PGSIZE with 4096. Z.div_mod_to_equations. lia.
    - exists f. split; [|exact Hf]. rewrite <-Ef. f_equal. lia. }
  exists s'. split_and!; [done|apply Lo| | | |].
  - intros x Hx. destruct (Hpg x Hx) as (f & Ef & Hf). rewrite (byte_at_Some _ _ _ f perm Ef). f_equal.
    change PGSIZE with 4096. rewrite Hf by (apply Z.mod_pos_bound; lia). unfold seg_byte.
    replace ((x / 4096 - n0) * 4096 + x mod 4096) with (x - n0 * 4096) by (Z.div_mod_to_equations; lia).
    destruct (Z.ltb_spec (x - n0 * 4096) (filesz + d)), (Z.ltb_spec x (va + filesz)); try lia. f_equal. lia.
  - intros x Hx. destruct (Hpg x Hx) as (f & Ef & _). by exists f.
  - intros x n Hx. by apply (lo_rest _ _ _ _ _ _ _ _ _ _ _ _ Lo).
  - exact (lo_keep _ _ _ _ _ _ _ _ _ _ _ _ Lo).
Qed.

(** ** Errors of [spawn]

    When [init_stack] fails, [spawn] returns the error at once: the environment it
    created keeps its address space and the descriptor is not closed.  When a
    segment fails, the environment is destroyed and the descriptor closed. *)

Section errors.
Context {X : Type} (pick : vm → Z) (newenv : vm → option Z) (e : Z).
Context (seek : Z → Z → U (X := X) Z) (readn : Z → Z → Z → U (X := X) Z) (close : Z → U (X := X) Z) (open : Z → Z → U (X := X) Z).
Context (fuel : nat) (elf_buf prog argv fd child r sepc phoff phnum : Z) (s s1 s2 : ust (X := X)) (v3 : vm).
Context (Eopen : open prog O_RDONLY s = Ret fd s1) (Hfd : 0 ≤ fd).
Context (Eread : readn fd elf_buf 512 s1 = Ret 512 s2).
Context (Emagic : ld32v e (elf_buf + e_magic) (uvm s2) = Ret ELF_MAGIC (uvm s2)).
Context (Efork : exofork newenv e (uvm s2) = Ret child v3) (Hchild : 0 ≤ child).
Context (Esepc : ld64u e (elf_buf + e_entry) v3 = Ret sepc v3).

Lemma set_uvm_uvm (t : ust (X := X)) : set_uvm (uvm t) t = t.
Proof. by destruct t. Qed.

Lemma spawn_head :
  spawn pick newenv e seek readn close open fuel elf_buf prog argv s =
  (a <- vmop (init_stack pick e fuel child argv) ;;
   let '(r, t_sp) := a in
   if r <? 0 then ret (r, None) else
   phoff <- vmop (ld64u e (elf_buf + e_phoff)) ;;
   phnum <- vmop (ld16v e (elf_buf + e_phnum)) ;;
   r <- segments pick e seek readn (Z.to_nat phnum) child fd (elf_buf + phoff) ;;
   if r <? 0 then vmop (sys_env_destroy child) ;;; close fd ;;; ret (r, None) else
   close fd ;;;
   r <- vmop (copy_shared_pages e child) ;;
   if r <? 0 then panic else
   r <- vmop (sys_env_set_status child true) ;;
   if r <? 0 then panic else
   ret (child, Some (mkStart sepc t_sp))) (set_uvm v3 s2).
Proof.
  unfold spawn. step_with Eopen. destruct (Z.ltb_spec fd 0); [lia|]. step_with Eread.
  change (negb (512 =? 512)) with false. cbv iota.
  step_with (vmop_Ret _ s2 ELF_MAGIC (uvm s2) Emagic). rewrite set_uvm_uvm.
  change (false || negb (ELF_MAGIC =? ELF_MAGIC)) with false. cbv iota.
  step_with (vmop_Ret _ s2 child v3 Efork). destruct (Z.ltb_spec child 0); [lia|].
  step_with (vmop_Ret _ (set_uvm v3 s2) sepc v3 Esepc). done.
Qed.

Lemma spawn_stack_error t v4 : init_stack pick e fuel child argv v3 = Ret (r, t) v4 → r < 0 →
  spawn pick newenv e seek readn close open fuel elf_buf prog argv s = Ret (r, None) (set_uvm v4 s2).
Proof.
  intros E Hr. rewrite spawn_head. step_with (vmop_Ret _ (set_uvm v3 s2) _ v4 E).
  destruct (Z.ltb_spec r 0); [done|lia].
Qed.

Lemma destroy_gone c v : ∃ y v', sys_env_destroy c v = Ret y v' ∧ spaces v' !! c = None.
Proof.
  unfold sys_env_destroy. destruct (spaces v !! c) eqn:E; [|by eexists _, v].
  eexists _, _. split; [done|]. apply lookup_delete_eq.
Qed.
Lemma spawn_segment_error t v4 s5 v5 s6 x y :
  init_stack pick e fuel child argv v3 = Ret (0, t) v4 →
  ld64u e (elf_buf + e_phoff) v4 = Ret phoff v4 → ld16v e (elf_buf + e_phnum) v4 = Ret phnum v4 →
  segments pick e seek readn (Z.to_nat phnum) child fd (elf_buf + phoff) (set_uvm v4 s2) = Ret r s5 → r < 0 →
  sys_env_destroy child (uvm s5) = Ret y v5 → close fd (set_uvm v5 s5) = Ret x s6 →
  spawn pick newenv e seek readn close open fuel elf_buf prog argv s = Ret (r, None) s6.
Proof.
  intros E E1 E2 E3 Hr Ed Ec. rewrite spawn_head. step_with (vmop_Ret _ (set_uvm v3 s2) _ v4 E). no_error.
  step_with (vmop_Ret _ (set_uvm v4 (set_uvm v3 s2)) _ v4 E1). step_with (vmop_Ret _ (set_uvm v4 s2) _ v4 E2).
  step_with E3. destruct (Z.ltb_spec r 0); [|lia].
  step_with (vmop_Ret _ s5 y v5 Ed). by step_with Ec.
Qed.
End errors.
