(* ===== verification/Load.v ===== *)
(** * Programs loaded from the disk

    The file device of [File] as the loader [Spawn] needs it: a descriptor open on a
    file of the server is ready, and stays so while the parent maps pages for the
    child.  So [map_segment] puts the blocks of the program file on the disk into
    the child's address space, through the descriptor layer, the requests to the
    server and the server's file system. *)

From S2P Require Import Prelude Mmu Strings Words Fs FsInv FsRw Serv Fork Fd File Spawn.

(** ** Mappings counted *)

Lemma refs_two v x y n m g p q : x ≠ y →
  entry v x n = Some (g, p) → entry v y m = Some (g, q) → 2 ≤ refs v g.
Proof.
  intros Hxy Hx Hy. unfold entry in Hx, Hy.
  destruct (spaces v !! x) as [tx|] eqn:Ex; [|done]. destruct (spaces v !! y) as [ty|] eqn:Ey; [|done].
  cbn in Hx, Hy. unfold refs.
  assert (map_to_list (spaces v) ≡ₚ (x, tx) :: (y, ty) :: map_to_list (delete y (delete x (spaces v)))) as Hp.
  { rewrite <-(insert_delete_id (spaces v) x tx) at 1 by done. rewrite map_to_list_insert by apply lookup_delete_eq.
    f_equiv. rewrite <-(insert_delete_id (delete x (spaces v)) y ty) at 1 by (by rewrite lookup_delete_ne).
    by rewrite map_to_list_insert by apply lookup_delete_eq. }
  rewrite Hp. cbn [mbind list_bind snd]. rewrite !filter_app, !length_app.
  assert (∀ t k r, t !! k = Some (g, r) → (1 ≤ length (filter (λ f, f = g) (map_to_list (t : gmap Z (Z * Z))).*2.*1))%nat) as Hone.
  { intros t k r Hk. assert (g ∈ filter (λ f, f = g) (map_to_list t).*2.*1) as Hin.
    { apply list_elem_of_filter. split; [done|]. apply list_elem_of_fmap. exists (g, r). split; [done|].
      apply list_elem_of_fmap. exists (k, (g, r)). split; [done|]. by apply elem_of_map_to_list. }
    destruct (filter _ _); [by apply not_elem_of_nil in Hin|simpl; lia]. }
  pose proof (Hone tx n p Hx). pose proof (Hone ty m q Hy). lia.
Qed.

(** ** The descriptor of a program file *)

Section loader.
Context (pick : vm → Z) (e se child fsipcbuf : Z).
Context (devsock : Dev (X := sstate)) (devpipe_read devpipe_write : Z → Z → Z → U (X := sstate) Z).
Context (devpipe_stat : Z → Z → U (X := sstate) Z) (file_addr cons_addr pipe_addr : Z).
Notation with_devices f :=
  (f pick e (devfile pick e se fsipcbuf file_addr) devsock devpipe_read devpipe_write devpipe_stat cons_addr pipe_addr).
Implicit Types (s : ust (X := sstate)) (v : vm).

(** The first [size] bytes of the file at [f] are [F]. *)
Record contents (m : bytes) (f : Z) (F : Z → Z) (size : Z) : Prop := {
  ct_size : 0 ≤ size ≤ fsize m f;
  ct_max : size ≤ MAXFILESIZE;
  ct_disk : size ≤ BLKSIZE * bno m;
  ct_byte k : 0 ≤ k < size → ptr m f (k / BLKSIZE) ≠ 0 ∧ fbyte m f k = F k
}.

Lemma contents_disk (t : fsstate) m' f fb F size :
  fs_wf t → file_ok (fmem t) f fb → bytes_ok m' →
  (∀ x, DISKMAP ≤ x < FILEVA → rdb m' x = rdb (fmem t) x) → contents (fmem t) f F size → contents m' f F size.
Proof.
  intros Hw Hok Hb Hd [C1 C2 C3 C4].
  assert (∀ a, DISKMAP ≤ a < baddr (bno (fmem t)) → rdb m' a = rdb (fmem t) a) as Hm.
  { intros a Ha. apply Hd. pose proof (fw_size _ Hw) as [_ Hn]. unfold FILEVA. layout. lia. }
  destruct (outside_kept t m' f fb Hw Hok Hb Hm) as (_ & _ & En & [_ Hp] & Hby). split; [|done|by rewrite En|].
  - replace (fsize m' f) with (fsize (fmem t) f); [done|]. unfold fsize. f_equal. symmetry. apply ld32_ext. intros a Ha.
    apply Hm, (file_on_disk _ _ _ a (proj1 (fw_size _ Hw)) Hok). unfold f_size in Ha. lia.
  - intros k Hk. destruct (C4 k Hk) as [Hk1 Hk2]. rewrite Hby by (done || lia). rewrite Hp; [done|].
    apply (block_bounds k MAXFILESIZE); lia.
Qed.

Context (b i d : Z) (j : nat) (o : OpenFile) (fb : Z) (v0 : vm) (F : Z → Z) (size : Z).
Context (Hes : e ≠ se) (Hce : child ≠ e) (Hcs : child ≠ se) (Hbuf : fsipcbuf / PGSIZE ≠ TEMP) (Hsz : size < 2 ^ 31).

(** Frames of the request page and of the server. *)
Definition device_frame (g : Z) : Prop := g = b ∨ ∃ n p, entry v0 se n = Some (g, p).

Record ready (s : ust (X := sstate)) : Prop := {
  rd_session : session e se fsipcbuf s b i d j o fb;
  rd_server n : entry (uvm s) se n = entry v0 se n;
  rd_file : contents (fmem (fs (world s))) (o_file o) F size
}.

Lemma ready_d s : ready s → device_frame d.
Proof. intros [S Hs _]. destruct (ss_share _ _ _ _ _ _ _ _ _ _ S) as (p & E). right. rewrite Hs in E. eauto. Qed.

Lemma not_in_frame g g' k : g ≠ g' → 0 ≤ k < PGSIZE → ¬ in_page (g' * PGSIZE) (g * PGSIZE + k).
Proof. unfold in_page, PGSIZE. lia. Qed.

(** Mappings of UTEMP and of the child do not disturb the session. *)
Lemma session_vm s v :
  session e se fsipcbuf s b i d j o fb → bytes_ok (phys v) →
  (∀ x n, ¬ (x = e ∧ n = TEMP) → x ≠ child → entry v x n = entry (uvm s) x n) →
  (∀ k, 0 ≤ k < PGSIZE → rdb (phys v) (d * PGSIZE + k) = rdb (phys (uvm s)) (d * PGSIZE + k)) →
  session e se fsipcbuf (set_uvm v s) b i d j o fb.
Proof.
  intros S Hb He Hd. pose proof S as [[L1 L2 L3 L4 L5] H2 H3 H4 H5 H6 H7 H8 H9 H10 H11 H12].
  assert (∀ n, entry v se n = entry (uvm s) se n) as Hse by (intros n; apply He; [intros [? _]; congruence|done]).
  assert (∀ n, n ≠ TEMP → entry v e n = entry (uvm s) e n) as Hee by (intros n Hn; apply He; [intros [_ ?]; done|done]).
  assert (FDP i ≠ TEMP) as Hfi by (unfold FDP, MAXFD in *; change TEMP with 0x400; lia).
  assert (∀ x, 0 ≤ x → x + 4 ≤ PGSIZE → ld32 (phys v) (d * PGSIZE + x) = ld32 (phys (uvm s)) (d * PGSIZE + x)) as Hw.
  { intros x H0 Hx. apply ld32_eq. intros k Hk. rewrite <-!Z.add_assoc. apply Hd. lia. }
  split; cbn [uvm set_uvm world]; rewrite ?Hee, ?Hw, ?Hse by (done || (unfold PGSIZE, fd_dev_id, fd_omode, fd_file_id; lia)); try done.
  - split; [done|by rewrite Hee| | |done].
    + intros n f p. rewrite Hse. apply L3.
    + intros n n' f p p'. rewrite !Hse. apply L4.
  - destruct H3 as (p & E & _), H7 as (q & E'). apply (refs_two v e se (FDP i) (o_fd o / PGSIZE) d p q Hes).
    + by rewrite Hee.
    + by rewrite Hse.
Qed.

Lemma ready_vm s v : ready s → bytes_ok (phys v) →
  (∀ x n, ¬ (x = e ∧ n = TEMP) → x ≠ child → entry v x n = entry (uvm s) x n) →
  (∀ g k, device_frame g → 0 ≤ k < PGSIZE → rdb (phys v) (g * PGSIZE + k) = rdb (phys (uvm s)) (g * PGSIZE + k)) →
  ready (set_uvm v s).
Proof.
  intros Hr Hb He Hd. split; [|intros n|apply Hr].
  - apply session_vm; [apply Hr|done|done|]. intros k Hk. apply Hd; [by apply (ready_d s)|done].
  - cbn [uvm set_uvm]. rewrite He; [apply Hr|intros [? _]; congruence|done].
Qed.

Lemma readn_read s s' n : 0 < n ≤ PGSIZE → with_devices Fd.read i UTEMP n s = Ret n s' →
  with_devices Fd.readn i UTEMP n s = Ret n s'.
Proof.
  intros Hn E. unfold PGSIZE in Hn. unfold readn. destruct (Z.to_nat n) as [|k] eqn:Ek; [lia|]. cbn [readn_loop].
  change (u64 0) with 0. destruct (Z.ltb_spec 0 n); [|lia]. rewrite Z.add_0_r, Z.sub_0_r, u64_small by (unfold is_u64; lia).
  step_with E. rewrite i32_small by lia. destruct (Z.ltb_spec n 0); [lia|]. destruct (Z.eqb_spec n 0); [lia|].
  rewrite Z.add_0_l, i32_small, u64_small by (unfold is_u64 || idtac; lia). by rewrite Z.ltb_irrefl.
Qed.

(** Seeking and reading a part of the file into the page at UTEMP. *)
Lemma ready_load s off n f p :
  ready s → entry (uvm s) e TEMP = Some (f, p) → writable p = true → ¬ device_frame f →
  0 ≤ off → 0 < n ≤ PGSIZE → off + n ≤ size →
  ∃ s1 s2, Fd.seek pick e i off s = Ret 0 s1 ∧ with_devices Fd.readn i UTEMP n s1 = Ret n s2 ∧ ready s2 ∧
    uvm s2 = set_phys (phys (uvm s2)) (uvm s) ∧
    (∀ k, 0 ≤ k < n → rdb (phys (uvm s2)) (f * PGSIZE + k) = F (off + k)) ∧
    (∀ g k, 0 ≤ k < PGSIZE → ¬ device_frame g → (g = f → n ≤ k) →
       rdb (phys (uvm s2)) (g * PGSIZE + k) = rdb (phys (uvm s)) (g * PGSIZE + k)).
Proof.
  intros Hr Ef Hw Hnf Hoff Hn Hon. pose proof (ready_d s Hr) as Hdd. destruct Hr as [S Hs [C1 C2 C3 C4]].
  destruct (seek_session pick e se fsipcbuf s b i d j o fb off S) as (s1 & E1 & S1 & Hp1 & Hw1 & Hsp1 & Ho1).
  rewrite i32_small in Hp1 by lia.
  assert (∀ x m, entry (uvm s1) x m = entry (uvm s) x m) as He1 by (intros x m; unfold entry; by rewrite Hsp1).
  assert (∀ k, 0 ≤ k < PGSIZE → (UTEMP + k) / PGSIZE = TEMP ∧ (UTEMP + k) mod PGSIZE = k) as Hpg.
  { intros k Hk. change UTEMP with (TEMP * 4096). change PGSIZE with 4096 in *. Z.div_mod_to_equations. lia. }
  destruct (read_run pick e se fsipcbuf devsock devpipe_read devpipe_write devpipe_stat file_addr cons_addr pipe_addr
    s1 b i d j o fb UTEMP n (λ k, F (off + k)) off (λ k, f * PGSIZE + k) S1) as (s2 & E2 & Hby & HS2 & Hsp2 & Hd2 & Ho2);
    rewrite ?Hw1; try done; [lia|lia|lia| | |].
  { intros k Hk. apply C4. lia. }
  { split; [|lia]. intros k Hk. exists p. split; [|done]. destruct (Hpg k ltac:(lia)) as [P1 P2].
    rewrite (place_Some _ _ _ f p); [by rewrite P2|by rewrite P1, He1]. }
  assert (session e se fsipcbuf s2 b i d j o fb) as S2.
  { apply HS2. intros k Hk. apply not_in_frame; [|lia]. by intros ->. }
  assert (∀ x m, entry (uvm s2) x m = entry (uvm s) x m) as He2 by (intros x m; unfold entry; by rewrite Hsp2, Hsp1).
  exists s1, s2. split_and!; [done|by apply readn_read| |by rewrite Hsp2, Hsp1| |].
  - split; [done|intros m; by rewrite He2|]. rewrite Hw1 in Hd2.
    apply (contents_disk (fs (world s)) _ (o_file o) fb); [apply S|apply S|apply S2|done|done].
  - intros k Hk. specialize (Hby k Hk). destruct (Hpg k ltac:(lia)) as [P1 P2].
    rewrite (byte_at_Some _ _ _ f p) in Hby by (by rewrite P1, He2). rewrite P2 in Hby. by injection Hby.
  - intros g k Hk Hg Hgf. rewrite Ho2; [apply Ho1; apply not_in_frame; [by intros ->|done]|..].
    + intros k' Hk' E. assert (g = f) as -> by (unfold PGSIZE in *; lia). specialize (Hgf eq_refl). lia.
    + apply not_in_frame; [|done]. intros ->. apply Hg. by left.
    + intros n' f' p' E. apply not_in_frame; [|done]. intros ->. apply Hg. right. rewrite He1, Hs in E. eauto.
Qed.

#[export] Instance file_loader :
  Loader e child i (Fd.seek pick e) (with_devices Fd.readn) F size device_frame ready.
Proof.
  split.
  - exact ready_load.
  - exact ready_vm.
  - intros s Hr. apply (lk_bytes _ _ _ _ _ (ss_link _ _ _ _ _ _ _ _ _ _ (rd_session _ Hr))).
  - intros s g Hr [-> | (n & p & E)].
    + destruct (lk_frame _ _ _ _ _ (ss_link _ _ _ _ _ _ _ _ _ _ (rd_session _ Hr))) as (p & E & _). eauto.
    + rewrite <-(rd_server _ Hr) in E. eauto.
Qed.
End loader.

(** C7  [map_segment] (lib/riscv/spawn.c) loads a segment of a program from the disk.
    For a descriptor open for reading on a file of the server, a segment inside the
    user's address space whose file part lies within the file, at any alignment, and a
    kernel with seven free pages for each page of the segment, it returns 0; the child
    then reads at every address of the segment the byte the file has on the disk
    there, and zero behind the file part; its pages have the permissions asked for.
    The other pages of the child and all pages of the other environments, the parent
    included, are mapped as before, UTEMP unmapped.  The bytes in the pages of the
    other environments are as before, but for the request page and the pages shared
    with the server, where the requests and the seek position are.  The file is
    unchanged and the descriptor can be used again. *)
Theorem load_segment_from_disk (pick : vm → Z) (e se child fsipcbuf : Z)
    (devsock : Dev (X := sstate)) (devpipe_read devpipe_write : Z → Z → Z → U (X := sstate) Z)
    (devpipe_stat : Z → Z → U (X := sstate) Z) (file_addr cons_addr pipe_addr : Z)
    (s : ust (X := sstate)) (b i d : Z) (j : nat) (o : OpenFile) (fb size va memsz filesz off perm : Z)
    (Hes : e ≠ se) (Hce : child ≠ e) (Hcs : child ≠ se) (Hbuf : fsipcbuf / PGSIZE ≠ TEMP)
    (pick_fresh : ∀ s, 0 < kfree s → ∀ e n perm, entry s e n ≠ Some (pick s, perm))
    (S : session e se fsipcbuf s b i d j o fb)
    (C : contents (fmem (fs (world s))) (o_file o) (fbyte (fmem (fs (world s))) (o_file o)) size)
    (Htemp : entry (uvm s) e TEMP = None) (Hc : has_space (uvm s) child)
    (Hva : 0 ≤ va) (Hmem : 0 ≤ memsz < 2 ^ 30) (Htop : va + memsz ≤ UTOP) (Hfs : 0 ≤ filesz ≤ memsz)
    (Hoff : va mod PGSIZE ≤ off) (Hsize : off + filesz ≤ size) (Hsz : size < 2 ^ 30)
    (Hperm : (Z.land perm (Z.lnot PTE_SYSCALL) =? 0) = true)
    (Hk : 7 * seg_pages (memsz + va mod PGSIZE) ≤ kfree (uvm s)) :
  ∃ s', map_segment pick e (Fd.seek pick e)
      (Fd.readn pick e (devfile pick e se fsipcbuf file_addr) devsock devpipe_read devpipe_write devpipe_stat cons_addr pipe_addr)
      child va memsz i filesz off perm s = Ret 0 s' ∧ session e se fsipcbuf s' b i d j o fb ∧
    (∀ x, va ≤ x < va + memsz → byte_at (uvm s') child x =
       Some (if x <? va + filesz then fbyte (fmem (fs (world s))) (o_file o) (off + (x - va)) else 0)) ∧
    (∀ x, va ≤ x < va + memsz → ∃ f, entry (uvm s') child (x / PGSIZE) = Some (f, perm)) ∧
    (∀ x n, ¬ (x = child ∧ va / PGSIZE ≤ n < va / PGSIZE + seg_pages (memsz + va mod PGSIZE)) →
       entry (uvm s') x n = entry (uvm s) x n) ∧
    (∀ x n g p k, x ≠ child → entry (uvm s) x n = Some (g, p) → g ≠ b → (∀ m q, entry (uvm s) se m ≠ Some (g, q)) →
       0 ≤ k < PGSIZE → byte_at (uvm s') x (n * PGSIZE + k) = byte_at (uvm s) x (n * PGSIZE + k)) ∧
    contents (fmem (fs (world s'))) (o_file o) (fbyte (fmem (fs (world s))) (o_file o)) size.
Proof.
  set (F := fbyte (fmem (fs (world s))) (o_file o)).
  pose proof (file_loader pick e se child fsipcbuf devsock devpipe_read devpipe_write devpipe_stat file_addr cons_addr pipe_addr
    b i d j o fb (uvm s) F size Hes Hce Hcs Hbuf ltac:(lia)) as HL.
  destruct (@map_segment_run _ pick e child i _ _ F size _ _ HL pick_fresh Hce s va memsz filesz off perm)
    as (s' & E & HR & H1 & H2 & H3 & H4); try done.
  - destruct (ss_fd _ _ _ _ _ _ _ _ _ _ S) as (p & Ep & _). by eapply entry_space.
  - destruct HR as [HS _ HC]. exists s'. split_and!; try done.
    intros x n g p k Hx Eg Hg Hsg Hk0. rewrite !(byte_place _ x n k g p); [|done|done|by rewrite H3 by (by intros [? _])|done].
    f_equal. apply (H4 x n g p k Hx Eg); [|done]. intros [-> |(m & q & Em)]; [done|by apply Hsg in Em].
Qed.

(** ** An example: a program of 4097 bytes in the root file *)

Definition with_world (s : ust (X := sstate)) (t : fsstate) : ust :=
  mkU (uvm s) (cin s) (cout s) (set_fs t (world s)).
Definition with_child (s : ust (X := sstate)) (c : Z) : ust :=
  set_uvm (mkVm (phys (uvm s)) (<[c := ∅]> (spaces (uvm s))) (procs (uvm s)) 100 ∅) s.

Lemma session_world e se buf s b i d j o fb t :
  session e se buf s b i d j o fb → fs_wf t → file_ok (fmem t) (o_file o) fb →
  session e se buf (with_world s t) b i d j o fb.
Proof. intros S Hw Hok. apply (session_change e se buf s); [exact S|done|apply S|done|done|exact Hw|exact Hok]. Qed.

Lemma session_child e se buf s b i d j o fb c :
  session e se buf s b i d j o fb → e ≠ se → c ≠ e → c ≠ se → buf / PGSIZE ≠ TEMP →
  session e se buf (with_child s c) b i d j o fb.
Proof.
  intros S H1 H2 H3 H4. apply (session_vm e se c buf); [done..|exact S| | |].
  - apply (lk_bytes _ _ _ _ _ (ss_link _ _ _ _ _ _ _ _ _ _ S)).
  - intros x n _ Hx. unfold entry. cbn [spaces]. by rewrite lookup_insert_ne.
  - reflexivity.
Qed.

Lemma ex_written_ok :
  fs_wf ex_written ∧ file_ok (fmem ex_written) ex_root 1 ∧
  contents (fmem ex_written) ex_root (fbyte (fmem ex_written) ex_root) 4097.
Proof.
  destruct (file_write_run ex_disk ex_root 1 0x1000 2 4095 ex_disk_wf ex_root_ok
    ltac:(by vm_compute) ltac:(lia) ltac:(lia) ltac:(by vm_compute) ltac:(by vm_compute) ltac:(by left))
    as [(s1 & E & Hw & Hok & En & Es & Hd & _)|(s1 & E & _)].
  2:{ exfalso. assert (ret_of (file_write ex_root 0x1000 2 4095 ex_disk) = Some 2) as Hr by by vm_compute.
      rewrite E in Hr. discriminate Hr. }
  assert (s1 = ex_written) as Ew by (unfold ex_written; rewrite E; reflexivity). rewrite <-Ew. clear E Ew.
  split_and!; [exact Hw|exact Hok|].
  split; [rewrite Es; by vm_compute|by vm_compute|rewrite En; by vm_compute|].
  intros k Hk. split; [|done]. change BLKSIZE with 4096.
  destruct (decide (k < 4096)) as [Hk1|Hk1].
  - rewrite (Z.div_small k) by lia. exact (proj1 (Hd 4095 ltac:(unfold in_range; lia))).
  - replace k with 4096 by lia. exact (proj1 (Hd 4096 ltac:(unfold in_range; lia))).
Qed.

Definition ex_spawner : ust (X := sstate) := with_child (with_world ex_client ex_written) 3.

Lemma ex_spawner_session : session 1 2 ex_ipcbuf ex_spawner 10 0 11 0 ex_open 1.
Proof.
  destruct ex_written_ok as (Hw & Hok & _).
  exact (session_child _ _ _ _ _ _ _ _ _ _ 3 (session_world _ _ _ _ _ _ _ _ _ _ _ ex_session Hw Hok)
    ltac:(done) ltac:(done) ltac:(done) ltac:(done)).
Qed.

Lemma load_segment_from_disk_witness :
  ∃ s' : ust (X := sstate), byte_at (uvm s') 3 (0x800000 + 4095) = Some (fbyte (fmem ex_written) ex_root (0 + (0x800000 + 4095 - 0x800000))) ∧
    byte_at (uvm s') 3 (0x800000 + 4097) = Some 0.
Proof.
  destruct ex_written_ok as (_ & _ & C).
  destruct (load_segment_from_disk pick_new 1 2 3 ex_ipcbuf (no_dev 115) (λ _ _ _, ret 0) (λ _ _ _, ret 0) (λ _ _, ret 0) 0 0 0
    ex_spawner 10 0 11 0 ex_open 1 4097 0x800000 9000 4097 0 PERM_ALL ltac:(done) ltac:(done) ltac:(done) ltac:(done)
    pick_new_fresh ex_spawner_session C) as (s' & _ & _ & H & _).
  - reflexivity.
  - eexists. reflexivity.
  - lia.
  - lia.
  - by vm_compute.
  - lia.
  - by vm_compute.
  - lia.
  - lia.
  - reflexivity.
  - by vm_compute.
  - exists s'. split; [exact (H (0x800000 + 4095) ltac:(lia))|exact (H (0x800000 + 4097) ltac:(lia))].
Defined.
