(* ===== verification/Args.v ===== *)
(** * Command-line flags: lib/riscv/args.c

    [argstart], [argnext], [argvalue] and [argnextvalue] on a vector of pointers to
    strings.  A pointer to a string is the list of the characters from there to the
    NUL; [None] is the null pointer.  The vector has its terminating null pointer.
    The theorem says that a loop on [argnext] reads the flags of the command line as
    inc/riscv/args.h defines them and leaves the other arguments. *)

From S2P Require Import Prelude.

Notation cstring := (list Z).

Record Argstate := mkArgs {
  a_argc : Z;                       (* *argc *)
  a_argv : list (option cstring);   (* argv *)
  curarg : option cstring;
  argval : option cstring
}.
Definition set_curarg (c : option cstring) (s : Argstate) : Argstate := mkArgs (a_argc s) (a_argv s) c (argval s).
Definition set_argval (v : option cstring) (s : Argstate) : Argstate := mkArgs (a_argc s) (a_argv s) (curarg s) v.
Definition set_vector (n : Z) (v : list (option cstring)) (s : Argstate) : Argstate := mkArgs n v (curarg s) (argval s).
Definition A (B : Type) : Type := M Argstate B.

(** The character [p[i]]; the NUL ends the string. *)
Definition char_at (p : cstring) (i : nat) : Z := default 0 (p !! i).

Definition argv_at (i : Z) (s : Argstate) : option cstring := zlookup (a_argv s) i ≫= id.

(** [memmove(argv + 1, argv + 2, sizeof(const char * ) * (argc - 1))]. *)
Definition shift_down (n : Z) (v : list (option cstring)) : list (option cstring) :=
  take 1 v ++ take (Z.to_nat (n - 1)) (drop 2 v) ++ drop (Z.to_nat n) v.

(** [argv] is never null here. *)
Definition argstart (argc : Z) (argv : list (option cstring)) : Argstate :=
  mkArgs argc argv (if 1 <? argc then Some [] else None) None.

Definition endofargs : A Z := modify (set_curarg None) ;;; ret (-1).

Definition next_char : A Z :=
  c <- gets curarg ;;
  match c with
  | None => undef
  | Some p => modify (set_curarg (Some (tl p))) ;;; ret (char_at p 0)
  end.

Definition argnext : A Z :=
  modify (set_argval None) ;;;
  c <- gets curarg ;;
  match c with
  | None => ret (-1)
  | Some p =>
      if char_at p 0 =? 0 then
        n <- gets a_argc ;;
        if n =? 1 then endofargs else
        a <- gets (argv_at 1) ;;
        match a with
        | None => undef
        | Some w =>
            if negb (char_at w 0 =? 45) || (char_at w 1 =? 0) then endofargs else
            modify (set_curarg (Some (tl w))) ;;;
            modify (λ s, set_vector (n - 1) (shift_down n (a_argv s)) s) ;;;
            if (char_at (tl w) 0 =? 45) && (char_at (tl w) 1 =? 0) then endofargs else next_char
        end
      else next_char
  end.

Definition argnextvalue : A (option cstring) :=
  c <- gets curarg ;;
  match c with
  | None => ret None
  | Some p =>
      n <- gets a_argc ;;
      (if negb (char_at p 0 =? 0) then
         modify (set_argval (Some p)) ;;; modify (set_curarg (Some []))
       else if 1 <? n then
         a <- gets (argv_at 1) ;;
         modify (set_argval a) ;;;
         modify (λ s, set_vector (n - 1) (shift_down n (a_argv s)) s)
       else modify (set_argval None) ;;; modify (set_curarg None)) ;;;
      gets argval
  end.

Definition argvalue : A (option cstring) :=
  v <- gets argval ;;
  match v with Some _ => ret v | None => argnextvalue end.

(** [while ((i = argnext(&args)) >= 0) ...]: the flags. *)
Fixpoint all_flags (fuel : nat) : A (list Z) :=
  match fuel with
  | O => noret
  | S fuel' => i <- argnext ;; if i <? 0 then ret [] else l <- all_flags fuel' ;; ret (i :: l)
  end.

(** ** The command line as args.h defines it *)

(** Flags stop at a word that does not start with a dash, at a single dash, and
    behind a double dash. *)
Fixpoint parse (ws : list cstring) : list Z * list cstring :=
  match ws with
  | [] => ([], [])
  | w :: ws' =>
      match w with
      | 45 :: c :: l =>
          if bool_decide (w = [45; 45]) then ([], ws')
          else let '(fs, rest) := parse ws' in (c :: l ++ fs, rest)
      | _ => ([], w :: ws')
      end
  end.

(** A vector of the program's name and [ws], and what may follow its null pointer. *)
Definition vector (v : list (option cstring)) (name : cstring) (ws : list cstring) : Prop :=
  ∃ rest, v = Some name :: (Some <$> ws) ++ None :: rest.
Definition words_ok (ws : list cstring) : Prop := Forall (Forall (λ c, 0 < c < 256)) ws.

Lemma shift_vector v name w ws :
  vector v name (w :: ws) → vector (shift_down (Z.of_nat (length (w :: ws)) + 1) v) name ws.
Proof.
  intros [rest ->]. unfold shift_down, vector. cbn [take drop fmap list_fmap app length].
  replace (Z.to_nat (Z.of_nat (S (length ws)) + 1 - 1)) with (S (length (Some <$> ws))) by (rewrite length_fmap; lia).
  replace (Z.to_nat (Z.of_nat (S (length ws)) + 1)) with (S (S (length (Some <$> ws)))) by (rewrite length_fmap; lia).
  exists (None :: rest). f_equal.
  rewrite drop_0. cbn [drop]. rewrite drop_app_length.
  replace (S (length (Some <$> ws))) with (length (Some <$> ws) + 1)%nat by lia.
  rewrite firstn_app_2. cbn [take]. by rewrite <-(assoc_L (++)).
Qed.

Lemma next_char_run s c p : curarg s = Some (c :: p) → next_char s = Ret c (set_curarg (Some p) s).
Proof. intros E. unfold next_char. step_pure. rewrite E. by step_pure. Qed.

(** What remains when the flags are over. *)
Definition done_with (s : Argstate) (name : cstring) (ws : list cstring) : Prop :=
  curarg s = None ∧ a_argc s = Z.of_nat (length ws) + 1 ∧ vector (a_argv s) name ws.

Record at_words (s : Argstate) (name p : cstring) (ws : list cstring) : Prop := {
  aw_cur : curarg s = Some p;
  aw_argc : a_argc s = Z.of_nat (length ws) + 1;
  aw_argv : vector (a_argv s) name ws
}.

Lemma argnext_char s name c p ws : at_words s name (c :: p) ws → 0 < c →
  ∃ s', argnext s = Ret c s' ∧ at_words s' name p ws.
Proof.
  intros [H1 H2 H3] Hc. exists (set_curarg (Some p) (set_argval None s)). split; [|by split].
  unfold argnext. do 2 step_pure. cbn [curarg set_argval]. rewrite H1. cbn [char_at lookup list_lookup default].
  unfold char_at. simpl. destruct (Z.eqb_spec c 0); [lia|]. by apply next_char_run.
Qed.

(** Up to the look at [argv[1]]. *)
Lemma argnext_word s name w ws : at_words s name [] (w :: ws) →
  let s1 := set_argval None s in let n := Z.of_nat (length (w :: ws)) + 1 in
  let s2 := set_vector (n - 1) (shift_down n (a_argv s)) (set_curarg (Some (tl w)) s1) in
  argnext s =
  (if negb (char_at w 0 =? 45) || (char_at w 1 =? 0) then endofargs s1
   else if (char_at (tl w) 0 =? 45) && (char_at (tl w) 1 =? 0) then endofargs s2 else next_char s2).
Proof.
  intros [H1 H2 [rest H3]] s1 n s2. unfold argnext. do 2 step_pure. cbn [curarg set_argval]. rewrite H1.
  change (char_at [] 0 =? 0) with true. cbv iota. step_pure. cbn [a_argc set_argval]. rewrite H2. fold n.
  destruct (Z.eqb_spec n 1); [subst n; simpl in *; lia|]. step_pure.
  replace (argv_at 1 (set_argval None s)) with (Some w) by (unfold argv_at; cbn [a_argv set_argval]; by rewrite H3).
  destruct (negb (char_at w 0 =? 45) || (char_at w 1 =? 0)); [done|]. do 2 step_pure.
  by destruct ((char_at (tl w) 0 =? 45) && (char_at (tl w) 1 =? 0)).
Qed.

Lemma shifted_words s name w ws p : at_words s name [] (w :: ws) →
  let n := Z.of_nat (length (w :: ws)) + 1 in
  at_words (set_vector (n - 1) (shift_down n (a_argv s)) (set_curarg (Some p) (set_argval None s))) name p ws.
Proof. intros [H1 H2 H3] n. split; [done|subst n; simpl; lia|by apply (shift_vector _ _ w)]. Qed.

(** How a word that opens with a dash and has more behind it is told from the
    others. *)
Lemma flag_word w : Forall (λ c, 0 < c < 256) w →
  (negb (char_at w 0 =? 45) || (char_at w 1 =? 0) = true ∧ ∀ ws, parse (w :: ws) = ([], w :: ws)) ∨
  (w = [45; 45]) ∨
  ∃ c l, w = 45 :: c :: l ∧ w ≠ [45; 45] ∧ 0 < c.
Proof.
  intros Hok. destruct w as [|a w]; [by left|].
  destruct (decide (a = 45)) as [->|Ha].
  - destruct w as [|c l]; [by left|]. right. destruct (decide (45 :: c :: l = [45; 45])) as [E|E]; [by left|].
    right. exists c, l. split_and!; [done|done|]. apply Forall_cons in Hok as [_ Hok]. apply Forall_cons in Hok as [Hc _]. lia.
  - left. split; [unfold char_at; simpl; by apply Z.eqb_neq in Ha as ->|].
    intros ws. cbn [parse]. destruct a as [|a|]; try done.
    do 6 (destruct a as [a|a|]; try done).
Qed.

Lemma parse_flag c l ws : 45 :: c :: l ≠ [45; 45] →
  parse ((45 :: c :: l) :: ws) = (c :: l ++ fst (parse ws), snd (parse ws)).
Proof. intros E. cbn [parse]. rewrite bool_decide_false by done. by destruct (parse ws). Qed.

(** One call between two words: the flags are over, or the first flag of the next
    word is read. *)
Lemma argnext_step s name ws : at_words s name [] ws → words_ok ws →
  (∃ s', argnext s = Ret (-1) s' ∧ fst (parse ws) = [] ∧ done_with s' name (snd (parse ws))) ∨
  ∃ s' c l ws', argnext s = Ret c s' ∧ at_words s' name l ws' ∧ 0 < c ∧
    ws = (45 :: c :: l) :: ws' ∧ parse ws = (c :: l ++ fst (parse ws'), snd (parse ws')).
Proof.
  intros H Hok. destruct ws as [|w ws].
  { destruct H as [H1 H2 H3]. left. exists (set_curarg None (set_argval None s)). split; [|by repeat split].
    unfold argnext. do 2 step_pure. cbn [curarg set_argval]. rewrite H1.
    change (char_at [] 0 =? 0) with true. cbv iota. step_pure. cbn [a_argc set_argval]. by rewrite H2. }
  pose proof (argnext_word _ _ _ _ H) as E. cbv zeta in E. rewrite E. clear E.
  destruct (flag_word w) as [[-> Hp]|[->|(c & l & -> & Hne & Hc)]]; [by inversion Hok|..].
  - left. rewrite (Hp ws). eexists. split; [done|]. split; [done|]. destruct H as [H1 H2 H3]. by repeat split.
  - left. eexists. split; [done|]. split; [done|]. destruct (shifted_words _ _ _ _ [] H) as [_ H2 H3]. by repeat split.
  - right. rewrite parse_flag by done. pose proof (shifted_words _ _ _ _ (c :: l) H) as Hs.
    eexists _, c, l, ws. split.
    { change (char_at (45 :: c :: l) 1) with c. destruct (Z.eqb_spec c 0); [lia|]. cbn [tl].
      change (char_at (c :: l) 0) with c. change (char_at (45 :: c :: l) 0 =? 45) with true. cbn [negb orb].
      replace ((c =? 45) && (char_at (c :: l) 1 =? 0)) with false; [by apply next_char_run|]. symmetry.
      destruct (Z.eqb_spec c 45) as [->|]; [|done]. destruct l as [|d l]; [done|].
      change (char_at (45 :: d :: l) 1) with d. apply Z.eqb_neq. intros ->.
      apply Forall_cons in Hok as [Hok _]. do 3 apply Forall_cons in Hok as [? Hok]. lia. }
    destruct Hs as [S1 S2 S3]. split_and!; [split; [done|exact S2|exact S3]|done..].
Qed.

Lemma parse_length ws : (length (fst (parse ws)) ≤ length (concat ws))%nat.
Proof.
  induction ws as [|w ws IH]; [simpl; lia|]. cbn [parse concat]. rewrite length_app.
  repeat case_match; simplify_eq/=; rewrite ?length_app; lia.
Qed.

Lemma all_flags_run : ∀ fuel s name p ws, at_words s name p ws → words_ok (p :: ws) →
  (length (p ++ fst (parse ws)) < fuel)%nat →
  ∃ s', all_flags fuel s = Ret (p ++ fst (parse ws)) s' ∧ done_with s' name (snd (parse ws)).
Proof.
  induction fuel as [|fuel IH]; intros s name p ws H Hok Hf; [lia|]. cbn [all_flags].
  apply Forall_cons in Hok as [Hp Hok]. destruct p as [|c p].
  - destruct (argnext_step _ _ _ H Hok) as [(s' & E & -> & Hd)|(s' & c & l & ws' & E & H' & Hc & -> & Ep)].
    + step_with E. eauto.
    + step_with E. destruct (Z.ltb_spec c 0); [lia|]. rewrite Ep in Hf |- *. cbn [fst snd app length] in *.
      apply Forall_cons in Hok as [Hw Hok]. do 2 apply Forall_cons in Hw as [_ Hw].
      destruct (IH _ _ _ _ H') as (s2 & E2 & Hd); [by constructor|lia|]. step_with E2. eauto.
  - apply Forall_cons in Hp as [Hc Hp]. destruct (argnext_char _ _ _ _ _ H) as (s' & E & H'); [lia|].
    step_with E. destruct (Z.ltb_spec c 0); [lia|]. simpl in Hf.
    destruct (IH _ _ _ _ H') as (s2 & E2 & Hd); [by constructor|lia|]. step_with E2. eauto.
Qed.

(** C31  Reading a command line.  A program is called with its name and the words
    [ws], and calls [argnext] until it returns -1.  The loop ends, and it reads
    exactly the flags of [ws] in their order: the characters of the words that open
    with a dash, up to the first word that is not a flag, up to a single dash, or up
    to a double dash, which is dropped.  [argc] and [argv] then hold the program's
    name and the words that remain, with the null pointer behind them. *)
Theorem argnext_correct (name : cstring) (ws : list cstring) (fuel : nat)
    (Hok : words_ok ws) (Hfuel : (length (concat ws) < fuel)%nat) :
  let v := Some name :: (Some <$> ws) ++ [None] in
  ∃ s, all_flags fuel (argstart (Z.of_nat (length ws) + 1) v) = Ret (fst (parse ws)) s ∧
    curarg s = None ∧ a_argc s = Z.of_nat (length (snd (parse ws))) + 1 ∧
    take (S (S (length (snd (parse ws))))) (a_argv s) = Some name :: (Some <$> snd (parse ws)) ++ [None].
Proof.
  intros v.
  assert (∃ s, all_flags fuel (argstart (Z.of_nat (length ws) + 1) v) = Ret (fst (parse ws)) s ∧
    done_with s name (snd (parse ws))) as (s & E & H1 & H2 & rest & H3).
  { destruct ws as [|w ws].
    - destruct fuel; [simpl in *; lia|]. eexists. split; [done|]. repeat split. by exists [].
    - apply (all_flags_run fuel _ name []); [|by constructor|].
      + split; [|done|by exists []]. unfold argstart. simpl.
        by destruct (Z.ltb_spec 1 (Z.of_nat (S (length ws)) + 1)); [|lia].
      + pose proof (parse_length (w :: ws)). rewrite app_nil_l. lia. }
  exists s. split_and!; [done..|]. rewrite H3. simpl. f_equal.
  replace (S (length (snd (parse ws)))) with (length (Some <$> snd (parse ws)) + 1)%nat by (rewrite length_fmap; lia).
  by rewrite firstn_app_2.
Qed.

(** [-rx -f -- -r duh]. *)
Lemma argnext_correct_witness :
  words_ok [[45; 114; 120]; [45; 102]; [45; 45]; [45; 114]; [100; 117; 104]] ∧
  ∃ s, all_flags 100 (argstart 6 (Some [115; 104] ::
      (Some <$> [[45; 114; 120]; [45; 102]; [45; 45]; [45; 114]; [100; 117; 104]]) ++ [None])) =
    Ret [114; 120; 102] s ∧ a_argc s = 3.
Proof.
  assert (H : words_ok [[45; 114; 120]; [45; 102]; [45; 45]; [45; 114]; [100; 117; 104]])
    by (repeat constructor; lia).
  split; [exact H|].
  destruct (argnext_correct [115; 104] _ 100 H) as (s & E & _ & En & _); [simpl; lia|].
  exists s. split; [exact E|exact En].
Defined.

(** ** The values of a flag *)

(** Repeated calls of [argnextvalue]. *)
Fixpoint all_values (fuel : nat) : A (list cstring) :=
  match fuel with
  | O => noret
  | S fuel' => v <- argnextvalue ;; match v with None => ret [] | Some w => l <- all_values fuel' ;; ret (w :: l) end
  end.

Lemma argnextvalue_step s name p ws : at_words s name p ws → words_ok [p] →
  ∃ s', let v := head (if bool_decide (p = []) then ws else p :: ws) in
    argnextvalue s = Ret v s' ∧ argval s' = v ∧
    match (if bool_decide (p = []) then ws else p :: ws) with
    | [] => done_with s' name []
    | _ :: ws' => at_words s' name [] ws'
    end.
Proof.
  intros [H1 H2 H3] Hok. unfold argnextvalue. step_pure. rewrite H1. step_pure. rewrite H2.
  destruct p as [|c p].
  - rewrite bool_decide_true by done. change (negb (char_at [] 0 =? 0)) with false. cbv iota.
    destruct ws as [|w ws].
    + eexists. split; [done|]. by repeat split.
    + destruct (Z.ltb_spec 1 (Z.of_nat (length (w :: ws)) + 1)); [|simpl in *; lia].
      destruct H3 as [rest H3]. assert (E : argv_at 1 s = Some w) by (unfold argv_at; by rewrite H3).
      eexists. split; [rewrite !bind_assoc; step_pure; rewrite E; done|].
      split; [done|]. split; [done|simpl; lia|]. apply (shift_vector _ _ w). by exists rest.
  - rewrite bool_decide_false by done. apply Forall_cons in Hok as [Hc _]. apply Forall_cons in Hc as [Hc _].
    change (char_at (c :: p) 0) with c. destruct (Z.eqb_spec c 0); [lia|]. cbn [negb].
    eexists. split; [done|]. by repeat split.
Qed.

Lemma all_values_words : ∀ ws fuel s name, at_words s name [] ws → (length ws < fuel)%nat →
  ∃ s', all_values fuel s = Ret ws s' ∧ done_with s' name [].
Proof.
  induction ws as [|w ws IH]; intros [|fuel] s name H Hf; simpl in Hf; try lia;
    destruct (argnextvalue_step _ _ _ _ H) as (s1 & E & _ & H1); try (by repeat constructor);
    rewrite bool_decide_true in E, H1 by done; cbn [all_values]; step_with E; [eauto|].
  destruct (IH fuel _ _ H1) as (s2 & E2 & H2); [lia|]. cbn [head]. step_with E2. eauto.
Qed.

(** The values of a flag.  After [argnext] has read a flag, with the characters
    [p] left in its word and the words [ws] behind it, repeated calls of
    [argnextvalue] end and return [p] when it is not empty and then every word of
    [ws] in order; the command line is then used up.  [argvalue] called any number of
    times returns the first of these values again and again, null when there is
    none, and takes it from the command line once. *)
Theorem argvalue_correct (s : Argstate) (name p : cstring) (ws : list cstring) (fuel : nat)
    (H : at_words s name p ws) (Hval : argval s = None) (Hok : words_ok [p])
    (Hfuel : (length ws + 1 < fuel)%nat) :
  let values := if bool_decide (p = []) then ws else p :: ws in
  (∃ s', all_values fuel s = Ret values s' ∧ done_with s' name []) ∧
  (∃ s1 s2, argvalue s = Ret (head values) s1 ∧ argvalue s1 = Ret (head values) s2 ∧
     s2 = s1 ∧ if bool_decide (values = []) then done_with s1 name [] else at_words s1 name [] (tail values)).
Proof.
  intros values. destruct (argnextvalue_step _ _ _ _ H Hok) as (s1 & E & Ev & H1). cbv zeta in E. fold values in E, Ev, H1.
  split.
  - destruct fuel as [|fuel]; [lia|]. cbn [all_values]. step_with E.
    assert (length values ≤ length ws + 1)%nat by (unfold values; destruct (bool_decide (p = [])); simpl; lia). clearbody values.
    destruct values as [|w vs]; cbn [head length] in *; [eauto|].
    destruct (all_values_words vs fuel _ _ H1) as (s2 & E2 & H2); [lia|]. step_with E2. eauto.
  - exists s1, s1. split_and!; [| |done|].
    + unfold argvalue. step_pure. by rewrite Hval.
    + unfold argvalue. step_pure. rewrite Ev. destruct values as [|w vs]; [|done]. cbn [head].
      destruct H1 as [H1 _]. unfold argnextvalue. step_pure. by rewrite H1.
    + destruct values; [rewrite bool_decide_true by done|rewrite bool_decide_false by done]; exact H1.
Qed.

(** The example of args.h: ["-fval1", "val2", "val3"] after the flag [f]. *)
Lemma argvalue_correct_witness :
  let s := mkArgs 3 [Some [115]; Some [118; 50]; Some [118; 51]; None; None] (Some [118; 49]) None in
  argnext (argstart 4 [Some [115]; Some [45; 102; 118; 49]; Some [118; 50]; Some [118; 51]; None]) = Ret 102 s ∧
  (∃ s', all_values 5 s = Ret [[118; 49]; [118; 50]; [118; 51]] s') ∧
  ∃ s1, argvalue s = Ret (Some [118; 49]) s1 ∧ argvalue s1 = Ret (Some [118; 49]) s1.
Proof.
  intros s. split; [reflexivity|].
  destruct (argvalue_correct s [115] [118; 49] [[118; 50]; [118; 51]] 5) as [(s' & E & _) (s1 & s2 & E1 & E2 & -> & _)].
  - split; [reflexivity..|]. exists [None]. reflexivity.
  - reflexivity.
  - repeat constructor; lia.
  - simpl; lia.
  - split; [exists s'; exact E|]. exists s1. split; [exact E1|exact E2].
Defined.
